(* ===== verification/_CoqProject ===== *)
-Q . S2P
Prelude.v
Wp.v
Sdk.v
Reference.v
ClpTypes.v
ClpCalc.v
ClpCalcProps.v
ClpUnitsProps.v
ClpWithdrawProps.v
Admin.v
TokenRegistry.v
MarginTypes.v
Float64.v
Oracle.v
OracleProps.v
BridgeTypes.v
DispensationTypes.v
DispensationKeeper.v
Chain.v
Ledger.v
ClpKeeper.v
ClpExec.v
ClpMsg.v
ClpStaking.v
ClpBlock.v
ClpState.v
ClpSwapProps.v
ClpLiquidityProps.v
ClpRemoveProps.v
ClpDecommission.v
ClpSystem.v
ClpDebts.v
ClpInvariants.v
ClpDistribution.v
Ante.v
Margin.v
MarginBooks.v
MarginPositions.v
MarginBlock.v
MarginSystem.v
Demo.v
OracleClaims.v
ClpSwapClaims.v
ClpClaims.v
ClpBlockClaims.v
ClpPolicyClaims.v
ClpDistributionClaims.v
ClpBlockBooks.v
ClpUnlockClaims.v
AccessClaims.v
MarginClaims.v
DexClaims.v
PositionClaims.v
Genesis.v
GenesisProps.v
GenesisClaims.v
Queries.v
QueryClaims.v
AnteClaims.v
EthBridge.v
BridgeProps.v
RelayerTypes.v
Relayer.v
RelayerProps.v
BridgeClaims.v
RelayerClaims.v
Dispensation.v
DispensationProps.v
DispensationClaims.v
App.v
Moves.v
AppProps.v
AppBooks.v
AppClaims.v
IbcTransfer.v
IbcClaims.v
