(* ===== verification/Prelude.v ===== *)
(** * A verification of the furynode application modules

    furynode is a Cosmos SDK chain.  Its own logic is in the modules under
    src/x: [clp] (continuous liquidity pools: an exchange of every listed token
    against fury, the native coin), [margin] (leveraged positions on the pools),
    [admin] (who may administer the other modules), [tokenregistry] (the listed
    tokens and their permissions), [ethbridge] with [oracle] (coins that move to
    and from Ethereum by votes of validators), [dispensation] (distributions and
    the minting schedule) and [ibctransfer] (a wrapper of IBC transfers).  This
    development models them from their arithmetic to their message handlers and
    block processing, and proves what keeps the coins of users safe: the module
    accounts of clp and dispensation always cover what they owe, the units of a
    pool are the units of its providers, swaps and withdrawals pay what they
    should, a bridge event is credited at most once and only with the consensus
    of the whitelisted power, and administration is restricted to
    administrators.

    ** How Go code is modelled

    A Go function is a Rocq function of the same name.  Its outcome is [res A]:
    a value, a returned error ([Err]) or a panic ([Panic]).  A keeper method is
    in the monad [M S A] over a state [S]: a call returns an outcome and the
    state it leaves, also when it fails, because Go code that returns an error
    may already have written; [try] inspects an error, [recovering] a panic,
    [deliver] is the application, which throws the writes of a failed message
    away.  A method that writes through a pointer argument returns the new value
    (clp) or runs in a state that holds the object (margin, [mctx]).  Events,
    logging and telemetry are left out; what is computed for an event stays when
    it may panic.  A [uint64] or [int64] is an integer wrapped by [u64], [i64];
    an [sdk.Uint] is an integer in [0, 2^256), an [sdk.Dec] an integer counting
    units of 10^-18, both with the panics of their operations.

    The Cosmos SDK is not part of the repository.  Its operations are a class
    [SDK] (Sdk.v) that every definition takes as a parameter; the documented
    behaviour theorems rely on is the class [SDKLaws].  Reference.v builds an
    instance of both, over which the witnesses evaluate.  The order of a Go map
    iteration is another parameter, [GoMap] (below); go-ethereum is the class
    [Geth] (BridgeTypes.v), ibc-go the class [IBC] (IbcTransfer.v), and the staking
    module is read through the record [StakingKeeper] (Oracle.v).

    ** The files

    - Prelude: outcomes, the monad, record updates, tactics ([inv_ok],
      [case_test], [keep_auto]), framing, sums over maps.  Sdk, Reference: the
      SDK.  Float64: Go's float64 as binary64 numbers, and when comparing a
      quotient of integers with 0.7 is exact.  Ledger: bank operations as changes
      of balances.
    - ClpTypes, ClpCalc: x/clp/types and the arithmetic (calculations.go,
      pureCalculation.go).  ClpCalcProps, ClpUnitsProps, ClpWithdrawProps: the
      swap formula, the units of added liquidity, withdrawals.
    - Admin, TokenRegistry, MarginTypes: the data and operations of the three
      smaller stores.  Chain: the state of the chain, one field per store.
    - ClpKeeper, ClpExec, ClpMsg, ClpBlock: the keeper, the executors with the
      unlock records and the removal queue, the message handlers, and
      BeginBlocker/EndBlocker with the price policy, rewards and distributions.
      ClpMsg reaches the margin module through the class [MarginKeeper]; Margin
      gives its instance [margin_keeper], and the theorems about clp hold for
      any instance.  ClpStaking: the one handler that writes the mint module of the
      SDK ([MintKeeper]).
    - ClpState: the abstract specification, two ledgers over the chain state
      ([surplus], what the module account holds beyond the claims of the pools,
      and [unit_gap], the units of providers against the units of the pool), the
      well-formedness invariant [clp_wf], and what each keeper operation does to
      them.  ClpSwapProps, ClpLiquidityProps, ClpRemoveProps, ClpDecommission:
      each handler keeps the books.  ClpSystem: the module as a state machine
      ([NewHandler], [tx], [run]) and its invariant [clp_inv].  ClpInvariants:
      the checks of invariants.go and their agreement with the ledgers.
      ClpDistribution: what distributions collect and pay.  ClpBlockBooks: the
      ledgers across BeginBlocker and EndBlocker ([book_step], [block_kept]), for
      pools that can pay ([payable]).
    - Wp: weakest preconditions for the monad ([wp]; [wpe] for code whose errors and
      panics do not end the run) and framing rules.
    - Margin: the margin keeper, handlers and block processing.  MarginBooks: what
      each method does to the books of the clp module, kept for the chain together
      with the position and the pool behind the pointers ([inv]).  MarginSystem:
      the margin messages ([MarginServer]), runs in which they alternate with clp
      messages ([dex_run]) and the invariant of both modules ([dex_inv]).
      MarginPositions: what the same methods do to the books of positions, the
      custody and liabilities of a pool against the positions on it
      ([positions_backed]); ClpDebts: the handlers of clp leave these alone.
      MarginBlock: the ledgers across the margin BeginBlocker with every end of every
      call ([wpe]), since errors there are logged and panics recovered; what a
      payment to a fund moves stays in the [reserve] of module and funds.
    - Oracle, OracleProps: x/oracle, well-formed prophecies and what a vote does
      to one.  BridgeTypes, EthBridge, BridgeProps: x/ethbridge, its claims,
      stores, keeper, message server and dispatch.
    - DispensationTypes, DispensationKeeper, Dispensation, DispensationProps:
      x/dispensation, the stores of records, the executors, messages and
      BeginBlocker, and what they do to the coins owed.
    - Genesis, GenesisProps: import and export of the stores of clp, margin, admin
      and tokenregistry, and the migrations, with what they do to the books.
    - Queries: the query servers of all modules (grpc_query.go, grpc_querier.go) and the
      listings by pages behind them.  The pagination package of the SDK is the class
      [Paginator] with the laws [PaginatorLaws].
    - Ante: the two decorators src/app/ante adds to the ante handler of the SDK, the
      minimum fee of a transaction and the limits on validators.
    - RelayerTypes, Relayer, RelayerProps: src/cmd/ebrelayer, the program validators
      run next to their nodes: the parsing of events, the two subscriptions from a
      new block or head to what is submitted and saved, and the replay commands.
      The clients of the two chains and the database are the class [Nodes], whose
      answers depend on the number of the call, so they may fail at any time; what is
      broadcast is recorded with its outcome, and the process may end before it saves.
    - IbcTransfer: x/ibctransfer, the decimal conversions, the handling of a
      received packet ([receive_packet] discards the writes of a refused one, as
      the IBC core does), the message server and the channel callbacks ([AppModule] over
      the wrapped [IBCModule]).
    - App, Moves, AppProps: src/app/app.go, the application: the messages of all
      modules with their signers (GetSigners), transactions ([deliver_tx]), the begin
      and end blockers in the order of app.go ([app_step], [app_run]), the module
      accounts.  Moves is a framing logic ([moves], [settles]) for relations every
      operation respects, with one walk through all handlers; AppProps instantiates
      it: an account that does not sign is not taken from ([deliver_tx_untaken]), and
      no module breaks the invariant of another ([app_inv]).  AppBooks: the books of
      all modules ([books_ok]) over whole runs, blocks included.
    - Demo: a concrete chain for witnesses.  The files ending in Claims hold the
      theorems about the system with their witnesses.

    ** What the theorems show

    - The application (AppClaims): over blocks and transactions of all modules
      the accounts of clp and dispensation stay solvent ([app_run_solvent], for
      pools that can pay; [rewards_without_providers] is a state where they cannot),
      over transactions alone without that condition ([app_txs_solvent]);
      nobody loses a coin without having signed for it ([only_signers_pay]); and a block mints twice what the schedule says, because
      the list of app.go names a module twice ([block_mints_twice]).
    - The exchange (DexClaims): any sequence of clp and margin messages leaves the
      module account solvent in every denomination ([dex_run_solvent]); without a
      decommissioning none of the invariant checks of clp can fire, with positions
      open or not ([dex_run_invariants_hold]).  Both need positions between fury
      and another asset, which the code does not check: [unpaired_open_drains]
      evaluates what happens otherwise.  The units of pools also need signers in the
      spelling of the SDK: [upper_case_signer_overwrites] evaluates an addition that is
      signed in capitals.
    - Positions (PositionClaims): over such sequences the liabilities of a pool are
      what its open positions owe, and its custody covers what they own
      ([dex_run_positions_backed]).
    - clp by itself (ClpClaims): the same for its messages and any margin keeper
      ([run_solvent], [run_units_match], [run_invariants_hold]); each handler
      conserves both ledgers.
    - Trading (ClpCalcProps, ClpSwapClaims): the rational swap computation is the
      integer formula, does not decrease the product of the depths, cannot be
      round-tripped for profit, and a trader pays what it sent and gets at least
      its minimum.
    - Liquidity (ClpUnitsProps, ClpWithdrawProps, ClpUnlockClaims): the
      computations never panic on their domains (a negative running rate is outside,
      [CalculatePoolUnits_negative_rate]), do not dilute other providers,
      pay the provider's share up to rounding, and respect the lock period.
    - Blocks (ClpBlockClaims, ClpPolicyClaims, ClpDistributionClaims): the
      liquidity protection threshold, a whole policy period, rewards bounded by
      the block's distribution, solvency of provider distributions.
    - Margin (MarginClaims): settlement of a position, bounds of the interest
      rate; two states in which a position can no longer be closed
      ([spent_position_stays], [custody_taken_out_alone]).
    - Bridge (OracleClaims, BridgeClaims): an accepted claim is one vote, a
      prophecy succeeds exactly with seven tenths of the whitelisted power, the
      outcome does not depend on the order of a Go map, every event is credited
      at most once to the receiver of the final claim, and a lock or burn takes
      from the sender what it says.  Examples show where this breaks: voters
      taken off the whitelist, identifiers without separators, a blacklist that
      distinguishes case.
    - Dispensation (DispensationClaims): solvency of all pending records, and the
      minting schedule runs to its end and mints what it counts.
    - Relayer (RelayerClaims): the events of locks and burns are read back exactly,
      every block of Ethereum is reported in order and none is skipped, over failing
      nodes, restarts and ends of the process, and exactly once unless the process ends
      before it has saved what it sent ([eth_blocks_reported_once]; a broadcast that
      fails is not repeated, [broadcast_lost]); the loop over the blocks of the cosmos
      chain ends, and a message of these blocks is given up only after five failed
      attempts of its own ([cosmos_blocks_loop_ends]); and reported
      messages are recognised (if their sender has 42 bytes, which the addresses
      of this chain do not: [address_of_43_characters]).
    - Restarts and upgrades (GenesisClaims): exporting and importing clp
      restores the pools, the providers, the whitelist and the two entries of
      types.Params, and resets or leaves alone all other parameters ([clp_restart]);
      migrations keep both ledgers; the open positions of margin are lost.
    - Queries (QueryClaims): a client that follows the pages gets every pool and
      provider once and comes to an end ([pages_complete]), the estimated share of a
      deposit is the share MsgAddLiquidity gives ([share_estimate_exact]), no query
      writes ([queries_read_only]); the listing of the positions of a pool stops at its
      first page ([positions_by_pool_truncated]).
    - Transactions (AnteClaims): the least fee of a transaction by its messages, and
      the limits on commission and voting power, exact up to one unit of 10^-18.
    - IBC (IbcClaims): conversions round-trip, a packet is refused without a
      trace or exchanged at the fixed rate; refunds are not converted
      ([wrapper_diverts_receiving]), and closing a channel is reported as opening it
      ([close_confirm_opens]).
    - Access (AccessClaims): the admin store refines a set, the registry a map,
      every administrative message of clp and margin is refused to anybody but the
      right administrator ([admin_messages_guarded]), position keys are injective.

    ** Bounds

    All recursion is structural, on lists of pools, providers, messages or
    blocks, except for the relayer's loop over blocks ([process_blocks]), which
    asks for a block again until it gets it: it takes fuel, and enough of it exists
    whenever the node answers again and again.  Withdrawals are shown total for amounts below
    2^240 ([withdraw_domain]), which leaves room for the 10^18 scaling of
    decimals within their 315 bits.  The store lists at most [MaxUint64] entries
    per page; theorems that depend on a full listing assume fewer providers.  The
    float64 comparison of the oracle is exact for powers below 2^48, which the
    supply of the staking coin in units of voting power stays far below
    ([staking_wf]).  IBC conversions are stated for decimals that differ by at
    most 76, the largest power of ten a decimal holds.

    ** What is not modelled

    The legacy queriers (JSON around the query servers), events, the protobuf and JSON codecs, the command-line
    clients, the module methods that only forward, the upgrade of the legacy keys
    of the registry, of the application the construction of the keepers and the
    order of InitGenesis, the fee the ante handler of the SDK takes, and of the
    relayer its commands, connections and signatures.  That the books of a pool are
    those of its positions is stated for messages only: block processing
    keeps what it wrote before an error, and the custody can fall below what the
    position owns ([custody_taken_out_alone]). *)
From stdpp Require Export prelude gmap strings list pretty.
From Stdlib Require Export ZArith QArith Qabs Lia.

#[global] Open Scope Z_scope.
#[global] Close Scope Q_scope.

(** ** Outcomes of Go code *)

(** [clp_error] lists the sentinel errors of x/clp/types/errors.go. *)
Inductive clp_error :=
| ErrInvalid | ErrPoolDoesNotExist | ErrLiquidityProviderDoesNotExist | ErrInValidAsset
| ErrInValidAmount | ErrTotalAmountTooLow | ErrNotEnoughAssetTokens | ErrInvalidAsymmetry
| ErrInvalidWBasis | ErrBalanceTooHigh | ErrUnableToSetPool | ErrUnableToDestroyPool
| ErrUnableToCreatePool | ErrBalanceNotAvailable | ErrTokenNotSupported
| ErrUnableToAddBalance | ErrNotEnoughLiquidity | ErrPoolTooShallow | ErrOverFlow
| ErrUnableToAddLiquidity | ErrUnableToRemoveLiquidity | ErrUnableToSwap
| ErrUnableToRemoveLiquidityProvider | ErrUnableToDecommissionPool | ErrUnableToParseInt
| ErrReceivedAmountBelowExpected | ErrAmountTooLow | ErrNotEnoughPermissions
| ErrCannotStartPolicy | ErrAsymmetricAdd | ErrAsymmetricRemove | ErrAsymmetricRatioAdd
| ErrTypeCast | ErrReachedMaxFuryLiquidityThreshold
| ErrMaxFuryLiquidityThresholdAssetPoolDoesNotExist | ErrQueued
| ErrRemovalsBlockedByHealth | ErrBalanceModuleAccountCheck | ErrUnitsCheck.

(** [margin_error] lists the sentinel errors of x/margin/types/errors.go. *)
Inductive margin_error :=
| ErrMTPDoesNotExist | ErrMTPInvalid | ErrMTPDisabled | ErrUnknownRequest | ErrMTPHealthy
| ErrInvalidPosition | ErrMaxOpenPositions | ErrUnauthorised | ErrBorrowTooLow
| ErrBorrowTooHigh | ErrCustodyTooHigh | ErrMTPUnhealthy | ErrFuryAsCollateralNotAllowed.

(** [registry_error] lists the sentinel errors of x/tokenregistry/types/errors.go. *)
Inductive registry_error :=
| ErrNotFound | ErrPermissionDenied | ErrNotAllowedToSellAsset | ErrNotAllowedToBuyAsset.

(** [oracle_error] lists the sentinel errors of x/oracle/types/errors.go. *)
Inductive oracle_error :=
| ErrProphecyNotFound | ErrMinimumConsensusNeededInvalid | ErrNoClaims | ErrInvalidIdentifier
| ErrProphecyFinalized | ErrDuplicateMessage | ErrInvalidClaim | ErrInvalidValidator
| ErrInternalDB | ErrValidatorNotInWhiteList | ErrNotAdminAccount | ErrInvalidOperationType.

(** [bridge_error] lists the sentinel errors of x/ethbridge/types/errors.go;
    [ErrBridgePermissions] is its ErrNotEnoughPermissions. *)
Inductive bridge_error :=
| ErrInvalidEthNonce | ErrInvalidEthAddress | ErrJSONMarshalling | ErrInvalidEthSymbol
| ErrInvalidClaimType | ErrInvalidEthereumChainID | ErrInvalidAmount | ErrInvalidSymbol
| ErrInvalidBurnSymbol | ErrCethAmount | ErrBridgePermissions | ErrPaused.

(** [dispensation_error] lists the sentinel errors of
    x/dispensation/types/errors.go; [ErrBadRecord] is its ErrInvalid. *)
Inductive dispensation_error :=
| ErrBadRecord | ErrFailedInputs | ErrFailedOutputs | ErrDistribution | ErrNotFoundMintController.

(** [ibc_error] lists the sentinel errors of x/ibctransfer/types/errors.go. *)
Inductive ibc_error :=
| ErrConvertingToUnitDenom | ErrConvertingToCounterpartyDenom | ErrAmountTooLowToConvert
| ErrAmountTooLargeToSend.

(** An error a handler returns.  [sdkerrors.Wrap] only adds text to a
    sentinel, so a wrapped error is its sentinel; [EOther] is an error that is
    not a sentinel of a modelled module (a bank or bech32 error, or one made on
    the spot with [errors.New]). *)
Inductive error :=
| EClp (e : clp_error)
| EMargin (e : margin_error)
| ERegistry (e : registry_error)
| EAdminDenied
| EOracle (e : oracle_error)
| EBridge (e : bridge_error)
| EDispensation (e : dispensation_error)
| EIbc (e : ibc_error)
| EOther (msg : string).

#[global] Instance clp_error_eq_dec : EqDecision clp_error.
Proof. solve_decision. Defined.
#[global] Instance margin_error_eq_dec : EqDecision margin_error.
Proof. solve_decision. Defined.
#[global] Instance registry_error_eq_dec : EqDecision registry_error.
Proof. solve_decision. Defined.
#[global] Instance oracle_error_eq_dec : EqDecision oracle_error.
Proof. solve_decision. Defined.
#[global] Instance bridge_error_eq_dec : EqDecision bridge_error.
Proof. solve_decision. Defined.
#[global] Instance dispensation_error_eq_dec : EqDecision dispensation_error.
Proof. solve_decision. Defined.
#[global] Instance ibc_error_eq_dec : EqDecision ibc_error.
Proof. solve_decision. Defined.
#[global] Instance error_eq_dec : EqDecision error.
Proof. solve_decision. Defined.

(** The outcome of a Go call: a value, a returned [error], or a [panic]. *)
Inductive res (A : Type) : Type :=
| Ok (a : A)
| Err (e : error)
| Panic.
Arguments Ok {A} a.
Arguments Err {A} e.
Arguments Panic {A}.

#[global] Instance res_ret : MRet res := λ A a, Ok a.
#[global] Instance res_bind : MBind res := λ A B f r,
  match r with Ok a => f a | Err e => Err e | Panic => Panic end.
#[global] Instance res_fmap : FMap res := λ A B f r,
  match r with Ok a => Ok (f a) | Err e => Err e | Panic => Panic end.

(** [if !b { return e }] *)
Definition ensure (b : bool) (e : error) : res unit := if b then Ok () else Err e.

(** [if err != nil { return wrapped }]: replaces the error, keeps a panic. *)
Definition wrap {A} (e : error) (r : res A) : res A :=
  match r with Err _ => Err e | _ => r end.

(** [*p] for a pointer that may be nil *)
Definition deref {A} (p : option A) : res A :=
  match p with Some a => Ok a | None => Panic end.

Definition is_ok {A} (r : res A) : bool := match r with Ok _ => true | _ => false end.

(** ** State-passing code

    Go keeps what was written to the store and to objects behind pointers when
    a call returns an error or panics, so the state comes back on every
    outcome. *)
Definition M (S A : Type) : Type := S → res A * S.

#[global] Instance M_ret S : MRet (M S) := λ A a s, (Ok a, s).
#[global] Instance M_bind S : MBind (M S) := λ A B f m s,
  match m s with
  | (Ok a, s') => f a s'
  | (Err e, s') => (Err e, s')
  | (Panic, s') => (Panic, s')
  end.

Definition lift {S A} (r : res A) : M S A := λ s, (r, s).
Definition gets {S A} (f : S → A) : M S A := λ s, (Ok (f s), s).
Definition modify {S} (f : S → S) : M S () := λ s, (Ok (), f s).
Definition fail {S A} (e : error) : M S A := λ s, (Err e, s).

(** [v, err := c()] where the caller looks at [err] itself. *)
Definition try {S A} (m : M S A) : M S (A + error) := λ s,
  match m s with
  | (Ok a, s') => (Ok (inl a), s')
  | (Err e, s') => (Ok (inr e), s')
  | (Panic, s') => (Panic, s')
  end.

(** [defer func() { recover() }()] around the whole body: errors and panics
    both end the call, what was written stays. *)
Definition recovering {S} (m : M S ()) : M S () := λ s, (Ok (), (m s).2).

Definition wrapM {S A} (e : error) (m : M S A) : M S A := λ s,
  match m s with (Err _, s') => (Err e, s') | p => p end.

(** [for _, x := range l { body x }] with early return on error or panic. *)
Fixpoint forM {S A} (l : list A) (body : A → M S ()) : M S () :=
  match l with
  | [] => mret ()
  | x :: l' => body x ;; forM l' body
  end.

(** [panic(err)] where a call returns an error. *)
Definition mustM {S A} (m : M S A) : M S A := λ s,
  match m s with (Err _, s') => (Panic, s') | p => p end.

(** [for _, x := range l { acc = body(acc, x) }] in stateful code *)
Fixpoint foldM {S A B} (body : B → A → M S B) (b : B) (l : list A) : M S B :=
  match l with
  | [] => mret b
  | x :: l' => b' ← body b x; foldM body b' l'
  end.

(** A loop that threads an accumulator. *)
Fixpoint foldR {A B} (f : B → A → res B) (b : B) (l : list A) : res B :=
  match l with
  | [] => Ok b
  | x :: l' => b' ← f b x; foldR f b' l'
  end.

(** ** Inversion of binds *)

Lemma res_bind_Ok {A B} (r : res A) (f : A → res B) b :
  r ≫= f = Ok b → ∃ a, r = Ok a ∧ f a = Ok b.
Proof. destruct r; cbn; [eauto | done | done]. Qed.

Lemma res_fmap_Ok {A B} (r : res A) (f : A → B) b :
  f <$> r = Ok b → ∃ a, r = Ok a ∧ f a = b.
Proof. destruct r; cbn; intros; simplify_eq; eauto. Qed.

Lemma M_bind_Ok {S A B} (m : M S A) (f : A → M S B) s b s' :
  (m ≫= f) s = (Ok b, s') → ∃ a s1, m s = (Ok a, s1) ∧ f a s1 = (Ok b, s').
Proof.
  unfold mbind, M_bind. destruct (m s) as [[a|e|] s1]; [eauto | done | done].
Qed.

Lemma lift_Ok {S A} (r : res A) (s s' : S) a :
  lift r s = (Ok a, s') → r = Ok a ∧ s' = s.
Proof. unfold lift. by intros [=]. Qed.

Lemma gets_Ok {S A} (f : S → A) (s s' : S) a :
  gets f s = (Ok a, s') → a = f s ∧ s' = s.
Proof. unfold gets. by intros [=]. Qed.

Lemma modify_Ok {S} (f : S → S) (s s' : S) u :
  modify f s = (Ok u, s') → s' = f s.
Proof. unfold modify. by intros [=]. Qed.

Lemma mret_Ok {S A} (a b : A) (s s' : S) :
  (mret a : M S A) s = (Ok b, s') → b = a ∧ s' = s.
Proof. unfold mret, M_ret. by intros [=]. Qed.

Lemma ensure_Ok b e u : ensure b e = Ok u → b = true.
Proof. by destruct b. Qed.

Lemma wrap_Ok {A} e (r : res A) a : wrap e r = Ok a → r = Ok a.
Proof. by destruct r. Qed.

Lemma wrapM_Ok {S A} e (m : M S A) s a s' : wrapM e m s = (Ok a, s') → m s = (Ok a, s').
Proof. unfold wrapM. by destruct (m s) as [[]]. Qed.

Lemma mustM_Ok {S A} (m : M S A) s a s' : mustM m s = (Ok a, s') → m s = (Ok a, s').
Proof. unfold mustM. by destruct (m s) as [[]]. Qed.

Lemma try_Ok {S A} (m : M S A) s r s' : try m s = (Ok r, s') →
  (∃ a, r = inl a ∧ m s = (Ok a, s')) ∨ (∃ e, r = inr e ∧ m s = (Err e, s')).
Proof. unfold try. destruct (m s) as [[a|e|] s1]; intros [= <- <-]; eauto. Qed.

Lemma fail_Ok {S A} e (s s' : S) (a : A) : fail e s = (Ok a, s') → False.
Proof. done. Qed.

Lemma M_bind_val {S A B} (m : M S A) (f : A → M S B) s a s1 :
  m s = (Ok a, s1) → (m ≫= f) s = f a s1.
Proof. unfold mbind, M_bind. by intros ->. Qed.

Lemma res_bind_val {A B} (r : res A) (f : A → res B) a : r = Ok a → r ≫= f = f a.
Proof. by intros ->. Qed.

(** Splits every successful sequence in the hypotheses into its steps. *)
Ltac inv_ok :=
  repeat match goal with
  | H : Ok _ = Ok _ |- _ => injection H as H
  | H : (Ok _, _) = (Ok _, _) |- _ => injection H as H
  | H : Err _ = Ok _ |- _ => discriminate H
  | H : Panic = Ok _ |- _ => discriminate H
  | H : true = false |- _ => discriminate H
  | H : false = true |- _ => discriminate H
  | H : (Err _, _) = (Ok _, _) |- _ => discriminate H
  | H : (Panic, _) = (Ok _, _) |- _ => discriminate H
  | H : @mbind res _ _ _ _ _ = Ok _ |- _ =>
      let a := fresh "v" in let E := fresh "E" in
      apply res_bind_Ok in H as (a & E & H)
  | H : @fmap res _ _ _ _ _ = Ok _ |- _ =>
      let a := fresh "v" in let E := fresh "E" in
      apply res_fmap_Ok in H as (a & E & H)
  | H : @mbind (M _) _ _ _ _ _ _ = (Ok _, _) |- _ =>
      let a := fresh "v" in let s := fresh "s" in let E := fresh "E" in
      apply M_bind_Ok in H as (a & s & E & H)
  | H : lift _ _ = (Ok _, _) |- _ => apply lift_Ok in H as [H ?]
  | H : gets _ _ = (Ok _, _) |- _ => apply gets_Ok in H as [? ?]
  | H : modify _ _ = (Ok _, _) |- _ => apply modify_Ok in H
  | H : @mret (M _) _ _ _ _ = (Ok _, _) |- _ => apply mret_Ok in H as [? ?]
  | H : @mret res _ _ _ = Ok _ |- _ => injection H as H
  | H : fail _ _ = (Ok _, _) |- _ => destruct (fail_Ok _ _ _ _ H)
  | H : ensure _ _ = Ok _ |- _ => apply ensure_Ok in H
  | H : wrap _ _ = Ok _ |- _ => apply wrap_Ok in H
  | H : wrapM _ _ _ = (Ok _, _) |- _ => apply wrapM_Ok in H
  | H : mustM _ _ = (Ok _, _) |- _ => apply mustM_Ok in H
  end; subst.

(** ** Framing

    [keeps f m]: when [m] succeeds, the part [f] of the state is what it was. *)
Definition keeps {S A B} (f : S → B) (m : M S A) : Prop :=
  ∀ s a s', m s = (Ok a, s') → f s' = f s.

Section Keeps.
Context {S B : Type} (f : S → B).

Lemma keeps_ret {A} (a : A) : keeps f (mret a).
Proof. intros s x s' H. by inv_ok. Qed.
Lemma keeps_lift {A} (r : res A) : keeps f (lift r).
Proof. intros s x s' H. by inv_ok. Qed.
Lemma keeps_gets {A} (g : S → A) : keeps f (gets g).
Proof. intros s x s' H. by inv_ok. Qed.
Lemma keeps_fail {A} e : keeps f (fail e : M S A).
Proof. intros s x s' H. inv_ok. Qed.
Lemma keeps_modify g : (∀ s, f (g s) = f s) → keeps f (modify g).
Proof. intros Hg s x s' H. inv_ok. apply Hg. Qed.
Lemma keeps_bind {A C} (m : M S A) (k : A → M S C) :
  keeps f m → (∀ a, keeps f (k a)) → keeps f (m ≫= k).
Proof. intros Hm Hk s x s' H. inv_ok. by rewrite (Hk _ _ _ _ H), (Hm _ _ _ E). Qed.
Lemma keeps_wrapM {A} e (m : M S A) : keeps f m → keeps f (wrapM e m).
Proof. intros Hm s x s' H. inv_ok. by eapply Hm. Qed.
Lemma keeps_mustM {A} (m : M S A) : keeps f m → keeps f (mustM m).
Proof. intros Hm s x s' H. inv_ok. by eapply Hm. Qed.
Lemma keeps_try {A} (m : M S A) : (∀ s, (m s).2 = s) → keeps f (try m).
Proof.
  intros Hm s x s' H. specialize (Hm s). unfold try in H.
  destruct (m s) as [[]]; simplify_eq/=; done.
Qed.
(** A sequence that ends in an error never succeeds. *)
Lemma keeps_then_fail {A C} (m : M S A) e : keeps f (m ;; (fail e : M S C)).
Proof. intros s x s' H. inv_ok. Qed.
Lemma keeps_forM {A} (l : list A) body : (∀ x, keeps f (body x)) → keeps f (forM l body).
Proof.
  intros Hb. induction l as [|x l IH]; cbn; [apply keeps_ret|].
  by apply keeps_bind.
Qed.
End Keeps.

(** Splits a [keeps] goal along the code. *)
Ltac keep_step :=
  match goal with
  | |- keeps _ (mret _) => apply keeps_ret
  | |- keeps _ (lift _) => apply keeps_lift
  | |- keeps _ (gets _) => apply keeps_gets
  | |- keeps _ (fail _) => apply keeps_fail
  | |- keeps _ (modify _) => apply keeps_modify; intros; reflexivity
  | |- keeps _ (_ ;; fail _) => apply keeps_then_fail
  | |- keeps _ (_ ≫= _) => apply keeps_bind; [|intros]
  | |- keeps _ (wrapM _ _) => apply keeps_wrapM
  | |- keeps _ (mustM _) => apply keeps_mustM
  | |- keeps _ (forM _ _) => apply keeps_forM; intros
  | |- keeps _ (if ?b then _ else _) => destruct b
  | |- keeps _ (match ?x with _ => _ end) => destruct x
  end.
Ltac keep_auto := repeat (keep_step || solve [auto with frame]).
Create HintDb frame.

(** Case analysis on the tests of the code. *)
Ltac case_test :=
  match goal with
  | H : context [if ?b then _ else _] |- _ => destruct b eqn:?
  | |- context [if ?b then _ else _] => destruct b eqn:?
  end.

(** Turns boolean comparisons in the hypotheses into propositions. *)
Ltac bool_prop :=
  repeat match goal with
  | H : negb _ = true |- _ => apply negb_true_iff in H
  | H : negb _ = false |- _ => apply negb_false_iff in H
  | H : _ && _ = true |- _ => apply andb_true_iff in H as [? ?]
  | H : _ || _ = false |- _ => apply orb_false_iff in H as [? ?]
  | H : (_ <? _) = true |- _ => apply Z.ltb_lt in H
  | H : (_ <? _) = false |- _ => apply Z.ltb_ge in H
  | H : (_ <=? _) = true |- _ => apply Z.leb_le in H
  | H : (_ <=? _) = false |- _ => apply Z.leb_gt in H
  | H : (_ =? _) = true |- _ => apply Z.eqb_eq in H
  | H : (_ =? _) = false |- _ => apply Z.eqb_neq in H
  | H : (_ >? _) = _ |- _ => rewrite Z.gtb_ltb in H
  | H : (_ >=? _) = _ |- _ => rewrite Z.geb_leb in H
  | H : String.eqb _ _ = true |- _ => apply String.eqb_eq in H
  | H : String.eqb _ _ = false |- _ => apply String.eqb_neq in H
  end.

(** Opens the tuples a call returned. *)
Ltac open_pairs := repeat match goal with v : (_ * _)%type |- _ => destruct v end.

Create HintDb fury.

(** ** Machine integers and strings *)

(** Wrap-around of [int64] and [uint64] arithmetic and conversions. *)
Definition i64 (x : Z) : Z := (x + 2 ^ 63) mod 2 ^ 64 - 2 ^ 63.
Definition u64 (x : Z) : Z := x mod 2 ^ 64.

Lemma i64_id x : - 2 ^ 63 ≤ x < 2 ^ 63 → i64 x = x.
Proof. intros. unfold i64. rewrite Z.mod_small by lia. lia. Qed.

Lemma u64_id x : 0 ≤ x < 2 ^ 64 → u64 x = x.
Proof. intros. unfold u64. by rewrite Z.mod_small. Qed.

Lemma string_length_app a b :
  String.length (a ++ b)%string = (String.length a + String.length b)%nat.
Proof.
  induction a as [|c a IH]; [done|].
  change (String.length (String c a ++ b)%string) with (S (String.length (a ++ b)%string)).
  by rewrite IH.
Qed.

Lemma string_app_inj_length a b x y : String.length x = String.length y →
  (a ++ x = b ++ y)%string → a = b ∧ x = y.
Proof.
  intros Hl. revert b. induction a as [|c a IH]; intros [|d b] H.
  - done.
  - exfalso. apply (f_equal String.length) in H. rewrite !string_length_app in H. cbn in H. lia.
  - exfalso. apply (f_equal String.length) in H. rewrite !string_length_app in H. cbn in H. lia.
  - injection H as -> H. apply IH in H as [-> ->]. done.
Qed.

(** The separator ["_"] of compound store keys. *)
Definition is_sep (c : Ascii.ascii) : bool := (Ascii.nat_of_ascii c =? 95)%nat.
Fixpoint no_sep (s : string) : bool :=
  match s with
  | EmptyString => true
  | String c s' => negb (is_sep c) && no_sep s'
  end.

Lemma no_sep_app a b : no_sep (a ++ b) = no_sep a && no_sep b.
Proof.
  induction a as [|c a IH]; [done|].
  change (no_sep (String c a ++ b)) with (negb (is_sep c) && no_sep (a ++ b)).
  rewrite IH. cbn. by destruct (is_sep c), (no_sep a).
Qed.

(** A key [a_x] determines [a] and [x] when [x] has no separator. *)
Lemma sep_key_inj a b x y : no_sep x = true → no_sep y = true →
  (a ++ "_" ++ x = b ++ "_" ++ y)%string → a = b ∧ x = y.
Proof.
  intros Hx Hy. revert b. induction a as [|c a IH]; intros [|d b] H.
  - injection H as H. split; [done|exact H].
  - exfalso. injection H as <- H. change (x = b ++ "_" ++ y)%string in H. rewrite H in Hx.
    by rewrite !no_sep_app, andb_comm, <- andb_assoc in Hx.
  - exfalso. injection H as -> H. change (a ++ "_" ++ x = y)%string in H. rewrite <- H in Hy.
    by rewrite !no_sep_app, andb_comm, <- andb_assoc in Hy.
  - injection H as -> H. apply IH in H as [-> ->]. done.
Qed.

(** ** Sums over a store *)

Definition msum {A} (f : A → Z) (m : gmap string A) : Z :=
  map_fold (λ _ x acc, f x + acc) 0 m.

Section Msum.
Context {A : Type} (f : A → Z).
Implicit Types m : gmap string A.

Lemma msum_empty : msum f ∅ = 0.
Proof. apply map_fold_empty. Qed.

Lemma msum_insert_new m k x : m !! k = None → msum f (<[k := x]> m) = f x + msum f m.
Proof. intros. unfold msum. apply (map_fold_insert_L (λ _ x acc, f x + acc)); [intros; lia|done]. Qed.

Lemma msum_delete m k x : m !! k = Some x → msum f (delete k m) = msum f m - f x.
Proof.
  intros Hk. assert (msum f m = f x + msum f (delete k m)); [|lia].
  unfold msum. apply (map_fold_delete_L (λ _ x acc, f x + acc)); [intros; lia|done].
Qed.

Lemma msum_insert m k x :
  msum f (<[k := x]> m) = msum f m + f x - match m !! k with Some y => f y | None => 0 end.
Proof.
  destruct (m !! k) as [y|] eqn:Hk; [|rewrite msum_insert_new by done; lia].
  rewrite <- insert_delete_eq, msum_insert_new by apply lookup_delete_eq.
  rewrite (msum_delete m k y) by done. lia.
Qed.

Lemma msum_list m : msum f m = foldr (λ kx acc, f kx.2 + acc) 0 (map_to_list m).
Proof.
  unfold msum. rewrite map_fold_foldr. induction (map_to_list m) as [|[k x] l IH]; cbn; lia.
Qed.

Lemma msum_nonneg m : (∀ k x, m !! k = Some x → 0 ≤ f x) → 0 ≤ msum f m.
Proof.
  induction m as [|k x m Hk IH] using map_ind; intros Hf; [by rewrite msum_empty|].
  rewrite msum_insert_new by done.
  assert (0 ≤ f x) by (apply (Hf k); apply lookup_insert_eq).
  assert (0 ≤ msum f m); [|lia]. apply IH. intros j y Hj. apply (Hf j).
  rewrite lookup_insert_ne by congruence. done.
Qed.
End Msum.

(** ** A store written back entry by entry *)

Section Restore.
Context {A : Type} (key : A → string).
Implicit Types (m : gmap string A) (l : list (string * A)).

Definition keyed m : Prop := ∀ k a, m !! k = Some a → k = key a.

Lemma foldl_insert_lookup (l : list A) : ∀ m k a, NoDup (key <$> l) → a ∈ l → k = key a →
  foldl (λ m a, <[key a := a]> m) m l !! k = Some a.
Proof.
  induction l as [|b l IH]; intros m k a Hd Hin ->; [by apply not_elem_of_nil in Hin|].
  cbn in *. apply NoDup_cons in Hd as [Hb Hd]. apply elem_of_cons in Hin as [->|Hin]; [|by apply IH].
  clear IH. assert (∀ m, m !! key b = Some b → foldl (λ m a, <[key a := a]> m) m l !! key b = Some b) as H.
  { induction l as [|c l IH]; intros m' Hm; [done|]. cbn in *. apply not_elem_of_cons in Hb as [Hbc Hb].
    apply NoDup_cons in Hd as [_ Hd]. apply IH; [done|done|]. by rewrite lookup_insert_ne. }
  apply H, lookup_insert_eq.
Qed.

Lemma foldl_insert_other (l : list A) : ∀ m k, k ∉ key <$> l →
  foldl (λ m a, <[key a := a]> m) m l !! k = m !! k.
Proof.
  induction l as [|b l IH]; intros m k Hk; [done|]. cbn in *.
  apply not_elem_of_cons in Hk as [Hne Hk]. rewrite IH by done. by rewrite lookup_insert_ne.
Qed.

Lemma keyed_keys m l : keyed m → l ≡ₚ map_to_list m → key <$> l.*2 = l.*1.
Proof.
  intros Hk Hl. rewrite <- list_fmap_compose. apply list_fmap_ext. intros i [k a] Hi. cbn.
  symmetry. apply Hk, elem_of_map_to_list. rewrite <- Hl. by eapply list_elem_of_lookup_2.
Qed.

(** The values of a store whose keys they determine rebuild the store, whatever
    the order in which they are written. *)
Lemma restore_map m l : keyed m → l ≡ₚ map_to_list m → foldl (λ m a, <[key a := a]> m) ∅ l.*2 = m.
Proof.
  intros Hk Hl. pose proof (keyed_keys m l Hk Hl) as Hkeys.
  assert (NoDup (key <$> l.*2)) as Hd by (rewrite Hkeys, Hl; apply NoDup_fst_map_to_list).
  apply map_eq. intros k. destruct (m !! k) as [a|] eqn:Hm.
  - apply foldl_insert_lookup; [done| |by apply Hk]. apply list_elem_of_fmap. exists (k, a). split; [done|].
    rewrite Hl. by apply elem_of_map_to_list.
  - rewrite foldl_insert_other; [done|]. rewrite Hkeys, Hl. intros Hin.
    apply list_elem_of_fmap in Hin as ([k' a] & -> & Hin). apply elem_of_map_to_list in Hin. cbn in Hm.
    congruence.
Qed.
End Restore.

(** ** Sums over a list *)

Fixpoint zsum {A} (f : A → Z) (l : list A) : Z :=
  match l with [] => 0 | x :: l' => f x + zsum f l' end.

Section Zsum.
Context {A : Type}.
Implicit Types (f g : A → Z) (l k : list A).

Lemma zsum_nonneg f l : (∀ x, x ∈ l → 0 ≤ f x) → 0 ≤ zsum f l.
Proof.
  induction l as [|x l IH]; cbn; intros Hf; [lia|].
  assert (0 ≤ f x) by (apply Hf; left).
  assert (0 ≤ zsum f l) by (apply IH; intros; apply Hf; by right). lia.
Qed.

Lemma zsum_le f g l : (∀ x, x ∈ l → f x ≤ g x) → zsum f l ≤ zsum g l.
Proof.
  induction l as [|x l IH]; cbn; intros Hf; [lia|].
  assert (f x ≤ g x) by (apply Hf; left).
  assert (zsum f l ≤ zsum g l) by (apply IH; intros; apply Hf; by right). lia.
Qed.

Lemma zsum_ext f g l : (∀ x, x ∈ l → f x = g x) → zsum f l = zsum g l.
Proof. intros Hf. apply Z.le_antisymm; apply zsum_le; intros x Hx; by rewrite Hf. Qed.

Lemma zsum_plus f g l : zsum (λ x, f x + g x) l = zsum f l + zsum g l.
Proof. induction l as [|x l IH]; cbn; [done|]. lia. Qed.

Lemma zsum_app f l k : zsum f (l ++ k) = zsum f l + zsum f k.
Proof. induction l as [|x l IH]; cbn; [done|]. lia. Qed.

Lemma zsum_perm f l k : l ≡ₚ k → zsum f l = zsum f k.
Proof. induction 1; cbn; lia. Qed.

Lemma zsum_elem f l x : (∀ y, y ∈ l → 0 ≤ f y) → x ∈ l → f x ≤ zsum f l.
Proof.
  intros Hf. induction 1 as [x l|x y l Hx IH]; cbn.
  - assert (0 ≤ zsum f l) by (apply zsum_nonneg; intros; apply Hf; by right). lia.
  - assert (0 ≤ f y) by (apply Hf; left).
    assert (f x ≤ zsum f l) by (apply IH; intros; apply Hf; by right). lia.
Qed.

Lemma zsum_filter f (P : A → bool) l :
  zsum f (filter (λ x, P x = true) l) = zsum (λ x, if P x then f x else 0) l.
Proof.
  induction l as [|x l IH]; [done|]. rewrite filter_cons. cbn [zsum].
  destruct (P x) eqn:E; [rewrite decide_True by done|rewrite decide_False by congruence];
    cbn [zsum]; lia.
Qed.

(** An accumulator whose step is exact below 2^63 computes the sum. *)
Lemma fold_exact f (g : Z → A → Z) l acc :
  (∀ s x, x ∈ l → 0 ≤ s → s + f x < 2 ^ 63 → g s x = s + f x) →
  (∀ x, x ∈ l → 0 ≤ f x) → 0 ≤ acc → acc + zsum f l < 2 ^ 63 →
  foldl g acc l = acc + zsum f l.
Proof.
  revert acc. induction l as [|x l IH]; cbn; intros acc Hg Hf Ha Hb; [lia|].
  assert (0 ≤ f x) by (apply Hf; left).
  assert (0 ≤ zsum f l) by (apply zsum_nonneg; intros; apply Hf; by right).
  rewrite Hg by (lia || left). rewrite IH; [lia| | |lia|lia].
  - intros s y Hy. apply Hg. by right.
  - intros y Hy. apply Hf. by right.
Qed.
End Zsum.

(** ** Go maps *)

(** The order in which [range] visits a map is not specified by the language,
    so it is an argument of the code that iterates. *)
Class GoMap := {
  map_range : ∀ {A}, gmap string A → list (string * A)
}.
Class GoMapLaws (go : GoMap) : Prop := {
  map_range_law {A} (m : gmap string A) : map_range m ≡ₚ map_to_list m
}.

(** ** Assignment to a struct field

    [r <| f := v |>] is the record [r] with the field [f] replaced, for every
    record whose constructor is registered with [Eta]. *)
Class Eta (R : Type) := eta : R → R.
Class FieldSetter {R T : Type} (proj : R → T) := field_setter : T → R → R.

Ltac derive_setter R T proj :=
  let e := constr:(_ : Eta R) in
  let e' := eval hnf in e in
  let v := fresh "v" in let r := fresh "r" in
  intros v r;
  let b := eval cbv beta in (e' r) in
  let b' := eval pattern (proj r) in b in
  lazymatch b' with ?g _ => let b'' := eval cbv beta in (g v) in exact b'' end.

#[global] Hint Extern 0 (@FieldSetter ?R ?T ?proj) => derive_setter R T proj : typeclass_instances.

Notation "r <| f := v |>" := (field_setter (proj := f) v r)
  (at level 1, left associativity, f at level 9, format "r  <| f  :=  v |>").
