(* ===== verification/Wp.v ===== *)
(** * Weakest preconditions

    A small program logic for state-passing code: [wp m Q E s] says that [m] run
    on [s] ends in a state with [Q] and its result when it succeeds, and in one
    with [E] when it returns an error.  A panic satisfies anything: it aborts the
    transaction.  Rules follow the code, so a proof walks through a method the
    way it runs. *)
From S2P Require Import Prelude.

Definition wp {S A} (m : M S A) (Q : A → S → Prop) (E : S → Prop) (s : S) : Prop :=
  match m s with
  | (Ok a, s') => Q a s'
  | (Err _, s') => E s'
  | (Panic, _) => True
  end.

(** Code that leaves the state alone, whatever its outcome. *)
Definition reads {S A} (m : M S A) : Prop := ∀ s, (m s).2 = s.

Section Rules.
Context {S A : Type}.
Implicit Types (Q : A → S → Prop) (E : S → Prop).

Lemma wp_Ok (m : M S A) Q E s a s' : wp m Q E s → m s = (Ok a, s') → Q a s'.
Proof. unfold wp. intros H Hm. by rewrite Hm in H. Qed.

Lemma wp_mono (m : M S A) Q Q' E E' s : wp m Q E s → (∀ a s', Q a s' → Q' a s') →
  (∀ s', E s' → E' s') → wp m Q' E' s.
Proof. unfold wp. destruct (m s) as [[]]; auto. Qed.

Lemma wp_ret (a : A) Q E s : Q a s → wp (mret a) Q E s.
Proof. done. Qed.

Lemma wp_fail e Q E s : E s → wp (fail e : M S A) Q E s.
Proof. done. Qed.

Lemma wp_lift (r : res A) Q E s : (∀ a, r = Ok a → Q a s) → (∀ e, r = Err e → E s) →
  wp (lift r) Q E s.
Proof. unfold wp, lift. destruct r; eauto. Qed.

Lemma wp_gets (f : S → A) Q E s : Q (f s) s → wp (gets f) Q E s.
Proof. done. Qed.

Lemma wp_modify f (Q : () → S → Prop) E s : Q () (f s) → wp (modify f) Q E s.
Proof. done. Qed.

Lemma wp_bind {B} (m : M S A) (k : A → M S B) (Q : B → S → Prop) E s :
  wp m (λ a s', wp (k a) Q E s') E s → wp (m ≫= k) Q E s.
Proof. unfold wp, mbind, M_bind. destruct (m s) as [[]]; done. Qed.

Lemma wp_try (m : M S A) (Q : A + error → S → Prop) E s :
  wp m (λ a, Q (inl a)) (λ s', ∀ e, Q (inr e) s') s → wp (try m) Q E s.
Proof. unfold wp, try. destruct (m s) as [[]]; auto. Qed.

Lemma wp_reads (m : M S A) Q E s : reads m → (∀ a, m s = (Ok a, s) → Q a s) → E s → wp m Q E s.
Proof.
  unfold wp. intros Hr HQ HE. specialize (Hr s). destruct (m s) as [[]]; cbn in Hr; subst; auto.
Qed.

Lemma wp_no_error (m : M S A) Q (E : S → Prop) s : wp m (λ _ _, True) E s →
  (∀ a s', m s = (Ok a, s') → Q a s') → wp m Q E s.
Proof. unfold wp. destruct (m s) as [[]]; auto. Qed.

Lemma reads_ret (a : A) : reads (S := S) (mret a).
Proof. done. Qed.
Lemma reads_fail e : reads (fail e : M S A).
Proof. done. Qed.
Lemma reads_lift (r : res A) : reads (S := S) (lift r).
Proof. intros s. unfold lift. by destruct r. Qed.
Lemma reads_gets (f : S → A) : reads (gets f).
Proof. done. Qed.
Lemma reads_wrapM e (m : M S A) : reads m → reads (wrapM e m).
Proof. intros H s. specialize (H s). unfold wrapM. by destruct (m s) as [[]]. Qed.
End Rules.

Lemma reads_bind {S A B} (m : M S A) (k : A → M S B) : reads m → (∀ a, reads (k a)) → reads (m ≫= k).
Proof.
  intros Hm Hk s. specialize (Hm s). unfold mbind, M_bind.
  destruct (m s) as [[a| |] s']; cbn in *; subst; [apply Hk|done|done].
Qed.

(** Splits a [reads] goal along the code. *)
Create HintDb reads.
Ltac reads_auto :=
  repeat match goal with
  | |- reads (mret _) => apply reads_ret
  | |- reads (fail _) => apply reads_fail
  | |- reads (lift _) => apply reads_lift
  | |- reads (gets _) => apply reads_gets
  | |- reads (wrapM _ _) => apply reads_wrapM
  | |- reads (_ ≫= _) => apply reads_bind; [|intros]
  | |- reads (if ?b then _ else _) => destruct b
  | |- reads (match ?x with _ => _ end) => destruct x
  | |- _ => solve [auto with reads]
  end.

(** Loops keep an invariant. *)
Lemma wp_forM {S A} (l : list A) (body : A → M S ()) (I : S → Prop) E s :
  (∀ x s, x ∈ l → I s → wp (body x) (λ _, I) E s) → I s → wp (forM l body) (λ _, I) E s.
Proof.
  revert s. induction l as [|x l IH]; intros s Hb Hi; [done|]. apply wp_bind.
  eapply wp_mono; [apply Hb; [set_solver|done]| |done]. intros [] s1 H1. apply IH; [|done]. intros y s2 Hy. apply Hb. by right.
Qed.
Lemma wp_forM_app {S A} (l1 l2 : list A) (body : A → M S ()) Q E : ∀ s,
  wp (forM l1 body;; forM l2 body) Q E s → wp (forM (l1 ++ l2) body) Q E s.
Proof.
  induction l1 as [|x l1 IH]; intros s H; [done|]. cbn. unfold wp, mbind, M_bind in *. cbn in H.
  unfold mbind, M_bind in H. destruct (body x s) as [[] s1]; [by apply IH|done..].
Qed.
Lemma wp_foldM {S A C} (body : C → A → M S C) (I : C → S → Prop) E l : ∀ c s,
  (∀ c x s, x ∈ l → I c s → wp (body c x) I E s) → I c s → wp (foldM body c l) I E s.
Proof.
  induction l as [|x l IH]; intros c s Hb Hi; [done|]. apply wp_bind.
  eapply wp_mono; [apply Hb; [set_solver|done]| |done]. intros c1 s1 H1. apply IH; [|done]. intros c2 y s2 Hy. apply Hb. by right.
Qed.

(** ** Framing

    The part [f] of the state is what it was, however the code ends. *)
Definition frames {S A B} (f : S → B) (m : M S A) : Prop := ∀ s, f (m s).2 = f s.

Section Frames.
Context {S B : Type} (f : S → B).

Lemma frames_reads {A} (m : M S A) : reads m → frames f m.
Proof. intros H s. by rewrite H. Qed.
Lemma frames_modify g : (∀ s, f (g s) = f s) → frames f (modify g).
Proof. intros H s. apply H. Qed.
Lemma frames_bind {A C} (m : M S A) (k : A → M S C) :
  frames f m → (∀ a, frames f (k a)) → frames f (m ≫= k).
Proof.
  intros Hm Hk s. specialize (Hm s). unfold mbind, M_bind.
  destruct (m s) as [[a| |] s']; cbn in *; [by rewrite Hk|done|done].
Qed.
Lemma frames_wrapM {A} e (m : M S A) : frames f m → frames f (wrapM e m).
Proof. intros H s. specialize (H s). unfold wrapM. by destruct (m s) as [[]]. Qed.
Lemma frames_mustM {A} (m : M S A) : frames f m → frames f (mustM m).
Proof. intros H s. specialize (H s). unfold mustM. by destruct (m s) as [[]]. Qed.
Lemma frames_try {A} (m : M S A) : frames f m → frames f (try m).
Proof. intros H s. specialize (H s). unfold try. by destruct (m s) as [[]]. Qed.
Lemma frames_forM {A} (l : list A) body : (∀ x, frames f (body x)) → frames f (forM l body).
Proof. intros H. induction l as [|x l IH]; [done|]. by apply frames_bind. Qed.
Lemma frames_foldM {A C} (body : C → A → M S C) l : (∀ c x, frames f (body c x)) →
  ∀ c, frames f (foldM body c l).
Proof. intros H. induction l as [|x l IH]; [done|]. intros c. cbn. by apply frames_bind. Qed.
End Frames.

Lemma wp_frames {S A B} (f : S → B) (m : M S A) s : frames f m →
  wp m (λ _ s', f s' = f s) (λ s', f s' = f s) s.
Proof. intros H. specialize (H s). unfold wp. by destruct (m s) as [[a|e|] s']. Qed.

Lemma wp_and {S A} (m : M S A) (Q Q' : A → S → Prop) E E' s : wp m Q E s → wp m Q' E' s →
  wp m (λ a s, Q a s ∧ Q' a s) (λ s, E s ∧ E' s) s.
Proof. unfold wp. by destruct (m s) as [[a|e|] s']. Qed.

Ltac frames_step :=
  match goal with
  | |- frames _ (mret _) => done
  | |- frames _ (fail _) => done
  | |- frames _ (lift _) => done
  | |- frames _ (gets _) => done
  | |- frames _ (modify _) => apply frames_modify; intros; reflexivity
  | |- frames _ (_ ≫= _) => apply frames_bind; [|intros]
  | |- frames _ (wrapM _ _) => apply frames_wrapM
  | |- frames _ (mustM _) => apply frames_mustM
  | |- frames _ (try _) => apply frames_try
  | |- frames _ (forM _ _) => apply frames_forM; intros
  | |- frames _ (foldM _ _ _) => apply frames_foldM; intros
  | |- frames _ (if ?b then _ else _) => destruct b
  | |- frames _ (match ?x with _ => _ end) => destruct x
  end.
Ltac frames_auto := repeat (frames_step || solve [auto with reads]).

(** One step of the code; what is left to show about a result is introduced. *)
Ltac wp_step :=
  match goal with
  | |- wp (_ ≫= _) _ _ _ => apply wp_bind
  | |- wp (mret _) _ _ _ => apply wp_ret
  | |- wp (fail _) _ _ _ => apply wp_fail
  | |- wp (gets _) _ _ _ => apply wp_gets
  | |- wp (modify _) _ _ _ => apply wp_modify
  | |- wp (try _) _ _ _ => apply wp_try
  end; cbv beta.
Ltac wp_steps := repeat wp_step.

(** ** Every end

    Code that runs under a recover, or whose errors are only logged, keeps what it
    wrote however it ends: [E] is what holds after an error and after a panic. *)
Definition wpe {S A} (m : M S A) (Q : A → S → Prop) (E : S → Prop) (s : S) : Prop :=
  match m s with
  | (Ok a, s') => Q a s'
  | (_, s') => E s'
  end.

Section Ends.
Context {S A : Type}.
Implicit Types (Q : A → S → Prop) (E : S → Prop).

Lemma wpe_end (m : M S A) E s : wpe m (λ _, E) E s → E (m s).2.
Proof. unfold wpe. by destruct (m s) as [[]]. Qed.

Lemma wpe_mono (m : M S A) Q Q' E E' s : wpe m Q E s → (∀ a s', Q a s' → Q' a s') →
  (∀ s', E s' → E' s') → wpe m Q' E' s.
Proof. unfold wpe. destruct (m s) as [[]]; auto. Qed.

Lemma wpe_ret (a : A) Q E s : Q a s → wpe (mret a) Q E s.
Proof. done. Qed.
Lemma wpe_fail e Q E s : E s → wpe (fail e : M S A) Q E s.
Proof. done. Qed.
Lemma wpe_lift (r : res A) Q E s : (∀ a, r = Ok a → Q a s) → E s → wpe (lift r) Q E s.
Proof. unfold wpe, lift. destruct r; eauto. Qed.
Lemma wpe_gets (f : S → A) Q E s : Q (f s) s → wpe (gets f) Q E s.
Proof. done. Qed.
Lemma wpe_modify f (Q : () → S → Prop) E s : Q () (f s) → wpe (modify f) Q E s.
Proof. done. Qed.
Lemma wpe_bind {B} (m : M S A) (k : A → M S B) (Q : B → S → Prop) E s :
  wpe m (λ a s', wpe (k a) Q E s') E s → wpe (m ≫= k) Q E s.
Proof. unfold wpe, mbind, M_bind. destruct (m s) as [[]]; done. Qed.
Lemma wpe_try (m : M S A) (Q : A + error → S → Prop) E s :
  wpe m (λ a, Q (inl a)) (λ s', (∀ e, Q (inr e) s') ∧ E s') s → wpe (try m) Q E s.
Proof. unfold wpe, try. destruct (m s) as [[]]; [done|by intros []..]. Qed.
Lemma wpe_recovering (m : M S ()) (Q : () → S → Prop) E s :
  wpe m (λ _, Q ()) (Q ()) s → wpe (recovering m) Q E s.
Proof. unfold wpe, recovering. by destruct (m s) as [[]]. Qed.
Lemma wpe_reads (m : M S A) Q E s : reads m → (∀ a, m s = (Ok a, s) → Q a s) → E s → wpe m Q E s.
Proof.
  unfold wpe. intros Hr HQ HE. specialize (Hr s). destruct (m s) as [[]]; cbn in Hr; subst; auto.
Qed.
End Ends.

(** An error that is only logged. *)
Lemma wpe_logged {S A B} (m : M S A) (k : M S B) (I : S → Prop) Q E s : wpe m (λ _, I) I s →
  (∀ s', I s' → E s' ∧ wpe k Q E s') → wpe (try m;; k) Q E s.
Proof.
  intros Hm Hk. apply wpe_bind, wpe_try.
  eapply wpe_mono; [exact Hm|intros a s' Hi; by apply Hk|intros s' Hi; split; [intros e|]; by apply Hk].
Qed.

Lemma wpe_forM {S A} (l : list A) (body : A → M S ()) (I : S → Prop) E s :
  (∀ x s, x ∈ l → I s → wpe (body x) (λ _, I) E s) → I s → wpe (forM l body) (λ _, I) E s.
Proof.
  revert s. induction l as [|x l IH]; intros s Hb Hi; [done|]. apply wpe_bind.
  eapply wpe_mono; [apply Hb; [set_solver|done]| |done]. intros [] s1 H1. apply IH; [|done]. intros y s2 Hy. apply Hb. by right.
Qed.

Ltac wpe_step :=
  match goal with
  | |- wpe (_ ≫= _) _ _ _ => apply wpe_bind
  | |- wpe (mret _) _ _ _ => apply wpe_ret
  | |- wpe (fail _) _ _ _ => apply wpe_fail
  | |- wpe (gets _) _ _ _ => apply wpe_gets
  | |- wpe (modify _) _ _ _ => apply wpe_modify
  | |- wpe (try _) _ _ _ => apply wpe_try
  | |- wpe (recovering _) _ _ _ => apply wpe_recovering
  end; cbv beta.
Ltac wpe_steps := repeat wpe_step.
