(* ===== verification/Sdk.v ===== *)
(** * The Cosmos SDK as the modules see it

    The keepers of furynode are written against the Cosmos SDK, which is not
    part of the repository.  This file states the part of the SDK the modelled
    code calls as a class of operations, [SDK], and the documented behaviour the
    theorems rely on as a class of laws, [SDKLaws].  Every definition of the
    components takes the operations as an (implicit) argument, every theorem
    that needs a law takes [SDKLaws], and [Reference.v] builds one concrete
    instance so that witnesses evaluate.

    Values.  An [sdk.Uint], [sdk.Int] or [sdk.Dec] is represented by the integer
    its [BigInt()] returns (for a [Dec] that is the value times 10^18);
    comparisons and zero tests are those of that integer.  Arithmetic whose
    result depends on range checks or rounding is an operation of the class. *)
From S2P Require Import Prelude.

(** 10 ^ sdk.Precision *)
Definition P18 : Z := 10 ^ 18.
(** the range of [sdk.Uint] and the largest magnitude of an [sdk.Dec] *)
Definition uint_max : Z := 2 ^ 256 - 1.
Definition dec_max : Z := 2 ^ 315 - 1.

Definition is_uint (x : Z) : Prop := 0 ≤ x ≤ uint_max.
Definition uint_checked (x : Z) : res Z :=
  if (0 <=? x) && (x <=? uint_max) then Ok x else Panic.

(** [sdk.NewDecWithPrec(i, prec)] *)
Definition dec_prec (i prec : Z) : Z := i * 10 ^ (18 - prec).

(** [r] is [x / P18] rounded to a nearest integer. *)
Definition nearest (x r : Z) : Prop := 2 * Z.abs (r * P18 - x) ≤ P18.

Abbreviation coin := (string * Z)%type.
Definition amount_of (cs : list coin) (d : string) : Z :=
  foldr (λ c acc, (if String.eqb c.1 d then c.2 else 0) + acc) 0 cs.

(** ** Operations *)
Class SDK := {
  (* sdk.Uint *)
  u_of_big : Z → res Z;
  u_add : Z → Z → res Z;
  u_sub : Z → Z → res Z;
  u_quo : Z → Z → res Z;
  u_str : Z → string;
  u_of_str : string → res Z;
  (* sdk.Int *)
  i_str : Z → string;
  i_of_str : string → option Z;
  i_of_big : Z → res Z;
  i_add : Z → Z → res Z;
  i_sub : Z → Z → res Z;
  (* sdk.Dec *)
  d_of_big : Z → Z;
  d_of_str : string → res Z;
  d_add : Z → Z → res Z;
  d_sub : Z → Z → res Z;
  d_mul : Z → Z → res Z;
  d_quo : Z → Z → res Z;
  d_pow : Z → Z → res Z;
  d_mul_trunc : Z → Z → res Z;
  d_quo_trunc : Z → Z → res Z;
  d_trunc : Z → res Z;
  d_round : Z → res Z;
  (* new(big.Rat).SetFloat64(d.MustFloat64()) *)
  d_float_rat : Z → Q;
  (* float64 arithmetic of the policies: math.Pow(base, epochs/blocks) - 1 printed
     with 18 decimals and parsed, and math.Pow(math.E, -rate*blocks) likewise *)
  f_block_rate : Z → Z → Z → res Z;
  f_decay : Z → Z → Z;
  (* sdk.Coin, sdk.Coins *)
  valid_denom : string → bool;
  new_coin : string → Z → res coin;
  coin_add : coin → coin → res coin;
  coin_sub : coin → coin → res coin;
  new_coins : list coin → res (list coin);
  coins_add : list coin → coin → res (list coin);
  coins_add_all : list coin → list coin → res (list coin);
  coins_valid : list coin → bool;
  coins_sort : list coin → list coin;
  (* addresses: AccAddressFromBech32, AccAddress.String, NewModuleAddress, and
     the same for validator addresses *)
  acc_from_bech32 : string → res string;
  acc_string : string → string;
  val_from_bech32 : string → res string;
  val_string : string → string;
  module_address : string → string;
  (* the bank keeper, over its own state *)
  bank : Type;
  bank_balance : bank → string → string → Z;
  bank_has_balance : bank → string → coin → bool;
  bank_send : string → string → list coin → M bank ();
  bank_send_mod_to_acc : string → string → list coin → M bank ();
  bank_send_acc_to_mod : string → string → list coin → M bank ();
  bank_mint : string → list coin → M bank ();
  bank_burn : string → list coin → M bank ();
  (* KVStorePrefixIterator, and query.FilteredPaginate and query.Paginate with a
     page limit *)
  kv_iterate : ∀ {A}, gmap string A → list (string * A);
  kv_filtered_paginate : ∀ {A}, Z → (A → bool) → list (string * A) → list A;
  kv_paginate : ∀ {A}, Z → list (string * A) → list A;
}.

(** What a successful transfer does to every balance. *)
Definition transferred `{SDK} (from to : string) (cs : list coin) (b b' : bank) : Prop :=
  ∀ a d, bank_balance b' a d
         = bank_balance b a d
           - (if String.eqb a from then amount_of cs d else 0)
           + (if String.eqb a to then amount_of cs d else 0).

(** ** Laws *)
Class SDKLaws (sdk : SDK) : Prop := {
  u_of_big_law x : u_of_big x = uint_checked x;
  u_add_law x y : is_uint x → is_uint y → u_add x y = uint_checked (x + y);
  u_sub_law x y : is_uint x → is_uint y → u_sub x y = uint_checked (x - y);
  u_quo_law x y : is_uint x → is_uint y → y ≠ 0 → u_quo x y = Ok (x / y);
  u_quo_zero x : u_quo x 0 = Panic;
  i_of_str_law x : 0 ≤ x < 2 ^ 255 → i_of_str (u_str x) = Some x;
  i_of_str_val x y : is_uint x → i_of_str (u_str x) = Some y → y = x;
  u_of_istr_law x : is_uint x → u_of_str (i_str x) = Ok x;
  i_of_istr_law x : Z.abs x < 2 ^ 255 → i_of_str (i_str x) = Some x;
  i_of_big_val x y : i_of_big x = Ok y → y = x;
  i_of_big_total x : Z.abs x < 2 ^ 255 → i_of_big x = Ok x;
  i_add_val x y r : i_add x y = Ok r → r = x + y;
  i_sub_val x y r : i_sub x y = Ok r → r = x - y;
  i_add_total x y : Z.abs (x + y) < 2 ^ 255 → i_add x y = Ok (x + y);
  i_sub_total x y : Z.abs (x - y) < 2 ^ 255 → i_sub x y = Ok (x - y);
  d_of_big_law x : d_of_big x = x * P18;
  d_of_ustr_law x : 0 ≤ x < 2 ^ 255 → d_of_str (u_str x) = Ok (x * P18);
  d_of_istr_law x : Z.abs x < 2 ^ 255 → d_of_str (i_str x) = Ok (x * P18);
  d_add_val x y r : d_add x y = Ok r → r = x + y;
  d_add_total x y : Z.abs (x + y) ≤ dec_max → d_add x y = Ok (x + y);
  d_sub_val x y r : d_sub x y = Ok r → r = x - y;
  d_sub_total x y : Z.abs (x - y) ≤ dec_max → d_sub x y = Ok (x - y);
  d_mul_val x y r : d_mul x y = Ok r → nearest (x * y) r;
  d_mul_total x y : Z.abs (x * y) ≤ dec_max * P18 → ∃ r, d_mul x y = Ok r;
  d_quo_val x y r : d_quo x y = Ok r →
    y ≠ 0 ∧ P18 * (2 * Z.abs (r * y - x * P18)) ≤ Z.abs y * (P18 + 2);
  d_quo_total x y : y ≠ 0 → Z.abs x * P18 ≤ (dec_max - 1) * Z.abs y → ∃ r, d_quo x y = Ok r;
  d_quo_zero x : d_quo x 0 = Panic;
  d_pow_ten n : 0 ≤ n ≤ 76 → d_pow (10 * P18) n = Ok (10 ^ n * P18);
  d_mul_trunc_val x y r : d_mul_trunc x y = Ok r → r = Z.quot (x * y) P18;
  d_mul_trunc_total x y : Z.abs (x * y) ≤ dec_max * P18 → d_mul_trunc x y = Ok (Z.quot (x * y) P18);
  d_quo_trunc_val x y r : d_quo_trunc x y = Ok r →
    y ≠ 0 ∧ r = Z.quot (Z.quot (x * P18 * P18) y) P18;
  d_quo_trunc_total x y : y ≠ 0 → Z.abs x * P18 ≤ dec_max * Z.abs y →
    d_quo_trunc x y = Ok (Z.quot (Z.quot (x * P18 * P18) y) P18);
  d_trunc_val x r : d_trunc x = Ok r → r = Z.quot x P18;
  d_trunc_total x : Z.abs x < 2 ^ 255 * P18 → d_trunc x = Ok (Z.quot x P18);
  d_round_val x r : d_round x = Ok r → nearest x r;
  d_round_total x : Z.abs x < (2 ^ 255 - 1) * P18 → ∃ r, d_round x = Ok r;
  d_float_rat_nonneg x : 0 ≤ x → (0 <= d_float_rat x)%Q;
  d_float_rat_zero : (d_float_rat 0 == 0)%Q;
  f_decay_unit r n : 0 ≤ r → 0 ≤ n → 0 ≤ f_decay r n ≤ P18;
  new_coin_law d x : new_coin d x = if valid_denom d && (0 <=? x) then Ok (d, x) else Panic;
  coin_add_val c c' r : coin_add c c' = Ok r → c'.1 = c.1 ∧ r = (c.1, c.2 + c'.2);
  coin_add_total c c' : c'.1 = c.1 → Z.abs (c.2 + c'.2) < 2 ^ 255 → coin_add c c' = Ok (c.1, c.2 + c'.2);
  coin_sub_val c c' r : coin_sub c c' = Ok r → c'.1 = c.1 ∧ r = (c.1, c.2 - c'.2) ∧ c'.2 ≤ c.2;
  new_coins_val l cs : new_coins l = Ok cs → ∀ d, amount_of cs d = amount_of l d;
  new_coins_one d x : valid_denom d = true → 0 ≤ x → ∃ cs, new_coins [(d, x)] = Ok cs;
  new_coins_two d1 d2 x y : valid_denom d1 = true → valid_denom d2 = true →
    0 ≤ x → 0 ≤ y → d1 ≠ d2 → ∃ cs, new_coins [(d1, x); (d2, y)] = Ok cs;
  coins_add_val cs c cs' : coins_add cs c = Ok cs' →
    ∀ d, amount_of cs' d = amount_of cs d + amount_of [c] d;
  coins_add_all_val cs cs' r : coins_add_all cs cs' = Ok r →
    ∀ d, amount_of r d = amount_of cs d + amount_of cs' d;
  coins_valid_pos cs c : coins_valid cs = true → c ∈ cs → 0 < c.2;
  coins_valid_one d x : valid_denom d = true → 0 < x → coins_valid [(d, x)] = true;
  new_coins_single d x cs : new_coins [(d, x)] = Ok cs → cs = if x =? 0 then [] else [(d, x)];
  coins_add_empty c cs : coins_add [] c = Ok cs → cs = if c.2 =? 0 then [] else [c];
  u_add_range x y r : u_add x y = Ok r → is_uint r;
  u_add_no_error x y e : u_add x y ≠ Err e;
  u_sub_no_error x y e : u_sub x y ≠ Err e;
  i_of_big_no_error x e : i_of_big x ≠ Err e;
  new_coins_no_error l e : new_coins l ≠ Err e;
  coin_sub_no_error c c' e : coin_sub c c' ≠ Err e;
  coins_sort_law cs : coins_sort cs ≡ₚ cs;
  val_round_trip s a : val_from_bech32 s = Ok a → val_from_bech32 (val_string a) = Ok a;
  acc_round_trip s a : acc_from_bech32 s = Ok a → acc_from_bech32 (acc_string a) = Ok a;
  acc_no_sep s a : acc_from_bech32 s = Ok a → no_sep s = true;
  has_balance_law b a d x : bank_has_balance b a (d, x) = (x <=? bank_balance b a d);
  send_val from to cs b b' : bank_send from to cs b = (Ok (), b') → transferred from to cs b b';
  send_mod_to_acc_val m to cs b b' :
    bank_send_mod_to_acc m to cs b = (Ok (), b') →
    transferred (module_address m) to cs b b';
  send_single_fails m to cs b r b' : (length cs ≤ 1)%nat →
    bank_send_mod_to_acc m to cs b = (r, b') → r ≠ Ok () → ∀ a d, bank_balance b' a d = bank_balance b a d;
  send_covered_err m to cs b e b' :
    (∀ d, amount_of cs d ≤ bank_balance b (module_address m) d) →
    bank_send_mod_to_acc m to cs b = (Err e, b') → ∀ a d, bank_balance b' a d = bank_balance b a d;
  send_acc_to_mod_val from m cs b b' :
    bank_send_acc_to_mod from m cs b = (Ok (), b') →
    transferred from (module_address m) cs b b';
  mint_val m cs b b' : bank_mint m cs b = (Ok (), b') →
    ∀ a d, bank_balance b' a d
           = bank_balance b a d + (if String.eqb a (module_address m) then amount_of cs d else 0);
  mint_one_err m c cs b e b' : new_coins [c] = Ok cs →
    bank_mint m cs b = (Err e, b') → ∀ a d, bank_balance b' a d = bank_balance b a d;
  burn_val m cs b b' : bank_burn m cs b = (Ok (), b') →
    ∀ a d, bank_balance b' a d
           = bank_balance b a d - (if String.eqb a (module_address m) then amount_of cs d else 0);
  burn_single_fails m cs b r b' : (length cs ≤ 1)%nat →
    bank_burn m cs b = (r, b') → r ≠ Ok () → ∀ a d, bank_balance b' a d = bank_balance b a d;
  send_takes from to cs b a d : a ≠ from →
    bank_balance b a d ≤ bank_balance (bank_send from to cs b).2 a d;
  send_mod_to_acc_takes m to cs b a d : a ≠ module_address m →
    bank_balance b a d ≤ bank_balance (bank_send_mod_to_acc m to cs b).2 a d;
  send_acc_to_mod_takes from m cs b a d : a ≠ from →
    bank_balance b a d ≤ bank_balance (bank_send_acc_to_mod from m cs b).2 a d;
  mint_takes m cs b a d : bank_balance b a d ≤ bank_balance (bank_mint m cs b).2 a d;
  burn_takes m cs b a d : a ≠ module_address m →
    bank_balance b a d ≤ bank_balance (bank_burn m cs b).2 a d;
  kv_iterate_law {A} (m : gmap string A) : kv_iterate m ≡ₚ map_to_list m;
  kv_filtered_paginate_law {A} lim (f : A → bool) (l : list (string * A)) :
    Z.of_nat (length l) ≤ lim < 2 ^ 64 - 1 →
    kv_filtered_paginate lim f l = filter (λ a, f a = true) (l.*2);
  kv_filtered_paginate_elem {A} lim (f : A → bool) (l : list (string * A)) x :
    x ∈ kv_filtered_paginate lim f l → f x = true ∧ x ∈ l.*2;
  kv_paginate_law {A} lim (l : list (string * A)) :
    Z.of_nat (length l) ≤ lim < 2 ^ 64 → kv_paginate lim l = l.*2;
}.

(** ** Consequences of the laws *)
Section Lemmas.
Context {sdk : SDK} {L : SDKLaws sdk}.

Lemma uint_checked_Ok x r : uint_checked x = Ok r → r = x ∧ is_uint x.
Proof.
  unfold uint_checked, is_uint. intros H. case_test; inv_ok; bool_prop; lia.
Qed.

Lemma uint_checked_in x : is_uint x → uint_checked x = Ok x.
Proof.
  unfold uint_checked, is_uint. intros ?. case_test; [done|].
  apply andb_false_iff in Heqb as [?|?]; bool_prop; lia.
Qed.

Lemma uint_checked_not x : ¬ is_uint x → uint_checked x = Panic.
Proof.
  unfold uint_checked, is_uint. intros ?. case_test; [|done]. bool_prop; lia.
Qed.

(** A payment of one coin that fails, by an error or a panic, moves nothing. *)
Lemma new_coins_length c cs : new_coins [c] = Ok cs → (length cs ≤ 1)%nat.
Proof. destruct c as [d x]. intros ->%new_coins_single. destruct (x =? 0); cbn; lia. Qed.
Lemma coins_add_length c cs : coins_add [] c = Ok cs → (length cs ≤ 1)%nat.
Proof. intros ->%coins_add_empty. destruct (c.2 =? 0); cbn; lia. Qed.
Lemma send_one_err m to c cs b e b' : new_coins [c] = Ok cs →
  bank_send_mod_to_acc m to cs b = (Err e, b') → ∀ a d, bank_balance b' a d = bank_balance b a d.
Proof. intros Hc%new_coins_length H. by apply (send_single_fails m to cs b (Err e) b'). Qed.

Lemma u_of_big_Ok x r : u_of_big x = Ok r → r = x ∧ is_uint x.
Proof. rewrite u_of_big_law. apply uint_checked_Ok. Qed.

Lemma u_add_Ok x y r : is_uint x → is_uint y → u_add x y = Ok r → r = x + y ∧ is_uint r.
Proof. intros ??. rewrite u_add_law by done. intros [-> ?]%uint_checked_Ok. done. Qed.

Lemma u_sub_Ok x y r : is_uint x → is_uint y → u_sub x y = Ok r → r = x - y ∧ is_uint r.
Proof. intros ??. rewrite u_sub_law by done. intros [-> ?]%uint_checked_Ok. done. Qed.

Lemma u_add_in x y : is_uint x → is_uint y → is_uint (x + y) → u_add x y = Ok (x + y).
Proof. intros. rewrite u_add_law by done. by apply uint_checked_in. Qed.

Lemma u_sub_in x y : is_uint x → is_uint y → y ≤ x → u_sub x y = Ok (x - y).
Proof.
  intros Hx Hy ?. rewrite u_sub_law by done. apply uint_checked_in.
  unfold is_uint in *; lia.
Qed.

Lemma u_sub_underflow x y : is_uint x → is_uint y → x < y → u_sub x y = Panic.
Proof.
  intros Hx Hy ?. rewrite u_sub_law by done. apply uint_checked_not.
  unfold is_uint in *; lia.
Qed.

Lemma u_quo_Ok x y r : is_uint x → is_uint y → u_quo x y = Ok r → y ≠ 0 ∧ r = x / y ∧ is_uint r.
Proof.
  intros Hx Hy. destruct (decide (y = 0)) as [->|].
  { rewrite u_quo_zero. done. }
  rewrite u_quo_law by done. intros [= <-].
  unfold is_uint in *. split_and!; [done|done|apply Z.div_pos; lia|].
  apply Z.le_trans with x; [|lia]. apply Z.div_le_upper_bound; nia.
Qed.

Lemma is_uint_0 : is_uint 0.
Proof. unfold is_uint, uint_max. lia. Qed.
End Lemmas.

#[export] Hint Resolve is_uint_0 : fury.

(** ** Rounding *)

Lemma P18_pos : 0 < P18.
Proof. unfold P18. lia. Qed.

Lemma nearest_nonneg x r : 0 ≤ x → nearest x r → 0 ≤ r.
Proof. unfold nearest, P18. lia. Qed.

(** Rounding to nearest never passes an integer bound. *)
Lemma nearest_le x r k : nearest x r → x ≤ k * P18 → r ≤ k.
Proof. unfold nearest, P18. lia. Qed.

Lemma nearest_ge x r k : nearest x r → k * P18 ≤ x → k ≤ r.
Proof. unfold nearest, P18. lia. Qed.

Lemma nearest_exact k r : nearest (k * P18) r → r = k.
Proof. unfold nearest, P18. lia. Qed.

Section DecLemmas.
Context {sdk : SDK} {L : SDKLaws sdk}.

Lemma d_quo_nonneg x y r : 0 ≤ x → 0 < y → d_quo x y = Ok r → 0 ≤ r.
Proof.
  intros ?? [? H]%d_quo_val. destruct (Z_lt_le_dec r 0); [|done].
  unfold P18 in *. rewrite (Z.abs_eq y) in H by lia. nia.
Qed.

(** An exact quotient is returned exactly. *)
Lemma d_quo_exact x y k r : y ≠ 0 → x * P18 = k * y → d_quo x y = Ok r → r = k.
Proof.
  intros ? Hk [_ H]%d_quo_val. rewrite Hk in H.
  replace (r * y - k * y) with ((r - k) * y) in H by ring.
  rewrite Z.abs_mul in H. unfold P18 in H. nia.
Qed.

(** A quotient that is at most an integer number of ulps stays below it. *)
Lemma d_quo_le x y k r : 0 < y → x * P18 ≤ k * y → d_quo x y = Ok r → r ≤ k.
Proof.
  intros ? Hk [_ H]%d_quo_val. destruct (Z_le_gt_dec r k) as [|Hr]; [done|exfalso].
  rewrite (Z.abs_eq y) in H by lia. unfold P18 in *.
  assert (y ≤ r * y - x * 10 ^ 18) by nia. rewrite Z.abs_eq in H by lia. nia.
Qed.

Lemma d_quo_ge x y k r : 0 < y → k * y ≤ x * P18 → d_quo x y = Ok r → k ≤ r.
Proof.
  intros ? Hk [_ H]%d_quo_val. destruct (Z_le_gt_dec k r) as [|Hr]; [done|exfalso].
  rewrite (Z.abs_eq y) in H by lia. unfold P18 in *.
  assert (y ≤ x * 10 ^ 18 - r * y) by nia. rewrite Z.abs_neq in H by lia. nia.
Qed.

Lemma d_quo_panic_zero x r : d_quo x 0 = Ok r → False.
Proof. by rewrite d_quo_zero. Qed.
End DecLemmas.
