(* ===== verification/Reference.v ===== *)
(** * A concrete Cosmos SDK

    One executable instance of the class [SDK] of [Sdk.v], with the proof that
    it satisfies [SDKLaws].  It is used only in witnesses and examples: it shows
    that the laws can hold together and lets the definitions evaluate.  Decimal
    rounding is the banker's rounding the SDK documents; a bank is a finite map
    from (address, denom) to a balance; bech32 is the identity on non-empty
    strings, except that "BOB" is another spelling of "bob". *)
From S2P Require Import Prelude Sdk.
From Stdlib Require Import DecimalString DecimalZ Decimal.

Definition z_string (z : Z) : string := NilEmpty.string_of_int (Z.to_int z).
Definition string_z (s : string) : option Z := Z.of_int <$> NilEmpty.int_of_string s.

Lemma string_z_string z : string_z (z_string z) = Some z.
Proof. unfold string_z, z_string. rewrite NilEmpty.isi. cbn. by rewrite of_to. Qed.

(** Division by 10^18 rounding half to even, as in chopPrecisionAndRound. *)
Definition bankers (x : Z) : Z :=
  let a := Z.abs x in
  let q := a / P18 in
  let r := a mod P18 in
  let m := if 2 * r <? P18 then q
           else if P18 <? 2 * r then q + 1
           else if Z.even q then q else q + 1 in
  Z.sgn x * m.

Lemma bankers_nearest x : nearest x (bankers x).
Proof.
  unfold nearest, bankers.
  pose proof P18_pos as HP.
  pose proof (Z.div_mod (Z.abs x) P18 ltac:(lia)) as Hd.
  pose proof (Z.mod_pos_bound (Z.abs x) P18 HP) as Hr.
  set (q := Z.abs x / P18) in *. set (r := Z.abs x mod P18) in *.
  assert (∃ m, (if 2 * r <? P18 then q else if P18 <? 2 * r then q + 1
                else if Z.even q then q else q + 1) = m
               ∧ 2 * Z.abs (m * P18 - Z.abs x) ≤ P18) as (m & -> & Hm).
  { eexists; split; [done|].
    destruct (Z.ltb_spec (2 * r) P18); [lia|].
    destruct (Z.ltb_spec P18 (2 * r)); [lia|].
    destruct (Z.even q); lia. }
  destruct (Z.sgn_spec x) as [[? ->]|[[<- ->]|[? ->]]]; lia.
Qed.

Definition dec_checked (x : Z) : res Z := if Z.abs x <=? dec_max then Ok x else Panic.
Definition int_checked (x : Z) : res Z := if Z.abs x <? 2 ^ 255 then Ok x else Panic.
Definition ref_quo (x y : Z) : res Z :=
  if y =? 0 then Panic else dec_checked (bankers (Z.quot (x * P18 * P18) y)).

Fixpoint ref_pow (n : nat) (x acc : Z) : res Z :=
  match n with
  | O => Ok acc
  | S n' => a ← dec_checked (bankers (acc * x)); ref_pow n' x a
  end.

Definition ref_valid_denom (d : string) : bool := (2 <? Z.of_nat (String.length d)).
Definition ref_new_coin (d : string) (x : Z) : res coin :=
  if ref_valid_denom d && (0 <=? x) then Ok (d, x) else Panic.
Definition ref_coin_add (c c' : coin) : res coin :=
  if String.eqb c'.1 c.1 then x ← int_checked (c.2 + c'.2); Ok (c.1, x) else Panic.
Definition ref_coin_sub (c c' : coin) : res coin :=
  if String.eqb c'.1 c.1 && (c'.2 <=? c.2) then x ← int_checked (c.2 - c'.2); Ok (c.1, x)
  else Panic.
Definition coin_ok (c : coin) : bool := ref_valid_denom c.1 && (0 <=? c.2).
Definition ref_new_coins (l : list coin) : res (list coin) :=
  if forallb coin_ok l && bool_decide (NoDup l.*1)
  then Ok (filter (λ c, c.2 ≠ 0) l) else Panic.
Fixpoint ref_coins_add (cs : list coin) (c : coin) : list coin :=
  match cs with
  | [] => if c.2 =? 0 then [] else [c]
  | c' :: cs' => if String.eqb c'.1 c.1 then (c.1, c'.2 + c.2) :: cs'
                 else c' :: ref_coins_add cs' c
  end.

Definition ref_coins_add_all (cs cs' : list coin) : list coin := foldl ref_coins_add cs cs'.
Definition ref_coins_valid (cs : list coin) : bool :=
  forallb (λ c, ref_valid_denom c.1 && (0 <? c.2)) cs && bool_decide (NoDup cs.*1).
Fixpoint ref_insert (c : coin) (cs : list coin) : list coin :=
  match cs with
  | [] => [c]
  | c' :: cs' => if String.leb c.1 c'.1 then c :: c' :: cs' else c' :: ref_insert c cs'
  end.
Definition ref_coins_sort (cs : list coin) : list coin := foldr ref_insert [] cs.

(** ** The reference bank *)
Abbreviation ref_bank := (gmap (string * string) Z).
Definition ref_balance (b : ref_bank) (a d : string) : Z := default 0 (b !! (a, d)).
Definition ref_credit (a d : string) (x : Z) (b : ref_bank) : ref_bank :=
  <[(a, d) := ref_balance b a d + x]> b.
Definition ref_credits (a : string) (sign : Z) (cs : list coin) (b : ref_bank) : ref_bank :=
  foldr (λ c b, ref_credit a c.1 (sign * c.2) b) b cs.
Definition ref_covers (b : ref_bank) (a : string) (cs : list coin) : bool :=
  forallb (λ c, amount_of cs c.1 <=? ref_balance b a c.1) cs.
Definition ref_valid (cs : list coin) : bool := forallb (λ c, 0 <=? c.2) cs.
Definition ref_send (from to : string) (cs : list coin) : M ref_bank () := λ b,
  if ref_valid cs && ref_covers b from cs
  then (Ok (), ref_credits to 1 cs (ref_credits from (-1) cs b))
  else (Err (EOther "insufficient funds"), b).
Definition ref_mint (m : string) (cs : list coin) : M ref_bank () := λ b,
  if ref_valid cs then (Ok (), ref_credits m 1 cs b) else (Err (EOther "invalid coins"), b).
Definition ref_burn (m : string) (cs : list coin) : M ref_bank () := λ b,
  if ref_valid cs && ref_covers b m cs then (Ok (), ref_credits m (-1) cs b)
  else (Err (EOther "insufficient funds"), b).
Definition ref_bech32 (s : string) : res string :=
  if String.eqb s "" || negb (no_sep s) then Err (EOther "empty address string is not allowed")
  else Ok (if String.eqb s "BOB" then "bob" else s).
Lemma ref_bech32_again s a : ref_bech32 s = Ok a → ref_bech32 a = Ok a.
Proof.
  unfold ref_bech32. intros H. case_test; inv_ok. destruct (String.eqb_spec s "BOB") as [->|Hne]; [done|].
  rewrite Heqb. destruct (String.eqb_spec s "BOB"); done.
Qed.

#[export] Instance ref_sdk : SDK := {|
  u_of_big := uint_checked;
  u_add x y := uint_checked (x + y);
  u_sub x y := uint_checked (x - y);
  u_quo x y := if y =? 0 then Panic else Ok (x / y);
  u_str := z_string;
  u_of_str s := match string_z s with Some x => uint_checked x | None => Panic end;
  i_str := z_string;
  i_of_str s := match string_z s with
                | Some x => if Z.abs x <? 2 ^ 255 then Some x else None
                | None => None end;
  i_of_big := int_checked;
  i_add x y := int_checked (x + y);
  i_sub x y := int_checked (x - y);
  d_of_big x := x * P18;
  d_of_str s := match string_z s with
                | Some x => if Z.abs x <? 2 ^ 255 then Ok (x * P18)
                            else Err (EOther "decimal out of range")
                | None => Err (EOther "failed to set decimal string") end;
  d_add x y := dec_checked (x + y);
  d_sub x y := dec_checked (x - y);
  d_mul x y := dec_checked (bankers (x * y));
  d_quo := ref_quo;
  d_pow x n := ref_pow (Z.to_nat n) x P18;
  d_mul_trunc x y := dec_checked (Z.quot (x * y) P18);
  d_quo_trunc x y :=
    if y =? 0 then Panic else dec_checked (Z.quot (Z.quot (x * P18 * P18) y) P18);
  d_trunc x := int_checked (Z.quot x P18);
  d_round x := int_checked (bankers x);
  d_float_rat x := Qmake x 1000000000000000000;
  f_block_rate base epochs blocks :=
    if blocks =? 0 then Panic else Ok (Z.quot ((base - P18) * epochs) blocks);
  f_decay r n := if (r =? 0) || (n =? 0) then P18 else 0;
  valid_denom := ref_valid_denom;
  new_coin := ref_new_coin;
  coin_add := ref_coin_add;
  coin_sub := ref_coin_sub;
  new_coins := ref_new_coins;
  coins_add cs c := Ok (ref_coins_add cs c);
  coins_add_all cs cs' := Ok (ref_coins_add_all cs cs');
  coins_valid := ref_coins_valid;
  coins_sort := ref_coins_sort;
  acc_from_bech32 := ref_bech32;
  acc_string s := s;
  val_from_bech32 := ref_bech32;
  val_string s := s;
  module_address m := ("module/" ++ m)%string;
  bank := ref_bank;
  bank_balance := ref_balance;
  bank_has_balance b a c := c.2 <=? ref_balance b a c.1;
  bank_send := ref_send;
  bank_send_mod_to_acc m to := ref_send ("module/" ++ m)%string to;
  bank_send_acc_to_mod from m := ref_send from ("module/" ++ m)%string;
  bank_mint m := ref_mint ("module/" ++ m)%string;
  bank_burn m := ref_burn ("module/" ++ m)%string;
  kv_iterate A m := map_to_list m;
  kv_filtered_paginate A lim f l := filter (λ a, f a = true) (l.*2);
  kv_paginate A lim l :=
    if Z.of_nat (length l) <=? lim then l.*2 else take (Z.to_nat lim) (l.*2);
|}.

(** ** The laws hold *)

Lemma dec_checked_Ok x r : dec_checked x = Ok r → r = x.
Proof. unfold dec_checked. intros. case_test; by inv_ok. Qed.

Lemma dec_checked_in x : Z.abs x ≤ dec_max → dec_checked x = Ok x.
Proof. unfold dec_checked. intros ?%Z.leb_le. by case_test. Qed.

Lemma int_checked_Ok x r : int_checked x = Ok r → r = x.
Proof. unfold int_checked. intros. case_test; by inv_ok. Qed.

Lemma int_checked_in x : Z.abs x < 2 ^ 255 → int_checked x = Ok x.
Proof. unfold int_checked. intros ?%Z.ltb_lt. by case_test. Qed.

Lemma nearest_abs_le x r k : 0 ≤ k → nearest x r → Z.abs x ≤ k * P18 → Z.abs r ≤ k.
Proof.
  intros ? H ?. assert (r ≤ k) by (eapply nearest_le; [done|lia]).
  assert (- k ≤ r) by (eapply nearest_ge; [done|lia]). lia.
Qed.

Lemma quot_bound x y : y ≠ 0 → Z.abs (Z.quot x y * y - x) < Z.abs y.
Proof.
  intros ?. pose proof (Z.quot_rem' x y). pose proof (Z.rem_bound_abs x y ltac:(done)). lia.
Qed.

Lemma ref_quo_val x y r : ref_quo x y = Ok r →
  y ≠ 0 ∧ P18 * (2 * Z.abs (r * y - x * P18)) ≤ Z.abs y * (P18 + 2).
Proof.
  unfold ref_quo. intros H. case_test; bool_prop; [done|].
  apply dec_checked_Ok in H as ->. split; [done|].
  set (q := Z.quot (x * P18 * P18) y).
  pose proof (bankers_nearest q) as Hb. unfold nearest in Hb.
  pose proof (quot_bound (x * P18 * P18) y ltac:(done)) as Hq. fold q in Hq.
  set (r := bankers q) in *. pose proof P18_pos.
  assert (P18 * (r * y - x * P18)
          = (r * P18 - q) * y + (q * y - x * P18 * P18)) as He by ring.
  assert (P18 * Z.abs (r * y - x * P18)
          ≤ Z.abs (r * P18 - q) * Z.abs y + Z.abs (q * y - x * P18 * P18)).
  { rewrite <- (Z.abs_eq P18) at 1 by lia. rewrite <- Z.abs_mul, He, <- Z.abs_mul.
    apply Z.abs_triangle. }
  nia.
Qed.

Lemma ref_quo_total x y : y ≠ 0 → Z.abs x * P18 ≤ (dec_max - 1) * Z.abs y →
  ∃ r, ref_quo x y = Ok r.
Proof.
  intros Hy Hx. unfold ref_quo. case_test; bool_prop; [done|].
  eexists. apply dec_checked_in. pose proof P18_pos.
  assert (Z.abs (bankers (Z.quot (x * P18 * P18) y)) ≤ dec_max - 1); [|lia].
  eapply nearest_abs_le; [unfold dec_max; lia|apply bankers_nearest|].
  pose proof (Z.quot_abs (x * P18 * P18) y ltac:(done)) as Habs. rewrite <- Habs.
  apply Z.quot_le_upper_bound; [lia|].
  rewrite !Z.abs_mul, (Z.abs_eq P18) by lia. nia.
Qed.

Lemma amount_of_filter l d : amount_of (filter (λ c : coin, c.2 ≠ 0) l) d = amount_of l d.
Proof.
  induction l as [|c l IH]; [done|]. rewrite filter_cons. unfold amount_of in *. cbn.
  case_decide; cbn; rewrite IH; [done|]. destruct (String.eqb c.1 d); lia.
Qed.

Lemma ref_coins_add_val cs c d :
  amount_of (ref_coins_add cs c) d = amount_of cs d + amount_of [c] d.
Proof.
  induction cs as [|c' cs IH]; cbn.
  - destruct (Z.eqb_spec c.2 0); cbn; [|lia]. destruct (String.eqb c.1 d); lia.
  - unfold amount_of in *. destruct (String.eqb_spec c'.1 c.1) as [He|He]; cbn in *.
    + rewrite He. destruct (String.eqb c.1 d); lia.
    + rewrite IH. lia.
Qed.

Lemma ref_coins_add_all_val cs cs' d :
  amount_of (ref_coins_add_all cs cs') d = amount_of cs d + amount_of cs' d.
Proof.
  unfold ref_coins_add_all. revert cs. induction cs' as [|c cs' IH]; intros cs; cbn [foldl].
  - unfold amount_of at 3. cbn. lia.
  - rewrite IH, ref_coins_add_val. unfold amount_of. cbn. lia.
Qed.

Lemma ref_coins_sort_perm cs : ref_coins_sort cs ≡ₚ cs.
Proof.
  assert (∀ c l, ref_insert c l ≡ₚ c :: l) as Hi.
  { intros c l. induction l as [|c' l IH]; [done|]. cbn.
    destruct (String.leb c.1 c'.1); [done|]. rewrite IH. apply perm_swap. }
  unfold ref_coins_sort. induction cs as [|c cs IH]; [done|]. cbn. by rewrite Hi, IH.
Qed.

Lemma ref_pow_ten n : (n ≤ 76)%nat → ref_pow n (10 * P18) P18 = Ok (10 ^ Z.of_nat n * P18).
Proof.
  assert (∀ n k : nat, (n + k ≤ 76)%nat →
    ref_pow n (10 * P18) (10 ^ Z.of_nat k * P18) = Ok (10 ^ Z.of_nat (n + k) * P18)) as H.
  { clear n. induction n as [|n IH]; intros k Hk; [done|]. cbn [ref_pow].
    replace (bankers _) with (10 ^ Z.of_nat (S k) * P18).
    - rewrite dec_checked_in.
      + cbn [mbind res_bind]. rewrite IH by lia. by replace (n + S k)%nat with (S n + k)%nat by lia.
      + rewrite Z.abs_eq by (unfold P18; lia).
        transitivity (10 ^ 76 * P18); [|unfold dec_max, P18; lia].
        apply Z.mul_le_mono_nonneg_r; [unfold P18; lia|]. apply Z.pow_le_mono_r; lia.
    - symmetry. apply nearest_exact.
      replace (10 ^ Z.of_nat (S k) * P18 * P18) with (10 ^ Z.of_nat k * P18 * (10 * P18)).
      + apply bankers_nearest.
      + rewrite Nat2Z.inj_succ, Z.pow_succ_r by lia. ring. }
  intros ?. specialize (H n 0%nat). rewrite Nat.add_0_r in H. by apply H.
Qed.

Lemma quot_abs_le x k : Z.abs x ≤ k * P18 → Z.abs (Z.quot x P18) ≤ k.
Proof.
  intros. pose proof P18_pos. rewrite <- Z.quot_abs by lia. rewrite (Z.abs_eq P18) by lia.
  apply Z.quot_le_upper_bound; lia.
Qed.

Lemma ref_balance_credit a d x b a' d' :
  ref_balance (ref_credit a d x b) a' d'
  = ref_balance b a' d' + (if String.eqb a' a && String.eqb d d' then x else 0).
Proof.
  unfold ref_balance at 1, ref_credit. rewrite lookup_insert. case_decide as He.
  - injection He as <- <-. rewrite !String.eqb_refl. done.
  - destruct (String.eqb_spec a' a) as [->|], (String.eqb_spec d d') as [->|];
      cbn; try congruence; unfold ref_balance; lia.
Qed.

Lemma ref_balance_credits a s cs b a' d :
  ref_balance (ref_credits a s cs b) a' d
  = ref_balance b a' d + (if String.eqb a' a then s * amount_of cs d else 0).
Proof.
  unfold ref_credits.
  induction cs as [|c cs IH]; cbn; [destruct (String.eqb a' a); lia|].
  rewrite ref_balance_credit, IH. unfold amount_of; cbn.
  destruct (String.eqb a' a), (String.eqb c.1 d); cbn; lia.
Qed.

Lemma ref_send_val from to cs b b' :
  ref_send from to cs b = (Ok (), b') → @transferred ref_sdk from to cs b b'.
Proof.
  unfold ref_send. intros H. case_test; [|done]. injection H as <-.
  intros a d. cbn. rewrite !ref_balance_credits.
  destruct (String.eqb a from), (String.eqb a to); lia.
Qed.

Lemma ref_valid_amount cs d : ref_valid cs = true → 0 ≤ amount_of cs d.
Proof.
  unfold ref_valid, amount_of. induction cs as [|c cs IH]; cbn; [done|]. intros H.
  apply andb_true_iff in H as [Hc%Z.leb_le H%IH]. destruct (String.eqb c.1 d); lia.
Qed.

Lemma ref_send_takes from to cs b a d : a ≠ from →
  ref_balance b a d ≤ ref_balance (ref_send from to cs b).2 a d.
Proof.
  intros Ha. unfold ref_send. case_test; [|done]. bool_prop. apply String.eqb_neq in Ha. cbn [snd].
  rewrite !ref_balance_credits, Ha. pose proof (ref_valid_amount cs d ltac:(done)).
  destruct (String.eqb a to); lia.
Qed.

#[export] Instance ref_sdk_laws : SDKLaws ref_sdk.
Proof.
  split; cbn.
  - done.
  - done.
  - done.
  - intros x y _ _ ?%Z.eqb_neq. by case_test.
  - done.
  - intros x ?. rewrite string_z_string. case_test; bool_prop; [done|lia].
  - intros x y ?. rewrite string_z_string. intros Hs. case_test; by simplify_eq.
  - intros x ?. rewrite string_z_string. by apply uint_checked_in.
  - intros x ?. rewrite string_z_string. case_test; bool_prop; [done|lia].
  - intros x y. apply int_checked_Ok.
  - intros x. apply int_checked_in.
  - intros x y r. apply int_checked_Ok.
  - intros x y r. apply int_checked_Ok.
  - intros x y. apply int_checked_in.
  - intros x y. apply int_checked_in.
  - done.
  - intros x ?. rewrite string_z_string. case_test; bool_prop; [done|lia].
  - intros x ?. rewrite string_z_string. case_test; bool_prop; [done|lia].
  - intros x y r. apply dec_checked_Ok.
  - intros x y. apply dec_checked_in.
  - intros x y r. apply dec_checked_Ok.
  - intros x y. apply dec_checked_in.
  - intros x y r ->%dec_checked_Ok. apply bankers_nearest.
  - intros x y ?. eexists. apply dec_checked_in. eapply nearest_abs_le;
      [unfold dec_max; lia|apply bankers_nearest|lia].
  - apply ref_quo_val.
  - apply ref_quo_total.
  - done.
  - intros n ?. rewrite ref_pow_ten by lia. by rewrite Z2Nat.id by lia.
  - intros x y r. apply dec_checked_Ok.
  - intros x y ?. apply dec_checked_in. by apply quot_abs_le.
  - intros x y r H. case_test; bool_prop; [done|]. by apply dec_checked_Ok in H.
  - intros x y Hy ?. case_test; bool_prop; [done|]. apply dec_checked_in, quot_abs_le.
    pose proof P18_pos. rewrite <- Z.quot_abs by done.
    apply Z.quot_le_upper_bound; [lia|]. rewrite !Z.abs_mul, (Z.abs_eq P18) by lia. nia.
  - intros x r. apply int_checked_Ok.
  - intros x ?. apply int_checked_in. pose proof P18_pos.
    rewrite <- Z.quot_abs by lia. apply Z.quot_lt_upper_bound; lia.
  - intros x r ->%int_checked_Ok. apply bankers_nearest.
  - intros x ?. eexists. apply int_checked_in.
    assert (Z.abs (bankers x) ≤ 2 ^ 255 - 1); [|lia].
    eapply nearest_abs_le; [lia|apply bankers_nearest|lia].
  - intros x ?. unfold Qle; cbn. lia.
  - done.
  - intros r n ??. destruct ((r =? 0) || (n =? 0)); unfold P18; lia.
  - done.
  - intros c c' r H. unfold ref_coin_add in H. case_test; inv_ok; bool_prop.
    by apply int_checked_Ok in E as ->.
  - intros c c' Hd Hb. unfold ref_coin_add. rewrite Hd, String.eqb_refl.
    by rewrite int_checked_in.
  - intros c c' r H. unfold ref_coin_sub in H. case_test; inv_ok; bool_prop.
    by apply int_checked_Ok in E as ->.
  - intros l cs H d. unfold ref_new_coins in H. case_test; inv_ok. apply amount_of_filter.
  - intros d x Hd ?. unfold ref_new_coins, coin_ok. cbn. rewrite Hd.
    rewrite (proj2 (Z.leb_le 0 x)) by done. rewrite bool_decide_eq_true_2; [eauto|].
    apply NoDup_singleton.
  - intros d1 d2 x y Hd1 Hd2 Hx Hy Hne. unfold ref_new_coins, coin_ok. cbn. rewrite Hd1, Hd2.
    rewrite (proj2 (Z.leb_le 0 x)), (proj2 (Z.leb_le 0 y)) by done.
    rewrite bool_decide_eq_true_2; [eauto|]. apply NoDup_cons.
    split; [|apply NoDup_singleton]. intros Hin%list_elem_of_singleton. by cbn in Hin.
  - intros cs c cs' [= <-] d. apply ref_coins_add_val.
  - intros cs cs' r [= <-] d. apply ref_coins_add_all_val.
  - intros cs c Hv Hc. unfold ref_coins_valid in Hv. bool_prop.
    eapply forallb_forall in H; [|by apply list_elem_of_In]. bool_prop. done.
  - intros d x Hd Hx. unfold ref_coins_valid. cbn. rewrite Hd.
    rewrite (proj2 (Z.ltb_lt 0 x)) by done. cbn. apply bool_decide_eq_true_2, NoDup_singleton.
  - intros d x cs H. unfold ref_new_coins in H. case_test; inv_ok. rewrite filter_cons. cbn.
    destruct (Z.eqb_spec x 0) as [->|]; [by rewrite decide_False by lia|by rewrite decide_True].
  - intros c cs [= <-]. done.
  - intros x y r. cbn. unfold uint_checked, is_uint. intros H. case_test; inv_ok; bool_prop; lia.
  - intros x y e. cbn. unfold uint_checked. by case_test.
  - intros x y e. cbn. unfold uint_checked. by case_test.
  - intros x e. cbn. unfold int_checked. by case_test.
  - intros l e. cbn. unfold ref_new_coins. by case_test.
  - intros c c' e. cbn. unfold ref_coin_sub, int_checked. by repeat case_test.
  - apply ref_coins_sort_perm.
  - exact ref_bech32_again.
  - exact ref_bech32_again.
  - intros s a. unfold ref_bech32. intros. case_test; inv_ok. bool_prop. done.
  - done.
  - apply ref_send_val.
  - intros m to cs b b' H%ref_send_val. exact H.
  - intros m to cs b r b' _ H Hr. unfold ref_send in H. case_test; injection H as <- <-; done.
  - intros m to cs b e b' _ H. unfold ref_send in H. case_test; [done|]. by injection H as <- <-.
  - intros from m cs b b' H%ref_send_val. exact H.
  - intros m cs b b' H a d. unfold ref_mint in H. case_test; [|done]. injection H as <-.
    rewrite ref_balance_credits. destruct (String.eqb a _); lia.
  - intros m c cs b e b' _ H. unfold ref_mint in H. case_test; [done|]. by injection H as <- <-.
  - intros m cs b b' H a d. unfold ref_burn in H. case_test; [|done]. injection H as <-.
    rewrite ref_balance_credits. destruct (String.eqb a _); lia.
  - intros m cs b r b' _ H Hr. unfold ref_burn in H. case_test; injection H as <- <-; done.
  - apply ref_send_takes.
  - intros m to cs b a d. apply ref_send_takes.
  - intros from m cs b a d. apply ref_send_takes.
  - intros m cs b a d. unfold ref_mint. case_test; [|done]. cbn [snd]. rewrite ref_balance_credits.
    pose proof (ref_valid_amount cs d ltac:(done)). destruct (String.eqb a _); lia.
  - intros m cs b a d Ha%String.eqb_neq. unfold ref_burn. case_test; [|done]. cbn [snd].
    rewrite ref_balance_credits, Ha. lia.
  - done.
  - done.
  - intros A lim f l x H. by apply list_elem_of_filter in H.
  - intros A lim l [H _]. cbn. by apply Z.leb_le in H as ->.
Qed.
