(* ===== verification/ClpTypes.v ===== *)
(** * Data of the clp module

    The structs of x/clp/types (types.pb.go, params.pb.go, tx.pb.go), the
    operations of types.go and asset.go on them and the store keys of keys.go.
    Amounts ([sdk.Uint], [sdk.Int], [sdk.Dec]) are the integers of [Sdk.v]; the
    zero struct [sdk.Uint{}] that some functions return next to an unused result
    is 0. *)
From S2P Require Import Prelude Sdk.

Definition NativeSymbol : string := "fury".
Definition ModuleName : string := "clp".
Definition PoolThrehold : Z := 1000000000000000000.
Definition NativeAssetDecimals : Z := 18.
Definition MaxSymbolLength : Z := 71.
Definition MaxWbasis : Z := 10000.

(** An asset is its denomination. *)
Record Asset := mkAsset {
  Symbol : string
}.

#[global] Instance Asset_eq_dec : EqDecision Asset.
Proof. solve_decision. Defined.

(** A liquidity pool.  The swap prices are pointers, and [Health] may be the nil
    [Dec] of a pool stored before margin trading existed. *)
Record Pool := mkPool {
  ExternalAsset : Asset;
  NativeAssetBalance : Z;
  ExternalAssetBalance : Z;
  PoolUnits : Z;
  SwapPriceNative : option Z;
  SwapPriceExternal : option Z;
  RewardPeriodNativeDistributed : Z;
  ExternalLiabilities : Z;
  ExternalCustody : Z;
  NativeLiabilities : Z;
  NativeCustody : Z;
  Health : option Z;
  InterestRate : Z;
  LastHeightInterestRateComputed : Z;
  UnsettledExternalLiabilities : Z;
  UnsettledNativeLiabilities : Z;
  BlockInterestNative : Z;
  BlockInterestExternal : Z
}.
#[global] Instance Pool_eta : Eta Pool := λ r,
  mkPool (ExternalAsset r) (NativeAssetBalance r) (ExternalAssetBalance r) (PoolUnits r)
    (SwapPriceNative r) (SwapPriceExternal r) (RewardPeriodNativeDistributed r)
    (ExternalLiabilities r) (ExternalCustody r) (NativeLiabilities r) (NativeCustody r)
    (Health r) (InterestRate r) (LastHeightInterestRateComputed r)
    (UnsettledExternalLiabilities r) (UnsettledNativeLiabilities r) (BlockInterestNative
    r) (BlockInterestExternal r).

(** An unlock request of a liquidity provider. *)
Record LiquidityUnlock := mkLiquidityUnlock {
  RequestHeight : Z;
  Units : Z
}.
#[global] Instance LiquidityUnlock_eta : Eta LiquidityUnlock := λ r,
  mkLiquidityUnlock (RequestHeight r) (Units r).

(** A liquidity provider ([LPAsset] is the field [Asset]). *)
Record LiquidityProvider := mkLiquidityProvider {
  LPAsset : Asset;
  LiquidityProviderUnits : Z;
  LiquidityProviderAddress : string;
  Unlocks : list LiquidityUnlock
}.
#[global] Instance LiquidityProvider_eta : Eta LiquidityProvider := λ r,
  mkLiquidityProvider (LPAsset r) (LiquidityProviderUnits r) (LiquidityProviderAddress
    r) (Unlocks r).

(** Counters of the running ratio-shifting policy. *)
Record PmtpEpoch := mkPmtpEpoch {
  EpochCounter : Z;
  BlockCounter : Z
}.
#[global] Instance PmtpEpoch_eta : Eta PmtpEpoch := λ r,
  mkPmtpEpoch (EpochCounter r) (BlockCounter r).

(** The head of the removal queue of a pool. *)
Record RemovalQueue := mkRemovalQueue {
  Count : Z;
  Id : Z;
  StartHeight : Z;
  TotalValue : Z
}.
#[global] Instance RemovalQueue_eta : Eta RemovalQueue := λ r,
  mkRemovalQueue (Count r) (Id r) (StartHeight r) (TotalValue r).

(** Rates of the ratio-shifting policy. *)
Record PmtpRateParams := mkPmtpRateParams {
  PmtpPeriodBlockRate : Z;
  PmtpCurrentRunningRate : Z;
  PmtpInterPolicyRate : Z
}.
#[global] Instance PmtpRateParams_eta : Eta PmtpRateParams := λ r,
  mkPmtpRateParams (PmtpPeriodBlockRate r) (PmtpCurrentRunningRate r)
    (PmtpInterPolicyRate r).

(** Parameters of the ratio-shifting policy. *)
Record PmtpParams := mkPmtpParams {
  PmtpPeriodGovernanceRate : Z;
  PmtpPeriodEpochLength : Z;
  PmtpPeriodStartBlock : Z;
  PmtpPeriodEndBlock : Z
}.
#[global] Instance PmtpParams_eta : Eta PmtpParams := λ r,
  mkPmtpParams (PmtpPeriodGovernanceRate r) (PmtpPeriodEpochLength r)
    (PmtpPeriodStartBlock r) (PmtpPeriodEndBlock r).

(** A reward multiplier for one pool. *)
Record PoolMultiplier := mkPoolMultiplier {
  PoolMultiplierAsset : string;
  Multiplier : option Z
}.

(** A period in which liquidity rewards are minted. *)
Record RewardPeriod := mkRewardPeriod {
  RewardPeriodId : string;
  RewardPeriodStartBlock : Z;
  RewardPeriodEndBlock : Z;
  RewardPeriodAllocation : option Z;
  RewardPeriodPoolMultipliers : list PoolMultiplier;
  RewardPeriodDefaultMultiplier : option Z;
  RewardPeriodDistribute : bool;
  RewardPeriodMod : Z
}.
#[global] Instance RewardPeriod_eta : Eta RewardPeriod := λ r,
  mkRewardPeriod (RewardPeriodId r) (RewardPeriodStartBlock r) (RewardPeriodEndBlock r)
    (RewardPeriodAllocation r) (RewardPeriodPoolMultipliers r)
    (RewardPeriodDefaultMultiplier r) (RewardPeriodDistribute r) (RewardPeriodMod r).

(** Parameters of rewards and of the unlock period. *)
Record RewardParams := mkRewardParams {
  LiquidityRemovalLockPeriod : Z;
  LiquidityRemovalCancelPeriod : Z;
  RewardPeriods : list RewardPeriod;
  RewardPeriodStartTime : string
}.
#[global] Instance RewardParams_eta : Eta RewardParams := λ r,
  mkRewardParams (LiquidityRemovalLockPeriod r) (LiquidityRemovalCancelPeriod r)
    (RewardPeriods r) (RewardPeriodStartTime r).

(** Parameters of liquidity protection. *)
Record LiquidityProtectionParams := mkLiquidityProtectionParams {
  MaxFuryLiquidityThreshold : Z;
  MaxFuryLiquidityThresholdAsset : string;
  EpochLength : Z;
  IsActive : bool
}.
#[global] Instance LiquidityProtectionParams_eta : Eta LiquidityProtectionParams := λ r,
  mkLiquidityProtectionParams (MaxFuryLiquidityThreshold r)
    (MaxFuryLiquidityThresholdAsset r) (EpochLength r) (IsActive r).

(** A period in which pools pay their providers. *)
Record ProviderDistributionPeriod := mkProviderDistributionPeriod {
  DistributionPeriodBlockRate : Z;
  DistributionPeriodStartBlock : Z;
  DistributionPeriodEndBlock : Z;
  DistributionPeriodMod : Z
}.

(** The swap fee of one token ([FeeAsset] is the field [Asset]). *)
Record SwapFeeTokenParams := mkSwapFeeTokenParams {
  FeeAsset : string;
  SwapFeeRate : Z
}.

(** Swap fees. *)
Record SwapFeeParams := mkSwapFeeParams {
  DefaultSwapFeeRate : Z;
  TokenParams : list SwapFeeTokenParams
}.

(** ** Operations of asset.go *)

Definition GetSettlementAsset : Asset := mkAsset NativeSymbol.

Definition AssetEquals (a a2 : Asset) : bool := String.eqb (Symbol a) (Symbol a2).

Definition IsSettlementAsset (a : Asset) : bool := AssetEquals a GetSettlementAsset.

(** [strings.TrimSpace] on ASCII text. *)
Definition is_space (c : Ascii.ascii) : bool :=
  let n := Ascii.nat_of_ascii c in
  ((9 <=? n) && (n <=? 13))%nat || (n =? 32)%nat.

Fixpoint trim_left (s : string) : string :=
  match s with
  | String c s' => if is_space c then trim_left s' else s
  | EmptyString => s
  end.

Definition trim_space (s : string) : string :=
  String.rev (trim_left (String.rev (trim_left s))).

Definition VerifyRange (num low high : Z) : bool :=
  if num >=? high then false else if num <=? low then false else true.

Section WithSdk.
Context {sdk : SDK}.

(** [Asset.Validate]: [sdk.NewCoin] panics on a malformed denomination; a coin
    it returns with amount 1 is valid. *)
Definition AssetValidate (a : Asset) : res bool :=
  if negb (VerifyRange (Z.of_nat (String.length (trim_space (Symbol a)))) 0 MaxSymbolLength)
  then Ok false
  else c ← new_coin (Symbol a) 1; Ok (valid_denom c.1 && (0 <=? c.2)).

(** ** Operations of types.go *)

Definition PoolValidate (p : Pool) : res bool := AssetValidate (ExternalAsset p).

Definition LiquidityProviderValidate (l : LiquidityProvider) : res bool :=
  v ← AssetValidate (LPAsset l); if negb v then Ok false else Ok true.

(** The Dec of [Health] is nil in memory, and 0 once the pool is stored, which is the
    only thing done with a new pool. *)
Definition NewPool (externalAsset : Asset)
    (nativeAssetBalance externalAssetBalance poolUnits : Z) : Pool :=
  mkPool externalAsset nativeAssetBalance externalAssetBalance poolUnits
    None None 0 0 0 0 0 (Some 0) 0 0 0 0 0 0.

Definition ExtractValues (p : Pool) (to : Asset) : Z * Z * bool * Asset :=
  if IsSettlementAsset to
  then (ExternalAssetBalance p, NativeAssetBalance p, true, ExternalAsset p)
  else (NativeAssetBalance p, ExternalAssetBalance p, false, GetSettlementAsset).

Definition ExtractDebt (p : Pool) (X Y : Z) (toFury : bool) : res (Z * Z) :=
  if toFury
  then Y' ← u_add Y (NativeLiabilities p);
       X' ← u_add X (ExternalLiabilities p);
       Ok (X', Y')
  else X' ← u_add X (NativeLiabilities p);
       Y' ← u_add Y (ExternalLiabilities p);
       Ok (X', Y').

Definition UpdateBalances (p : Pool) (toFury : bool) (X x Y swapResult : Z) : res Pool :=
  if toFury
  then e ← u_add X x;
       n ← u_sub Y swapResult;
       Ok (p <| ExternalAssetBalance := e |> <| NativeAssetBalance := n |>)
  else n ← u_add X x;
       e ← u_sub Y swapResult;
       Ok (p <| NativeAssetBalance := n |> <| ExternalAssetBalance := e |>).

Definition NewLiquidityProvider (asset : Asset) (units : Z) (addr : string)
    : LiquidityProvider :=
  mkLiquidityProvider asset units (acc_string addr) [].
End WithSdk.

Definition StringCompare (a b : string) : bool := String.eqb a b.

(** ** Store keys of keys.go (the one-byte prefix selects the sub-store) *)

Definition GetPoolKey (externalTicker nativeTicker : string) : string :=
  externalTicker ++ "_" ++ nativeTicker.

Definition GetLiquidityProviderKey (externalTicker lp : string) : string :=
  externalTicker ++ "_" ++ lp.

Definition GetRemovalQueueKey (symbol : string) : string := "_" ++ symbol.

Definition GetRemovalRequestKey (signer : string) (id : Z) : string :=
  signer ++ "_" ++ pretty id.

Definition GetRemovalRequestLPPrefix (lpaddress : string) : string := lpaddress.

(** ** Messages of tx.pb.go *)

Module MsgCreatePool.
Record t := mk {
  Signer : string; ExternalAsset : Asset;
  NativeAssetAmount : Z; ExternalAssetAmount : Z }.
End MsgCreatePool.

Module MsgAddLiquidity.
Record t := mk {
  Signer : string; ExternalAsset : Asset;
  NativeAssetAmount : Z; ExternalAssetAmount : Z }.
End MsgAddLiquidity.

Module MsgRemoveLiquidity.
Record t := mk {
  Signer : string; ExternalAsset : Asset; WBasisPoints : Z; Asymmetry : Z }.
#[global] Instance t_eta : Eta t := λ r,
  mk (Signer r) (ExternalAsset r) (WBasisPoints r) (Asymmetry r).
End MsgRemoveLiquidity.

Module MsgRemoveLiquidityUnits.
Record t := mk { Signer : string; ExternalAsset : Asset; WithdrawUnits : Z }.
End MsgRemoveLiquidityUnits.

Module MsgSwap.
Record t := mk {
  Signer : string; SentAsset : Asset; ReceivedAsset : Asset;
  SentAmount : Z; MinReceivingAmount : Z }.
End MsgSwap.

Module MsgDecommissionPool.
Record t := mk { Signer : string; Symbol : string }.
End MsgDecommissionPool.

(** [MsgUnlockLiquidityRequest] and [MsgCancelUnlock] have the same fields. *)
Module MsgUnlock.
Record t := mk { Signer : string; ExternalAsset : Asset; Units : Z }.
End MsgUnlock.

(** A queued removal: the message it stores, its id and its value. *)
Record RemovalRequest := mkRemovalRequest {
  RequestId : Z;
  RequestMsg : MsgRemoveLiquidity.t;
  RequestValue : Z
}.
#[global] Instance RemovalRequest_eta : Eta RemovalRequest := λ r,
  mkRemovalRequest (RequestId r) (RequestMsg r) (RequestValue r).
