(* ===== verification/ClpCalc.v ===== *)
(** * Arithmetic of the clp module

    x/clp/keeper/pureCalculation.go and calculations.go, function by function.
    A [big.Rat] is a rational [Q]; the code reads numerators and denominators
    only through truncated quotients, which do not depend on the representative
    ([RatIntQuo_proper]).  A [big.Rat] or [big.Int] division by zero and the
    square root of a negative number panic. *)
From S2P Require Import Prelude Sdk ClpTypes.

(** [math/big]: [Rat.Quo] and [Int.Sqrt], [Int.BitLen]. *)
Definition rat_quo (x y : Q) : res Q := if Qeq_bool y 0 then Panic else Ok (x / y)%Q.
Definition big_sqrt (x : Z) : res Z := if x <? 0 then Panic else Ok (Z.sqrt x).
Definition bit_len (x : Z) : Z := if x =? 0 then 0 else Z.log2 (Z.abs x) + 1.

(** A returned error the caller turns into a panic. *)
Definition must {A} (r : res A) : res A := match r with Err _ => Panic | _ => r end.

(** ** pureCalculation.go *)

Definition maxDecBitLen : Z := 315.

Definition DecToRat (d : Z) : Q := (inject_Z d / inject_Z P18)%Q.

Definition RatToDec (r : Q) : res Z :=
  let d := Z.quot (Qnum r * P18) (Zpos (Qden r)) in
  if bit_len d >? maxDecBitLen then Err (EOther "decimal out of range") else Ok d.

Definition RatIntQuo (r : Q) : Z := Z.quot (Qnum r) (Zpos (Qden r)).

Definition ApproxRatSquareRoot (x : Q) : res Z := big_sqrt (RatIntQuo x).

Definition IsAnyZero (inputs : list Z) : bool := existsb (λ val, val =? 0) inputs.

Definition Int64ToUint8Safe (x : Z) : res Z :=
  let trial := x mod 256 in
  if negb (trial =? x) then Err (EClp ErrTypeCast) else Ok trial.

(** [Abs] is only applied to differences of two uint8, which do not wrap. *)
Definition Abs (a : Z) : Z := if a <? 0 then - a else a.

Inductive SwapStatus := SellNative | BuyNative | NoSwap.

Inductive SymmetryState :=
| ErrorEmptyPool | ErrorNothingAdded | NeedMoreY | Symmetric | NeedMoreX.

(** ** calculations.go *)
Section WithSdk.
Context {sdk : SDK}.

Definition NewDec (n : Z) : Z := d_of_big n.

Definition CalcSwapPmtp (toFury : bool) (y pmtpCurrentRunningRate : Z) : res Z :=
  f ← d_add (NewDec 1) pmtpCurrentRunningRate;
  if toFury then d_quo y f else d_mul y f.

Definition CalculateWithdrawal (poolUnits : Z) (nativeAssetDepth externalAssetDepth lpUnits
    wBasisPoints : string) (asymmetry : Z) : res (Z * Z * Z * Z) :=
  let poolUnitsF := d_of_big poolUnits in
  nativeAssetDepthF ← must (d_of_str nativeAssetDepth);
  externalAssetDepthF ← must (d_of_str externalAssetDepth);
  lpUnitsF ← must (d_of_str lpUnits);
  wBasisPointsF ← must (d_of_str wBasisPoints);
  asymmetryF ← must (d_of_str (i_str asymmetry));
  denominator ← d_quo (NewDec 10000) wBasisPointsF;
  unitsToClaim ← d_quo lpUnitsF denominator;
  share ← d_quo poolUnitsF unitsToClaim;
  withdrawExternalAssetAmount ← d_quo externalAssetDepthF share;
  share' ← d_quo poolUnitsF unitsToClaim;
  withdrawNativeAssetAmount ← d_quo nativeAssetDepthF share';
  swapAmount ←
    (if 0 <? asymmetry then
       a ← d_quo (NewDec 10000) (Z.abs asymmetryF);
       unitsToSwap ← d_quo unitsToClaim a;
       s ← d_quo poolUnitsF unitsToSwap;
       d_quo nativeAssetDepthF s
     else Ok (NewDec 0));
  swapAmount ←
    (if asymmetry <? 0 then
       a ← d_quo (NewDec 10000) (Z.abs asymmetryF);
       unitsToSwap ← d_quo unitsToClaim a;
       s ← d_quo poolUnitsF unitsToSwap;
       d_quo externalAssetDepthF s
     else Ok swapAmount);
  lpUnitsLeft ← d_sub lpUnitsF unitsToClaim;
  n ← d_trunc withdrawNativeAssetAmount; n ← u_of_big n;
  e ← d_trunc withdrawExternalAssetAmount; e ← u_of_big e;
  l ← d_trunc lpUnitsLeft; l ← u_of_big l;
  s ← d_trunc swapAmount; s ← u_of_big s;
  Ok (n, e, l, s).

Definition CalculateWithdrawalFromUnits (poolUnits : Z) (nativeAssetDepth
    externalAssetDepth lpUnits : string) (withdrawUnits : Z) : res (Z * Z * Z) :=
  let poolUnitsF := d_of_big poolUnits in
  nativeAssetDepthF ← must (d_of_str nativeAssetDepth);
  externalAssetDepthF ← must (d_of_str externalAssetDepth);
  lpUnitsF ← must (d_of_str lpUnits);
  withdrawUnitsF ← must (d_of_str (u_str withdrawUnits));
  share ← d_quo poolUnitsF withdrawUnitsF;
  withdrawExternalAssetAmount ← d_quo externalAssetDepthF share;
  share' ← d_quo poolUnitsF withdrawUnitsF;
  withdrawNativeAssetAmount ← d_quo nativeAssetDepthF share';
  lpUnitsLeft ← d_sub lpUnitsF withdrawUnitsF;
  n ← d_round withdrawNativeAssetAmount; n ← u_of_big n;
  e ← d_round withdrawExternalAssetAmount; e ← u_of_big e;
  l ← d_round lpUnitsLeft; l ← u_of_big l;
  Ok (n, e, l).

(** [x * P / X] on [big.Int] (truncated), then the [sdk.Uint] sum. *)
Definition CalculatePoolUnitsSymmetric (X x P : Z) : res (Z * Z) :=
  q ← (if X =? 0 then Panic else Ok (Z.quot (x * P) X));
  providerUnits ← u_of_big q;
  total ← u_add P providerUnits;
  Ok (total, providerUnits).

(** [Y/X] is compared with [y/x]. *)
Definition GetLiquidityAddSymmetryState (X x Y y : Z) : res SymmetryState :=
  if (X =? 0) || (Y =? 0) then Ok ErrorEmptyPool else
  if (x =? 0) && (y =? 0) then Ok ErrorNothingAdded else
  if x =? 0 then Ok NeedMoreX else
  YoverX ← rat_quo (inject_Z Y) (inject_Z X);
  yOverx ← rat_quo (inject_Z y) (inject_Z x);
  Ok (match (YoverX ?= yOverx)%Q with
      | Lt => NeedMoreX
      | Eq => Symmetric
      | Gt => NeedMoreY
      end).

Definition calcRawXYK (x X Y : Z) : res Q :=
  let numerator := (inject_Z x * inject_Z Y)%Q in
  let denominator := (inject_Z X + inject_Z x)%Q in
  rat_quo numerator denominator.

Definition calcPmtpFactor (r : Z) : Q := (1 + DecToRat r)%Q.

Definition CalcSwapResult (toFury : bool) (X x Y pmtpCurrentRunningRate swapFeeRate : Z)
    : res (Z * Z) :=
  if IsAnyZero [X; x; Y] then Ok (0, 0) else
  rawXYK ← calcRawXYK x X Y;
  let pmtpFac := calcPmtpFactor pmtpCurrentRunningRate in
  adjustedR ← (if toFury then rat_quo rawXYK pmtpFac else Ok (rawXYK * pmtpFac)%Q);
  let swapFeeRateR := DecToRat swapFeeRate in
  let percentFeeR := (adjustedR * swapFeeRateR)%Q in
  percentFee ← u_of_big (RatIntQuo percentFeeR);
  adjusted ← u_of_big (RatIntQuo adjustedR);
  y ← u_sub adjusted percentFee;
  Ok (y, percentFee).

(** [10 ^ decimalsX / 10 ^ decimalsY] *)
Definition CalcDenomChangeMultiplier (decimalsX decimalsY : Z) : Q :=
  let diff := Abs (decimalsX - decimalsY) in
  let dec := 10 ^ diff in
  if decimalsY <? decimalsX then inject_Z dec else (1 / inject_Z dec)%Q.

Definition CalcSpotPriceX (X Y decimalsX decimalsY pmtpCurrentRunningRate : Z)
    (isXNative : bool) : res Z :=
  if X =? 0 then Err (EClp ErrInValidAmount) else
  price ← rat_quo (inject_Z Y) (inject_Z X);
  let pmtpFac := calcPmtpFactor pmtpCurrentRunningRate in
  pmtpPrice ← (if isXNative then Ok (price * pmtpFac)%Q else rat_quo price pmtpFac);
  let dcm := CalcDenomChangeMultiplier decimalsX decimalsY in
  RatToDec (pmtpPrice * dcm)%Q.

Definition CalcSpotPriceNative (pool : Pool) (decimalsExternal pmtpCurrentRunningRate : Z)
    : res Z :=
  '(X, Y) ← ExtractDebt pool (NativeAssetBalance pool) (ExternalAssetBalance pool) false;
  CalcSpotPriceX X Y NativeAssetDecimals decimalsExternal pmtpCurrentRunningRate true.

Definition CalcSpotPriceExternal (pool : Pool) (decimalsExternal pmtpCurrentRunningRate : Z)
    : res Z :=
  '(X, Y) ← ExtractDebt pool (ExternalAssetBalance pool) (NativeAssetBalance pool) true;
  CalcSpotPriceX X Y decimalsExternal NativeAssetDecimals pmtpCurrentRunningRate false.

Definition CalcFuryValue (furyAmount price : Z) : res Z :=
  value ← d_mul price (d_of_big furyAmount);
  r ← d_round value;
  u_of_big r.

Definition CalcFurySpotPrice (pool : Pool) (pmtpCurrentRunningRate : Z) : res Z :=
  '(furyBal, externalAssetBal) ←
    ExtractDebt pool (NativeAssetBalance pool) (ExternalAssetBalance pool) false;
  let furyBalance := d_of_big furyBal in
  if furyBalance =? 0 then Err (EClp ErrInValidAmount) else
  let externalAssetBalance := d_of_big externalAssetBal in
  unadjusted ← d_quo externalAssetBalance furyBalance;
  f ← d_add pmtpCurrentRunningRate (NewDec 1);
  d_mul unadjusted f.

Definition calcPriceImpact (X x : Z) : res Z :=
  if x =? 0 then Ok 0 else
  let d := x + X in
  q ← (if d =? 0 then Panic else Ok (Z.quot x d));
  u_of_big q.

Definition CalculateAllAssetsForLP (pool : Pool) (lp : LiquidityProvider)
    : res (Z * Z * Z * Z) :=
  '(nativeAssetDepth, externalAssetDepth) ←
    ExtractDebt pool (NativeAssetBalance pool) (ExternalAssetBalance pool) false;
  CalculateWithdrawal (PoolUnits pool) (u_str nativeAssetDepth) (u_str externalAssetDepth)
    (u_str (LiquidityProviderUnits lp)) (i_str MaxWbasis) 0.

(** The amount [s] of external asset to sell so that an asymmetric addition
    becomes symmetric; the letters are those of the source. *)
Definition CalculateExternalSwapAmountAsymmetricRat (Y X y x f r : Q) : res Q :=
  let r1 := (r + 1)%Q in
  let a_ := (x + X)%Q in
  let b_ := (a_ * -(1))%Q in
  let c_ := (Y * b_)%Q in
  let d_ := (f * f * x * Y)%Q in
  let e_ := (f * f * X * Y)%Q in
  let f_ := (2 * f * r * x * Y)%Q in
  let g_ := (4 * f * r * X * y)%Q in
  let h_ := (2 * f * r * X * Y)%Q in
  let i_ := (4 * f * X * y)%Q in
  let j_ := (4 * f * X * Y)%Q in
  let k_ := (r * r * x * Y)%Q in
  let l_ := (r * r * X * Y)%Q in
  let m_ := (4 * r * X * y)%Q in
  let n_ := (4 * r * X * Y)%Q in
  let o_ := (4 * X * y)%Q in
  let p_ := (4 * X * Y)%Q in
  let q_ := (f * x * Y)%Q in
  let r_ := (f * X * Y)%Q in
  let s_ := (r * x * Y)%Q in
  let t_ := (2 * r * X * y)%Q in
  let u_ := (r * X * Y)%Q in
  let v_ := (2 * X * y)%Q in
  let w_ := (2 * X * Y)%Q in
  let x_ := (y + Y)%Q in
  let y_ := (g_ + h_ + i_ + j_ - d_ - e_ - f_ - k_ - l_ - m_ - n_ - o_ - p_)%Q in
  let z_ := (c_ * y_)%Q in
  sq ← ApproxRatSquareRoot z_;
  let aa_ := inject_Z sq in
  let ab_ := (aa_ + q_ + r_ + s_ - t_ - u_ - v_ - w_)%Q in
  let ac_ := (2 * r1 * x_)%Q in
  ad_ ← rat_quo ab_ ac_;
  Ok (Qabs ad_).

Definition CalculateExternalSwapAmountAsymmetric (R A r a : Z) (f p : Q) : res Z :=
  s ← CalculateExternalSwapAmountAsymmetricRat (inject_Z R) (inject_Z A) (inject_Z r)
        (inject_Z a) f p;
  u_of_big (RatIntQuo s).

(** The amount of native asset to sell, when more external asset is needed. *)
Definition CalculateNativeSwapAmountAsymmetricRat (Y X y x f r : Q) : res Q :=
  let a_ := (f * r * X * y)%Q in
  let b_ := (f * r * X * Y)%Q in
  let c_ := (f * X * y)%Q in
  let d_ := (f * X * Y)%Q in
  let e_ := (r * X * y)%Q in
  let f_ := (r * X * Y)%Q in
  let g_ := (2 * x * Y)%Q in
  let h_ := (2 * X * Y)%Q in
  let i_ := (x + X)%Q in
  let j_ := (x * Y * Y)%Q in
  let k_ := (X * y * Y)%Q in
  let l_ := (j_ - k_)%Q in
  let m_ := (4 * i_ * l_)%Q in
  let n_ := (f * r * X * y)%Q in
  let o_ := (f * r * X * Y)%Q in
  let p_ := (f * X * y)%Q in
  let q_ := (f * X * Y)%Q in
  let r_ := (r * X * y)%Q in
  let s_ := (r * X * Y)%Q in
  let t_ := (2 * x * Y)%Q in
  let u_ := (2 * X * Y)%Q in
  let v_ := ((x + X) * 2)%Q in
  let w_ := (e_ + f_ + g_ + h_ - a_ - b_ - c_ - d_)%Q in
  let x_ := (w_ * w_)%Q in
  let y_ := (x_ - m_)%Q in
  sq ← ApproxRatSquareRoot y_;
  let z_ := inject_Z sq in
  let aa_ := (z_ + n_ + o_ + p_ + q_ - r_ - s_ - t_ - u_)%Q in
  ab_ ← rat_quo aa_ v_;
  Ok (Qabs ab_).

Definition CalculateNativeSwapAmountAsymmetric (R A r a : Z) (f p : Q) : res Z :=
  s ← CalculateNativeSwapAmountAsymmetricRat (inject_Z R) (inject_Z A) (inject_Z r)
        (inject_Z a) f p;
  u_of_big (RatIntQuo s).

Definition CalculatePoolUnits (P R A r a sellNativeSwapFeeRate buyNativeSwapFeeRate
    pmtpCurrentRunningRate : Z) : res (Z * Z * SwapStatus * Z) :=
  let pmtpCurrentRunningRateR := DecToRat pmtpCurrentRunningRate in
  let sellNativeSwapFeeRateR := DecToRat sellNativeSwapFeeRate in
  let buyNativeSwapFeeRateR := DecToRat buyNativeSwapFeeRate in
  symmetryState ← GetLiquidityAddSymmetryState A a R r;
  match symmetryState with
  | ErrorEmptyPool =>
      if (a =? 0) || (r =? 0) then Err (EClp ErrInValidAmount) else Ok (r, r, NoSwap, 0)
  | ErrorNothingAdded => Ok (P, 0, NoSwap, 0)
  | NeedMoreY =>
      swapAmount ← CalculateExternalSwapAmountAsymmetric R A r a buyNativeSwapFeeRateR
                     pmtpCurrentRunningRateR;
      aCorrected ← u_sub a swapAmount;
      AProjected ← u_add A swapAmount;
      '(poolUnits, lpUnits) ← CalculatePoolUnitsSymmetric AProjected aCorrected P;
      Ok (poolUnits, lpUnits, BuyNative, swapAmount)
  | Symmetric =>
      '(poolUnits, lpUnits) ← CalculatePoolUnitsSymmetric R r P;
      Ok (poolUnits, lpUnits, NoSwap, 0)
  | NeedMoreX =>
      swapAmount ← CalculateNativeSwapAmountAsymmetric R A r a sellNativeSwapFeeRateR
                     pmtpCurrentRunningRateR;
      rCorrected ← u_sub r swapAmount;
      RProjected ← u_add R swapAmount;
      '(poolUnits, lpUnits) ← CalculatePoolUnitsSymmetric RProjected rCorrected P;
      Ok (poolUnits, lpUnits, SellNative, swapAmount)
  end.

Definition ConvUnitsToWBasisPoints (total units : Z) : res Z :=
  totalDec ← must (d_of_str (u_str total));
  unitsDec ← must (d_of_str (u_str units));
  q ← d_quo totalDec unitsDec;
  wbasis ← d_quo (NewDec 10000) q;
  d_trunc wbasis.

Definition ConvWBasisPointsToUnits (total wbasis : Z) : res Z :=
  wbasisUint ← u_of_str (i_str wbasis);
  q ← u_quo 10000 wbasisUint;
  u_quo total q.

Definition CalculateWithdrawalFuryValue (sentAmount : Z) (to : Asset) (pool : Pool)
    (pmtpCurrentRunningRate swapFeeRate : Z) : res Z :=
  let '(X, Y, toFury, _) := ExtractValues pool to in
  '(X, Y) ← ExtractDebt pool X Y toFury;
  '(value, _) ← CalcSwapResult toFury X sentAmount Y pmtpCurrentRunningRate swapFeeRate;
  Ok value.

(** Returns the amount received, the fee, the price impact and the new pool. *)
Definition SwapOne (from : Asset) (sentAmount : Z) (to : Asset) (pool : Pool)
    (pmtpCurrentRunningRate swapFeeRate : Z) : res (Z * Z * Z * Pool) :=
  let '(X, Y, toFury, _) := ExtractValues pool to in
  '(Xincl, Yincl) ← ExtractDebt pool X Y toFury;
  priceImpact ← calcPriceImpact Xincl sentAmount;
  '(swapResult, liquidityFee) ←
    CalcSwapResult toFury Xincl sentAmount Yincl pmtpCurrentRunningRate swapFeeRate;
  if swapResult >=? Y then Err (EClp ErrNotEnoughAssetTokens) else
  pool' ← UpdateBalances pool toFury X sentAmount Y swapResult;
  Ok (swapResult, liquidityFee, priceImpact, pool').

Definition GetSwapFee (sentAmount : Z) (to : Asset) (pool : Pool)
    (pmtpCurrentRunningRate swapFeeRate : Z) : res Z :=
  let '(X, Y, toFury, _) := ExtractValues pool to in
  '(X, Y) ← ExtractDebt pool X Y toFury;
  '(swapResult, _) ← CalcSwapResult toFury X sentAmount Y pmtpCurrentRunningRate swapFeeRate;
  Ok (if swapResult >=? Y then 0 else swapResult).

(** [sdk.Uint(Int)] only changes the type. *)
Definition CalculateDiscountedSentAmount (sentAmount swapFeeRate : Z) : res Z :=
  m ← d_mul (d_of_big sentAmount) swapFeeRate;
  fee ← d_round m;
  u_sub sentAmount fee.
End WithSdk.
