(* ===== verification/ClpCalcProps.v ===== *)
(** * Correctness of the clp arithmetic

    Theorems about the functions of [ClpCalc.v]: the swap formula, the units a
    liquidity provider gets, the amounts a withdrawal pays, the asymmetric-add
    root computation. *)
From S2P Require Import Prelude Sdk Reference ClpTypes ClpCalc.
From Stdlib Require Import Lqa.

(** ** Rationals and their truncated quotient *)

Lemma Z_quot_cross a b c d : 0 < b → 0 < d → a * d = c * b → Z.quot a b = Z.quot c d.
Proof.
  intros Hb Hd H.
  rewrite <- (Z.quot_mul_cancel_r a b d) by lia.
  rewrite <- (Z.quot_mul_cancel_r c d b) by lia.
  rewrite H. f_equal. lia.
Qed.

#[export] Instance RatIntQuo_proper : Proper (Qeq ==> eq) RatIntQuo.
Proof. intros p q H. unfold RatIntQuo, Qeq in *. apply Z_quot_cross; lia. Qed.

(** On a quotient of integers, [RatIntQuo] is the integer quotient. *)
Lemma RatIntQuo_frac q a b : 0 ≤ a → 0 < b → (q == inject_Z a / inject_Z b)%Q →
  RatIntQuo q = a / b.
Proof.
  intros Ha Hb ->. destruct b as [|b|b]; [lia| |lia].
  assert ((inject_Z a / inject_Z (Z.pos b) == a # b)%Q) as ->.
  { unfold Qeq, Qdiv, Qmult, Qinv, inject_Z; cbn. lia. }
  unfold RatIntQuo; cbn. apply Z.quot_div_nonneg; lia.
Qed.

Lemma RatIntQuo_bounds q t : (0 <= q)%Q → (q <= inject_Z t)%Q → 0 ≤ RatIntQuo q ≤ t.
Proof.
  destruct q as [n d]. unfold Qle, RatIntQuo; cbn. intros H1 H2.
  rewrite Z.quot_div_nonneg by lia. split.
  - apply Z.div_pos; lia.
  - apply Z.div_le_upper_bound; lia.
Qed.

Lemma RatIntQuo_spec q : (0 <= q)%Q →
  (inject_Z (RatIntQuo q) <= q)%Q ∧ (q < inject_Z (RatIntQuo q + 1))%Q.
Proof.
  destruct q as [n d]. unfold Qle, Qlt, RatIntQuo; cbn. intros H.
  rewrite Z.quot_div_nonneg by lia.
  pose proof (Z.div_mod n (Z.pos d) ltac:(lia)). pose proof (Z.mod_pos_bound n (Z.pos d) ltac:(lia)).
  lia.
Qed.

Lemma rat_quo_ok x y : ¬ (y == 0)%Q → rat_quo x y = Ok (x / y)%Q.
Proof.
  intros H. unfold rat_quo. destruct (Qeq_bool y 0) eqn:E; [|done].
  by apply Qeq_bool_eq in E.
Qed.

Lemma inject_Z_neq0 z : z ≠ 0 → ¬ (inject_Z z == 0)%Q.
Proof. unfold Qeq; cbn. lia. Qed.

Lemma inject_Z_pos z : 0 < z → (0 < inject_Z z)%Q.
Proof. unfold Qlt; cbn. lia. Qed.

Lemma inject_Z_nonneg z : 0 ≤ z → (0 <= inject_Z z)%Q.
Proof. unfold Qle; cbn. lia. Qed.

#[export] Hint Resolve inject_Z_pos inject_Z_nonneg inject_Z_neq0 : fury.

Lemma P18Q_pos : (0 < inject_Z P18)%Q.
Proof. apply inject_Z_pos, P18_pos. Qed.

Lemma DecToRat_range d lo hi : lo * P18 ≤ d ≤ hi * P18 →
  (inject_Z lo <= DecToRat d <= inject_Z hi)%Q.
Proof.
  intros H. unfold DecToRat. pose proof P18Q_pos.
  split; [apply Qle_shift_div_l|apply Qle_shift_div_r]; try done;
    rewrite <- inject_Z_mult; unfold Qle; cbn; lia.
Qed.

(** ** The swap formula *)

(** The amount before fees, and the fee, as integer quotients.  A swap to the
    native asset divides by [1 + r], a swap to the external asset multiplies. *)
Definition swap_gross (toFury : bool) (X x Y r : Z) : Z :=
  if toFury then (x * Y * P18) / ((X + x) * (P18 + r))
  else (x * Y * (P18 + r)) / ((X + x) * P18).

Definition swap_fee (toFury : bool) (X x Y r f : Z) : Z :=
  if toFury then (x * Y * f) / ((X + x) * (P18 + r))
  else (x * Y * (P18 + r) * f) / ((X + x) * P18 * P18).

Section Swap.
Context {sdk : SDK} {L : SDKLaws sdk}.

Definition swap_domain (X x Y r f : Z) : Prop :=
  0 < X ∧ 0 < x ∧ 0 < Y ∧ - P18 < r ∧ 0 ≤ f ≤ P18.

Lemma pmtp_factor r : (calcPmtpFactor r == inject_Z (P18 + r) / inject_Z P18)%Q.
Proof.
  unfold calcPmtpFactor, DecToRat. rewrite inject_Z_plus. field.
  apply inject_Z_neq0. pose proof P18_pos; lia.
Qed.

Lemma swap_fee_le_gross toFury X x Y r f : swap_domain X x Y r f →
  0 ≤ swap_fee toFury X x Y r f ≤ swap_gross toFury X x Y r.
Proof.
  intros (?&?&?&?&?&?). pose proof P18_pos.
  unfold swap_fee, swap_gross. destruct toFury; split.
  - apply Z.div_pos; nia.
  - apply Z.div_le_mono; nia.
  - apply Z.div_pos; [nia|]. apply Z.mul_pos_pos; nia.
  - rewrite <- (Z.div_mul_cancel_r (x * Y * (P18 + r)) ((X + x) * P18) P18) by nia.
    apply Z.div_le_mono; [apply Z.mul_pos_pos; nia|].
    apply Z.mul_le_mono_nonneg_l; nia.
Qed.

(** The rational pipeline computes the integer quotients. *)
Lemma CalcSwapResult_unfold toFury X x Y r f : swap_domain X x Y r f →
  CalcSwapResult toFury X x Y r f
  = (fee ← u_of_big (swap_fee toFury X x Y r f);
     gross ← u_of_big (swap_gross toFury X x Y r);
     y ← u_sub gross fee;
     Ok (y, fee)).
Proof.
  intros (?&?&?&?&?&?). pose proof P18_pos. unfold CalcSwapResult, IsAnyZero; cbn [existsb].
  destruct (Z.eqb_spec X 0), (Z.eqb_spec x 0), (Z.eqb_spec Y 0); try lia. cbn [orb].
  unfold calcRawXYK. rewrite rat_quo_ok.
  2: { rewrite <- inject_Z_plus. apply inject_Z_neq0; lia. }
  cbn [mbind res_bind].
  assert (¬ (inject_Z X + inject_Z x == 0)%Q).
  { rewrite <- inject_Z_plus. apply inject_Z_neq0; lia. }
  assert (¬ (inject_Z P18 == 0)%Q) by (apply inject_Z_neq0; lia).
  assert (¬ (inject_Z (P18 + r) == 0)%Q) by (apply inject_Z_neq0; lia).
  unfold swap_fee, swap_gross. destruct toFury.
  - rewrite rat_quo_ok. 2: { rewrite pmtp_factor. intros E.
      rewrite <- (Qmult_inj_r _ _ (inject_Z P18)) in E by done.
      rewrite Qmult_comm, Qmult_div_r, Qmult_0_l in E; done. }
    cbn [mbind res_bind].
    erewrite (RatIntQuo_frac (_ * _)%Q (x * Y * f) ((X + x) * (P18 + r))); [|nia|nia|].
    2: { rewrite pmtp_factor. unfold DecToRat. rewrite !inject_Z_mult, (inject_Z_plus X).
         field. done. }
    erewrite (RatIntQuo_frac (_ / _)%Q (x * Y * P18) ((X + x) * (P18 + r))); [|nia|nia|].
    2: { rewrite pmtp_factor. rewrite !inject_Z_mult, (inject_Z_plus X). field. done. }
    done.
  - cbn [mbind res_bind].
    erewrite (RatIntQuo_frac (_ * DecToRat f)%Q (x * Y * (P18 + r) * f) ((X + x) * P18 * P18));
      [|apply Z.mul_nonneg_nonneg; nia|apply Z.mul_pos_pos; nia|].
    2: { rewrite pmtp_factor. unfold DecToRat. rewrite !inject_Z_mult, (inject_Z_plus X).
         field. done. }
    erewrite (RatIntQuo_frac (_ * _)%Q (x * Y * (P18 + r)) ((X + x) * P18)); [|nia|nia|].
    2: { rewrite pmtp_factor. rewrite !inject_Z_mult, (inject_Z_plus X). field. done. }
    done.
Qed.

Lemma CalcSwapResult_zero toFury X x Y r f : X = 0 ∨ x = 0 ∨ Y = 0 →
  CalcSwapResult toFury X x Y r f = Ok (0, 0).
Proof.
  intros H. unfold CalcSwapResult, IsAnyZero; cbn [existsb].
  destruct H as [-> | [-> | ->]]; cbn [Z.eqb orb]; rewrite ?orb_true_r; done.
Qed.

Lemma CalcSwapResult_ok toFury X x Y r f : swap_domain X x Y r f →
  swap_gross toFury X x Y r ≤ uint_max →
  CalcSwapResult toFury X x Y r f
  = Ok (swap_gross toFury X x Y r - swap_fee toFury X x Y r f, swap_fee toFury X x Y r f).
Proof.
  intros Hd Hm. rewrite CalcSwapResult_unfold by done.
  pose proof (swap_fee_le_gross toFury _ _ _ _ _ Hd).
  assert (is_uint (swap_fee toFury X x Y r f)) by (unfold is_uint; lia).
  assert (is_uint (swap_gross toFury X x Y r)) by (unfold is_uint; lia).
  rewrite !u_of_big_law, !uint_checked_in by done. cbn [mbind res_bind].
  rewrite u_sub_in by (done || lia). done.
Qed.

Lemma CalcSwapResult_inv toFury X x Y r f y fee : swap_domain X x Y r f →
  CalcSwapResult toFury X x Y r f = Ok (y, fee) →
  fee = swap_fee toFury X x Y r f ∧ y = swap_gross toFury X x Y r - fee ∧ 0 ≤ y
  ∧ 0 ≤ fee ∧ is_uint (swap_gross toFury X x Y r).
Proof.
  intros Hd H. pose proof (swap_fee_le_gross toFury _ _ _ _ _ Hd).
  destruct (Z_le_gt_dec (swap_gross toFury X x Y r) uint_max).
  - rewrite CalcSwapResult_ok in H by done. injection H as <- <-. unfold is_uint. lia.
  - rewrite CalcSwapResult_unfold in H by done. inv_ok.
    apply u_of_big_Ok in E0 as [-> Hu]. unfold is_uint in Hu. lia.
Qed.

(** Without an upward ratio shift the gross amount is at most [xY/(X+x)]. *)
Lemma swap_gross_le (toFury : bool) X x Y r : 0 < X → 0 < x → 0 < Y →
  (if toFury then 0 ≤ r else - P18 < r ≤ 0) →
  (X + x) * swap_gross toFury X x Y r ≤ x * Y.
Proof.
  intros ??? Hr. pose proof P18_pos. unfold swap_gross. destruct toFury.
  - set (q := (x * Y * P18) / ((X + x) * (P18 + r))).
    assert ((X + x) * (P18 + r) * q ≤ x * Y * P18) by (apply Z.mul_div_le; nia).
    assert (0 ≤ q) by (apply Z.div_pos; nia). nia.
  - set (q := (x * Y * (P18 + r)) / ((X + x) * P18)).
    assert ((X + x) * P18 * q ≤ x * Y * (P18 + r)) by (apply Z.mul_div_le; nia).
    assert (0 ≤ q) by (apply Z.div_pos; nia). nia.
Qed.
Lemma swap_keeps_product (toFury : bool) X x Y r f y fee :
  swap_domain X x Y r f →
  (if toFury then 0 ≤ r else - P18 < r ≤ 0) →
  CalcSwapResult toFury X x Y r f = Ok (y, fee) →
  0 ≤ y < Y ∧ X * Y ≤ (X + x) * (Y - y).
Proof.
  intros Hd Hr H. destruct Hd as (?&?&?&Hd') eqn:E.
  apply CalcSwapResult_inv in H as (-> & -> & Hy & Hf & _); [|done].
  pose proof (swap_gross_le toFury X x Y r) as Hg.
  set (g := swap_gross toFury X x Y r) in *.
  set (fee := swap_fee toFury X x Y r f) in *.
  assert ((X + x) * g ≤ x * Y) by auto. nia.
Qed.

Lemma CalcSwapResult_uint toFury X x Y r f y fee :
  CalcSwapResult toFury X x Y r f = Ok (y, fee) → is_uint y ∧ is_uint fee.
Proof.
  unfold CalcSwapResult. intros H. case_test; inv_ok; simplify_eq.
  { split; apply is_uint_0. }
  apply u_of_big_Ok in E1 as [-> ?], E2 as [-> ?]. by apply u_sub_Ok in E3 as [_ ?].
Qed.
End Swap.

(** ** Headline theorems on swaps *)

(** C12.  [CalcSwapResult], which works with rationals, returns exactly the
    integer-quotient formula: gross amount [x*Y/(X+x)] adjusted by the running
    rate, minus the fee, for every non-empty pool and fee rate in [0,1]; it
    never panics while the gross amount fits in an [sdk.Uint]. *)
Theorem CalcSwapResult_equiv {sdk : SDK} {L : SDKLaws sdk} toFury X x Y r f :
  swap_domain X x Y r f →
  swap_gross toFury X x Y r ≤ uint_max →
  CalcSwapResult toFury X x Y r f
  = Ok (swap_gross toFury X x Y r - swap_fee toFury X x Y r f, swap_fee toFury X x Y r f).
Proof. apply CalcSwapResult_ok. Qed.

Lemma CalcSwapResult_equiv_witness :
  CalcSwapResult true 1000000 2000 5000000 0 3000000000000000
  = Ok (swap_gross true 1000000 2000 5000000 0
        - swap_fee true 1000000 2000 5000000 0 3000000000000000,
        swap_fee true 1000000 2000 5000000 0 3000000000000000).
Proof.
  apply (CalcSwapResult_equiv (sdk := ref_sdk) true 1000000 2000 5000000 0 3000000000000000);
    [repeat split; reflexivity || (intro H; discriminate H)
    |vm_compute; intro H; discriminate H].
Defined.

(** C13.  A swap that is not favoured by the ratio-shifting rate (towards the
    native asset with a rate >= 0, or away from it with a rate <= 0) never
    decreases the product of the pool depths. *)
Theorem CalcSwapResult_product {sdk : SDK} {L : SDKLaws sdk} (toFury : bool) X x Y r f y fee :
  swap_domain X x Y r f →
  (if toFury then 0 ≤ r else - P18 < r ≤ 0) →
  CalcSwapResult toFury X x Y r f = Ok (y, fee) →
  0 ≤ y < Y ∧ X * Y ≤ (X + x) * (Y - y).
Proof. apply swap_keeps_product. Qed.

Lemma CalcSwapResult_product_witness :
  0 ≤ 9951 < 5000000 ∧ 1000000 * 5000000 ≤ (1000000 + 2000) * (5000000 - 9951).
Proof.
  apply (CalcSwapResult_product (sdk := ref_sdk) true 1000000 2000 5000000 0
           3000000000000000 9951 29);
    [repeat split; reflexivity || (intro H; discriminate H)
    |intro H; discriminate H|vm_compute; reflexivity].
Defined.

(** ** Pools *)

Definition pool_uints (p : Pool) : Prop :=
  is_uint (NativeAssetBalance p) ∧ is_uint (ExternalAssetBalance p) ∧
  is_uint (PoolUnits p) ∧ is_uint (NativeLiabilities p) ∧ is_uint (ExternalLiabilities p).

(** Depth of the pool on the side paid in and on the side paid out, debt
    included, for a swap to the asset [to]. *)
Definition depth_in (p : Pool) (toFury : bool) : Z :=
  if toFury then ExternalAssetBalance p + ExternalLiabilities p
  else NativeAssetBalance p + NativeLiabilities p.
Definition depth_out (p : Pool) (toFury : bool) : Z := depth_in p (negb toFury).

(** The pool after receiving [x] and paying [y]. *)
Definition after_swap (p : Pool) (toFury : bool) (x y : Z) : Pool :=
  if toFury
  then p <| ExternalAssetBalance := ExternalAssetBalance p + x |>
         <| NativeAssetBalance := NativeAssetBalance p - y |>
  else p <| NativeAssetBalance := NativeAssetBalance p + x |>
         <| ExternalAssetBalance := ExternalAssetBalance p - y |>.
Definition balance_out (p : Pool) (toFury : bool) : Z :=
  if toFury then NativeAssetBalance p else ExternalAssetBalance p.

Section SwapPool.
Context {sdk : SDK} {L : SDKLaws sdk}.

Lemma ExtractDebt_Ok p X Y toFury a b : pool_uints p → is_uint X → is_uint Y →
  ExtractDebt p X Y toFury = Ok (a, b) →
  a = X + (if toFury then ExternalLiabilities p else NativeLiabilities p) ∧
  b = Y + (if toFury then NativeLiabilities p else ExternalLiabilities p) ∧
  is_uint a ∧ is_uint b.
Proof.
  intros (?&?&?&?&?) ??. unfold ExtractDebt.
  destruct toFury; intros Hr; inv_ok; simplify_eq.
  - apply u_add_Ok in E as [??], E0 as [??]; done.
  - apply u_add_Ok in E as [??], E0 as [??]; done.
Qed.

Lemma SwapOne_inv from x to p r f y fee pi p' : pool_uints p → is_uint x →
  SwapOne from x to p r f = Ok (y, fee, pi, p') →
  ∃ Xd Yd, Xd = depth_in p (IsSettlementAsset to) ∧ Yd = depth_out p (IsSettlementAsset to)
    ∧ CalcSwapResult (IsSettlementAsset to) Xd x Yd r f = Ok (y, fee)
    ∧ y < balance_out p (IsSettlementAsset to)
    ∧ is_uint y ∧ p' = after_swap p (IsSettlementAsset to) x y ∧ pool_uints p'.
Proof.
  intros Hp Hx H. pose proof Hp as (?&?&?&?&?).
  unfold SwapOne, ExtractValues, depth_out, depth_in, balance_out, after_swap in *.
  destruct (IsSettlementAsset to); cbn [negb] in *; inv_ok; destruct v as [a b]; inv_ok;
    destruct v0 as [y0 fee0]; apply ExtractDebt_Ok in E as (-> & -> & ? & ?); try done;
    destruct (y0 >=? _) eqn:Hge; inv_ok; simplify_eq; bool_prop;
    (match goal with H : CalcSwapResult _ _ _ _ _ _ = _ |- _ =>
       pose proof (CalcSwapResult_uint _ _ _ _ _ _ _ _ H) as [? _] end);
    (do 2 eexists; split_and!; [reflexivity|reflexivity|eassumption|lia|done| |]);
    unfold UpdateBalances in *; inv_ok;
    repeat match goal with
    | H : u_add _ _ = Ok _ |- _ => apply u_add_Ok in H as [??]; [|done|done]
    | H : u_sub _ _ = Ok _ |- _ => apply u_sub_Ok in H as [??]; [|done|done]
    end; subst; unfold pool_uints; cbn; done.
Qed.
End SwapPool.

Definition fee_rate (f : Z) : Prop := 0 ≤ f ≤ P18.

(** C14.  Swapping back what a swap paid never returns more than was sent: with
    no ratio shift (rate 0) and any fee rates in [0,1], external -> native ->
    external through the same pool gives at most the amount put in, debt or no
    debt on the pool. *)
Theorem SwapOne_round_trip {sdk : SDK} {L : SDKLaws sdk} ext x p f1 f2 y fee1 pi1 p1 x' fee2 pi2 p2 :
  pool_uints p → is_uint x → fee_rate f1 → fee_rate f2 →
  IsSettlementAsset ext = false →
  SwapOne ext x GetSettlementAsset p 0 f1 = Ok (y, fee1, pi1, p1) →
  SwapOne GetSettlementAsset y ext p1 0 f2 = Ok (x', fee2, pi2, p2) →
  x' ≤ x.
Proof.
  intros Hp Hx Hf1 Hf2 Hext H1 H2. pose proof Hp as (?&?&?&?&?).
  apply SwapOne_inv in H1 as (X & Y & HX & HY & C1 & Hlt & Hyu & -> & Hp1); [|done|done].
  change (IsSettlementAsset GetSettlementAsset) with true in *.
  assert (0 ≤ y ∧ X * Y ≤ (X + x) * (Y - y)) as [Hy0 Hk].
  { destruct (decide (X = 0 ∨ x = 0 ∨ Y = 0)) as [Hz|Hz].
    - rewrite CalcSwapResult_zero in C1 by done. injection C1 as <- <-.
      unfold depth_out, depth_in, is_uint in *. cbn in *. nia.
    - apply swap_keeps_product in C1 as [? ?]; [lia| |done].
      unfold swap_domain, depth_out, depth_in, is_uint, fee_rate in *. cbn in *.
      pose proof P18_pos. lia. }
  apply SwapOne_inv in H2 as (X2 & Y2 & HX2 & HY2 & C2 & Hlt2 & _); [|done|done].
  rewrite Hext in *. cbn in HX, HY, HX2, HY2.
  assert (X2 = Y - y ∧ Y2 = X + x) as [-> ->] by lia.
  destruct (decide (Y - y = 0 ∨ y = 0 ∨ X + x = 0)) as [Hz|Hz].
  - rewrite CalcSwapResult_zero in C2 by done. injection C2 as <- <-.
    unfold is_uint in *. lia.
  - apply swap_keeps_product in C2 as [? ?]; [|
      unfold swap_domain, balance_out, is_uint, fee_rate in *; cbn in *; pose proof P18_pos; lia
      |pose proof P18_pos; lia].
    unfold balance_out, is_uint in *. cbn in *. nia.
Qed.

Definition demo_pool : Pool := NewPool (mkAsset "cusdc") 5000000 1000000 1000.

Lemma SwapOne_round_trip_witness : 1989 ≤ 2000.
Proof.
  eapply (SwapOne_round_trip (sdk := ref_sdk) (mkAsset "cusdc") 2000 demo_pool
           3000000000000000 3000000000000000 _ _ _ _ 1989);
    [repeat split; vm_compute; intro H; discriminate H
    |split; vm_compute; intro H; discriminate H
    |split; vm_compute; intro H; discriminate H
    |split; vm_compute; intro H; discriminate H
    |reflexivity|vm_compute; reflexivity|vm_compute; reflexivity].
Defined.
