(* ===== verification/ClpUnitsProps.v ===== *)
(** * Units for added liquidity

    [CalculatePoolUnits] and the two asymmetric-swap root computations of
    [ClpCalc.v]: they never take the square root of a negative number, never ask
    to swap more than was added, and never dilute the other providers. *)
From S2P Require Import Prelude Sdk Reference ClpTypes ClpCalc ClpCalcProps.
From Stdlib Require Import Lqa.

Local Open Scope Q_scope.

(** ** Integer square roots of rationals *)

Lemma ApproxRatSquareRoot_ok z : 0 <= z →
  ∃ q, ApproxRatSquareRoot z = Ok q ∧ (0 ≤ q)%Z ∧
       inject_Z q * inject_Z q <= z ∧ z < (inject_Z q + 1) * (inject_Z q + 1).
Proof.
  intros Hz. destruct (RatIntQuo_spec z Hz) as [Hlo Hhi].
  assert (0 ≤ RatIntQuo z)%Z as Hn.
  { destruct (RatIntQuo_bounds z (RatIntQuo z + 1) Hz); [|lia]. by apply Qlt_le_weak. }
  unfold ApproxRatSquareRoot, big_sqrt. destruct (Z.ltb_spec (RatIntQuo z) 0); [lia|].
  exists (Z.sqrt (RatIntQuo z)).
  pose proof (Z.sqrt_spec (RatIntQuo z) Hn) as [Hs1 Hs2].
  split_and!; [done|apply Z.sqrt_nonneg| |].
  - rewrite <- inject_Z_mult. eapply Qle_trans; [|exact Hlo]. unfold Qle; cbn; lia.
  - change 1 with (inject_Z 1). rewrite <- inject_Z_plus, <- inject_Z_mult.
    eapply Qlt_le_trans; [exact Hhi|]. unfold Qle; cbn; lia.
Qed.

(** ** The positive root of [A s^2 + B s - C] from an integer square root

    When [t] is on the right of the root, the truncated root is at most [t]. *)
Lemma root_bound (A B C z t : Q) q :
  1 <= A → 0 <= C → z == B * B + 4 * A * C →
  (0 ≤ q)%Z → inject_Z q * inject_Z q <= z → z < (inject_Z q + 1) * (inject_Z q + 1) →
  1 <= t → 0 <= A * t * t + B * t - C →
  Qabs ((inject_Z q - B) / (2 * A)) <= t.
Proof.
  intros HA HC Hz Hq Hq1 Hq2 Ht Hpos. set (s := inject_Z q) in *.
  assert (0 <= s) by (apply inject_Z_nonneg; done).
  assert (0 < 2 * A) by lra.
  assert (B < s + 1) as Hlow by nra.
  assert (0 <= 2 * A * t + B) as Hnn.
  { destruct (Qlt_le_dec (2 * A * t + B) 0); [exfalso|done].
    assert (A * t + B < 0) by nra. nra. }
  assert (s <= 2 * A * t + B) as Hup.
  { destruct (Qlt_le_dec (2 * A * t + B) s); [exfalso|done].
    assert ((2 * A * t + B) * (2 * A * t + B) < s * s) by nra.
    assert ((2 * A * t + B) * (2 * A * t + B) == 4 * A * (A * t * t + B * t - C) + z) as He.
    { rewrite Hz. ring. }
    assert (0 <= 4 * A * (A * t * t + B * t - C)) by nra. lra. }
  apply Qabs_Qle_condition. split.
  - apply Qle_shift_div_l; [done|]. nra.
  - apply Qle_shift_div_r; [done|]. lra.
Qed.

(** Products of expressions that are linear-arithmetically non-negative. *)
Ltac qnonneg := repeat apply Qmult_le_0_compat; lra.

(** ** The external amount to swap *)
Section External.
Variables Y X y x f r : Q.
Hypotheses (HY : 1 <= Y) (HX : 1 <= X) (Hy : 0 <= y) (Hx : 1 <= x)
           (Hf : 0 <= f <= 1) (Hr : 0 <= r) (Hmore : y * X <= Y * x).

Let D := Y * (x + X).
Let E := X * (y + Y).
Let B := 2 * (1 + r) * E - (r + f) * D.
Let A := (1 + r) * (y + Y).
Let C := (1 + r) * X * (x * Y - X * y).

Lemma external_root :
  ∃ q, CalculateExternalSwapAmountAsymmetricRat Y X y x f r = Ok q ∧ 0 <= q <= x.
Proof using All.
  assert (0 <= D) by (unfold D; qnonneg). assert (0 <= E) by (unfold E; qnonneg).
  assert (1 <= A) as HA.
  { assert (0 <= r * (y + Y)) by qnonneg. unfold A. lra. }
  assert (0 <= C) as HC by (unfold C; qnonneg).
  set (z := D * (D * ((f + r) * (f + r)) + 4 * E * (1 + r) * (1 - f))).
  assert (0 <= z) as Hz.
  { unfold z. assert (0 <= D * ((f + r) * (f + r))) by qnonneg.
    assert (0 <= 4 * E * (1 + r) * (1 - f)) by qnonneg. qnonneg. }
  unfold CalculateExternalSwapAmountAsymmetricRat.
  match goal with |- context [ApproxRatSquareRoot ?e] =>
    assert (e == z) as Hez by (unfold z, D, E; ring); set (e0 := e) in * end.
  destruct (ApproxRatSquareRoot_ok e0) as (q & -> & Hq & Hq1 & Hq2); [by rewrite Hez|].
  rewrite Hez in Hq1, Hq2. cbn [mbind res_bind].
  rewrite rat_quo_ok by (intros He; unfold A in HA; nra).
  cbn [mbind res_bind]. eexists; split; [done|]. split; [apply Qabs_nonneg|].
  match goal with |- Qabs (?n / ?d) <= _ =>
    assert (n / d == (inject_Z q - B) / (2 * A)) as -> end.
  { unfold A, B, D, E in *. field. split; intros He; nra. }
  eapply (root_bound A B C z); try done.
  - unfold z, A, B, C, D, E. ring.
  - assert (A * x * x + B * x - C == (1 + r) * y * ((x + X) * (x + X)) + (1 - f) * D * x) as ->.
    { unfold A, B, C, D, E. ring. }
    assert (0 <= (1 + r) * y * ((x + X) * (x + X))) by qnonneg.
    assert (0 <= (1 - f) * D * x) by qnonneg. lra.
Qed.
End External.

(** ** The native amount to swap *)
Section Native.
Variables Y X y x f r : Q.
Hypotheses (HY : 1 <= Y) (HX : 1 <= X) (Hy : 1 <= y) (Hx : 0 <= x)
           (Hf : 0 <= f <= 1) (Hr : 0 <= r) (Hmore : Y * x <= y * X).

Let A := x + X.
Let B := X * (y + Y) * ((1 + r) * (1 - f) - 1) + 2 * Y * (x + X).
Let C := Y * (X * y - x * Y).

Lemma native_root :
  ∃ q, CalculateNativeSwapAmountAsymmetricRat Y X y x f r = Ok q ∧ 0 <= q <= y.
Proof using All.
  assert (1 <= A) as HA by (unfold A; lra).
  assert (0 <= C) as HC by (unfold C; qnonneg).
  set (z := B * B + 4 * A * C).
  assert (0 <= z) as Hz.
  { assert (0 <= 4 * A * C) by qnonneg. unfold z. nra. }
  unfold CalculateNativeSwapAmountAsymmetricRat.
  match goal with |- context [ApproxRatSquareRoot ?e] =>
    assert (e == z) as Hez by (unfold z, A, B, C; ring); set (e0 := e) in * end.
  destruct (ApproxRatSquareRoot_ok e0) as (q & -> & Hq & Hq1 & Hq2); [by rewrite Hez|].
  rewrite Hez in Hq1, Hq2. cbn [mbind res_bind].
  rewrite rat_quo_ok by (intros He; unfold A in HA; lra).
  cbn [mbind res_bind]. eexists; split; [done|]. split; [apply Qabs_nonneg|].
  match goal with |- Qabs (?n / ?d) <= _ =>
    assert (n / d == (inject_Z q - B) / (2 * A)) as -> end.
  { unfold A, B in *. field. intros He; lra. }
  eapply (root_bound A B C z); try done.
  assert (A * y * y + B * y - C
          == x * ((y + Y) * (y + Y)) + X * (y + Y) * y * ((1 + r) * (1 - f))) as ->.
  { unfold A, B, C. ring. }
  assert (0 <= x * ((y + Y) * (y + Y))) by qnonneg.
  assert (0 <= X * (y + Y) * y * ((1 + r) * (1 - f))) by qnonneg. lra.
Qed.
End Native.

Local Close Scope Q_scope.
Local Open Scope Z_scope.

(** Classification of an addition of [x], [y] to a pool with depths [X], [Y]. *)
Lemma GetLiquidityAddSymmetryState_spec X x Y y :
  0 ≤ X → 0 ≤ x → 0 ≤ Y → 0 ≤ y →
  GetLiquidityAddSymmetryState X x Y y = Ok (
    if (X =? 0) || (Y =? 0) then ErrorEmptyPool
    else if (x =? 0) && (y =? 0) then ErrorNothingAdded
    else match Y * x ?= y * X with Lt => NeedMoreX | Eq => Symmetric | Gt => NeedMoreY end).
Proof.
  intros ????. unfold GetLiquidityAddSymmetryState.
  destruct (Z.eqb_spec X 0), (Z.eqb_spec Y 0), (Z.eqb_spec x 0), (Z.eqb_spec y 0);
    cbn [orb andb]; try done; subst.
  - replace (Y * 0 ?= y * X) with Lt; [done|]. symmetry. apply Z.compare_lt_iff. nia.
  - rewrite !rat_quo_ok by auto with fury. cbn [mbind res_bind].
    replace (inject_Z Y / inject_Z X ?= inject_Z 0 / inject_Z x)%Q with Gt.
    { replace (Y * x ?= 0 * X) with Gt; [done|]. symmetry. apply Z.compare_gt_iff. nia. }
    symmetry. apply Qgt_alt.
    assert (inject_Z 0 / inject_Z x == 0)%Q as -> by (field; auto with fury).
    apply Qlt_shift_div_l; [apply inject_Z_pos; lia|].
    assert (0 * inject_Z X == 0)%Q as -> by ring. apply inject_Z_pos. lia.
  - rewrite !rat_quo_ok by auto with fury. cbn [mbind res_bind]. do 2 f_equal.
    assert (0 < inject_Z X)%Q by (apply inject_Z_pos; lia).
    assert (0 < inject_Z x)%Q by (apply inject_Z_pos; lia).
    set (u := (inject_Z Y / inject_Z X)%Q). set (v := (inject_Z y / inject_Z x)%Q).
    assert (u * (inject_Z X * inject_Z x) == inject_Z (Y * x))%Q as Hu.
    { unfold u. rewrite inject_Z_mult. field. lra. }
    assert (v * (inject_Z X * inject_Z x) == inject_Z (y * X))%Q as Hv.
    { unfold v. rewrite inject_Z_mult. field. lra. }
    assert (0 < inject_Z X * inject_Z x)%Q by nra.
    destruct (Z.compare_spec (Y * x) (y * X)) as [He|He|He].
    + rewrite (proj1 (Qeq_alt u v)); [done|].
      apply (Qmult_inj_r _ _ (inject_Z X * inject_Z x)); [lra|]. by rewrite Hu, Hv, He.
    + rewrite (proj1 (Qlt_alt u v)); [done|].
      apply (Qmult_lt_r _ _ (inject_Z X * inject_Z x)); [done|].
      rewrite Hu, Hv. unfold Qlt; cbn; lia.
    + rewrite (proj1 (Qgt_alt u v)); [done|].
      apply (Qmult_lt_r _ _ (inject_Z X * inject_Z x)); [done|].
      rewrite Hu, Hv. unfold Qlt; cbn; lia.
Qed.

Definition running_rate (r : Z) : Prop := 0 ≤ r.

Section Units.
Context {sdk : SDK} {L : SDKLaws sdk}.

Lemma Qle_inj a b : a ≤ b → (inject_Z a <= inject_Z b)%Q.
Proof. unfold Qle; cbn. lia. Qed.

Lemma DecToRat_fee f : fee_rate f → (0 <= DecToRat f <= 1)%Q.
Proof. intros ?. apply (DecToRat_range f 0 1). unfold fee_rate in *. lia. Qed.

Lemma DecToRat_nonneg p : 0 ≤ p → (0 <= DecToRat p)%Q.
Proof.
  intros ?. apply (DecToRat_range p 0 p). pose proof P18_pos. nia.
Qed.

Lemma external_swap_ok R A r a f p :
  1 ≤ R → 1 ≤ A → 0 ≤ r → 1 ≤ a ≤ uint_max → fee_rate f → running_rate p → r * A ≤ R * a →
  ∃ s, CalculateExternalSwapAmountAsymmetric R A r a (DecToRat f) (DecToRat p) = Ok s
       ∧ 0 ≤ s ≤ a.
Proof.
  intros ?????? Hm. unfold CalculateExternalSwapAmountAsymmetric.
  destruct (external_root (inject_Z R) (inject_Z A) (inject_Z r) (inject_Z a)
              (DecToRat f) (DecToRat p)) as (q & -> & Hq0 & Hq1);
    [apply (Qle_inj 1); lia|apply (Qle_inj 1); lia|apply (Qle_inj 0); lia|apply (Qle_inj 1); lia
    |by apply DecToRat_fee|by apply DecToRat_nonneg
    |rewrite <- !inject_Z_mult; by apply Qle_inj|].
  cbn [mbind res_bind]. pose proof (RatIntQuo_bounds q a Hq0 Hq1).
  exists (RatIntQuo q). rewrite u_of_big_law, uint_checked_in; [done|]. unfold is_uint. lia.
Qed.

Lemma native_swap_ok R A r a f p :
  1 ≤ R → 1 ≤ A → 1 ≤ r ≤ uint_max → 0 ≤ a → fee_rate f → running_rate p → R * a ≤ r * A →
  ∃ s, CalculateNativeSwapAmountAsymmetric R A r a (DecToRat f) (DecToRat p) = Ok s
       ∧ 0 ≤ s ≤ r.
Proof.
  intros ?????? Hm. unfold CalculateNativeSwapAmountAsymmetric.
  destruct (native_root (inject_Z R) (inject_Z A) (inject_Z r) (inject_Z a)
              (DecToRat f) (DecToRat p)) as (q & -> & Hq0 & Hq1);
    [apply (Qle_inj 1); lia|apply (Qle_inj 1); lia|apply (Qle_inj 1); lia|apply (Qle_inj 0); lia
    |by apply DecToRat_fee|by apply DecToRat_nonneg
    |rewrite <- !inject_Z_mult; by apply Qle_inj|].
  cbn [mbind res_bind]. pose proof (RatIntQuo_bounds q r Hq0 Hq1).
  exists (RatIntQuo q). rewrite u_of_big_law, uint_checked_in; [done|]. unfold is_uint. lia.
Qed.

Lemma CalculatePoolUnitsSymmetric_ok X x P :
  1 ≤ X → 0 ≤ x → is_uint P → P * (1 + x) ≤ uint_max →
  ∃ u, CalculatePoolUnitsSymmetric X x P = Ok (P + u, u)
       ∧ 0 ≤ u ∧ u * X ≤ x * P < (u + 1) * X.
Proof.
  intros ?? HP ?. unfold CalculatePoolUnitsSymmetric.
  destruct (Z.eqb_spec X 0); [lia|]. cbn [mbind res_bind].
  unfold is_uint in *. rewrite Z.quot_div_nonneg by nia.
  set (u := x * P / X).
  assert (u * X ≤ x * P < (u + 1) * X) as Hu.
  { unfold u. pose proof (Z.div_mod (x * P) X ltac:(lia)).
    pose proof (Z.mod_pos_bound (x * P) X ltac:(lia)). lia. }
  assert (0 ≤ u) by (apply Z.div_pos; nia).
  assert (u ≤ x * P) by nia.
  exists u. rewrite u_of_big_law, uint_checked_in by (unfold is_uint; nia).
  cbn [mbind res_bind]. rewrite u_add_in by (unfold is_uint; nia). done.
Qed.
End Units.

(** The inputs of an addition to a pool: every amount is an [sdk.Uint] and the
    products that the unit computation forms stay in range. *)
Definition add_domain (P R A r a fs fb p : Z) : Prop :=
  is_uint P ∧ 0 ≤ R ∧ 0 ≤ A ∧ 0 ≤ r ∧ 0 ≤ a ∧ R + r ≤ uint_max ∧ A + a ≤ uint_max ∧
  P * (1 + r) ≤ uint_max ∧ P * (1 + a) ≤ uint_max ∧
  fee_rate fs ∧ fee_rate fb ∧ running_rate p.

(** What [CalculatePoolUnits] returns for a non-empty pool: [lp] new units with
    the swap [s] that makes the addition symmetric, at most what was added, and
    at most the share that keeps the value of the old units in the asset the
    units are computed in. *)
Definition add_result (P R A r a : Z) (out : Z * Z * SwapStatus * Z) : Prop :=
  let '(total, lp, st, s) := out in
  total = P + lp ∧ 0 ≤ lp ∧
  match st with
  | NoSwap => s = 0 ∧ total * R ≤ P * (R + r)
  | SellNative => 0 ≤ s ≤ r ∧ total * (R + s) ≤ P * (R + r)
  | BuyNative => 0 ≤ s ≤ a ∧ total * (A + s) ≤ P * (A + a)
  end.

(** The swap of an asymmetric addition, and the two sums that follow it. *)
Ltac add_step :=
  try lazymatch goal with
  | |- context [CalculateNativeSwapAmountAsymmetric ?R ?A ?r ?a (DecToRat ?f) (DecToRat ?p)] =>
      destruct (native_swap_ok R A r a f p) as (s & -> & Hs); try (lia || done)
  | |- context [CalculateExternalSwapAmountAsymmetric ?R ?A ?r ?a (DecToRat ?f) (DecToRat ?p)] =>
      destruct (external_swap_ok R A r a f p) as (s & -> & Hs); try (lia || done)
  end;
  cbn [mbind res_bind];
  try (rewrite u_sub_in, u_add_in by (unfold is_uint; lia)).

(** The units of a symmetric addition. *)
Ltac units_step :=
  lazymatch goal with |- context [CalculatePoolUnitsSymmetric ?X ?x ?P] =>
    destruct (CalculatePoolUnitsSymmetric_ok X x P) as (u & -> & ? & ? & ?);
    [lia|lia|done|nia|]
  end.

(** C27.  Adding liquidity to a non-empty pool never panics (in particular the
    square roots of the asymmetric case are never taken of a negative number,
    and the swap never exceeds the amount added), and it never dilutes the
    existing providers: the value of the old units in the asset the new units
    are computed in does not fall.  The condition is [add_domain]: the running
    rate is not negative, the fee rates lie between 0 and 1, and the depths after
    the addition and the products of pool units and added amounts fit an sdk.Uint.
    No handler checks the sign of the running rate: the example below evaluates
    what happens at rates of -1 and below. *)
Theorem CalculatePoolUnits_total {sdk : SDK} {L : SDKLaws sdk} P R A r a fs fb p :
  add_domain P R A r a fs fb p → R ≠ 0 → A ≠ 0 →
  ∃ out, CalculatePoolUnits P R A r a fs fb p = Ok out ∧ add_result P R A r a out.
Proof.
  intros (HP & ? & ? & ? & ? & ? & ? & ? & ? & Hfs & Hfb & Hp) HR HA.
  assert (0 ≤ P) by (unfold is_uint in HP; lia).
  unfold CalculatePoolUnits. rewrite GetLiquidityAddSymmetryState_spec by done.
  cbn [mbind res_bind].
  destruct (Z.eqb_spec A 0), (Z.eqb_spec R 0); try done. cbn [orb].
  destruct (Z.eqb_spec a 0) as [->|Ha], (Z.eqb_spec r 0) as [->|Hr]; cbn [andb].
  { eexists; split; [done|]. cbn. lia. }
  all: match goal with |- context [?u ?= ?v] =>
         destruct (Z.compare_spec u v) as [He|He|He] end; try nia.
  all: unfold is_uint in *; add_step; cbn [mbind res_bind]; units_step; cbn [mbind res_bind].
  all: eexists; (split; [reflexivity|]); cbn; split_and!; try lia; try nia.
Qed.

Lemma CalculatePoolUnits_total_witness :
  ∃ out, CalculatePoolUnits 7656454334323412 16767626535600 2345454545400 167676265356
           46798998888 100000000000000 100000000000000 0 = Ok out
         ∧ add_result 7656454334323412 16767626535600 2345454545400 167676265356
             46798998888 out.
Proof.
  apply (CalculatePoolUnits_total (sdk := ref_sdk)); [|lia|lia].
  repeat split; vm_compute; intro H; discriminate H.
Defined.

(** ModifyPmtpRates stores any decimal as running rate.  An addition to the external
    side alone computes at a rate of 0 and panics at -1, where the slope of the swap
    price vanishes; an addition to both sides panics at -3/2. *)
Example CalculatePoolUnits_negative_rate :
  let add r a p := CalculatePoolUnits (sdk := ref_sdk) 1000 1000000 1000000 r a 0 0 p in
  add 0 50000 0 = Ok (1024, 24, BuyNative, 24695) ∧ add 0 50000 (- P18) = Panic
  ∧ is_ok (add 50000 1000 0) = true ∧ add 50000 1000 (- (3 * P18 / 2)) = Panic.
Proof. vm_compute. done. Qed.
