(* ===== verification/ClpWithdrawProps.v ===== *)
(** * Withdrawals

    The amounts [CalculateWithdrawal] (basis points) and
    [CalculateWithdrawalFromUnits] (units) pay: they exist, are bounded by the
    depth of the pool, and are the provider's share up to rounding. *)
From S2P Require Import Prelude Sdk Reference ClpTypes ClpCalc ClpCalcProps.

Section Withdraw.
Context {sdk : SDK} {L : SDKLaws sdk}.

Lemma NewDec_val n : NewDec n = n * P18.
Proof. apply d_of_big_law. Qed.

Lemma must_ok {A} (r : res A) a : r = Ok a → must r = Ok a.
Proof. by intros ->. Qed.

Lemma must_ustr x : 0 ≤ x < 2 ^ 255 → must (d_of_str (u_str x)) = Ok (x * P18).
Proof. intros. by apply must_ok, d_of_ustr_law. Qed.

Lemma must_istr x : Z.abs x < 2 ^ 255 → must (d_of_str (i_str x)) = Ok (x * P18).
Proof. intros. by apply must_ok, d_of_istr_law. Qed.

Lemma trunc_uint x : 0 ≤ x < 2 ^ 255 * P18 →
  (n ← d_trunc x; u_of_big n) = Ok (x / P18).
Proof.
  intros ?. pose proof P18_pos. rewrite d_trunc_total by lia. cbn [mbind res_bind].
  rewrite Z.quot_div_nonneg by lia. rewrite u_of_big_law, uint_checked_in; [done|].
  unfold is_uint, uint_max. split; [apply Z.div_pos; lia|].
  assert (x / P18 < 2 ^ 255) by (apply Z.div_lt_upper_bound; lia). lia.
Qed.

Lemma round_uint x : 0 ≤ x < (2 ^ 255 - 1) * P18 →
  ∃ r, (n ← d_round x; u_of_big n) = Ok r ∧ nearest x r ∧ 0 ≤ r.
Proof.
  intros ?. pose proof P18_pos. destruct (d_round_total x) as [r Hr]; [lia|].
  pose proof (d_round_val _ _ Hr) as Hn. exists r. rewrite Hr. cbn [mbind res_bind].
  assert (0 ≤ r) by (eapply nearest_nonneg; [|done]; lia).
  assert (r ≤ 2 ^ 255 - 1) by (eapply nearest_le; [done|lia]).
  rewrite u_of_big_law, uint_checked_in; [done|]. unfold is_uint, uint_max. lia.
Qed.

Lemma d_quo_pos_ok x y : 0 ≤ x → 0 < y → x * P18 ≤ (dec_max - 1) * y →
  ∃ r, d_quo x y = Ok r ∧ 0 ≤ r.
Proof.
  intros. destruct (d_quo_total x y) as [r Hr]; [lia|lia|].
  exists r. split; [done|]. by eapply d_quo_nonneg.
Qed.
End Withdraw.

(** The provider holds [lp] of [pool] units; amounts are below 2^240. *)
Definition withdraw_domain (pool nd ed lp : Z) : Prop :=
  0 < lp ≤ pool ∧ pool < 2 ^ 240 ∧ 0 ≤ nd < 2 ^ 240 ∧ 0 ≤ ed < 2 ^ 240.

Section Symmetric.
Context {sdk : SDK} {L : SDKLaws sdk}.

(** The chain of quotients of a withdrawal of [claim] (a [Dec]) units. *)
Lemma withdraw_share pool claim : 0 < pool < 2 ^ 240 → 10 ^ 14 ≤ claim ≤ pool * P18 →
  ∃ share, d_quo (pool * P18) claim = Ok share ∧ P18 ≤ share.
Proof.
  intros ??. destruct (d_quo_pos_ok (pool * P18) claim) as (share & Hs & ?);
    [unfold P18; lia|lia|unfold P18, dec_max; lia|].
  exists share. split; [done|]. eapply d_quo_ge; [|  |exact Hs]; [lia|]. nia.
Qed.

Lemma withdraw_amount depth share : 0 ≤ depth < 2 ^ 240 → P18 ≤ share →
  ∃ w, d_quo (depth * P18) share = Ok w ∧ 0 ≤ w ≤ depth * P18.
Proof.
  intros ??. pose proof P18_pos.
  destruct (d_quo_pos_ok (depth * P18) share) as (w & Hw & ?);
    [nia|lia|unfold P18, dec_max in *; nia|].
  exists w. split; [done|]. split; [done|].
  eapply d_quo_le; [|  |exact Hw]; [lia|]. nia.
Qed.

Lemma claim_bounds lp w den claim : 0 < lp → 1 ≤ w ≤ 10000 →
  d_quo (NewDec 10000) (w * P18) = Ok den → d_quo (lp * P18) den = Ok claim →
  10 ^ 14 ≤ claim ≤ lp * P18.
Proof.
  intros ?? Hd Hc. rewrite NewDec_val in Hd. pose proof P18_pos.
  assert (P18 ≤ den) by (eapply d_quo_ge; [|  |exact Hd]; [lia|]; nia).
  assert (den ≤ 10000 * P18) by (eapply d_quo_le; [|  |exact Hd]; [lia|]; nia).
  split.
  - eapply d_quo_ge; [|  |exact Hc]; [lia|]. unfold P18 in *. nia.
  - eapply d_quo_le; [|  |exact Hc]; [lia|]. nia.
Qed.

Lemma CalculateWithdrawal_ok pool nd ed lp w :
  withdraw_domain pool nd ed lp → 1 ≤ w ≤ 10000 →
  ∃ claim n e, CalculateWithdrawal pool (u_str nd) (u_str ed) (u_str lp) (i_str w) 0
    = Ok (n / P18, e / P18, (lp * P18 - claim) / P18, 0)
    ∧ 10 ^ 14 ≤ claim ≤ lp * P18 ∧ 0 ≤ n ≤ nd * P18 ∧ 0 ≤ e ≤ ed * P18
    ∧ (w = 10000 → claim = lp * P18 ∧ (lp = pool → n = nd * P18 ∧ e = ed * P18)).
Proof.
  intros (?&?&?&?) ?. pose proof P18_pos. unfold CalculateWithdrawal.
  rewrite !must_ustr, !must_istr, d_of_big_law by lia. cbn [mbind res_bind].
  destruct (d_quo_pos_ok (NewDec 10000) (w * P18)) as (den & Hden & ?);
    [rewrite NewDec_val; lia|lia|rewrite NewDec_val; unfold P18, dec_max; lia|].
  assert (P18 ≤ den) by (rewrite NewDec_val in Hden;
    eapply d_quo_ge; [|  |exact Hden]; [lia|]; nia).
  rewrite Hden. cbn [mbind res_bind].
  destruct (d_quo_pos_ok (lp * P18) den) as (claim & Hclaim & ?);
    [lia|lia|unfold P18, dec_max in *; nia|].
  rewrite Hclaim. cbn [mbind res_bind].
  pose proof (claim_bounds lp w den claim ltac:(lia) ltac:(lia) Hden Hclaim) as Hcb.
  destruct (withdraw_share pool claim) as (share & Hshare & ?); [lia|nia|].
  rewrite Hshare. cbn [mbind res_bind].
  destruct (withdraw_amount ed share) as (e & He & ?); [lia|done|].
  rewrite He. cbn [mbind res_bind]. rewrite ?Hshare. cbn [mbind res_bind].
  destruct (withdraw_amount nd share) as (n & Hn & ?); [lia|done|].
  rewrite Hn. change (0 <? 0) with false. cbn [mbind res_bind].
  rewrite d_sub_total by (unfold P18, dec_max in *; lia). cbn [mbind res_bind].
  assert (∀ x, 0 ≤ x < 2 ^ 255 * P18 → d_trunc x = Ok (x / P18)) as Htr.
  { intros x ?. rewrite d_trunc_total by lia. by rewrite Z.quot_div_nonneg by lia. }
  assert (∀ x k, 0 ≤ x ≤ k * P18 → k < 2 ^ 240 → u_of_big (x / P18) = Ok (x / P18)) as Hu.
  { intros x k ??. rewrite u_of_big_law. apply uint_checked_in. unfold is_uint, uint_max.
    split; [apply Z.div_pos; lia|].
    apply Z.le_trans with k; [apply Z.div_le_upper_bound; lia|lia]. }
  rewrite (Htr n) by nia. cbn [mbind res_bind]. rewrite (Hu n nd) by lia. cbn [mbind res_bind].
  rewrite (Htr e) by nia. cbn [mbind res_bind]. rewrite (Hu e ed) by lia. cbn [mbind res_bind].
  rewrite (Htr (lp * P18 - claim)) by (unfold P18 in *; nia). cbn [mbind res_bind].
  rewrite (Hu (lp * P18 - claim) lp) by lia. cbn [mbind res_bind].
  rewrite NewDec_val, (Htr (0 * P18)) by lia. cbn [mbind res_bind].
  rewrite (Hu (0 * P18) 0) by lia. cbn [mbind res_bind].
  exists claim, n, e. split_and!; try done; try lia.
  intros ->. assert (den = P18) as ->.
  { rewrite NewDec_val in Hden. eapply d_quo_exact; [|  |exact Hden]; [lia|ring]. }
  assert (claim = lp * P18) as -> by (eapply d_quo_exact; [|  |exact Hclaim]; [lia|ring]).
  split; [done|]. intros ->.
  assert (share = P18) as -> by (eapply d_quo_exact; [|  |exact Hshare]; [lia|ring]).
  split; (eapply d_quo_exact; [|  |eassumption]; [lia|ring]).
Qed.
End Symmetric.

(** A withdrawal by basis points always computes (no division by zero, no
    overflow) on depths and units below 2^240: it never pays more than the
    pool's depth on either side and never leaves the provider with more units
    than it had; a full withdrawal leaves no units, and when the provider owns
    the whole pool it is paid exactly both depths. *)
Theorem CalculateWithdrawal_total {sdk : SDK} {L : SDKLaws sdk} pool nd ed lp w :
  withdraw_domain pool nd ed lp → 1 ≤ w ≤ 10000 →
  ∃ n e l, CalculateWithdrawal pool (u_str nd) (u_str ed) (u_str lp) (i_str w) 0
           = Ok (n, e, l, 0)
    ∧ 0 ≤ n ≤ nd ∧ 0 ≤ e ≤ ed ∧ 0 ≤ l ≤ lp
    ∧ (w = 10000 → l = 0 ∧ (lp = pool → n = nd ∧ e = ed)).
Proof.
  intros Hdom Hw. destruct (CalculateWithdrawal_ok pool nd ed lp w Hdom Hw)
    as (claim & n & e & -> & ? & ? & ? & Hfull).
  pose proof P18_pos.
  assert (∀ x k, 0 ≤ x ≤ k * P18 → 0 ≤ x / P18 ≤ k) as Hdiv.
  { intros. split; [apply Z.div_pos; lia|apply Z.div_le_upper_bound; lia]. }
  do 3 eexists. split; [done|].
  split; [by apply Hdiv|]. split; [by apply Hdiv|]. split; [apply Hdiv; lia|].
  intros He. destruct (Hfull He) as [-> Hsole]. rewrite Z.sub_diag. split; [done|].
  intros Hlp. destruct (Hsole Hlp) as [-> ->]. by rewrite !Z.div_mul by lia.
Qed.

Lemma CalculateWithdrawal_total_witness :
  ∃ n e l, CalculateWithdrawal 1000 (u_str 1000) (u_str 2000) (u_str 300) (i_str 5000) 0
           = Ok (n, e, l, 0)
    ∧ 0 ≤ n ≤ 1000 ∧ 0 ≤ e ≤ 2000 ∧ 0 ≤ l ≤ 300
    ∧ (5000 = 10000 → l = 0 ∧ (300 = 1000 → n = 1000 ∧ e = 2000)).
Proof.
  apply (CalculateWithdrawal_total (sdk := ref_sdk) 1000 1000 2000 300 5000);
    unfold withdraw_domain; lia.
Defined.

(** ** Withdrawals by units *)

(** [n] is [depth * u / pool] up to half a unit and one part in 10^18. *)
Definition fair_amount (pool depth u n : Z) : Prop :=
  2 * n * P18 * (pool * P18 - u)
    ≤ 2 * depth * u * (P18 * P18) + (P18 + 2) * (pool * P18 + u)
  ∧ 2 * depth * u * (P18 * P18) - (P18 + 2) * (pool * P18 + u)
    ≤ 2 * n * P18 * (pool * P18 + u).

Section FromUnits.
Context {sdk : SDK} {L : SDKLaws sdk}.

Lemma share_error pool u share : 0 < u ≤ pool →
  d_quo (pool * P18) (u * P18) = Ok share →
  pool * P18 - u ≤ share * u ≤ pool * P18 + u.
Proof.
  intros ? [_ H]%d_quo_val. pose proof P18_pos.
  replace (share * (u * P18) - pool * P18 * P18) with ((share * u - pool * P18) * P18) in H
    by ring.
  rewrite !Z.abs_mul, (Z.abs_eq P18), (Z.abs_eq u) in H by lia.
  unfold P18 in *. nia.
Qed.

Lemma amount_error depth share w : P18 ≤ share →
  d_quo (depth * P18) share = Ok w →
  depth * (P18 * P18) - share ≤ w * share ≤ depth * (P18 * P18) + share.
Proof.
  intros ? [_ H]%d_quo_val. rewrite (Z.abs_eq share) in H by (pose proof P18_pos; lia).
  unfold P18 in *. nia.
Qed.

Lemma fair_from_errors pool depth u share w n : 0 < u ≤ pool → P18 ≤ share → 0 ≤ n →
  pool * P18 - u ≤ share * u ≤ pool * P18 + u →
  depth * (P18 * P18) - share ≤ w * share ≤ depth * (P18 * P18) + share →
  nearest w n → fair_amount pool depth u n.
Proof.
  intros Hu Hs Hn [Hs1 Hs2] [Hw1 Hw2] Hr. pose proof P18_pos.
  unfold nearest in Hr.
  assert (2 * n * P18 ≤ 2 * w + P18) by lia. assert (2 * w - P18 ≤ 2 * n * P18) by lia.
  assert (2 * n * P18 * share ≤ 2 * depth * (P18 * P18) + (P18 + 2) * share) as Hup by nia.
  assert (2 * depth * (P18 * P18) - (P18 + 2) * share ≤ 2 * n * P18 * share) as Hlo by nia.
  apply (Z.mul_le_mono_nonneg_r _ _ u) in Hup, Hlo; [|lia|lia].
  assert (0 ≤ 2 * n * P18) by lia. split.
  - assert (2 * n * P18 * (pool * P18 - u) ≤ 2 * n * P18 * (share * u)) by nia. nia.
  - assert (2 * n * P18 * (share * u) ≤ 2 * n * P18 * (pool * P18 + u)) by nia. nia.
Qed.

Lemma round_within x k : 0 ≤ x ≤ k * P18 → k < 2 ^ 240 →
  ∃ r, d_round x = Ok r ∧ u_of_big r = Ok r ∧ nearest x r ∧ 0 ≤ r ≤ k.
Proof.
  intros ??. pose proof P18_pos. destruct (round_uint x) as (r & Hr & Hnear & ?); [nia|].
  apply res_bind_Ok in Hr as (r' & Hr1 & Hr2). pose proof Hr2 as [-> _]%u_of_big_Ok.
  exists r'. split_and!; try done. eapply nearest_le; [done|lia].
Qed.
End FromUnits.

(** C28.  A removal by units always computes: a provider with [lp] of [pool]
    units that removes [u] of them is left with exactly [lp - u], is paid at
    most the pool's depth on both sides, and on each side is paid its share
    [depth * u / pool] up to half a base unit and one part in 10^18. *)
Theorem CalculateWithdrawalFromUnits_fair {sdk : SDK} {L : SDKLaws sdk} pool nd ed lp u :
  withdraw_domain pool nd ed lp → 0 < u ≤ lp →
  ∃ n e, CalculateWithdrawalFromUnits pool (u_str nd) (u_str ed) (u_str lp) u
         = Ok (n, e, lp - u)
    ∧ 0 ≤ n ≤ nd ∧ 0 ≤ e ≤ ed ∧ fair_amount pool nd u n ∧ fair_amount pool ed u e.
Proof.
  intros (?&?&?&?) ?. pose proof P18_pos. unfold CalculateWithdrawalFromUnits.
  rewrite !must_ustr, d_of_big_law by lia. cbn [mbind res_bind].
  destruct (withdraw_share pool (u * P18)) as (share & Hs & ?); [lia|unfold P18 in *; nia|].
  rewrite Hs. cbn [mbind res_bind].
  destruct (withdraw_amount ed share) as (e & He & ?); [lia|done|].
  rewrite He. cbn [mbind res_bind]. rewrite ?Hs. cbn [mbind res_bind].
  destruct (withdraw_amount nd share) as (n & Hn & ?); [lia|done|].
  rewrite Hn. cbn [mbind res_bind].
  rewrite d_sub_total by (unfold P18, dec_max in *; lia). cbn [mbind res_bind].
  destruct (round_within n nd) as (rn & -> & Hrn & ? & ?); [lia|lia|]. cbn [mbind res_bind].
  rewrite Hrn. cbn [mbind res_bind].
  destruct (round_within e ed) as (re & -> & Hre & ? & ?); [lia|lia|]. cbn [mbind res_bind].
  rewrite Hre. cbn [mbind res_bind].
  destruct (round_within (lp * P18 - u * P18) lp) as (rl & -> & Hrl & Hl & ?); [nia|lia|].
  cbn [mbind res_bind]. rewrite Hrl. cbn [mbind res_bind].
  rewrite <- Z.mul_sub_distr_r in Hl. apply nearest_exact in Hl as ->.
  pose proof (share_error pool u share ltac:(lia) Hs).
  exists rn, re. split_and!; try done; try lia.
  - apply (fair_from_errors pool nd u share n rn); try done; try lia. apply amount_error; [lia|done].
  - apply (fair_from_errors pool ed u share e re); try done; try lia. apply amount_error; [lia|done].
Qed.

Lemma CalculateWithdrawalFromUnits_fair_witness :
  ∃ n e, CalculateWithdrawalFromUnits 1000 (u_str 5000) (u_str 777) (u_str 300) 150
         = Ok (n, e, 300 - 150)
    ∧ 0 ≤ n ≤ 5000 ∧ 0 ≤ e ≤ 777 ∧ fair_amount 1000 5000 150 n ∧ fair_amount 1000 777 150 e.
Proof.
  apply (CalculateWithdrawalFromUnits_fair (sdk := ref_sdk) 1000 5000 777 300 150);
    [unfold withdraw_domain|]; lia.
Defined.

(** ** Basis points and units *)

(** [ConvWBasisPointsToUnits] divides by the truncated quotient
    [10000 / wbasis], so every request for more than half of a position (5001 to
    10000 basis points) is converted to all of its units. *)
Theorem ConvWBasisPointsToUnits_over_half {sdk : SDK} {L : SDKLaws sdk} total w :
  is_uint total → 5000 < w ≤ 10000 → ConvWBasisPointsToUnits total w = Ok total.
Proof.
  intros Ht Hw. unfold ConvWBasisPointsToUnits.
  rewrite u_of_istr_law by (unfold is_uint, uint_max; lia). cbn [mbind res_bind].
  rewrite u_quo_law by (unfold is_uint, uint_max; lia). cbn [mbind res_bind].
  replace (10000 / w) with 1 by (apply Z.div_unique with (10000 - w); lia).
  rewrite u_quo_law by (done || unfold is_uint, uint_max; lia). by rewrite Z.div_1_r.
Qed.

Lemma ConvWBasisPointsToUnits_over_half_witness :
  ConvWBasisPointsToUnits 900 5100 = Ok 900.
Proof.
  apply (ConvWBasisPointsToUnits_over_half (sdk := ref_sdk) 900 5100);
    [vm_compute; split; intro H; discriminate H|lia].
Defined.
