(* ===== verification/Admin.v ===== *)
(** * The admin module

    x/admin/keeper: the accounts that may administer the other modules, one
    store entry per (type, address), and the handlers of its messages.  An enum
    of the protocol is an int32, so admin types are integers. *)
From S2P Require Import Prelude Sdk.

Abbreviation AdminType := Z (only parsing).
Definition AdminType_CLPDEX : AdminType := 0.
Definition AdminType_PMTPREWARDS : AdminType := 1.
Definition AdminType_TOKENREGISTRY : AdminType := 2.
Definition AdminType_ETHBRIDGE : AdminType := 3.
Definition AdminType_ADMIN : AdminType := 4.
Definition AdminType_MARGIN : AdminType := 5.

(** [proto.EnumName]: the name of a known value, the number of another one. *)
Definition AdminType_String (x : AdminType) : string :=
  if x =? 0 then "CLPDEX" else
  if x =? 1 then "PMTPREWARDS" else
  if x =? 2 then "TOKENREGISTRY" else
  if x =? 3 then "ETHBRIDGE" else
  if x =? 4 then "ADMIN" else
  if x =? 5 then "MARGIN" else pretty x.

Record AdminAccount := mkAdminAccount {
  AdminAccountType : AdminType;
  AdminAddress : string
}.

(** The store: accounts under their key, and the optional parameters. *)
Record AdminStore := mkAdminStore {
  AdminAccounts : gmap string AdminAccount;
  SubmitProposalFee : option Z
}.
#[global] Instance AdminStore_eta : Eta AdminStore := λ r,
  mkAdminStore (AdminAccounts r) (SubmitProposalFee r).

Definition GetAdminAccountKey (account : AdminAccount) : string :=
  AdminType_String (AdminAccountType account) ++ "_" ++ AdminAddress account.

(** ** keeper.go *)

Definition SetAdminAccount (account : AdminAccount) (st : AdminStore) : AdminStore :=
  st <| AdminAccounts := <[GetAdminAccountKey account := account]> (AdminAccounts st) |>.

Definition RemoveAdminAccount (account : AdminAccount) (st : AdminStore) : AdminStore :=
  st <| AdminAccounts := delete (GetAdminAccountKey account) (AdminAccounts st) |>.

Definition SetAdminParams (fee : Z) (st : AdminStore) : AdminStore :=
  st <| SubmitProposalFee := Some fee |>.

Definition GetAdminParams (st : AdminStore) : Z :=
  default 5000000000000000000000 (SubmitProposalFee st).

Section Keeper.
Context {sdk : SDK}.

Definition GetAdminAccounts (st : AdminStore) : list AdminAccount :=
  (kv_iterate (AdminAccounts st)).*2.

Definition GetAdminAccountsForType (st : AdminStore) (adminType : AdminType)
    : list AdminAccount :=
  filter (λ al, AdminAccountType al = adminType) (GetAdminAccounts st).

Definition IsAdminAccount (st : AdminStore) (adminType : AdminType) (adminAccount : string)
    : bool :=
  let accounts := GetAdminAccountsForType st adminType in
  if (length accounts =? 0)%nat then false
  else existsb (λ account, String.eqb (AdminAddress account) (acc_string adminAccount))
         accounts.

Definition AdminInitGenesis (accounts : list AdminAccount) (st : AdminStore) : AdminStore :=
  foldl (λ st account, SetAdminAccount account st) st accounts.

(** ** msg_server.go *)

(** [addr, err := AccAddressFromBech32(signer)] and the test that it is an
    admin of the given type. *)
Definition admin_signer (st : AdminStore) (adminType : AdminType) (signer : string)
    (denied : error) : res () :=
  addr ← acc_from_bech32 signer;
  ensure (IsAdminAccount st adminType addr) denied.

Definition AdminSetParams (signer : string) (fee : Z) : M AdminStore () :=
  st ← gets id;
  lift (admin_signer st AdminType_ADMIN signer (EOther "unauthorised signer"));;
  modify (SetAdminParams fee).

Definition AddAccount (signer : string) (account : AdminAccount) : M AdminStore () :=
  st ← gets id;
  lift (admin_signer st AdminType_ADMIN signer (EOther "unauthorised signer"));;
  modify (SetAdminAccount account).

Definition RemoveAccount (signer : string) (account : AdminAccount) : M AdminStore () :=
  st ← gets id;
  lift (admin_signer st AdminType_ADMIN signer (EOther "unauthorised signer"));;
  modify (RemoveAdminAccount account).
End Keeper.

(** ** The access-control list *)

(** Every entry is stored under its own key and has a known type. *)
Definition known_type (t : AdminType) : Prop := 0 ≤ t ≤ 5.

Definition admin_wf (st : AdminStore) : Prop :=
  ∀ k a, AdminAccounts st !! k = Some a → k = GetAdminAccountKey a ∧ known_type (AdminAccountType a).

(** Abstraction: the set of (type, address) pairs that are administrators. *)
Definition is_admin (st : AdminStore) (t : AdminType) (addr : string) : Prop :=
  ∃ k, AdminAccounts st !! k = Some (mkAdminAccount t addr).

(** A known type is read back from the front of a key. *)
Lemma admin_key_inj a b :
  known_type (AdminAccountType a) → known_type (AdminAccountType b) →
  GetAdminAccountKey a = GetAdminAccountKey b → a = b.
Proof.
  destruct a as [t x], b as [u y]. unfold known_type, GetAdminAccountKey; cbn.
  intros Ht Hu.
  assert (t = 0 ∨ t = 1 ∨ t = 2 ∨ t = 3 ∨ t = 4 ∨ t = 5) as Hcase by lia.
  assert (u = 0 ∨ u = 1 ∨ u = 2 ∨ u = 3 ∨ u = 4 ∨ u = 5) as Hcase' by lia.
  destruct Hcase as [->|[->|[->|[->|[->| ->]]]]], Hcase' as [->|[->|[->|[->|[->| ->]]]]];
    cbn; intros H; by simplify_eq.
Qed.

Lemma SetAdminAccount_wf a st : known_type (AdminAccountType a) → admin_wf st →
  admin_wf (SetAdminAccount a st).
Proof.
  intros Ha Hwf k b. cbn. rewrite lookup_insert_Some.
  intros [[<- <-]|[_ Hb]]; [done|by apply Hwf].
Qed.

Lemma RemoveAdminAccount_wf a st : admin_wf st → admin_wf (RemoveAdminAccount a st).
Proof. intros Hwf k b. cbn. rewrite lookup_delete_Some. intros [_ Hb]. by apply Hwf. Qed.

Section Access.
Context {sdk : SDK} {L : SDKLaws sdk}.

Lemma GetAdminAccounts_elem st a :
  a ∈ GetAdminAccounts st ↔ ∃ k, AdminAccounts st !! k = Some a.
Proof.
  unfold GetAdminAccounts. rewrite kv_iterate_law, list_elem_of_fmap. split.
  - intros ([k b] & -> & H). exists k. by apply elem_of_map_to_list.
  - intros [k H]. exists (k, a). split; [done|]. by apply elem_of_map_to_list.
Qed.

(** [IsAdminAccount] decides the abstract relation. *)
Lemma IsAdminAccount_spec st t addr :
  IsAdminAccount st t addr = true ↔ is_admin st t (acc_string addr).
Proof.
  unfold IsAdminAccount.
  assert (existsb (λ a, String.eqb (AdminAddress a) (acc_string addr))
            (GetAdminAccountsForType st t) = true ↔ is_admin st t (acc_string addr)) as Hex.
  { rewrite existsb_exists. unfold is_admin, GetAdminAccountsForType. split.
    - intros (a & Ha & Heq%String.eqb_eq).
      apply list_elem_of_In, list_elem_of_filter in Ha as [<- Ha].
      apply GetAdminAccounts_elem in Ha as [k Hk]. exists k. rewrite Hk, <- Heq.
      by destruct a.
    - intros [k Hk]. exists (mkAdminAccount t (acc_string addr)).
      split; [|apply String.eqb_refl].
      apply list_elem_of_In, list_elem_of_filter. split; [|apply GetAdminAccounts_elem; eauto].
      done. }
  destruct (GetAdminAccountsForType st t) as [|a l] eqn:El; cbn; [|exact Hex].
  rewrite <- Hex. done.
Qed.

Lemma admin_signer_Ok st t signer e : admin_signer st t signer e = Ok () →
  ∃ addr, acc_from_bech32 signer = Ok addr ∧ is_admin st t (acc_string addr).
Proof.
  unfold admin_signer. intros H. inv_ok. eexists. split; [done|].
  by apply IsAdminAccount_spec.
Qed.

Lemma admin_signer_denied st t signer addr e : acc_from_bech32 signer = Ok addr →
  ¬ is_admin st t (acc_string addr) → admin_signer st t signer e = Err e.
Proof.
  unfold admin_signer. intros -> Hn. cbn [mbind res_bind].
  destruct (IsAdminAccount st t addr) eqn:E; [|done]. by apply IsAdminAccount_spec in E.
Qed.
End Access.
