(* ===== verification/TokenRegistry.v ===== *)
(** * The token registry

    x/tokenregistry/keeper: the list of denominations the chain supports, each
    with its decimals and the permissions of the token. *)
From S2P Require Import Prelude Sdk Admin.

Abbreviation Permission := Z (only parsing).
Definition Permission_UNSPECIFIED : Permission := 0.
Definition Permission_CLP : Permission := 1.
Definition Permission_IBCEXPORT : Permission := 2.
Definition Permission_IBCIMPORT : Permission := 3.
Definition Permission_DISABLE_BUY : Permission := 4.
Definition Permission_DISABLE_SELL : Permission := 5.

Record RegistryEntry := mkRegistryEntry {
  Decimals : Z;
  Denom : string;
  BaseDenom : string;
  Path : string;
  IbcChannelId : string;
  IbcCounterpartyChannelId : string;
  DisplayName : string;
  DisplaySymbol : string;
  Network : string;
  EntryAddress : string;
  ExternalSymbol : string;
  TransferLimit : string;
  Permissions : list Permission;
  UnitDenom : string;
  IbcCounterpartyDenom : string;
  IbcCounterpartyChainId : string
}.

(** The registry: a list of pointers to entries, [None] a nil one. *)
Abbreviation Registry := (list (option RegistryEntry)).

Definition GetPermissionFromString (s : string) : Permission :=
  if String.eqb s "permission_clp" then Permission_CLP else
  if String.eqb s "permission_ibc_export" then Permission_IBCEXPORT else
  if String.eqb s "permission_ibc_import" then Permission_IBCIMPORT else
  Permission_UNSPECIFIED.

(** ** keeper.go *)

Definition CheckEntryPermissions (entry : RegistryEntry) (required : list Permission) : bool :=
  forallb (λ r, existsb (λ a, a =? r) (Permissions entry)) required.

Definition is_denom (denom : string) (e : option RegistryEntry) : bool :=
  match e with Some e => String.eqb (Denom e) denom | None => false end.

Fixpoint GetEntry (wl : Registry) (denom : string) : res RegistryEntry :=
  match wl with
  | [] => Err (EOther "registry entry not found")
  | Some e :: wl' => if String.eqb (Denom e) denom then Ok e else GetEntry wl' denom
  | None :: wl' => GetEntry wl' denom
  end.

(** Replaces the first entry with the denomination, or appends. *)
Fixpoint SetToken (entry : RegistryEntry) (wl : Registry) : Registry :=
  match wl with
  | [] => [Some entry]
  | e :: wl' => if is_denom (Denom entry) e then Some entry :: wl'
                else e :: SetToken entry wl'
  end.

Definition RemoveToken (denom : string) (wl : Registry) : Registry :=
  filter (λ e, is_Some e ∧ is_denom denom e = false) wl.

Section Handlers.
Context {sdk : SDK}.

(** ** msg_server.go, reading the admin store *)

Definition Register (st : AdminStore) (from : string) (entry : RegistryEntry)
    : M Registry () :=
  lift (admin_signer st AdminType_TOKENREGISTRY from (EOther "unauthorised signer"));;
  modify (SetToken entry).

Definition SetRegistry (st : AdminStore) (from : string) (registry : Registry)
    : M Registry () :=
  lift (admin_signer st AdminType_TOKENREGISTRY from (EOther "unauthorised signer"));;
  modify (λ _, registry).

Definition Deregister (st : AdminStore) (from : string) (denom : string) : M Registry () :=
  lift (admin_signer st AdminType_TOKENREGISTRY from (EOther "unauthorised signer"));;
  modify (RemoveToken denom).
End Handlers.

(** ** Lookup and update *)

Lemma GetEntry_SetToken_same entry wl : GetEntry (SetToken entry wl) (Denom entry) = Ok entry.
Proof.
  induction wl as [|[e|] wl IH]; cbn; [by rewrite String.eqb_refl| |done].
  destruct (String.eqb (Denom e) (Denom entry)) eqn:E; cbn.
  - by rewrite String.eqb_refl.
  - by rewrite E.
Qed.

Lemma GetEntry_SetToken_other entry wl d : d ≠ Denom entry →
  GetEntry (SetToken entry wl) d = GetEntry wl d.
Proof.
  intros Hd%not_eq_sym%String.eqb_neq. induction wl as [|[e|] wl IH]; cbn; [by rewrite Hd| |done].
  destruct (String.eqb_spec (Denom e) (Denom entry)) as [->|]; cbn; [by rewrite Hd|].
  by rewrite IH.
Qed.

Lemma GetEntry_RemoveToken wl denom d :
  GetEntry (RemoveToken denom wl) d
  = if String.eqb denom d then Err (EOther "registry entry not found") else GetEntry wl d.
Proof.
  unfold RemoveToken. induction wl as [|[e|] wl IH].
  - cbn. by destruct (String.eqb denom d).
  - rewrite filter_cons. cbn [is_denom GetEntry].
    destruct (String.eqb_spec (Denom e) denom) as [->|Hne].
    + rewrite decide_False by (intros [_ ?]; done). rewrite IH.
      destruct (String.eqb denom d); done.
    + rewrite decide_True by done. cbn. rewrite IH.
      destruct (String.eqb_spec (Denom e) d) as [<-|]; [|done].
      apply not_eq_sym, String.eqb_neq in Hne. by rewrite Hne.
  - rewrite filter_cons. cbn [is_denom GetEntry].
    rewrite decide_False by (intros [[? ?] _]; done). apply IH.
Qed.

Lemma GetEntry_Denom wl d e : GetEntry wl d = Ok e → Denom e = d ∧ Some e ∈ wl.
Proof.
  induction wl as [|[x|] wl IH]; cbn; [done| |].
  - destruct (String.eqb_spec (Denom x) d); [intros [= ->]|intros [? ?]%IH]; split; set_solver.
  - intros [? ?]%IH. split; set_solver.
Qed.

(** No denomination is registered twice. *)
Definition unique_denoms (wl : Registry) : Prop := NoDup (omap (fmap Denom) wl).

Lemma SetToken_denoms entry wl x :
  x ∈ omap (fmap Denom) (SetToken entry wl) → x = Denom entry ∨ x ∈ omap (fmap Denom) wl.
Proof.
  induction wl as [|[e|] wl IH]; cbn; [set_solver| |done].
  destruct (String.eqb (Denom e) (Denom entry)); cbn; set_solver.
Qed.

Lemma SetToken_unique entry wl : unique_denoms wl → unique_denoms (SetToken entry wl).
Proof.
  unfold unique_denoms. induction wl as [|[e|] wl IH]; cbn; intros H.
  - apply NoDup_singleton.
  - apply NoDup_cons in H as [Hin H].
    destruct (String.eqb_spec (Denom e) (Denom entry)) as [He|He]; cbn.
    + apply NoDup_cons. by rewrite <- He.
    + apply NoDup_cons. split; [|by apply IH]. by intros [?|?]%SetToken_denoms.
  - by apply IH.
Qed.

Lemma RemoveToken_unique denom wl : unique_denoms wl → unique_denoms (RemoveToken denom wl).
Proof.
  unfold unique_denoms, RemoveToken. induction wl as [|[e|] wl IH]; intros H; [done| |].
  - cbn in H. apply NoDup_cons in H as [Hin H]. rewrite filter_cons.
    case_decide; [|by apply IH]. cbn. apply NoDup_cons. split; [|by apply IH].
    rewrite list_elem_of_omap. intros (y & [_ Hy]%list_elem_of_filter & Hd).
    apply Hin, list_elem_of_omap. eauto.
  - rewrite filter_cons. rewrite decide_False by (intros [[? ?] _]; done). by apply IH.
Qed.
