(* ===== verification/MarginTypes.v ===== *)
(** * Data of the margin module

    The structs of x/margin/types (types.pb.go, tx.pb.go), the constructors and
    checks of types.go, the store keys of keys.go and the default parameters of
    genesis.go.  A [uint64] counter is kept at its width by [u64]. *)
From S2P Require Import Prelude Sdk.

Abbreviation Position_t := Z (only parsing).
Definition Position_UNSPECIFIED : Position_t := 0.
Definition Position_LONG : Position_t := 1.
Definition Position_SHORT : Position_t := 2.

Definition GetPositionFromString (s : string) : Position_t :=
  if String.eqb s "long" then Position_LONG else
  if String.eqb s "short" then Position_SHORT else Position_UNSPECIFIED.

(** A margin trading position ([MtpAddress] and [MtpId] are [Address], [Id]). *)
Record MTP := mkMTP {
  MtpAddress : string;
  CollateralAsset : string;
  CollateralAmount : Z;
  Liabilities : Z;
  InterestPaidCollateral : Z;
  InterestPaidCustody : Z;
  InterestUnpaidCollateral : Z;
  CustodyAsset : string;
  CustodyAmount : Z;
  Leverage : Z;
  MtpHealth : Z;
  Position : Position_t;
  MtpId : Z
}.
#[global] Instance MTP_eta : Eta MTP := λ r,
  mkMTP (MtpAddress r) (CollateralAsset r) (CollateralAmount r) (Liabilities r)
    (InterestPaidCollateral r) (InterestPaidCustody r) (InterestUnpaidCollateral r)
    (CustodyAsset r) (CustodyAmount r) (Leverage r) (MtpHealth r) (Position r) (MtpId r).

Module MarginParams.
Record t := mk {
  LeverageMax : Z;
  InterestRateMax : Z;
  InterestRateMin : Z;
  InterestRateIncrease : Z;
  InterestRateDecrease : Z;
  HealthGainFactor : Z;
  EpochLength : Z;
  Pools : list string;
  RemovalQueueThreshold : Z;
  MaxOpenPositions : Z;
  PoolOpenThreshold : Z;
  ForceCloseFundPercentage : Z;
  ForceCloseFundAddress : string;
  IncrementalInterestPaymentFundPercentage : Z;
  IncrementalInterestPaymentFundAddress : string;
  SqModifier : option Z;
  SafetyFactor : Z;
  ClosedPools : list string;
  IncrementalInterestPaymentEnabled : bool;
  WhitelistingEnabled : bool;
  FuryCollateralEnabled : bool
}.
#[global] Instance t_eta : Eta t := λ r,
  mk (LeverageMax r) (InterestRateMax r) (InterestRateMin r) (InterestRateIncrease r)
    (InterestRateDecrease r) (HealthGainFactor r) (EpochLength r) (Pools r)
    (RemovalQueueThreshold r) (MaxOpenPositions r) (PoolOpenThreshold r)
    (ForceCloseFundPercentage r) (ForceCloseFundAddress r)
    (IncrementalInterestPaymentFundPercentage r) (IncrementalInterestPaymentFundAddress r)
    (SqModifier r) (SafetyFactor r) (ClosedPools r) (IncrementalInterestPaymentEnabled r)
    (WhitelistingEnabled r) (FuryCollateralEnabled r).
End MarginParams.

Definition DefaultGenesis : MarginParams.t := {|
  MarginParams.LeverageMax := dec_prec 2 0;
  MarginParams.HealthGainFactor := dec_prec 1 0;
  MarginParams.InterestRateMin := dec_prec 5 3;
  MarginParams.InterestRateMax := dec_prec 3 0;
  MarginParams.InterestRateDecrease := dec_prec 1 1;
  MarginParams.InterestRateIncrease := dec_prec 1 1;
  MarginParams.ForceCloseFundPercentage := dec_prec 1 1;
  MarginParams.ForceCloseFundAddress := "fury1syavy2npfyt9tcncdtsdzf7kny9lh777yqc2nd";
  MarginParams.IncrementalInterestPaymentFundPercentage := dec_prec 1 1;
  MarginParams.IncrementalInterestPaymentFundAddress :=
    "fury1syavy2npfyt9tcncdtsdzf7kny9lh777yqc2nd";
  MarginParams.PoolOpenThreshold := dec_prec 1 1;
  MarginParams.RemovalQueueThreshold := dec_prec 1 1;
  MarginParams.EpochLength := 1;
  MarginParams.MaxOpenPositions := 10000;
  MarginParams.Pools := [];
  MarginParams.SqModifier := Some (dec_prec 10000000000000000000000000 0);
  MarginParams.SafetyFactor := dec_prec 105 2;
  MarginParams.IncrementalInterestPaymentEnabled := true;
  MarginParams.ClosedPools := [];
  MarginParams.WhitelistingEnabled := false;
  MarginParams.FuryCollateralEnabled := true
|}.

(** The margin store. *)
Record MarginStore := mkMarginStore {
  MTPs : gmap string MTP;
  MTPCount : option Z;
  OpenMTPCount : option Z;
  Params : option MarginParams.t;
  Whitelist : gmap string string;
  SQBeginBlocks : gmap string Z
}.
#[global] Instance MarginStore_eta : Eta MarginStore := λ r,
  mkMarginStore (MTPs r) (MTPCount r) (OpenMTPCount r) (Params r) (Whitelist r)
    (SQBeginBlocks r).

(** ** types.go *)

Definition NewMTP (signer collateralAsset borrowAsset : string) (position : Position_t)
    (leverage : Z) : MTP :=
  {| MtpAddress := signer;
     CollateralAsset := collateralAsset;
     CollateralAmount := 0;
     Liabilities := 0;
     InterestPaidCollateral := 0;
     InterestPaidCustody := 0;
     InterestUnpaidCollateral := 0;
     CustodyAsset := borrowAsset;
     CustodyAmount := 0;
     Leverage := leverage;
     MtpHealth := 0;
     Position := position;
     MtpId := 0 |}.

Definition MTPValidate (mtp : MTP) : res () :=
  if String.eqb (CollateralAsset mtp) "" then Err (EMargin ErrMTPInvalid) else
  if String.eqb (MtpAddress mtp) "" then Err (EMargin ErrMTPInvalid) else
  if Position mtp =? Position_UNSPECIFIED then Err (EMargin ErrMTPInvalid) else
  if MtpId mtp =? 0 then Err (EMargin ErrMTPInvalid) else Ok ().

Definition settlement : string := "fury".

(** ** keys.go *)

(** Big-endian bytes of a [uint64], and back. *)
Definition byte_of (x : Z) : Ascii.ascii := Ascii.ascii_of_N (Z.to_N (x mod 256)).

Fixpoint be_bytes (n : nat) (x : Z) : string :=
  match n with
  | O => EmptyString
  | S n' => String (byte_of (x / 256 ^ Z.of_nat n')) (be_bytes n' x)
  end.

Definition GetUint64Bytes (ID : Z) : string := be_bytes 8 ID.

Fixpoint be_value (s : string) (acc : Z) : Z :=
  match s with
  | EmptyString => acc
  | String c s' => be_value s' (acc * 256 + Z.of_N (Ascii.N_of_ascii c))
  end.

(** [binary.BigEndian.Uint64] reads the first eight bytes and panics on fewer. *)
Definition GetUint64FromBytes (bz : string) : res Z :=
  if (String.length bz <? 8)%nat then Panic else Ok (be_value (String.substring 0 8 bz) 0).

Definition GetMTPKey (address : string) (id : Z) : string := address ++ GetUint64Bytes id.

Definition GetWhitelistKey (address : string) : string := address.

(** ** Messages of tx.pb.go *)

Module MsgOpen.
Record t := mk {
  Signer : string; CollateralAsset : string; CollateralAmount : Z;
  BorrowAsset : string; Position : Position_t; Leverage : Z }.
End MsgOpen.

Module MsgClose.
Record t := mk { Signer : string; Id : Z }.
End MsgClose.

(** [MsgAdminClose]; [MsgForceClose] is the same without the last field. *)
Module MsgAdminClose.
Record t := mk { Signer : string; MtpAddress : string; Id : Z; TakeMarginFund : bool }.
End MsgAdminClose.

(** ** Byte keys *)

Lemma byte_of_val x : Z.of_N (Ascii.N_of_ascii (byte_of x)) = x mod 256.
Proof.
  unfold byte_of. pose proof (Z.mod_pos_bound x 256 ltac:(lia)).
  rewrite Ascii.N_ascii_embedding by lia. lia.
Qed.

(** The bytes of [x] do not depend on its higher digits. *)
Lemma be_bytes_high n x q : be_bytes n (x + q * 256 ^ Z.of_nat n) = be_bytes n x.
Proof.
  revert q. induction n as [|n IH]; intros q; [done|].
  cbn [be_bytes]. rewrite Nat2Z.inj_succ, Z.pow_succ_r by lia.
  assert (0 < 256 ^ Z.of_nat n) by (apply Z.pow_pos_nonneg; lia).
  rewrite Z.mul_assoc. f_equal; [|apply IH].
  unfold byte_of. by rewrite Z.div_add, Z.mod_add by lia.
Qed.

Lemma be_value_bytes n x acc : 0 ≤ x < 256 ^ Z.of_nat n →
  be_value (be_bytes n x) acc = acc * 256 ^ Z.of_nat n + x.
Proof.
  revert x acc. induction n as [|n IH]; intros x acc Hx; cbn [be_bytes be_value].
  { change (256 ^ Z.of_nat 0) with 1 in *. lia. }
  rewrite Nat2Z.inj_succ, Z.pow_succ_r in * by lia.
  assert (0 < 256 ^ Z.of_nat n) as Hpos by (apply Z.pow_pos_nonneg; lia).
  pose proof (Z.div_mod x (256 ^ Z.of_nat n) ltac:(lia)) as Hd.
  replace (be_bytes n x) with (be_bytes n (x mod 256 ^ Z.of_nat n)).
  2:{ rewrite Hd at 2. rewrite Z.add_comm, Z.mul_comm. by rewrite be_bytes_high. }
  rewrite IH by (apply Z.mod_pos_bound; lia). rewrite byte_of_val.
  rewrite Z.mod_small by (split; [apply Z.div_pos; lia|apply Z.div_lt_upper_bound; lia]).
  nia.
Qed.

Lemma be_bytes_length n x : String.length (be_bytes n x) = n.
Proof. induction n as [|n IH]; cbn; [done|]. by rewrite IH. Qed.

Lemma substring_all s : String.substring 0 (String.length s) s = s.
Proof. induction s as [|c s IH]; cbn; [done|]. by rewrite IH. Qed.

(** Reading back a stored counter. *)
Lemma GetUint64_roundtrip x : 0 ≤ x < 2 ^ 64 → GetUint64FromBytes (GetUint64Bytes x) = Ok x.
Proof.
  intros Hx. unfold GetUint64FromBytes, GetUint64Bytes. rewrite be_bytes_length.
  change (8 <? 8)%nat with false. cbv iota.
  rewrite <- (be_bytes_length 8 x) at 1. rewrite substring_all, be_value_bytes by exact Hx.
  by rewrite Z.mul_0_l.
Qed.

Lemma GetUint64Bytes_inj x y : 0 ≤ x < 2 ^ 64 → 0 ≤ y < 2 ^ 64 →
  GetUint64Bytes x = GetUint64Bytes y → x = y.
Proof.
  intros Hx Hy H. assert (Ok x = Ok y) as [=]; [|done].
  rewrite <- (GetUint64_roundtrip x Hx), <- (GetUint64_roundtrip y Hy). by rewrite H.
Qed.

(** Keys of different positions differ. *)
Lemma GetMTPKey_inj a b x y : 0 ≤ x < 2 ^ 64 → 0 ≤ y < 2 ^ 64 →
  GetMTPKey a x = GetMTPKey b y → a = b ∧ x = y.
Proof.
  intros Hx Hy H. unfold GetMTPKey in H.
  apply string_app_inj_length in H as [-> H%GetUint64Bytes_inj]; [done..|].
  unfold GetUint64Bytes. by rewrite !be_bytes_length.
Qed.
