(* ===== verification/Float64.v ===== *)
(** * float64 arithmetic

    The oracle compares a ratio of two integers with 0.7 in float64.  Go's
    float64 is IEEE 754 binary64, which the Standard Library specifies in
    [SpecFloat]; conversion, division and comparison are those of that
    specification at precision 53 and exponent bound 1024.  The theorem of this
    file is that for powers below 2^48 the rounding is harmless: the comparison
    decides the exact inequality of the integers. *)
From S2P Require Import Prelude.
From Stdlib Require Import SpecFloat.

Definition float64 := spec_float.

(** [float64(x)] of an int64 *)
Definition f64_of_int (x : Z) : float64 := binary_normalize 53 1024 x 0 false.
(** [x / y], [x <= y] and [x < y] *)
Definition f64_div (x y : float64) : float64 := SFdiv 53 1024 x y.
Definition f64_leb (x y : float64) : bool := SFleb x y.
Definition f64_ltb (x y : float64) : bool := SFltb x y.

(** The constant 0.7: the double nearest to it is 6305039478318694 * 2^-53. *)
Definition f64_0_7 : float64 := S754_finite false 6305039478318694 (-53).

(** ** Rounding to 53 bits *)

Lemma digits2_pos_bound p :
  2 ^ (Z.pos (digits2_pos p) - 1) ≤ Z.pos p < 2 ^ Z.pos (digits2_pos p).
Proof.
  induction p as [p IH|p IH|]; cbn [digits2_pos]; [| |cbn; lia];
    rewrite Pos2Z.inj_succ; replace (Z.succ (Z.pos (digits2_pos p)) - 1)
      with (Z.succ (Z.pos (digits2_pos p) - 1)) by lia;
    rewrite !Z.pow_succ_r by lia; lia.
Qed.

Lemma Zdigits2_unique x n : 0 < n → 2 ^ (n - 1) ≤ x < 2 ^ n → Zdigits2 x = n.
Proof.
  intros Hn [Hl Hu]. assert (0 < x) by (pose proof (Z.pow_pos_nonneg 2 (n - 1)); lia).
  destruct x as [|p|p]; [lia| |lia]. cbn [Zdigits2].
  pose proof (digits2_pos_bound p) as [Hl' Hu']. set (d := Z.pos (digits2_pos p)) in *.
  assert (0 < d) by (unfold d; lia).
  assert (n - 1 < d) by (apply (Z.pow_lt_mono_r_iff 2); lia).
  assert (d - 1 < n) by (apply (Z.pow_lt_mono_r_iff 2); lia). lia.
Qed.

Lemma shr_1_m r : 0 ≤ shr_m r → shr_m (shr_1 r) = shr_m r / 2.
Proof.
  destruct r as [m r s]. cbn [shr_m]. intros Hm. destruct m as [|[p|p|]|p]; cbn [shr_1 shr_m];
    [done| | |done|lia].
  - apply (Z.div_unique _ _ _ 1); lia.
  - apply (Z.div_unique _ _ _ 0); lia.
Qed.

Lemma shr_record_of_loc_m m l : shr_m (shr_record_of_loc m l) = m.
Proof. by destruct l as [|[]]. Qed.

Lemma fexp_53 e : -1000 ≤ e → fexp 53 1024 e = e - 53.
Proof. unfold fexp, emin. lia. Qed.

(** A mantissa of 53 bits stays, one of 54 bits is halved. *)
Lemma shr_fexp_53 m e l : 2 ^ 52 ≤ m < 2 ^ 53 → -1000 ≤ e →
  shr_fexp 53 1024 m e l = (shr_record_of_loc m l, e).
Proof.
  intros Hm He. unfold shr_fexp. rewrite (Zdigits2_unique m 53) by lia.
  rewrite fexp_53 by lia. by replace (53 + e - 53 - e) with 0 by lia.
Qed.

Lemma shr_fexp_54 m e l : 2 ^ 53 ≤ m < 2 ^ 54 → -1000 ≤ e →
  shr_fexp 53 1024 m e l = (shr_1 (shr_record_of_loc m l), e + 1).
Proof.
  intros Hm He. unfold shr_fexp. rewrite (Zdigits2_unique m 54) by lia.
  rewrite fexp_53 by lia. by replace (54 + e - 53 - e) with 1 by lia.
Qed.

Lemma round_nearest_even_near m l : m ≤ round_nearest_even m l ≤ m + 1.
Proof. destruct l as [|[]]; cbn; try destruct (Z.even m); lia. Qed.

(** The second half of rounding: a carry out of the mantissa shifts it. *)
Lemma carry_out r e : 2 ^ 52 ≤ r ≤ 2 ^ 53 → -1000 ≤ e ≤ 900 →
  ∃ (m : positive) k, 0 ≤ k ≤ 1 ∧ r = Z.pos m * 2 ^ k ∧ 2 ^ 52 ≤ Z.pos m < 2 ^ 53
    ∧ (let '(mrs, e'') := shr_fexp 53 1024 r e loc_Exact in
       match shr_m mrs with
       | Z0 => S754_zero false
       | Zpos m => if e'' <=? 1024 - 53 then S754_finite false m e'' else S754_infinity false
       | _ => S754_nan
       end) = S754_finite false m (e + k).
Proof.
  intros Hr He. destruct (decide (r = 2 ^ 53)) as [->|Hne].
  - exists (Z.to_pos (2 ^ 52)), 1. split_and!; [lia|lia|done|done|done|].
    rewrite shr_fexp_54 by lia. rewrite shr_1_m, shr_record_of_loc_m by (cbn; lia).
    change (2 ^ 53 / 2) with (Z.pos (Z.to_pos (2 ^ 52))).
    by rewrite (proj2 (Z.leb_le _ _)) by lia.
  - destruct r as [|m|m]; [lia| |lia]. exists m, 0. rewrite Z.mul_1_r, Z.add_0_r.
    split_and!; [lia|lia|done|lia|lia|]. rewrite shr_fexp_53 by lia. cbn.
    by rewrite (proj2 (Z.leb_le _ _)) by lia.
Qed.

(** Rounding a quotient whose integer part [q] has 53 or 54 bits is off by less
    than one unit in the last place. *)
Lemma binary_round_aux_near q e l : 2 ^ 52 ≤ q < 2 ^ 54 → -1000 ≤ e ≤ 800 →
  ∃ (m : positive) k, 0 ≤ k ≤ 2 ∧ 2 ^ 52 ≤ Z.pos m < 2 ^ 53
    ∧ binary_round_aux 53 1024 false q e l = S754_finite false m (e + k)
    ∧ (Z.pos m - 1) * 2 ^ k ≤ q ∧ q + 1 ≤ (Z.pos m + 1) * 2 ^ k
    ∧ (l = loc_Exact → q < 2 ^ 53 → Z.pos m = q ∧ k = 0).
Proof.
  intros Hq He. unfold binary_round_aux.
  destruct (decide (q < 2 ^ 53)) as [Hs|Hl].
  - rewrite shr_fexp_53, shr_record_of_loc_m by lia.
    pose proof (round_nearest_even_near q (loc_of_shr_record (shr_record_of_loc q l))) as Hr.
    destruct (carry_out (round_nearest_even q (loc_of_shr_record (shr_record_of_loc q l))) e)
      as (m & k & Hk & Hmk & Hm & ->); [lia|lia|].
    exists m, k. assert (k = 0 ∨ k = 1) as [-> | ->] by lia; rewrite Hmk in Hr;
      (split_and!; [lia|lia|lia|lia|done|lia|lia|]); intros -> _; cbn in Hmk; lia.
  - rewrite shr_fexp_54 by lia. rewrite shr_1_m; rewrite shr_record_of_loc_m; [|lia].
    set (h := q / 2). assert (2 * h ≤ q < 2 * h + 2) as Hh.
    { pose proof (Z.div_mod q 2). pose proof (Z.mod_pos_bound q 2). unfold h. lia. }
    set (l' := loc_of_shr_record _).
    pose proof (round_nearest_even_near h l') as Hr.
    destruct (carry_out (round_nearest_even h l') (e + 1))
      as (m & k & Hk & Hmk & Hm & ->); [lia|lia|].
    exists m, (1 + k). assert (k = 0 ∨ k = 1) as [-> | ->] by lia; rewrite Hmk in Hr;
      (split_and!; [lia|lia|lia|lia|f_equal; lia|cbn in *; lia|cbn in *; lia|lia]).
Qed.

(** ** Conversion and division *)

(** An int64 below 2^53 converts exactly, to a normalised mantissa. *)
Lemma f64_of_int_exact x : 0 < x < 2 ^ 53 →
  ∃ (m : positive) a, 0 ≤ a ≤ 52 ∧ f64_of_int x = S754_finite false m (- a)
    ∧ Z.pos m = x * 2 ^ a ∧ 2 ^ 52 ≤ Z.pos m < 2 ^ 53.
Proof.
  intros Hx. destruct x as [|p|p]; [lia| |lia].
  pose proof (digits2_pos_bound p) as Hd. set (d := Z.pos (digits2_pos p)) in *.
  assert (0 < d) by (unfold d; lia).
  assert (d ≤ 53) by (assert (d - 1 < 53); [apply (Z.pow_lt_mono_r_iff 2); lia|lia]).
  assert (2 ^ 52 ≤ Z.pos p * 2 ^ (53 - d) < 2 ^ 53) as Hm.
  { replace (2 ^ 52) with (2 ^ (d - 1) * 2 ^ (53 - d))
      by (rewrite <- Z.pow_add_r by lia; f_equal; lia).
    replace (2 ^ 53) with (2 ^ d * 2 ^ (53 - d))
      by (rewrite <- Z.pow_add_r by lia; f_equal; lia).
    pose proof (Z.pow_pos_nonneg 2 (53 - d)). nia. }
  assert (shl_align p 0 (d - 53) = (Z.to_pos (Z.pos p * 2 ^ (53 - d)), d - 53)) as Ha.
  { unfold shl_align. rewrite Z.sub_0_r. destruct (d - 53) as [|n|n] eqn:En; [|lia|].
    - replace (53 - d) with 0 by lia. by rewrite Z.mul_1_r.
    - replace (53 - d) with (Z.pos n) by lia. f_equal.
      apply Pos2Z.inj. rewrite Z2Pos.id by lia.
      rewrite <- Z.shiftl_mul_pow2 by lia. unfold Z.shiftl.
      by apply (Pos.iter_swap_gen _ _ Z.pos). }
  unfold f64_of_int, binary_normalize, binary_round. fold d. rewrite Z.add_0_r.
  rewrite fexp_53 by lia. rewrite Ha.
  destruct (binary_round_aux_near (Z.pos p * 2 ^ (53 - d)) (d - 53) loc_Exact)
    as (m & k & _ & Hmb & Hr & _ & _ & Hex); [lia|lia|].
  destruct Hex as [Hmq ->]; [done|lia|].
  exists m, (53 - d). rewrite Z2Pos.id by lia. rewrite Hr.
  split_and!; [lia|lia|f_equal; lia|done|lia|lia].
Qed.

(** Dividing two integers gives a mantissa within one unit of the quotient. *)
Lemma f64_div_near x y : 0 < x < 2 ^ 53 → 0 < y < 2 ^ 53 →
  ∃ (m : positive) a b, 0 ≤ a ∧ 0 ≤ b ∧ 2 ^ 52 ≤ Z.pos m < 2 ^ 53
    ∧ f64_div (f64_of_int x) (f64_of_int y) = S754_finite false m (b - a - 53)
    ∧ (Z.pos m - 1) * (y * 2 ^ b) ≤ x * 2 ^ a * 2 ^ 53 < (Z.pos m + 1) * (y * 2 ^ b).
Proof.
  intros Hx Hy.
  destruct (f64_of_int_exact x Hx) as (m1 & a & Ha & -> & Hm1 & Hb1).
  destruct (f64_of_int_exact y Hy) as (m2 & b & Hb & -> & Hm2 & Hb2).
  unfold f64_div, SFdiv, SFdiv_core_binary.
  rewrite (Zdigits2_unique (Z.pos m1) 53), (Zdigits2_unique (Z.pos m2) 53) by lia.
  rewrite fexp_53 by lia.
  replace (Z.min (53 + - a - (53 + - b) - 53) (- a - - b)) with (b - a - 53) by lia.
  replace (- a - - b - (b - a - 53)) with 53 by lia.
  rewrite Z.shiftl_mul_pow2 by lia.
  destruct (Z.div_eucl (Z.pos m1 * 2 ^ 53) (Z.pos m2)) as [q r] eqn:Ed.
  pose proof (Z_div_mod (Z.pos m1 * 2 ^ 53) (Z.pos m2) ltac:(lia)) as Hdm.
  rewrite Ed in Hdm. destruct Hdm as [Hq Hr].
  assert (2 ^ 52 ≤ q < 2 ^ 54) by nia.
  destruct (binary_round_aux_near q (b - a - 53) (new_location (Z.pos m2) r))
    as (m & k & Hk & Hmb & Hres & Hlo & Hhi & _); [lia|lia|].
  exists m, a, (b + k). cbn [xorb]. rewrite Hres. rewrite Z.pow_add_r by lia.
  split_and!; [lia|lia|lia|lia|f_equal; lia|rewrite <- Hm1; nia|rewrite <- Hm1; nia].
Qed.

(** ** The comparison with 0.7 *)

(** An exponent below that of the constant: the ratio is below one half. *)
Lemma below_half x y m P B : 0 < x → 0 < y → 0 < P → 0 < B → m < 2 ^ 53 →
  x * (B * (2 * P)) * 2 ^ 53 < (m + 1) * (y * B) → 7 * y ≤ 10 * x → False.
Proof.
  intros ????? H ?. assert (x * (2 * P) * 2 ^ 53 < (m + 1) * y).
  { apply (Z.mul_lt_mono_pos_r B); lia. }
  assert ((m + 1) * y ≤ 2 ^ 53 * y) by (apply Z.mul_le_mono_nonneg_r; lia).
  assert (x * 1 ≤ x * P) by (apply Z.mul_le_mono_nonneg_l; lia). lia.
Qed.

(** An exponent above it: the ratio is about one or more. *)
Lemma above_one x y m P B : 0 < x → 0 < y → 0 < P → 0 < B → 2 ^ 52 ≤ m →
  (m - 1) * (y * (B * (2 * P))) ≤ x * B * 2 ^ 53 → 7 * y ≤ 10 * x.
Proof.
  intros ????? H. assert ((m - 1) * (y * (2 * P)) ≤ x * 2 ^ 53).
  { apply (Z.mul_le_mono_pos_r _ _ B); lia. }
  assert ((2 ^ 52 - 1) * (y * (2 * P)) ≤ (m - 1) * (y * (2 * P)))
    by (apply Z.mul_le_mono_nonneg_r; lia).
  assert (y * 1 ≤ y * P) by (apply Z.mul_le_mono_nonneg_l; lia). lia.
Qed.

(** For integers below 2^48 the comparison of the rounded ratio with the rounded
    constant decides 7/10 of the denominator exactly. *)
Lemma f64_ratio_compare x y : 0 ≤ x < 2 ^ 48 → 0 < y < 2 ^ 48 →
  SFcompare f64_0_7 (f64_div (f64_of_int x) (f64_of_int y)) ≠ None
  ∧ (f64_leb f64_0_7 (f64_div (f64_of_int x) (f64_of_int y)) = true ↔ 7 * y ≤ 10 * x)
  ∧ (f64_ltb (f64_div (f64_of_int x) (f64_of_int y)) f64_0_7 = true ↔ 10 * x < 7 * y).
Proof.
  intros Hx Hy. destruct (decide (x = 0)) as [->|Hx0].
  { destruct (f64_of_int_exact y) as (m & a & _ & -> & _); [lia|]. cbn. split_and!; [done| |];
      split; (done || lia). }
  destruct (f64_div_near x y) as (m & a & b & Ha & Hb & Hm & -> & Hlo & Hhi); [lia|lia|].
  unfold f64_leb, f64_ltb, SFleb, SFltb, f64_0_7, SFcompare.
  assert (7 * y ≤ 10 * x ↔ (-53 < b - a - 53 ∨ (b - a = 0 ∧ 6305039478318694 ≤ Z.pos m))) as Hiff.
  { pose proof (Z.pow_pos_nonneg 2 a). pose proof (Z.pow_pos_nonneg 2 b).
    destruct (Z.lt_trichotomy b a) as [Hba|[->|Hba]].
    - replace a with (b + Z.succ (a - b - 1)) in Hhi by lia.
      rewrite Z.pow_add_r, Z.pow_succ_r in Hhi by lia.
      pose proof (Z.pow_pos_nonneg 2 (a - b - 1)).
      split; [|lia]. intros Hge. exfalso.
      apply (below_half x y (Z.pos m) (2 ^ (a - b - 1)) (2 ^ b)); lia.
    - assert ((Z.pos m - 1) * y ≤ x * 2 ^ 53) by (apply (Z.mul_le_mono_pos_r _ _ (2 ^ a)); lia).
      assert (x * 2 ^ 53 < (Z.pos m + 1) * y) by (apply (Z.mul_lt_mono_pos_r (2 ^ a)); lia).
      split; [|intros [?|[_ ?]]; [lia|nia]]. intros Hge. right. split; [lia|]. nia.
    - split; [lia|]. intros _.
      replace b with (a + Z.succ (b - a - 1)) in Hlo by lia.
      rewrite Z.pow_add_r, Z.pow_succ_r in Hlo by lia.
      pose proof (Z.pow_pos_nonneg 2 (b - a - 1)).
      apply (above_one x y (Z.pos m) (2 ^ (b - a - 1)) (2 ^ a)); lia. }
  assert (10 * x < 7 * y ↔ ¬ 7 * y ≤ 10 * x) as -> by lia. rewrite Hiff. clear Hiff Hlo Hhi.
  generalize 6305039478318694%positive. intros C. split; [done|].
  destruct (Z.compare_spec (-53) (b - a - 53)) as [He|He|He];
    destruct (Z.compare_spec (b - a - 53) (-53)) as [He'|He'|He']; try lia.
  change (Pos.compare_cont Eq) with Pos.compare.
  destruct (Pos.compare_spec C m) as [Hc|Hc|Hc];
    destruct (Pos.compare_spec m C) as [Hc'|Hc'|Hc']; try lia; split; split; (done || lia).
Qed.

Lemma f64_ratio_ge x y : 0 ≤ x < 2 ^ 48 → 0 < y < 2 ^ 48 →
  f64_leb f64_0_7 (f64_div (f64_of_int x) (f64_of_int y)) = (7 * y <=? 10 * x).
Proof.
  intros Hx Hy. destruct (f64_ratio_compare x y Hx Hy) as (_ & H & _).
  apply eq_true_iff_eq. by rewrite H, Z.leb_le.
Qed.

Lemma f64_ratio_lt x y : 0 ≤ x < 2 ^ 48 → 0 < y < 2 ^ 48 →
  f64_ltb (f64_div (f64_of_int x) (f64_of_int y)) f64_0_7 = (10 * x <? 7 * y).
Proof.
  intros Hx Hy. destruct (f64_ratio_compare x y Hx Hy) as (_ & _ & H).
  apply eq_true_iff_eq. by rewrite H, Z.ltb_lt.
Qed.
