(* ===== verification/Oracle.v ===== *)
(** * The oracle module

    x/oracle: validators vote on the content of a prophecy (an event seen on
    another chain); a prophecy succeeds with the content that reaches the
    consensus ratio of the whitelisted power, and fails when none can reach it
    any more.  This file holds the data, the keeper operations, and the
    well-formedness invariant of the stored prophecies.

    Addresses are raw addresses except where the code uses their bech32 form
    ([val_string]).  The staking module is read through a view, an argument of
    the operations.  A prophecy is stored as protobuf with its two maps in JSON,
    which is the identity on the (UTF-8) strings stored here. *)
From S2P Require Import Prelude Sdk ClpTypes Float64.

(** ** types.pb.go, claim.go *)
Abbreviation StatusText := Z (only parsing).
Definition STATUS_TEXT_UNSPECIFIED : StatusText := 0.
Definition STATUS_TEXT_PENDING : StatusText := 1.
Definition STATUS_TEXT_SUCCESS : StatusText := 2.
Definition STATUS_TEXT_FAILED : StatusText := 3.

Record Status := mkStatus {
  Text : StatusText;
  FinalClaim : string
}.
#[global] Instance Status_eta : Eta Status := λ r, mkStatus (Text r) (FinalClaim r).

Record Claim := mkClaim {
  ClaimId : string;
  ClaimValidatorAddress : string;
  ClaimContent : string
}.

Definition NewClaim (id validatorAddress content : string) : Claim :=
  mkClaim id validatorAddress content.

Record Prophecy := mkProphecy {
  ProphecyID : string;
  ProphecyStatus : Status;
  ClaimValidators : gmap string (list string);
  ValidatorClaims : gmap string string
}.
#[global] Instance Prophecy_eta : Eta Prophecy := λ r,
  mkProphecy (ProphecyID r) (ProphecyStatus r) (ClaimValidators r) (ValidatorClaims r).

(** What the module keeps in its store. *)
Record OracleStore := mkOracleStore {
  OracleWhiteList : option (list string);
  OracleAdmin : option string;
  Prophecies : gmap string Prophecy
}.
#[global] Instance OracleStore_eta : Eta OracleStore := λ r,
  mkOracleStore (OracleWhiteList r) (OracleAdmin r) (Prophecies r).

(** The staking keeper as the module sees it (expected_keepers.go). *)
Record Validator := mkValidator {
  OperatorAddress : string;
  IsBonded : bool;
  ConsensusPower : Z
}.
Record StakingKeeper := mkStakingKeeper {
  GetValidator : string → option Validator;
  GetBondedValidatorsByPower : list Validator
}.

(** ** prophecy.go *)

Definition DefaultConsensusNeeded : float64 := f64_0_7.

Definition NewStatus (text : StatusText) (finalClaim : string) : Status :=
  mkStatus text finalClaim.

Definition NewProphecy (id : string) : Prophecy :=
  mkProphecy id (NewStatus STATUS_TEXT_PENDING "") ∅ ∅.

Section Prophecy.
Context {sdk : SDK} {go : GoMap}.

Definition AddClaim (validator claim : string) (prophecy : Prophecy) : Prophecy :=
  let claimValidators := default [] (ClaimValidators prophecy !! claim) in
  prophecy <| ClaimValidators := <[claim := claimValidators ++ [validator]]> (ClaimValidators prophecy) |>
           <| ValidatorClaims := <[val_string validator := claim]> (ValidatorClaims prophecy) |>.

(** [Validator.GetOperator()] of the staking module *)
Definition GetOperator (v : Validator) : res string :=
  if String.eqb (OperatorAddress v) "" then Ok ""
  else match val_from_bech32 (OperatorAddress v) with Ok a => Ok a | _ => Panic end.

Fixpoint inWhiteList (validator : Validator) (whiteList : list string) : res bool :=
  match whiteList with
  | [] => Ok false
  | a :: l => op ← GetOperator validator;
              if String.eqb op a then Ok true else inWhiteList validator l
  end.

(** The power of the validators in the whitelist. *)
Definition total_power (validators : list Validator) (whiteList : list string) : res Z :=
  foldR (λ totalPower v,
    b ← inWhiteList v whiteList;
    Ok (if (b : bool) then i64 (totalPower + ConsensusPower v) else totalPower)) 0 validators.

Definition validators_by_address (validators : list Validator) : gmap string Validator :=
  foldl (λ m v, <[OperatorAddress v := v]> m) ∅ validators.

(** The power behind one claim: voters that are no longer bonded do not count. *)
Definition claim_power (byAddress : gmap string Validator) (voters : list string) : Z :=
  foldl (λ claimPower a,
    match byAddress !! val_string a with
    | Some v => i64 (claimPower + ConsensusPower v)
    | None => claimPower
    end) 0 voters.

Record tally := mkTally { highestClaim : string; highestClaimPower : Z; totalClaimsPower : Z }.

Definition count_claim (byAddress : gmap string Validator) (t : tally)
    (claim : string * list string) : tally :=
  let claimPower := claim_power byAddress claim.2 in
  let total := i64 (totalClaimsPower t + claimPower) in
  if highestClaimPower t <? claimPower then mkTally claim.1 claimPower total
  else mkTally (highestClaim t) (highestClaimPower t) total.

Definition FindHighestClaim (sk : StakingKeeper) (whiteList : list string)
    (prophecy : Prophecy) : res (tally * Z) :=
  let validators := GetBondedValidatorsByPower sk in
  totalPower ← total_power validators whiteList;
  let byAddress := validators_by_address validators in
  Ok (foldl (count_claim byAddress) (mkTally "" (-1) 0) (map_range (ClaimValidators prophecy)),
      totalPower).
End Prophecy.

(** ** validatorWhiteList.go, adminAccount.go *)
Section Keeper.
Context {sdk : SDK} {go : GoMap}.

Fixpoint parse_all (l : list string) : res (list string) :=
  match l with
  | [] => Ok []
  | e :: l' => match val_from_bech32 e with
               | Ok a => as' ← parse_all l'; Ok (a :: as')
               | _ => Panic
               end
  end.

Definition SetOracleWhiteList (validatorList : list string) (st : OracleStore) : OracleStore :=
  st <| OracleWhiteList := Some (val_string <$> validatorList) |>.

Definition ExistsOracleWhiteList (st : OracleStore) : bool :=
  match OracleWhiteList st with Some _ => true | None => false end.

Definition GetOracleWhiteList (st : OracleStore) : res (list string) :=
  parse_all (default [] (OracleWhiteList st)).

Definition ValidateAddress (st : OracleStore) (address : string) : res bool :=
  if negb (ExistsOracleWhiteList st) then Ok false
  else l ← GetOracleWhiteList st; Ok (existsb (String.eqb address) l).

Definition AddOracleWhiteList (validator : string) : M OracleStore () :=
  st ← gets id; l ← lift (GetOracleWhiteList st);
  modify (SetOracleWhiteList (l ++ [validator])).

Definition RemoveOracleWhiteList (validator : string) : M OracleStore () :=
  st ← gets id; l ← lift (GetOracleWhiteList st);
  modify (SetOracleWhiteList (filter (λ a, a ≠ validator) l)).

Definition SetOracleAdminAccount (a : string) (st : OracleStore) : OracleStore :=
  st <| OracleAdmin := Some a |>.

(** An absent account and an empty one are both nil. *)
Definition GetOracleAdminAccount (st : OracleStore) : string := default "" (OracleAdmin st).

Definition IsOracleAdmin (st : OracleStore) (a : string) : bool :=
  let account := GetOracleAdminAccount st in
  if String.eqb account "" then false else String.eqb account a.

(** ** keeper.go *)

Definition NewOracleKeeper (consensusNeeded : float64) : res float64 :=
  if f64_leb consensusNeeded (f64_of_int 0) || f64_ltb (f64_of_int 1) consensusNeeded
  then Panic else Ok consensusNeeded.

Definition GetProphecy (st : OracleStore) (id : string) : option Prophecy := Prophecies st !! id.

Definition GetProphecies (st : OracleStore) : list Prophecy := (kv_iterate (Prophecies st)).*2.

Definition SetProphecy (p : Prophecy) (st : OracleStore) : OracleStore :=
  st <| Prophecies := <[ProphecyID p := p]> (Prophecies st) |>.

Definition EnsureAddressIsInWhitelist (st : OracleStore) (validatorAddress : string) : res () :=
  whiteList ← GetOracleWhiteList st;
  ensure (existsb (λ a, String.eqb (val_string a) validatorAddress) whiteList)
    (EOracle ErrValidatorNotInWhiteList).

Definition checkActiveValidator (sk : StakingKeeper) (a : string) : bool :=
  match GetValidator sk a with Some v => IsBonded v | None => false end.

Definition processCompletion (consensusNeeded : float64) (sk : StakingKeeper) (st : OracleStore)
    (prophecy : Prophecy) : res Prophecy :=
  whiteList ← GetOracleWhiteList st;
  '(t, totalPower) ← FindHighestClaim sk whiteList prophecy;
  let highestConsensusRatio := f64_div (f64_of_int (highestClaimPower t)) (f64_of_int totalPower) in
  let remainingPossibleClaimPower := i64 (totalPower - totalClaimsPower t) in
  let highestPossibleClaimPower := i64 (highestClaimPower t + remainingPossibleClaimPower) in
  let highestPossibleConsensusRatio :=
    f64_div (f64_of_int highestPossibleClaimPower) (f64_of_int totalPower) in
  Ok (if f64_leb consensusNeeded highestConsensusRatio
      then prophecy <| ProphecyStatus := mkStatus STATUS_TEXT_SUCCESS (highestClaim t) |>
      else if f64_ltb highestPossibleConsensusRatio consensusNeeded
      then prophecy <| ProphecyStatus := (ProphecyStatus prophecy) <| Text := STATUS_TEXT_FAILED |> |>
      else prophecy).

Definition ProcessClaim (consensusNeeded : float64) (sk : StakingKeeper) (claim : Claim)
    : M OracleStore Status :=
  st ← gets id;
  lift (EnsureAddressIsInWhitelist st (ClaimValidatorAddress claim));;
  valAddr ← lift (val_from_bech32 (ClaimValidatorAddress claim));
  lift (ensure (checkActiveValidator sk valAddr) (EOracle ErrInvalidValidator));;
  lift (ensure (negb (String.eqb (ClaimId claim) "")) (EOracle ErrInvalidIdentifier));;
  lift (ensure (negb (String.eqb (ClaimContent claim) "")) (EOracle ErrInvalidClaim));;
  let prophecy := default (NewProphecy (ClaimId claim)) (GetProphecy st (ClaimId claim)) in
  lift (ensure (Text (ProphecyStatus prophecy) =? STATUS_TEXT_PENDING) (EOracle ErrProphecyFinalized));;
  lift (ensure (String.eqb (default "" (ValidatorClaims prophecy !! ClaimValidatorAddress claim)) "")
          (EOracle ErrDuplicateMessage));;
  prophecy ← lift (processCompletion consensusNeeded sk st (AddClaim valAddr (ClaimContent claim) prophecy));
  modify (SetProphecy prophecy);;
  mret (ProphecyStatus prophecy).

Definition ProcessUpdateWhiteListValidator (cosmosSender validator operationtype : string)
    : M OracleStore () :=
  st ← gets id;
  lift (ensure (IsOracleAdmin st cosmosSender) (EOracle ErrNotAdminAccount));;
  if String.eqb operationtype "add" then AddOracleWhiteList validator
  else if String.eqb operationtype "remove" then RemoveOracleWhiteList validator
  else fail (EOracle ErrInvalidOperationType).
End Keeper.

(** ** genesis.go

    [None] is a nil list; a prophecy and its serialised form are the same here. *)
Record OracleGenesis := mkOracleGenesis {
  AddressWhitelist : option (list string);
  AdminAddress : string;
  GenesisProphecies : list Prophecy
}.

Section Genesis.
Context {sdk : SDK}.

(** Entries of white space are skipped, any other must be an address. *)
Definition genesis_whitelist (entries : list string) : res (list string) :=
  parse_all (filter (λ entry, (0 < String.length (trim_space entry))%nat) entries).

Definition OracleInitGenesis (data : OracleGenesis) : M OracleStore () :=
  (match AddressWhitelist data with
   | None => mret ()
   | Some entries => wl ← lift (genesis_whitelist entries); modify (SetOracleWhiteList wl)
   end);;
  (if (String.length (trim_space (AdminAddress data)) =? 0)%nat then mret ()
   else a ← mustM (lift (acc_from_bech32 (AdminAddress data))); modify (SetOracleAdminAccount a));;
  forM (GenesisProphecies data) (λ p, modify (SetProphecy p)).

(** The string of a nil address is empty. *)
Definition OracleExportGenesis (st : OracleStore) : res OracleGenesis :=
  whiteList ← GetOracleWhiteList st;
  let adminAcc := GetOracleAdminAccount st in
  Ok (mkOracleGenesis (Some (val_string <$> whiteList))
        (if String.eqb adminAcc "" then "" else acc_string adminAcc) (GetProphecies st)).
End Genesis.
