(* ===== verification/OracleProps.v ===== *)
(** * What a vote does to a prophecy

    The well-formedness of stored prophecies, the steps of [ProcessClaim], and
    the tally of the votes as sums over the validators: no int64 wraps, and
    every validator counts once. *)
From S2P Require Import Prelude Sdk Float64 Oracle.

(** ** Well-formed prophecies *)
Section Wf.
Context {sdk : SDK} {L : SDKLaws sdk}.

(** An address that its own bech32 form parses to. *)
Definition canonical (a : string) : Prop := val_from_bech32 (val_string a) = Ok a.

Lemma canonical_inj a b : canonical a → canonical b → val_string a = val_string b → a = b.
Proof. unfold canonical. intros Ha Hb He. rewrite He in Ha. congruence. Qed.

(** The two maps agree, every voter votes once and for a non-empty claim, and a
    successful prophecy has a final claim somebody voted for. *)
Record prophecy_wf (p : Prophecy) : Prop := {
  pw_voters c vs : ClaimValidators p !! c = Some vs → c ≠ "" ∧ vs ≠ [] ∧ NoDup vs;
  pw_voter c vs v : ClaimValidators p !! c = Some vs → v ∈ vs →
    canonical v ∧ ValidatorClaims p !! val_string v = Some c;
  pw_claim s c : ValidatorClaims p !! s = Some c →
    ∃ vs v, ClaimValidators p !! c = Some vs ∧ v ∈ vs ∧ val_string v = s;
  pw_text : Text (ProphecyStatus p) = STATUS_TEXT_PENDING
            ∨ Text (ProphecyStatus p) = STATUS_TEXT_FAILED
            ∨ Text (ProphecyStatus p) = STATUS_TEXT_SUCCESS
              ∧ is_Some (ClaimValidators p !! FinalClaim (ProphecyStatus p))
}.

Definition oracle_wf (st : OracleStore) : Prop :=
  ∀ id p, Prophecies st !! id = Some p → ProphecyID p = id ∧ prophecy_wf p.

Lemma NewProphecy_wf id : prophecy_wf (NewProphecy id).
Proof. split; cbn; [intros ?? H|intros ??? H|intros ?? H|by left]; by rewrite lookup_empty in H. Qed.

(** The vote of a validator that has not voted yet. *)
Lemma AddClaim_wf p v c : canonical v → c ≠ "" → ValidatorClaims p !! val_string v = None →
  Text (ProphecyStatus p) = STATUS_TEXT_PENDING → prophecy_wf p → prophecy_wf (AddClaim v c p).
Proof.
  intros Hv Hc Hnew Hp Hwf.
  assert (∀ c' vs, ClaimValidators p !! c' = Some vs → v ∉ vs) as Hnot.
  { intros c' vs Hvs Hin. destruct (pw_voter p Hwf _ _ _ Hvs Hin) as [_ He]. congruence. }
  assert (∀ c' vs, ClaimValidators (AddClaim v c p) !! c' = Some vs →
    (c' = c ∧ vs = default [] (ClaimValidators p !! c) ++ [v])
    ∨ (c' ≠ c ∧ ClaimValidators p !! c' = Some vs)) as Hcv.
  { intros c' vs. cbn. rewrite lookup_insert_Some. naive_solver. }
  split.
  - intros c' vs [[-> ->]|[_ H]]%Hcv; [|by apply (pw_voters p Hwf)]. split_and!; [done|by destruct (default _ _)|].
    destruct (ClaimValidators p !! c) as [ws|] eqn:Ews; cbn; [|apply NoDup_singleton].
    destruct (pw_voters p Hwf _ _ Ews) as (_ & _ & Hnd).
    apply NoDup_app. split_and!; [done|intros x Hx ->%list_elem_of_singleton; by eapply Hnot|
      apply NoDup_singleton].
  - intros c' vs w Hw Hin. cbn. destruct (decide (w = v)) as [->|Hwv].
    + split; [done|]. rewrite lookup_insert_eq.
      apply Hcv in Hw as [[-> _]|[_ Hw]]; [done|]. exfalso. by eapply Hnot.
    + assert (∃ ws, ClaimValidators p !! c' = Some ws ∧ w ∈ ws) as (ws & Hws & Hin').
      { apply Hcv in Hw as [[-> ->]|[_ Hw]]; [|eauto].
        apply elem_of_app in Hin as [Hin|?%list_elem_of_singleton]; [|done].
        destruct (ClaimValidators p !! c); [eauto|]. by apply not_elem_of_nil in Hin. }
      destruct (pw_voter p Hwf _ _ _ Hws Hin') as [Hcw Hcl]. split; [done|].
      rewrite lookup_insert_ne; [done|]. intros He. apply Hwv. by apply canonical_inj.
  - intros s c'. cbn. rewrite lookup_insert_Some. intros [[<- <-]|[Hs H]].
    + eexists _, v. rewrite lookup_insert_eq. split_and!; [done| |done]. apply elem_of_app. right. by left.
    + destruct (pw_claim p Hwf _ _ H) as (vs & w & Hvs & Hw & <-).
      destruct (decide (c' = c)) as [->|Hcc].
      * rewrite Hvs. eexists _, w. rewrite lookup_insert_eq. split_and!; [done| |done].
        apply elem_of_app. by left.
      * exists vs, w. by rewrite lookup_insert_ne.
  - cbn. by left.
Qed.

(** The whitelist only holds addresses in canonical form. *)
Lemma parse_all_canonical l as' : parse_all l = Ok as' → ∀ a, a ∈ as' → canonical a.
Proof.
  revert as'. induction l as [|e l IH]; cbn; intros as' H a Ha.
  { inv_ok. by apply not_elem_of_nil in Ha. }
  destruct (val_from_bech32 e) as [b| |] eqn:Eb; [|done|done]. inv_ok.
  apply elem_of_cons in Ha as [->|Ha]; [by eapply val_round_trip|by eapply IH].
Qed.

Lemma EnsureAddress_Ok st v : EnsureAddressIsInWhitelist st v = Ok () →
  ∃ l a, GetOracleWhiteList st = Ok l ∧ a ∈ l ∧ val_string a = v ∧ canonical a.
Proof.
  unfold EnsureAddressIsInWhitelist. intros H. inv_ok.
  apply existsb_exists in H as (a & Ha%list_elem_of_In & He%String.eqb_eq).
  exists v0, a. split_and!; [done|done|done|]. unfold GetOracleWhiteList in *.
  by eapply parse_all_canonical.
Qed.
End Wf.

(** ** The power of a set of validators *)
Section Power.
Context {sdk : SDK} {L : SDKLaws sdk}.

(** What the staking module promises: bonded validators are listed once, under
    their bech32 operator address, with non-negative power.  The bound on the
    total leaves the comparison of float64 ratios exact. *)
Record staking_wf (sk : StakingKeeper) : Prop := {
  sw_power v : v ∈ GetBondedValidatorsByPower sk → 0 ≤ ConsensusPower v;
  sw_total : zsum ConsensusPower (GetBondedValidatorsByPower sk) < 2 ^ 48;
  sw_unique : NoDup (OperatorAddress <$> GetBondedValidatorsByPower sk);
  sw_addr v : v ∈ GetBondedValidatorsByPower sk →
    OperatorAddress v ≠ "" ∧ ∃ a, canonical a ∧ OperatorAddress v = val_string a
}.

(** The power of the validators whose operator address satisfies [P]. *)
Definition weight (vs : list Validator) (P : string → Prop) `{!∀ s, Decision (P s)} : Z :=
  zsum (λ v, if decide (P (OperatorAddress v)) then ConsensusPower v else 0) vs.

Definition power_of (sk : StakingKeeper) (addrs : list string) : Z :=
  weight (GetBondedValidatorsByPower sk) (λ s, s ∈ val_string <$> addrs).

Section Weight.
Context (vs : list Validator) (Hpow : ∀ v, v ∈ vs → 0 ≤ ConsensusPower v).

Lemma weight_mono P Q `{!∀ s, Decision (P s)} `{!∀ s, Decision (Q s)} :
  (∀ v, v ∈ vs → P (OperatorAddress v) → Q (OperatorAddress v)) → weight vs P ≤ weight vs Q.
Proof.
  intros HPQ. apply zsum_le. intros v Hv. specialize (HPQ v Hv). specialize (Hpow v Hv).
  repeat case_decide; naive_solver lia.
Qed.

Lemma weight_bounds P `{!∀ s, Decision (P s)} : 0 ≤ weight vs P ≤ zsum ConsensusPower vs.
Proof.
  split; [apply zsum_nonneg|apply zsum_le]; intros v Hv; specialize (Hpow v Hv);
    case_decide; lia.
Qed.

Lemma weight_disjoint P Q R `{!∀ s, Decision (P s)} `{!∀ s, Decision (Q s)} `{!∀ s, Decision (R s)} :
  (∀ s, R s ↔ P s ∨ Q s) → (∀ s, P s → Q s → False) → weight vs R = weight vs P + weight vs Q.
Proof.
  intros HR Hdis. unfold weight. rewrite <- zsum_plus. apply zsum_ext. intros v _.
  specialize (HR (OperatorAddress v)). specialize (Hdis (OperatorAddress v)).
  repeat case_decide; naive_solver lia.
Qed.

(** At most one validator has a given address. *)
Lemma weight_single x : NoDup (OperatorAddress <$> vs) →
  weight vs (λ s, s = x) = match validators_by_address vs !! x with
                           | Some v => ConsensusPower v | None => 0 end.
Proof.
  clear Hpow. unfold weight, validators_by_address.
  induction vs as [|v l IH] using rev_ind; [done|]. rewrite fmap_app, NoDup_app.
  intros (Hl & Hd & _). rewrite zsum_app, foldl_snoc, lookup_insert, IH by done. cbn [zsum].
  destruct (decide (OperatorAddress v = x)) as [He|He]; [|lia].
  rewrite <- IH by done. replace (zsum _ l) with 0; [lia|]. symmetry.
  transitivity (zsum (λ _ : Validator, 0) l); [|clear; induction l; cbn; lia].
  apply zsum_ext. intros w Hw. case_decide as Hwx; [|done]. exfalso.
  apply (Hd x); [rewrite <- Hwx; by apply list_elem_of_fmap_2|]. rewrite <- He. by left.
Qed.

(** Counting the voters of a claim one by one gives their power. *)
Lemma claim_power_weight voters : NoDup (OperatorAddress <$> vs) →
  zsum ConsensusPower vs < 2 ^ 48 → NoDup voters → (∀ a, a ∈ voters → canonical a) →
  claim_power (validators_by_address vs) voters = weight vs (λ s, s ∈ val_string <$> voters).
Proof.
  intros Hu Ht Hnd Hcan.
  set (f a := match validators_by_address vs !! val_string a with
              | Some v => ConsensusPower v | None => 0 end).
  assert (∀ a, 0 ≤ f a) as Hf.
  { intros a. unfold f. rewrite <- weight_single by done. apply weight_bounds. }
  assert (zsum f voters = weight vs (λ s, s ∈ val_string <$> voters)) as Hsum.
  { clear Ht. induction voters as [|a l IH]; cbn [zsum].
    - symmetry. unfold weight. transitivity (zsum (λ _ : Validator, 0) vs).
      + apply zsum_ext. intros v _. rewrite decide_False; [done|]. apply not_elem_of_nil.
      + clear. induction vs; cbn; lia.
    - apply NoDup_cons in Hnd as [Ha Hnd]. rewrite IH; [|done|intros; apply Hcan; by right].
      unfold f at 1. rewrite <- weight_single by done. symmetry.
      apply weight_disjoint; [intros s; cbn; rewrite elem_of_cons; tauto|].
      intros s -> (b & He & Hb)%list_elem_of_fmap. apply Ha.
      rewrite (canonical_inj a b); [done|apply Hcan; by left|apply Hcan; by right|done]. }
  rewrite <- Hsum. unfold claim_power. rewrite (fold_exact f); [lia| |done|lia|].
  - intros s a Ha Hs Hb. specialize (Hf a). unfold f in *. destruct (_ !! _); [|lia].
    rewrite i64_id by lia. lia.
  - rewrite Hsum. pose proof (weight_bounds (λ s, s ∈ val_string <$> voters)). lia.
Qed.
End Weight.

Lemma power_of_bounds sk addrs : staking_wf sk → 0 ≤ power_of sk addrs < 2 ^ 48.
Proof.
  intros Hsk. pose proof (weight_bounds (GetBondedValidatorsByPower sk) (sw_power sk Hsk)
    (λ s, s ∈ val_string <$> addrs)). pose proof (sw_total sk Hsk). unfold power_of. lia.
Qed.

(** The whitelisted power is the power of the whitelist. *)
Lemma inWhiteList_spec v a wl : OperatorAddress v ≠ "" → canonical a →
  OperatorAddress v = val_string a → inWhiteList v wl = Ok (bool_decide (a ∈ wl)).
Proof.
  intros Hne Ha He. induction wl as [|b wl IH]; cbn; [done|].
  unfold GetOperator. apply String.eqb_neq in Hne as ->. rewrite He, Ha. cbn.
  destruct (String.eqb_spec a b) as [->|Hab].
  - rewrite bool_decide_eq_true_2; [done|by left].
  - rewrite IH. f_equal. apply bool_decide_ext. rewrite elem_of_cons. naive_solver.
Qed.

Lemma total_power_spec sk wl : staking_wf sk → (∀ a, a ∈ wl → canonical a) →
  total_power (GetBondedValidatorsByPower sk) wl = Ok (power_of sk wl).
Proof.
  intros Hsk Hwl. pose proof (power_of_bounds sk wl Hsk) as Hb. unfold total_power, power_of, weight in *.
  set (f v := if decide (OperatorAddress v ∈ val_string <$> wl) then ConsensusPower v else 0) in *.
  assert (∀ l acc, (∀ v, v ∈ l → v ∈ GetBondedValidatorsByPower sk) → 0 ≤ acc → acc + zsum f l < 2 ^ 48 →
    foldR (λ totalPower v, b ← inWhiteList v wl;
      Ok (if (b : bool) then i64 (totalPower + ConsensusPower v) else totalPower)) acc l
    = Ok (acc + zsum f l)) as H; [|apply (H _ 0); [done|lia|lia]].
  induction l as [|v l IH]; intros acc Hl Ha Hacc; cbn [foldR zsum] in *; [f_equal; lia|].
  assert (v ∈ GetBondedValidatorsByPower sk) as Hv by (apply Hl; left).
  destruct (sw_addr sk Hsk v Hv) as (Hne & a & Hca & He).
  pose proof (sw_power sk Hsk v Hv) as Hp.
  assert (0 ≤ zsum f l).
  { apply zsum_nonneg. intros w Hw. unfold f. case_decide; [|lia].
    apply (sw_power sk Hsk). apply Hl. by right. }
  assert ((a ∈ wl) ↔ OperatorAddress v ∈ val_string <$> wl) as Hin.
  { rewrite list_elem_of_fmap, He. split; [eauto|]. intros (b & Hab & Hb').
    rewrite (canonical_inj a b); auto. }
  rewrite (inWhiteList_spec v a) by done. cbn [mbind res_bind].
  unfold f at 1 in Hacc. unfold f at 1.
  destruct (bool_decide_reflect (a ∈ wl)) as [Hw|Hw].
  - rewrite decide_True in Hacc by tauto. rewrite decide_True by tauto. rewrite i64_id by lia.
    rewrite IH; [f_equal; lia| |lia|lia]. intros w Hw'. apply Hl. by right.
  - rewrite decide_False in Hacc by tauto. rewrite decide_False by tauto.
    rewrite IH; [f_equal; lia| |lia|lia]. intros w Hw'. apply Hl. by right.
Qed.
End Power.

(** ** The tally *)
Section Tally.
Context {sdk : SDK} {L : SDKLaws sdk}.

Definition voters (cvs : list (string * list string)) : list string := mjoin cvs.*2.

Lemma elem_of_voters cvs a : a ∈ voters cvs ↔ ∃ c vs, (c, vs) ∈ cvs ∧ a ∈ vs.
Proof.
  unfold voters. rewrite list_elem_of_join. split.
  - intros (vs & Ha & ([c vs'] & -> & Hc)%list_elem_of_fmap). eauto.
  - intros (c & vs & Hc & Ha). exists vs. split; [done|]. by apply (list_elem_of_fmap_2 snd cvs (c, vs)).
Qed.

(** Every voter of a prophecy appears under one claim. *)
Lemma voters_NoDup cvs (vc : gmap string string) : NoDup cvs.*1 →
  (∀ c vs, (c, vs) ∈ cvs → NoDup vs ∧ ∀ v, v ∈ vs → vc !! val_string v = Some c) →
  NoDup (voters cvs).
Proof.
  induction cvs as [|[c vs] l IH]; intros Hk Hv; [apply NoDup_nil_2|].
  cbn in Hk. apply NoDup_cons in Hk as [Hc Hk].
  destruct (Hv c vs) as [Hnd Hvs]; [by left|].
  change (NoDup (vs ++ voters l)). apply NoDup_app. split_and!; [done| |].
  - intros x Hx (c' & ws & Hin & Hw)%elem_of_voters.
    destruct (Hv c' ws) as [_ Hws]; [by right|].
    apply Hc. specialize (Hvs x Hx). specialize (Hws x Hw). assert (c = c') as -> by congruence.
    by apply (list_elem_of_fmap_2 fst l (c', ws)).
  - apply IH; [done|]. intros c' ws Hin. apply Hv. by right.
Qed.

Lemma map_range_elem {go : GoMap} {G : GoMapLaws go} {A} (m : gmap string A) k x :
  (k, x) ∈ map_range m ↔ m !! k = Some x.
Proof. rewrite map_range_law. apply elem_of_map_to_list. Qed.

Lemma prophecy_voters {go : GoMap} {G : GoMapLaws go} p : prophecy_wf p →
  NoDup (voters (map_range (ClaimValidators p)))
  ∧ ∀ c vs, (c, vs) ∈ map_range (ClaimValidators p) → NoDup vs ∧ ∀ v, v ∈ vs → canonical v.
Proof.
  intros Hwf. split.
  - apply (voters_NoDup _ (ValidatorClaims p)).
    + rewrite map_range_law. apply NoDup_fst_map_to_list.
    + intros c vs Hin%map_range_elem. destruct (pw_voters p Hwf _ _ Hin) as (_ & _ & ?).
      split; [done|]. intros v Hv. by eapply (pw_voter p Hwf).
  - intros c vs Hin%map_range_elem. destruct (pw_voters p Hwf _ _ Hin) as (_ & _ & ?).
    split; [done|]. intros v Hv. by eapply (pw_voter p Hwf).
Qed.

(** The powers of the claims add up to the power of all voters. *)
Lemma claims_power sk cvs : staking_wf sk → NoDup (voters cvs) →
  (∀ a, a ∈ voters cvs → canonical a) →
  zsum (λ cv, power_of sk cv.2) cvs = power_of sk (voters cvs).
Proof.
  intros Hsk. induction cvs as [|[c vs] l IH]; intros Hnd Hcan.
  - cbn. unfold power_of, weight. symmetry.
    transitivity (zsum (λ _ : Validator, 0) (GetBondedValidatorsByPower sk)).
    + apply zsum_ext. intros v _. rewrite decide_False; [done|]. apply not_elem_of_nil.
    + clear. induction (GetBondedValidatorsByPower sk); cbn; lia.
  - change (voters ((c, vs) :: l)) with (vs ++ voters l) in *. cbn [zsum snd].
    apply NoDup_app in Hnd as (Hvs & Hd & Hnd). rewrite IH; [|done|].
    + symmetry. apply weight_disjoint.
      * intros s. rewrite fmap_app. apply elem_of_app.
      * intros s (a & -> & Ha)%list_elem_of_fmap (b & He & Hb)%list_elem_of_fmap.
        apply (Hd a); [done|]. rewrite (canonical_inj a b); [done| | |done];
          apply Hcan, elem_of_app; auto.
    + intros a Ha. apply Hcan, elem_of_app. by right.
Qed.

(** A fold that keeps the first maximum and the total. *)
Lemma tally_spec by' (cvs : list (string * list string)) :
  let f cv := claim_power by' cv.2 in
  let t := foldl (count_claim by') (mkTally "" (-1) 0) cvs in
  (∀ cv, cv ∈ cvs → 0 ≤ f cv) → zsum f cvs < 2 ^ 63 →
  totalClaimsPower t = zsum f cvs
  ∧ (∀ cv, cv ∈ cvs → f cv ≤ highestClaimPower t)
  ∧ (cvs ≠ [] → ∃ vs, (highestClaim t, vs) ∈ cvs ∧ claim_power by' vs = highestClaimPower t)
  ∧ -1 ≤ highestClaimPower t.
Proof.
  cbn zeta. induction cvs as [|cv l IH] using rev_ind; intros Hf Hb.
  { split_and!; [done|intros cv H; by apply not_elem_of_nil in H|done|cbn; lia]. }
  assert (∀ cv, cv ∈ l → 0 ≤ claim_power by' cv.2) as Hl.
  { intros x Hx. apply Hf, elem_of_app. by left. }
  assert (0 ≤ claim_power by' cv.2) as Hcv by (apply Hf, elem_of_app; right; by left).
  pose proof (zsum_nonneg _ l Hl) as Hz. rewrite zsum_app in Hb. cbn [zsum] in Hb.
  destruct IH as (Ht & Hm & Hw & Hneg); [done|lia|].
  rewrite foldl_snoc, zsum_app. cbn [zsum]. set (t := foldl _ _ _) in *.
  unfold count_claim. rewrite Ht, i64_id by lia. case_test; bool_prop; cbn.
  - split_and!; [lia| | |lia].
    + intros x [Hx| ->%list_elem_of_singleton]%elem_of_app; [|lia]. specialize (Hm x Hx). lia.
    + intros _. exists cv.2. split; [|done]. destruct cv. apply elem_of_app. right. by left.
  - split_and!; [lia| | |lia].
    + intros x [Hx| ->%list_elem_of_singleton]%elem_of_app; [by apply Hm|lia].
    + intros _. destruct l as [|x l]; [cbn in *; lia|].
      destruct Hw as (vs & Hin & He); [done|]. exists vs. split; [|done]. apply elem_of_app. by left.
Qed.

(** [FindHighestClaim] on a well-formed prophecy, in terms of sets of voters. *)
Lemma FindHighestClaim_spec {go : GoMap} {G : GoMapLaws go} sk wl p :
  staking_wf sk → prophecy_wf p → (∀ a, a ∈ wl → canonical a) →
  ∃ t, FindHighestClaim sk wl p = Ok (t, power_of sk wl)
    ∧ totalClaimsPower t = power_of sk (voters (map_to_list (ClaimValidators p)))
    ∧ (∀ c vs, ClaimValidators p !! c = Some vs → power_of sk vs ≤ highestClaimPower t)
    ∧ (ClaimValidators p ≠ ∅ → ∃ vs, ClaimValidators p !! highestClaim t = Some vs
         ∧ power_of sk vs = highestClaimPower t)
    ∧ -1 ≤ highestClaimPower t.
Proof.
  intros Hsk Hwf Hwl. destruct (prophecy_voters p Hwf) as [Hnd Hvs].
  set (cvs := map_range (ClaimValidators p)) in *.
  assert (∀ cv, cv ∈ cvs → claim_power (validators_by_address (GetBondedValidatorsByPower sk)) cv.2
                           = power_of sk cv.2) as Hcp.
  { intros [c vs] Hin. destruct (Hvs c vs Hin). destruct Hsk. by apply claim_power_weight. }
  assert (∀ a, a ∈ voters cvs → canonical a) as Hcan.
  { intros a (c & vs & Hin & Ha)%elem_of_voters. by eapply Hvs. }
  pose proof (claims_power sk cvs Hsk Hnd Hcan) as Hsum.
  assert (zsum (λ cv, claim_power (validators_by_address (GetBondedValidatorsByPower sk)) cv.2) cvs
          = power_of sk (voters cvs)) as Hcs by (rewrite <- Hsum; by apply zsum_ext).
  pose proof (power_of_bounds sk (voters cvs) Hsk).
  destruct (tally_spec (validators_by_address (GetBondedValidatorsByPower sk)) cvs) as (Ht & Hm & Hw & Hn).
  { intros cv Hcv. rewrite Hcp by done. by apply power_of_bounds. }
  { rewrite Hcs. lia. }
  exists (foldl (count_claim (validators_by_address (GetBondedValidatorsByPower sk)))
            (mkTally "" (-1) 0) cvs).
  split_and!; [unfold FindHighestClaim; rewrite total_power_spec by done; reflexivity| | | |done].
  - rewrite Ht, Hcs. unfold power_of, weight. apply zsum_ext. intros v _.
    apply decide_ext. rewrite !list_elem_of_fmap. unfold cvs.
    setoid_rewrite elem_of_voters. setoid_rewrite map_range_elem. setoid_rewrite elem_of_map_to_list.
    done.
  - intros c vs Hc%map_range_elem. pose proof (Hcp (c, vs) Hc) as He. cbn [snd] in He.
    rewrite <- He. by apply (Hm (c, vs)).
  - intros Hne. destruct Hw as (vs & Hin & He).
    + intros Hnil. apply Hne. apply map_to_list_empty_iff. apply Permutation_nil_r.
      fold cvs. by rewrite <- map_range_law, <- Hnil.
    + exists vs. split; [by apply map_range_elem|]. rewrite <- He. symmetry. exact (Hcp _ Hin).
Qed.
End Tally.

(** ** One vote *)
Section Vote.
Context {sdk : SDK} {L : SDKLaws sdk} {go : GoMap} {G : GoMapLaws go}.

(** The float64 test for consensus, zero denominators included: without any
    whitelisted power, any vote with power is a consensus and none is not. *)
Lemma consensus_test hp T : 0 ≤ hp < 2 ^ 48 → 0 ≤ T < 2 ^ 48 →
  f64_leb DefaultConsensusNeeded (f64_div (f64_of_int hp) (f64_of_int T)) = true
  ↔ 7 * T ≤ 10 * hp ∧ (0 < T ∨ 0 < hp).
Proof.
  intros Hh HT. unfold DefaultConsensusNeeded. destruct (decide (T = 0)) as [->|HT0].
  - destruct (decide (hp = 0)) as [->|Hh0]; [cbn; split; [done|lia]|].
    destruct (f64_of_int_exact hp) as (m & a & _ & -> & _); [lia|]. cbn. split; [lia|done].
  - rewrite f64_ratio_ge, Z.leb_le by lia. split; [intros; split; [done|lia]|tauto].
Qed.

Lemma processCompletion_data c sk st p p' : processCompletion c sk st p = Ok p' →
  ProphecyID p' = ProphecyID p ∧ ClaimValidators p' = ClaimValidators p
  ∧ ValidatorClaims p' = ValidatorClaims p.
Proof.
  unfold processCompletion. intros H. inv_ok. open_pairs. inv_ok. repeat case_test; done.
Qed.

Lemma GetOracleWhiteList_canonical st wl : GetOracleWhiteList st = Ok wl → ∀ a, a ∈ wl → canonical a.
Proof. apply parse_all_canonical. Qed.

(** A well-formed prophecy with a vote: the three outcomes of a tally. *)
Lemma processCompletion_spec sk st p p' : staking_wf sk → prophecy_wf p →
  ClaimValidators p ≠ ∅ → Text (ProphecyStatus p) = STATUS_TEXT_PENDING →
  processCompletion DefaultConsensusNeeded sk st p = Ok p' →
  ∃ wl, GetOracleWhiteList st = Ok wl ∧
    (Text (ProphecyStatus p') = STATUS_TEXT_SUCCESS
       ∧ (∃ vs, ClaimValidators p !! FinalClaim (ProphecyStatus p') = Some vs
            ∧ 7 * power_of sk wl ≤ 10 * power_of sk vs
            ∧ (0 < power_of sk wl ∨ 0 < power_of sk vs)
            ∧ ∀ c ws, ClaimValidators p !! c = Some ws → power_of sk ws ≤ power_of sk vs)
     ∨ Text (ProphecyStatus p') = STATUS_TEXT_FAILED ∨ p' = p).
Proof.
  intros Hsk Hwf Hne Hpend H. unfold processCompletion in H. inv_ok.
  pose proof (GetOracleWhiteList_canonical st v E) as Hwl. exists v. split; [done|].
  destruct (FindHighestClaim_spec sk v p Hsk Hwf Hwl) as (t & Ht & _ & Hmax & Hw & _).
  rewrite Ht in *. inv_ok. cbn beta iota zeta in H.
  destruct (Hw Hne) as (vs & Hvs & Hp).
  destruct (f64_leb _ _) eqn:Ec in H; [left|].
  - inv_ok. cbn. split; [done|]. exists vs. split; [done|]. rewrite <- Hp in Ec.
    apply consensus_test in Ec as [? ?]; try by apply power_of_bounds. rewrite Hp. split_and!; [lia|lia|done].
  - right. destruct (f64_ltb _ _) in H; inv_ok; [by left|by right].
Qed.

(** The steps of a vote that is accepted. *)
Record vote (c : float64) (sk : StakingKeeper) (claim : Claim) (st : OracleStore)
    (status : Status) (st' : OracleStore) (a : string) (p p' : Prophecy) : Prop := {
  vt_white wl : GetOracleWhiteList st = Ok wl → a ∈ wl;
  vt_addr : val_string a = ClaimValidatorAddress claim ∧ canonical a;
  vt_active : checkActiveValidator sk a = true;
  vt_id : ClaimId claim ≠ "";
  vt_content : ClaimContent claim ≠ "";
  vt_old : p = default (NewProphecy (ClaimId claim)) (Prophecies st !! ClaimId claim);
  vt_pending : Text (ProphecyStatus p) = STATUS_TEXT_PENDING;
  vt_first : default "" (ValidatorClaims p !! ClaimValidatorAddress claim) = "";
  vt_new : processCompletion c sk st (AddClaim a (ClaimContent claim) p) = Ok p';
  vt_state : st' = SetProphecy p' st;
  vt_status : status = ProphecyStatus p'
}.

Lemma ProcessClaim_vote c sk claim st status st' :
  ProcessClaim c sk claim st = (Ok status, st') → ∃ a p p', vote c sk claim st status st' a p p'.
Proof.
  unfold ProcessClaim, GetProphecy. intros H. inv_ok. cbn [id] in *. bool_prop.
  match goal with H : EnsureAddressIsInWhitelist _ _ = Ok ?u |- _ =>
    destruct u; apply EnsureAddress_Ok in H as (wl & a & Hwl & Ha & He & Hc) end.
  match goal with H : val_from_bech32 _ = Ok ?b |- _ =>
    assert (b = a) as -> by (unfold canonical in Hc; congruence) end.
  match goal with H : processCompletion _ _ _ (AddClaim _ _ ?p) = Ok ?p' |- _ => exists a, p, p' end.
  split; try done. intros wl' Hwl'. rewrite Hwl in Hwl'. by injection Hwl' as <-.
Qed.

Lemma vote_first c sk claim st status st' a p p' : prophecy_wf p →
  vote c sk claim st status st' a p p' → ValidatorClaims p !! val_string a = None.
Proof.
  intros Hwf Hv. destruct (vt_addr _ _ _ _ _ _ _ _ _ Hv) as [-> _].
  pose proof (vt_first _ _ _ _ _ _ _ _ _ Hv) as Hf.
  destruct (ValidatorClaims p !! _) as [x|] eqn:Ex; [|done]. cbn in Hf. subst x.
  destruct (pw_claim p Hwf _ _ Ex) as (vs & w & Hvs & _). by destruct (pw_voters p Hwf _ _ Hvs).
Qed.

Lemma vote_old_wf c sk claim st status st' a p p' : oracle_wf st →
  vote c sk claim st status st' a p p' → ProphecyID p = ClaimId claim ∧ prophecy_wf p.
Proof.
  intros Hst Hv. rewrite (vt_old _ _ _ _ _ _ _ _ _ Hv).
  destruct (Prophecies st !! _) as [q|] eqn:Eq; cbn; [by apply Hst|]. split; [done|apply NewProphecy_wf].
Qed.

Lemma vote_added_wf c sk claim st status st' a p p' : oracle_wf st →
  vote c sk claim st status st' a p p' → prophecy_wf (AddClaim a (ClaimContent claim) p).
Proof.
  intros Hst Hv. destruct (vote_old_wf _ _ _ _ _ _ _ _ _ Hst Hv) as [_ Hwf].
  apply AddClaim_wf; [apply (vt_addr _ _ _ _ _ _ _ _ _ Hv)|by eapply vt_content| |by eapply vt_pending|done].
  by eapply vote_first.
Qed.

Lemma AddClaim_nonempty a content p : ClaimValidators (AddClaim a content p) ≠ ∅.
Proof. cbn. apply insert_non_empty. Qed.

Lemma vote_new_wf sk claim st status st' a p p' : staking_wf sk → oracle_wf st →
  vote DefaultConsensusNeeded sk claim st status st' a p p' →
  ProphecyID p' = ClaimId claim ∧ prophecy_wf p'.
Proof.
  intros Hsk Hst Hv. pose proof (vote_added_wf _ _ _ _ _ _ _ _ _ Hst Hv) as Hadd.
  destruct (vote_old_wf _ _ _ _ _ _ _ _ _ Hst Hv) as [Hid _].
  pose proof (vt_new _ _ _ _ _ _ _ _ _ Hv) as Hnew.
  destruct (processCompletion_data _ _ _ _ _ Hnew) as (Hid' & Hcv & Hvc).
  split; [by rewrite Hid'|].
  destruct (processCompletion_spec _ _ _ _ Hsk Hadd (AddClaim_nonempty _ _ _)
    (vt_pending _ _ _ _ _ _ _ _ _ Hv) Hnew) as (wl & _ & Hcase).
  destruct Hadd as [H1 H2 H3 H4]. split; rewrite ?Hcv, ?Hvc; try done.
  destruct Hcase as [[Ht (vs & Hvs & _)]|[Ht| ->]]; [|by right; left|done].
  right; right. split; [done|]. by rewrite Hvs.
Qed.

Lemma ProcessClaim_wf sk claim st status st' : staking_wf sk → oracle_wf st →
  ProcessClaim DefaultConsensusNeeded sk claim st = (Ok status, st') → oracle_wf st'.
Proof.
  intros Hsk Hst (a & p & p' & Hv)%ProcessClaim_vote.
  destruct (vote_new_wf _ _ _ _ _ _ _ _ Hsk Hst Hv) as [Hid Hwf].
  rewrite (vt_state _ _ _ _ _ _ _ _ _ Hv). intros id q. cbn. rewrite lookup_insert_Some.
  intros [[<- <-]|[_ Hq]]; [done|by apply Hst].
Qed.
End Vote.
