(* ===== verification/BridgeTypes.v ===== *)
(** * Data of the Ethereum bridge

    x/ethbridge/types and the stores of x/ethbridge/keeper: the claims
    validators make about events on Ethereum, the messages of the module with
    their stateless checks, and its store (pegged tokens, the account that
    receives ceth, the blacklist, the pause flag).

    go-ethereum's address functions and the JSON of a claim (encoding/json with
    the marshallers of the SDK and of go-ethereum) are the class [Geth]; the
    round trip of the JSON is its law, for claims whose symbol is ASCII. *)
From S2P Require Import Prelude Sdk Oracle Admin.

(** ** types.pb.go *)
Abbreviation ClaimType := Z (only parsing).
Definition CLAIM_TYPE_UNSPECIFIED : ClaimType := 0.
Definition CLAIM_TYPE_BURN : ClaimType := 1.
Definition CLAIM_TYPE_LOCK : ClaimType := 2.

Record EthBridgeClaim := mkEthBridgeClaim {
  EthereumChainId : Z;
  BridgeContractAddress : string;
  Nonce : Z;
  ClaimSymbol : string;
  TokenContractAddress : string;
  EthereumSender : string;
  CosmosReceiver : string;
  ValidatorAddress : string;
  ClaimAmount : Z;
  EthClaimType : ClaimType
}.

(** The content of a claim as the oracle stores it (claim.go); the receiver and
    the contract are raw addresses. *)
Record OracleClaimContent := mkOracleClaimContent {
  ContentReceiver : string;
  ContentAmount : Z;
  ContentSymbol : string;
  ContentToken : string;
  ContentType : ClaimType
}.

Module MsgPause.
Record t := mk { Signer : string; IsPaused : bool }.
End MsgPause.
Module MsgLock.
Record t := mk {
  CosmosSender : string;
  Amount : Z;
  Symbol : string;
  EthereumChainId : Z;
  EthereumReceiver : string;
  CethAmount : Z
}.
End MsgLock.
Module MsgBurn.
Record t := mk {
  CosmosSender : string;
  Amount : Z;
  Symbol : string;
  EthereumChainId : Z;
  EthereumReceiver : string;
  CethAmount : Z
}.
End MsgBurn.
Module MsgCreateEthBridgeClaim.
Record t := mk { EthBridgeClaim : option BridgeTypes.EthBridgeClaim }.
End MsgCreateEthBridgeClaim.
Module MsgUpdateWhiteListValidator.
Record t := mk { CosmosSender : string; Validator : string; OperationType : string }.
End MsgUpdateWhiteListValidator.
Module MsgUpdateCethReceiverAccount.
Record t := mk { CosmosSender : string; CethReceiverAccount : string }.
End MsgUpdateCethReceiverAccount.
Module MsgRescueCeth.
Record t := mk { CosmosSender : string; CosmosReceiver : string; CethAmount : Z }.
End MsgRescueCeth.
Module MsgSetBlacklist.
Record t := mk { From : string; Addresses : list string }.
End MsgSetBlacklist.

(** ** keys.go, ethereum.go *)
Definition BridgeModuleName : string := "ethbridge".
Definition CethSymbol : string := "ceth".
Definition PeggedCoinPrefix : string := "c".

(** go-ethereum's addresses and the JSON of claims. *)
Class Geth := {
  IsHexAddress : string → bool;
  HexToAddress : string → string;
  HexString : string → string;
  claim_marshal : OracleClaimContent → res string;
  claim_unmarshal : string → res OracleClaimContent
}.

Fixpoint is_ascii (s : string) : bool :=
  match s with
  | EmptyString => true
  | String c s' => (Ascii.nat_of_ascii c <? 128)%nat && is_ascii s'
  end.

Class GethLaws {sdk : SDK} (geth : Geth) : Prop := {
  claim_round_trip c j a h : is_ascii (ContentSymbol c) = true → Z.abs (ContentAmount c) < 2 ^ 255 →
    acc_from_bech32 a = Ok (ContentReceiver c) → ContentToken c = HexToAddress h →
    claim_marshal c = Ok j → claim_unmarshal j = Ok c
}.

(** ** claim.go *)
Section Claims.
Context {sdk : SDK} {geth : Geth}.

Definition NewEthereumAddress (address : string) : string := HexToAddress address.

Definition NewOracleClaimContent (cosmosReceiver : string) (amount : Z) (symbol token : string)
    (claimType : ClaimType) : OracleClaimContent :=
  mkOracleClaimContent cosmosReceiver amount symbol token claimType.

(** The identifier of the prophecy a claim votes on. *)
Definition oracle_id (chainId nonce : Z) (sender : string) : string :=
  (pretty chainId ++ pretty nonce ++ sender)%string.

Definition CreateOracleClaimFromEthClaim (ethClaim : EthBridgeClaim) : res Claim :=
  let oracleID := oracle_id (EthereumChainId ethClaim) (Nonce ethClaim) (EthereumSender ethClaim) in
  cosmosReceiver ← acc_from_bech32 (CosmosReceiver ethClaim);
  let claimContent := NewOracleClaimContent cosmosReceiver (ClaimAmount ethClaim)
    (ClaimSymbol ethClaim) (NewEthereumAddress (TokenContractAddress ethClaim))
    (EthClaimType ethClaim) in
  claimString ← claim_marshal claimContent;
  Ok (NewClaim oracleID (ValidatorAddress ethClaim) claimString).

Definition CreateOracleClaimFromOracleString (s : string) : res OracleClaimContent :=
  wrap (EBridge ErrJSONMarshalling) (claim_unmarshal s).

Definition NewEthBridgeClaim (chainId : Z) (bridgeContract : string) (nonce : Z) (symbol : string)
    (tokenContract ethereumSender cosmosReceiver validator : string) (amount : Z)
    (claimType : ClaimType) : EthBridgeClaim :=
  mkEthBridgeClaim chainId (HexString bridgeContract) nonce symbol (HexString tokenContract)
    (HexString ethereumSender) (acc_string cosmosReceiver) (val_string validator) amount claimType.

Definition CreateEthClaimFromOracleString (chainId : Z) (bridgeContract : string) (nonce : Z)
    (ethereumAddress validator oracleClaimString : string) : res EthBridgeClaim :=
  oracleClaim ← CreateOracleClaimFromOracleString oracleClaimString;
  Ok (NewEthBridgeClaim chainId bridgeContract nonce (ContentSymbol oracleClaim)
        (ContentToken oracleClaim) ethereumAddress (ContentReceiver oracleClaim) validator
        (ContentAmount oracleClaim) (ContentType oracleClaim)).

(** ** msgs.go *)

Definition EInvalidAddress : error := EOther "invalid address".
Definition burnGasCost : Z := 60000000000 * 393000.
Definition lockGasCost : Z := 60000000000 * 393000.

(** [strings.ToLower], on ASCII letters *)
Definition lower (c : Ascii.ascii) : Ascii.ascii :=
  let n := Ascii.nat_of_ascii c in
  if ((65 <=? n) && (n <=? 90))%nat then Ascii.ascii_of_nat (n + 32) else c.
Fixpoint ToLower (s : string) : string :=
  match s with EmptyString => EmptyString | String c s' => String (lower c) (ToLower s') end.

Definition MsgPause_ValidateBasic (msg : MsgPause.t) : res () :=
  ensure (negb (String.eqb (MsgPause.Signer msg) "")) EInvalidAddress.

Definition MsgLock_ValidateBasic (msg : MsgLock.t) : res () :=
  ensure (negb (String.eqb (pretty (MsgLock.EthereumChainId msg)) "")) (EBridge ErrInvalidEthereumChainID);;
  ensure (negb (String.eqb (MsgLock.CosmosSender msg) "")) EInvalidAddress;;
  ensure (negb (String.eqb (MsgLock.EthereumReceiver msg) "")) (EBridge ErrInvalidEthAddress);;
  ensure (IsHexAddress (MsgLock.EthereumReceiver msg)) (EBridge ErrInvalidEthAddress);;
  ensure (negb (MsgLock.Amount msg <=? 0)) (EBridge ErrInvalidAmount);;
  ensure (negb (MsgLock.CethAmount msg <? lockGasCost)) (EBridge ErrCethAmount);;
  ensure (negb (String.length (MsgLock.Symbol msg) =? 0)%nat) (EBridge ErrInvalidSymbol).

Definition MsgBurn_ValidateBasic (msg : MsgBurn.t) : res () :=
  let prefixLength := String.length PeggedCoinPrefix in
  ensure (negb (MsgBurn.EthereumChainId msg =? 0)) (EBridge ErrInvalidEthereumChainID);;
  ensure (negb (String.eqb (MsgBurn.CosmosSender msg) "")) EInvalidAddress;;
  ensure (negb (String.eqb (MsgBurn.EthereumReceiver msg) "")) (EBridge ErrInvalidEthAddress);;
  ensure (IsHexAddress (MsgBurn.EthereumReceiver msg)) (EBridge ErrInvalidEthAddress);;
  ensure (negb (MsgBurn.Amount msg <=? 0)) (EBridge ErrInvalidAmount);;
  ensure (negb (String.length (MsgBurn.Symbol msg) <=? prefixLength + 1)%nat) (EBridge ErrInvalidBurnSymbol);;
  ensure (String.eqb (String.substring 0 prefixLength (MsgBurn.Symbol msg)) PeggedCoinPrefix)
    (EBridge ErrInvalidBurnSymbol);;
  ensure (negb (MsgBurn.CethAmount msg <? burnGasCost)) (EBridge ErrCethAmount);;
  let symbolSuffix := String.substring prefixLength
    (String.length (MsgBurn.Symbol msg) - prefixLength) (MsgBurn.Symbol msg) in
  ensure (negb (String.length symbolSuffix =? 0)%nat) (EBridge ErrInvalidBurnSymbol).

Definition MsgCreateEthBridgeClaim_ValidateBasic (msg : MsgCreateEthBridgeClaim.t) : res () :=
  claim ← deref (MsgCreateEthBridgeClaim.EthBridgeClaim msg);
  ensure (negb (String.eqb (CosmosReceiver claim) "")) EInvalidAddress;;
  ensure (negb (String.eqb (ValidatorAddress claim) "")) EInvalidAddress;;
  ensure (negb (Nonce claim <? 0)) (EBridge ErrInvalidEthNonce);;
  ensure (IsHexAddress (EthereumSender claim)) (EBridge ErrInvalidEthAddress);;
  ensure (IsHexAddress (BridgeContractAddress claim)) (EBridge ErrInvalidEthAddress);;
  ensure (IsHexAddress (TokenContractAddress claim)) (EBridge ErrInvalidEthAddress);;
  ensure (negb (String.eqb (ToLower (ClaimSymbol claim)) "eth"
                && negb (String.eqb (NewEthereumAddress (TokenContractAddress claim))
                           (NewEthereumAddress "0x0000000000000000000000000000000000000000"))))
    (EBridge ErrInvalidEthSymbol).

Definition MsgUpdateCethReceiverAccount_ValidateBasic (msg : MsgUpdateCethReceiverAccount.t) : res () :=
  ensure (negb (String.eqb (MsgUpdateCethReceiverAccount.CosmosSender msg) "")) EInvalidAddress;;
  ensure (negb (String.eqb (MsgUpdateCethReceiverAccount.CethReceiverAccount msg) "")) EInvalidAddress.

Definition MsgRescueCeth_ValidateBasic (msg : MsgRescueCeth.t) : res () :=
  ensure (negb (String.eqb (MsgRescueCeth.CosmosSender msg) "")) EInvalidAddress;;
  ensure (negb (String.eqb (MsgRescueCeth.CosmosReceiver msg) "")) EInvalidAddress.

Definition MsgUpdateWhiteListValidator_ValidateBasic (msg : MsgUpdateWhiteListValidator.t) : res () :=
  ensure (negb (String.eqb (MsgUpdateWhiteListValidator.CosmosSender msg) "")) EInvalidAddress;;
  ensure (negb (String.eqb (MsgUpdateWhiteListValidator.Validator msg) "")) EInvalidAddress.
End Claims.

(** ** The store of the module *)
Record BridgeStore := mkBridgeStore {
  PeggyTokens : option (list string);
  CethReceiver : option string;
  Blacklist : gmap string string;
  PauseFlag : option bool
}.
#[global] Instance BridgeStore_eta : Eta BridgeStore := λ r,
  mkBridgeStore (PeggyTokens r) (CethReceiver r) (Blacklist r) (PauseFlag r).

Section Store.
Context {sdk : SDK}.

(** *** peggyTokens.go *)
Definition GetPeggyToken (st : BridgeStore) : list string := default [] (PeggyTokens st).

Definition ExistsPeggyToken (st : BridgeStore) (token : string) : bool :=
  existsb (λ value, String.eqb value token) (GetPeggyToken st).

Definition AddPeggyToken (token : string) (st : BridgeStore) : BridgeStore :=
  if ExistsPeggyToken st token then st
  else st <| PeggyTokens := Some (GetPeggyToken st ++ [token]) |>.

(** *** cethReceiverAccount.go *)
Definition SetCethReceiverAccount (a : string) (st : BridgeStore) : BridgeStore :=
  st <| CethReceiver := Some (acc_string a) |>.

(** [None] is a nil address. *)
Definition GetCethReceiverAccount (st : BridgeStore) : option string :=
  match CethReceiver st with
  | None => None
  | Some s => if String.eqb s "" then None
              else match acc_from_bech32 s with Ok a => Some a | _ => None end
  end.

Definition IsCethReceiverAccountSet (st : BridgeStore) : bool :=
  match GetCethReceiverAccount st with Some _ => true | None => false end.

Definition IsCethReceiverAccount (st : BridgeStore) (a : string) : bool :=
  String.eqb (default "" (GetCethReceiverAccount st)) a.

(** *** pauser.go *)
Definition SetPauseFlag (isPaused : bool) (st : BridgeStore) : BridgeStore :=
  st <| PauseFlag := Some isPaused |>.

Definition getPause (st : BridgeStore) : bool := default false (PauseFlag st).
Definition IsPaused (st : BridgeStore) : bool := getPause st.

(** *** blacklist.go *)
Definition IsBlacklisted (st : BridgeStore) (address : string) : bool :=
  match Blacklist st !! address with Some _ => true | None => false end.

Definition GetBlacklist (st : BridgeStore) : list string := (kv_iterate (Blacklist st)).*1.

(** The entry of the empty address (a key that is just the prefix) is never
    removed. *)
Definition blacklist_removals (st : BridgeStore) (addresses : list string) : list string :=
  filter (λ a, (0 < String.length a)%nat ∧ existsb (λ current, String.eqb current a) addresses = false)
    (GetBlacklist st).

Definition SetBlacklist (admins : AdminStore) (msg : MsgSetBlacklist.t) : M BridgeStore () :=
  from ← lift (acc_from_bech32 (MsgSetBlacklist.From msg));
  lift (ensure (IsAdminAccount admins AdminType_ETHBRIDGE from) (EOracle ErrNotAdminAccount));;
  st ← gets id;
  let removals := blacklist_removals st (MsgSetBlacklist.Addresses msg) in
  modify (λ st, st <| Blacklist := foldl (λ m a, delete a m) (Blacklist st) removals |>);;
  modify (λ st, st <| Blacklist := foldl (λ m a, <[a := a]> m) (Blacklist st) (MsgSetBlacklist.Addresses msg) |>).
End Store.
