(* ===== verification/DispensationTypes.v ===== *)
(** * Data and stores of the dispensation module

    x/dispensation/types and the store operations of x/dispensation/keeper:
    distributions (airdrops, liquidity mining, validator subsidies), the records
    of what each recipient is owed, user claims and the counter of minted coins.
    Records live under one of three prefixes, by status. *)
From S2P Require Import Prelude Sdk ClpTypes.

(** ** types.pb.go *)
Abbreviation DistributionType := Z (only parsing).
Definition DISTRIBUTION_TYPE_UNSPECIFIED : DistributionType := 0.
Definition DISTRIBUTION_TYPE_AIRDROP : DistributionType := 1.
Definition DISTRIBUTION_TYPE_VALIDATOR_SUBSIDY : DistributionType := 2.
Definition DISTRIBUTION_TYPE_LIQUIDITY_MINING : DistributionType := 3.

Abbreviation DistributionStatus := Z (only parsing).
Definition DISTRIBUTION_STATUS_UNSPECIFIED : DistributionStatus := 0.
Definition DISTRIBUTION_STATUS_PENDING : DistributionStatus := 1.
Definition DISTRIBUTION_STATUS_COMPLETED : DistributionStatus := 2.
Definition DISTRIBUTION_STATUS_FAILED : DistributionStatus := 3.

(** [proto.EnumName] *)
Definition DistributionType_String (x : DistributionType) : string :=
  if x =? 0 then "DISTRIBUTION_TYPE_UNSPECIFIED" else
  if x =? 1 then "DISTRIBUTION_TYPE_AIRDROP" else
  if x =? 2 then "DISTRIBUTION_TYPE_VALIDATOR_SUBSIDY" else
  if x =? 3 then "DISTRIBUTION_TYPE_LIQUIDITY_MINING" else pretty x.

Record DistributionRecord := mkDistributionRecord {
  RecordStatus : DistributionStatus;
  RecordType : DistributionType;
  RecordName : string;
  RecipientAddress : string;
  RecordCoins : list coin;
  DistributionStartHeight : Z;
  DistributionCompletedHeight : Z;
  AuthorizedRunner : string
}.
#[global] Instance DistributionRecord_eta : Eta DistributionRecord := λ r,
  mkDistributionRecord (RecordStatus r) (RecordType r) (RecordName r) (RecipientAddress r)
    (RecordCoins r) (DistributionStartHeight r) (DistributionCompletedHeight r)
    (AuthorizedRunner r).

Record Distribution := mkDistribution {
  DistType : DistributionType;
  DistName : string;
  Runner : string
}.

Record UserClaim := mkUserClaim {
  UserAddress : string;
  UserClaimType : DistributionType;
  UserClaimTime : string
}.

(** An output of the bank module: who gets which coins. *)
Record Output := mkOutput { OutAddress : string; OutCoins : list coin }.
#[global] Instance Output_eta : Eta Output := λ r, mkOutput (OutAddress r) (OutCoins r).

Module MsgCreateDistribution.
Record t := mk {
  Distributor : string; AuthorizedRunner : string; DistType : Z; Outputs : list Output }.
#[global] Instance t_eta : Eta t := λ r,
  mk (Distributor r) (AuthorizedRunner r) (DistType r) (Outputs r).
End MsgCreateDistribution.
Module MsgCreateUserClaim.
Record t := mk { UserClaimAddress : string; UserClaimType : Z }.
End MsgCreateUserClaim.
Module MsgRunDistribution.
Record t := mk {
  AuthorizedRunner : string; DistributionName : string; DistType : Z; DistributionCount : Z }.
End MsgRunDistribution.

(** ** keys.go *)
Definition DispensationModule : string := "dispensation".
Definition MaxMintAmount : Z := 350000000000000000000000000.
Definition MintAmountPerBlock : Z := 225000000000000000000.
Definition EcoPool : string := "fury1ct2s3t8u2kffjpaekhtngzv6yc4vm97xajqyl3".
Definition MaxRecordsPerBlock : Z := 20.

Record DispensationStore := mkDispensationStore {
  PendingRecords : gmap string DistributionRecord;
  CompletedRecords : gmap string DistributionRecord;
  FailedRecords : gmap string DistributionRecord;
  Distributions : gmap string Distribution;
  UserClaims : gmap string UserClaim;
  MintController : option coin
}.
#[global] Instance DispensationStore_eta : Eta DispensationStore := λ r,
  mkDispensationStore (PendingRecords r) (CompletedRecords r) (FailedRecords r)
    (Distributions r) (UserClaims r) (MintController r).

(** The key after the prefix, [%s_%d_%s]. *)
Definition GetDistributionRecordKey (name recipient : string) (distributionType : DistributionType)
    : string := (name ++ "_" ++ pretty distributionType ++ "_" ++ recipient)%string.
Definition GetDistributionsKey (name : string) (distributionType : DistributionType)
    (authorizedRunner : string) : string :=
  (name ++ "_" ++ pretty distributionType ++ "_" ++ authorizedRunner)%string.
Definition GetUserClaimKey (userAddress : string) (userClaimType : DistributionType) : string :=
  (userAddress ++ "_" ++ pretty userClaimType)%string.

(** The part of the store the prefix of a status selects; an unknown status has
    the prefix of completed records. *)
Definition status_records (status : DistributionStatus) (st : DispensationStore)
    : gmap string DistributionRecord :=
  if status =? DISTRIBUTION_STATUS_PENDING then PendingRecords st
  else if status =? DISTRIBUTION_STATUS_FAILED then FailedRecords st
  else CompletedRecords st.
Definition set_status_records (status : DistributionStatus) (m : gmap string DistributionRecord)
    (st : DispensationStore) : DispensationStore :=
  if status =? DISTRIBUTION_STATUS_PENDING then st <| PendingRecords := m |>
  else if status =? DISTRIBUTION_STATUS_FAILED then st <| FailedRecords := m |>
  else st <| CompletedRecords := m |>.

(** ** records.go *)
Section Records.
Context {sdk : SDK}.

Definition NewDistributionRecord (status : DistributionStatus) (distributionType : DistributionType)
    (distributionName recipientAddress : string) (coins : list coin) (start end_ : Z)
    (runner : string) : DistributionRecord :=
  mkDistributionRecord status distributionType distributionName recipientAddress coins start end_ runner.

(** [Coins.IsAllPositive] *)
Definition IsAllPositive (cs : list coin) : bool :=
  negb (length cs =? 0)%nat && forallb (λ c, 0 <? c.2) cs.

Definition DistributionRecordValidate (dr : DistributionRecord) : bool :=
  if (String.length (RecipientAddress dr) =? 0)%nat then false
  else if negb (coins_valid (RecordCoins dr)) then false
  else if negb (IsAllPositive (RecordCoins dr)) then false
  else true.

Definition DistributionRecordAdd (dr dr2 : DistributionRecord) : res DistributionRecord :=
  cs ← coins_add_all (RecordCoins dr) (RecordCoins dr2); Ok (dr <| RecordCoins := cs |>).

Definition DoesTypeSupportClaim (dr : DistributionRecord) : bool :=
  (RecordType dr =? DISTRIBUTION_TYPE_LIQUIDITY_MINING)
  || (RecordType dr =? DISTRIBUTION_TYPE_VALIDATOR_SUBSIDY).

Definition UserClaimValidate (uc : UserClaim) : bool :=
  negb (String.length (UserAddress uc) =? 0)%nat.

Definition NewDistribution (t : DistributionType) (name authorizedRunner : string) : Distribution :=
  mkDistribution t name authorizedRunner.

Definition DistributionValidate (ar : Distribution) : bool := negb (String.eqb (DistName ar) "").

Definition GetDistributionStatus (status : string) : DistributionStatus * bool :=
  if String.eqb status "Completed" then (DISTRIBUTION_STATUS_COMPLETED, true) else
  if String.eqb status "Pending" then (DISTRIBUTION_STATUS_PENDING, true) else
  if String.eqb status "Failed" then (DISTRIBUTION_STATUS_FAILED, true) else
  (DISTRIBUTION_STATUS_UNSPECIFIED, false).

Definition GetClaimType (claimType : string) : DistributionType * bool :=
  if String.eqb claimType "LiquidityMining" then (DISTRIBUTION_TYPE_LIQUIDITY_MINING, true) else
  if String.eqb claimType "ValidatorSubsidy" then (DISTRIBUTION_TYPE_VALIDATOR_SUBSIDY, true) else
  (DISTRIBUTION_TYPE_UNSPECIFIED, false).

Definition GetDistributionTypeFromShortString (s : string) : DistributionType * bool :=
  if String.eqb s "Airdrop" then (DISTRIBUTION_TYPE_AIRDROP, true) else
  if String.eqb s "LiquidityMining" then (DISTRIBUTION_TYPE_LIQUIDITY_MINING, true) else
  if String.eqb s "ValidatorSubsidy" then (DISTRIBUTION_TYPE_VALIDATOR_SUBSIDY, true) else
  (DISTRIBUTION_TYPE_UNSPECIFIED, false).

Definition IsValidDistributionType (s : string) : DistributionType * bool :=
  if String.eqb s "DISTRIBUTION_TYPE_AIRDROP" then (DISTRIBUTION_TYPE_AIRDROP, true) else
  if String.eqb s "DISTRIBUTION_TYPE_LIQUIDITY_MINING" then (DISTRIBUTION_TYPE_LIQUIDITY_MINING, true) else
  if String.eqb s "DISTRIBUTION_TYPE_VALIDATOR_SUBSIDY" then (DISTRIBUTION_TYPE_VALIDATOR_SUBSIDY, true) else
  (DISTRIBUTION_TYPE_UNSPECIFIED, false).

Definition IsValidClaimType (s : string) : DistributionType * bool :=
  if String.eqb s "DISTRIBUTION_TYPE_LIQUIDITY_MINING" then (DISTRIBUTION_TYPE_LIQUIDITY_MINING, true) else
  if String.eqb s "DISTRIBUTION_TYPE_VALIDATOR_SUBSIDY" then (DISTRIBUTION_TYPE_VALIDATOR_SUBSIDY, true) else
  (0, false).

(** ** msgs.go

    [out.Coins.Sort()] sorts the coins of the message in place (the copy [out]
    shares their array), so the check returns the message as it leaves it. *)
Definition MsgCreateDistribution_ValidateBasic (m : MsgCreateDistribution.t)
    : res MsgCreateDistribution.t :=
  ensure (IsValidDistributionType (DistributionType_String (MsgCreateDistribution.DistType m))).2
    (EDispensation ErrBadRecord);;
  ensure (negb (length (MsgCreateDistribution.Outputs m) =? 0)%nat) (EDispensation ErrBadRecord);;
  wrap (EDispensation ErrBadRecord) (acc_from_bech32 (MsgCreateDistribution.Distributor m));;
  wrap (EDispensation ErrBadRecord) (acc_from_bech32 (MsgCreateDistribution.AuthorizedRunner m));;
  outs ← foldR (λ outs out,
    wrap (EDispensation ErrBadRecord) (acc_from_bech32 (OutAddress out));;
    let sorted := coins_sort (OutCoins out) in
    ensure (coins_valid sorted) (EDispensation ErrBadRecord);;
    Ok (outs ++ [out <| OutCoins := sorted |>])) [] (MsgCreateDistribution.Outputs m);
  Ok (m <| MsgCreateDistribution.Outputs := outs |>).

Definition MsgCreateUserClaim_ValidateBasic (m : MsgCreateUserClaim.t) : res () :=
  wrap (EOther "invalid address") (acc_from_bech32 (MsgCreateUserClaim.UserClaimAddress m));;
  ensure (IsValidClaimType (DistributionType_String (MsgCreateUserClaim.UserClaimType m))).2
    (EDispensation ErrBadRecord).

Definition MsgRunDistribution_ValidateBasic (m : MsgRunDistribution.t) : res () :=
  ensure (IsValidDistributionType (DistributionType_String (MsgRunDistribution.DistType m))).2
    (EDispensation ErrBadRecord);;
  ensure (negb (String.eqb (MsgRunDistribution.DistributionName m) "")) (EDispensation ErrBadRecord);;
  wrap (EDispensation ErrBadRecord) (acc_from_bech32 (MsgRunDistribution.AuthorizedRunner m));;
  ensure (negb ((MaxRecordsPerBlock <? MsgRunDistribution.DistributionCount m)
                || (MsgRunDistribution.DistributionCount m <=? 0))) (EDispensation ErrBadRecord).
End Records.
