(* ===== verification/DispensationKeeper.v ===== *)
(** * Store operations of the dispensation module

    x/dispensation/keeper: distribution.go, distributionRecords.go,
    userclaim.go, mint_controller.go, and import and export of the store
    (genesis.go). *)
From S2P Require Import Prelude Sdk ClpTypes DispensationTypes.

(** ** distribution.go *)
Section Distributions.
Context {sdk : SDK}.

Definition SetDistribution (ar : Distribution) : M DispensationStore () :=
  if negb (DistributionValidate ar) then fail (EDispensation ErrBadRecord)
  else modify (λ st, st <| Distributions :=
    <[GetDistributionsKey (DistName ar) (DistType ar) (Runner ar) := ar]> (Distributions st) |>).

Definition GetDistribution (st : DispensationStore) (name : string) (t : DistributionType)
    (authorizedRunner : string) : res Distribution :=
  match Distributions st !! GetDistributionsKey name t authorizedRunner with
  | Some ar => Ok ar
  | None => Err (EDispensation ErrBadRecord)
  end.

Definition ExistsDistribution (st : DispensationStore) (name : string) (t : DistributionType)
    (authorizedRunner : string) : bool :=
  match Distributions st !! GetDistributionsKey name t authorizedRunner with
  | Some _ => true | None => false end.

Definition GetDistributions (st : DispensationStore) : list Distribution :=
  (kv_iterate (Distributions st)).*2.

(** ** distributionRecords.go *)

Definition record_key (dr : DistributionRecord) : string :=
  GetDistributionRecordKey (RecordName dr) (RecipientAddress dr) (RecordType dr).

Definition SetDistributionRecord (dr : DistributionRecord) : M DispensationStore () :=
  if negb (DistributionRecordValidate dr) then fail (EDispensation ErrBadRecord)
  else modify (λ st, set_status_records (RecordStatus dr)
    (<[record_key dr := dr]> (status_records (RecordStatus dr) st)) st).

Definition GetDistributionRecord (st : DispensationStore) (name recipient : string)
    (status : DistributionStatus) (t : DistributionType) : res DistributionRecord :=
  match status_records status st !! GetDistributionRecordKey name recipient t with
  | Some dr => Ok dr
  | None => Err (EDispensation ErrBadRecord)
  end.

Definition ExistsDistributionRecord (st : DispensationStore) (name recipient : string)
    (status : DistributionStatus) (t : DistributionType) : bool :=
  match status_records status st !! GetDistributionRecordKey name recipient t with
  | Some _ => true | None => false end.

(** A status without a prefix has no iterator, and using it panics. *)
Definition GetDistributionRecordsIterator (st : DispensationStore) (status : DistributionStatus)
    : res (list DistributionRecord) :=
  if status =? DISTRIBUTION_STATUS_PENDING then Ok (kv_iterate (PendingRecords st)).*2
  else if status =? DISTRIBUTION_STATUS_COMPLETED then Ok (kv_iterate (CompletedRecords st)).*2
  else if status =? DISTRIBUTION_STATUS_FAILED then Ok (kv_iterate (FailedRecords st)).*2
  else Panic.

Definition DeleteDistributionRecord (name recipient : string) (status : DistributionStatus)
    (t : DistributionType) : M DispensationStore () :=
  exists_ ← gets (λ st, ExistsDistributionRecord st name recipient status t);
  if negb exists_ then fail (EDispensation ErrBadRecord)
  else modify (λ st, set_status_records status
    (delete (GetDistributionRecordKey name recipient t) (status_records status st)) st).

Definition GetRecordsForNameAndStatus (st : DispensationStore) (name : string)
    (status : DistributionStatus) : res (list DistributionRecord) :=
  l ← GetDistributionRecordsIterator st status;
  Ok (filter (λ dr, RecordName dr = name) l).

Definition GetRecordsForNameStatusAndType (st : DispensationStore) (name : string)
    (status : DistributionStatus) (t : DistributionType) : res (list DistributionRecord) :=
  l ← GetDistributionRecordsIterator st status;
  Ok (filter (λ dr, RecordName dr = name ∧ RecordType dr = t) l).

(** The records under the three prefixes, in this order. *)
Definition GetRecords (st : DispensationStore) : res (list DistributionRecord) :=
  p ← GetDistributionRecordsIterator st DISTRIBUTION_STATUS_PENDING;
  c ← GetDistributionRecordsIterator st DISTRIBUTION_STATUS_COMPLETED;
  f ← GetDistributionRecordsIterator st DISTRIBUTION_STATUS_FAILED;
  Ok (p ++ c ++ f).

Definition GetRecordsForRecipient (st : DispensationStore) (recipient : string)
    : res (list DistributionRecord) :=
  l ← GetRecords st; Ok (filter (λ dr, RecipientAddress dr = recipient) l).

Definition GetRecordsForName (st : DispensationStore) (name : string)
    : res (list DistributionRecord) :=
  l ← GetRecords st; Ok (filter (λ dr, RecordName dr = name) l).

Definition GetLimitedRecordsForStatus (st : DispensationStore) (status : DistributionStatus)
    : res (list DistributionRecord) :=
  l ← GetDistributionRecordsIterator st status; Ok (take (Z.to_nat MaxRecordsPerBlock) l).

Definition runs_record (name authorizedRunner : string) (t : DistributionType)
    (dr : DistributionRecord) : bool :=
  String.eqb (RecordName dr) name && (RecordStatus dr =? DISTRIBUTION_STATUS_PENDING)
  && String.eqb (AuthorizedRunner dr) authorizedRunner && (RecordType dr =? t).

(** Stops when [count] reaches the limit; a negative limit is never reached. *)
Fixpoint limited (P : DistributionRecord → bool) (limit count : Z) (l : list DistributionRecord)
    : list DistributionRecord :=
  match l with
  | [] => []
  | dr :: l' => if count =? limit then []
                else if P dr then dr :: limited P limit (count + 1) l'
                else limited P limit count l'
  end.

Definition GetLimitedRecordsForRunner (st : DispensationStore) (name authorizedRunner : string)
    (t : DistributionType) (status : DistributionStatus) (distributionCount : Z)
    : res (list DistributionRecord) :=
  l ← GetDistributionRecordsIterator st status;
  Ok (limited (runs_record name authorizedRunner t) distributionCount 0 l).

Definition ChangeRecordStatus (dr : DistributionRecord) (height : Z) (newStatus : DistributionStatus)
    : M DispensationStore () :=
  let oldStatus := RecordStatus dr in
  let dr := dr <| RecordStatus := newStatus |> <| DistributionCompletedHeight := height |> in
  wrapM (EDispensation ErrDistribution) (SetDistributionRecord dr);;
  wrapM (EDispensation ErrDistribution)
    (DeleteDistributionRecord (RecordName dr) (RecipientAddress dr) oldStatus (RecordType dr)).

(** ** userclaim.go *)

Definition SetClaim (ar : UserClaim) : M DispensationStore () :=
  if negb (UserClaimValidate ar) then fail (EDispensation ErrBadRecord)
  else modify (λ st, st <| UserClaims :=
    <[GetUserClaimKey (UserAddress ar) (UserClaimType ar) := ar]> (UserClaims st) |>).

Definition GetClaim (st : DispensationStore) (recipient : string) (t : DistributionType)
    : res UserClaim :=
  match UserClaims st !! GetUserClaimKey recipient t with
  | Some ar => Ok ar
  | None => Err (EDispensation ErrBadRecord)
  end.

Definition ExistsClaim (st : DispensationStore) (recipient : string) (t : DistributionType) : bool :=
  match UserClaims st !! GetUserClaimKey recipient t with Some _ => true | None => false end.

Definition DeleteClaim (recipient : string) (t : DistributionType) (st : DispensationStore)
    : DispensationStore :=
  st <| UserClaims := delete (GetUserClaimKey recipient t) (UserClaims st) |>.

Definition GetClaims (st : DispensationStore) : list UserClaim := (kv_iterate (UserClaims st)).*2.

Definition GetClaimsByType (st : DispensationStore) (t : DistributionType) : list UserClaim :=
  filter (λ c, UserClaimType c = t) (GetClaims st).

(** ** mint_controller.go

    [sdk.NewIntFromString] parses the two constants, so the branches for a
    failure of it are unreachable. *)

Definition SetMintController (totalCounter : coin) (st : DispensationStore) : DispensationStore :=
  st <| MintController := Some totalCounter |>.

Definition AddMintAmount (mintedCoin : coin) : M DispensationStore () :=
  controller ← gets MintController;
  match controller with
  | None => fail (EDispensation ErrNotFoundMintController)
  | Some totalCounter =>
      totalCounter ← lift (coin_add totalCounter mintedCoin);
      modify (SetMintController totalCounter)
  end.

(** [Coin.IsLT] panics on different denominations. *)
Definition TokensCanBeMinted (st : DispensationStore) : res bool :=
  match MintController st with
  | None => Ok false
  | Some totalCounter =>
      maxMintAmountCoin ← new_coin (Symbol GetSettlementAsset) MaxMintAmount;
      if String.eqb totalCounter.1 maxMintAmountCoin.1 then Ok (totalCounter.2 <? maxMintAmountCoin.2)
      else Panic
  end.

Definition IsLastBlock (st : DispensationStore) : res bool :=
  match MintController st with
  | None => Ok false
  | Some totalCounter =>
      remaining ← i_sub MaxMintAmount totalCounter.2; Ok (remaining <=? MintAmountPerBlock)
  end.

(** ** genesis.go *)

Record DispensationGenesis := mkDispensationGenesis {
  GenesisRecords : option (list DistributionRecord);
  GenesisDistributions : option (list Distribution);
  GenesisClaims : option (list UserClaim)
}.

Definition DispensationInitGenesis (data : DispensationGenesis) : M DispensationStore () :=
  zero ← lift (new_coin (Symbol GetSettlementAsset) 0);
  modify (SetMintController zero);;
  forM (default [] (GenesisRecords data)) (λ r, mustM (SetDistributionRecord r));;
  forM (default [] (GenesisDistributions data)) (λ d, mustM (SetDistribution d));;
  forM (default [] (GenesisClaims data)) (λ c, mustM (SetClaim c)).

Definition DispensationExportGenesis (st : DispensationStore) : res DispensationGenesis :=
  records ← GetRecords st;
  Ok (mkDispensationGenesis (Some records) (Some (GetDistributions st)) (Some (GetClaims st))).

Definition DispensationValidateGenesis (data : DispensationGenesis) : res () :=
  ensure (forallb DistributionRecordValidate (default [] (GenesisRecords data)))
    (EDispensation ErrBadRecord);;
  ensure (forallb DistributionValidate (default [] (GenesisDistributions data)))
    (EDispensation ErrBadRecord);;
  ensure (forallb UserClaimValidate (default [] (GenesisClaims data))) (EDispensation ErrBadRecord).
End Distributions.
