(* ===== verification/Chain.v ===== *)
(** * The state of the chain

    The stores of the modelled modules and the block context, as one record the
    handlers thread through.  A sub-store of a key-value store (selected by its
    one-byte prefix in the code) is a finite map from the rest of the key; a
    value under a fixed key that InitGenesis always writes is a plain field, one
    that may be absent is an option.  Reading and writing go through protobuf
    marshalling in the code, which is the identity on these values. *)
From S2P Require Import Prelude Sdk ClpTypes Admin TokenRegistry MarginTypes.
From S2P Require Import Oracle BridgeTypes DispensationTypes.

Record chain {sdk : SDK} := mkChain {
  (* sdk.Context *)
  BlockHeight : Z;
  BlockTime : string;
  (* x/clp *)
  Pools : gmap string Pool;
  LiquidityProviders : gmap string LiquidityProvider;
  ClpWhiteList : option (list string);
  RateParams : PmtpRateParams;
  Epoch : PmtpEpoch;
  PolicyParams : PmtpParams;
  RewardsParams : RewardParams;
  SymmetryThreshold : option (Z * Z);
  ProtectionParams : LiquidityProtectionParams;
  CurrentFuryLiquidityThreshold : Z;
  DistributionPeriods : list ProviderDistributionPeriod;
  BlockDistributionAccu : option Z;
  SwapFees : option SwapFeeParams;
  RemovalRequests : gmap string RemovalRequest;
  RemovalQueues : gmap string RemovalQueue;
  MinCreatePoolThreshold : Z;
  EnableRemovalQueue : bool;
  (* the other modules *)
  TokenRegistry : Registry;
  AdminState : AdminStore;
  MarginState : MarginStore;
  OracleState : OracleStore;
  BridgeState : BridgeStore;
  DispensationState : DispensationStore;
  Bank : bank
}.

#[global] Instance chain_eta {sdk : SDK} : Eta chain := λ r,
  mkChain sdk (BlockHeight r) (BlockTime r) (Pools r) (LiquidityProviders r) (ClpWhiteList r)
    (RateParams r) (Epoch r) (PolicyParams r) (RewardsParams r) (SymmetryThreshold r)
    (ProtectionParams r) (CurrentFuryLiquidityThreshold r) (DistributionPeriods r)
    (BlockDistributionAccu r) (SwapFees r) (RemovalRequests r) (RemovalQueues r)
    (MinCreatePoolThreshold r) (EnableRemovalQueue r) (TokenRegistry r) (AdminState r)
    (MarginState r) (OracleState r) (BridgeState r) (DispensationState r) (Bank r).

(** ** Running the code of one module in the chain *)
Section Run.
Context {sdk : SDK}.

Definition onBank {A} (m : M bank A) : M chain A := λ s,
  let '(r, b) := m (Bank s) in (r, s <| Bank := b |>).

Definition onMargin {A} (m : M MarginStore A) : M chain A := λ s,
  let '(r, x) := m (MarginState s) in (r, s <| MarginState := x |>).

Definition onAdmin {A} (m : M AdminStore A) : M chain A := λ s,
  let '(r, x) := m (AdminState s) in (r, s <| AdminState := x |>).

Definition onRegistry {A} (m : M Registry A) : M chain A := λ s,
  let '(r, x) := m (TokenRegistry s) in (r, s <| TokenRegistry := x |>).

Definition onOracle {A} (m : M OracleStore A) : M chain A := λ s,
  let '(r, x) := m (OracleState s) in (r, s <| OracleState := x |>).

Definition onBridge {A} (m : M BridgeStore A) : M chain A := λ s,
  let '(r, x) := m (BridgeState s) in (r, s <| BridgeState := x |>).

Definition onDispensation {A} (m : M DispensationStore A) : M chain A := λ s,
  let '(r, x) := m (DispensationState s) in (r, s <| DispensationState := x |>).

(** How the application runs a message handler: a handler that returns an
    error or panics leaves no trace in the stores. *)
Definition deliver {A} (m : M chain A) (s : chain) : chain :=
  match m s with (Ok _, s') => s' | _ => s end.

Lemma onBank_Ok {A} (m : M bank A) s a s' : onBank m s = (Ok a, s') →
  ∃ b, m (Bank s) = (Ok a, b) ∧ s' = s <| Bank := b |>.
Proof. unfold onBank. destruct (m (Bank s)) as [r b]. intros [= -> <-]. eauto. Qed.

Lemma onBank_inv {A} (m : M bank A) s r s' : onBank m s = (r, s') →
  ∃ b, m (Bank s) = (r, b) ∧ s' = s <| Bank := b |>.
Proof. unfold onBank. destruct (m (Bank s)) as [r1 b]. intros [= <- <-]. eauto. Qed.

Lemma onOracle_Ok {A} (m : M OracleStore A) s a s' : onOracle m s = (Ok a, s') →
  ∃ x, m (OracleState s) = (Ok a, x) ∧ s' = s <| OracleState := x |>.
Proof. unfold onOracle. destruct (m (OracleState s)) as [r b]. intros [= -> <-]. eauto. Qed.

Lemma onBridge_Ok {A} (m : M BridgeStore A) s a s' : onBridge m s = (Ok a, s') →
  ∃ x, m (BridgeState s) = (Ok a, x) ∧ s' = s <| BridgeState := x |>.
Proof. unfold onBridge. destruct (m (BridgeState s)) as [r b]. intros [= -> <-]. eauto. Qed.

Lemma onDispensation_Ok {A} (m : M DispensationStore A) s a s' : onDispensation m s = (Ok a, s') →
  ∃ x, m (DispensationState s) = (Ok a, x) ∧ s' = s <| DispensationState := x |>.
Proof. unfold onDispensation. destruct (m (DispensationState s)) as [r b]. intros [= -> <-]. eauto. Qed.

(** The check of the administrative handlers against the admin store. *)
Definition require_admin (adminType : AdminType) (signer : string) (denied : error)
    : M chain () :=
  st ← gets AdminState; lift (admin_signer st adminType signer denied).

Lemma keeps_onBank {A B} (f : chain → B) (m : M bank A) :
  (∀ s b, f (s <| Bank := b |>) = f s) → keeps f (onBank m).
Proof. intros Hf s a s' (b & _ & ->)%onBank_Ok. apply Hf. Qed.

Lemma keeps_onOracle {A B} (f : chain → B) (m : M OracleStore A) :
  (∀ s x, f (s <| OracleState := x |>) = f s) → keeps f (onOracle m).
Proof. intros Hf s a s' (b & _ & ->)%onOracle_Ok. apply Hf. Qed.

Lemma keeps_onBridge {A B} (f : chain → B) (m : M BridgeStore A) :
  (∀ s x, f (s <| BridgeState := x |>) = f s) → keeps f (onBridge m).
Proof. intros Hf s a s' (b & _ & ->)%onBridge_Ok. apply Hf. Qed.

Lemma keeps_require_admin {B} (f : chain → B) t signer e : keeps f (require_admin t signer e).
Proof. unfold require_admin. keep_auto. Qed.
End Run.

#[export] Hint Resolve keeps_onBank keeps_onOracle keeps_onBridge keeps_require_admin : frame.
