(* ===== verification/Ledger.v ===== *)
(** * Coins and balances

    The bank operations of the handlers as changes of balances, for the modules
    that move coins between accounts. *)
From S2P Require Import Prelude Sdk Chain.

(** [sdk.NewCoins(sdk.NewCoin(denom, amount))] *)
Definition one_coin {sdk : SDK} (denom : string) (amount : Z) : res (list coin) :=
  c ← new_coin denom amount; new_coins [c].

(** The change of every balance between two bank states. *)
Definition balances_change {sdk : SDK} (s s' : chain) (f : string → string → Z) : Prop :=
  ∀ a d, bank_balance (Bank s') a d = bank_balance (Bank s) a d + f a d.

(** [x] at one denomination, nothing elsewhere. *)
Definition only (denom : string) (x : Z) (d : string) : Z := if String.eqb denom d then x else 0.
(** [f] at one account, nothing elsewhere. *)
Definition at_account (acct : string) (f : string → Z) (a d : string) : Z :=
  if String.eqb a acct then f d else 0.

Section Coins.
Context {sdk : SDK} {L : SDKLaws sdk}.

Lemma one_coin_val d x cs : one_coin d x = Ok cs → 0 ≤ x ∧ ∀ e, amount_of cs e = only d x e.
Proof.
  unfold one_coin. intros H. inv_ok. rewrite new_coin_law in E. case_test; inv_ok. bool_prop.
  split; [done|]. intros e. rewrite (new_coins_val _ _ H). unfold amount_of, only. cbn. lia.
Qed.

Lemma two_coins_val d1 x1 d2 x2 c1 c2 cs : new_coin d1 x1 = Ok c1 → new_coin d2 x2 = Ok c2 →
  new_coins [c1; c2] = Ok cs → ∀ e, amount_of cs e = only d1 x1 e + only d2 x2 e.
Proof.
  rewrite !new_coin_law. intros H1 H2 H e. do 2 case_test; inv_ok.
  rewrite (new_coins_val _ _ H). unfold amount_of, only. cbn. lia.
Qed.

(** The bank operations as changes of balances. *)
Lemma onBank_send from to cs s s' f : onBank (bank_send from to cs) s = (Ok (), s') →
  (∀ d, amount_of cs d = f d) →
  balances_change s s' (λ a d, at_account to f a d - at_account from f a d).
Proof.
  intros (b & H%send_val & ->)%onBank_Ok Hf a d. cbn. rewrite H, Hf. unfold at_account. lia.
Qed.

Lemma onBank_send_acc_to_mod from m cs s s' f : onBank (bank_send_acc_to_mod from m cs) s = (Ok (), s') →
  (∀ d, amount_of cs d = f d) →
  balances_change s s' (λ a d, at_account (module_address m) f a d - at_account from f a d).
Proof.
  intros (b & H%send_acc_to_mod_val & ->)%onBank_Ok Hf a d. cbn. rewrite H, Hf.
  unfold at_account. lia.
Qed.

Lemma onBank_send_mod_to_acc m to cs s s' f : onBank (bank_send_mod_to_acc m to cs) s = (Ok (), s') →
  (∀ d, amount_of cs d = f d) →
  balances_change s s' (λ a d, at_account to f a d - at_account (module_address m) f a d).
Proof.
  intros (b & H%send_mod_to_acc_val & ->)%onBank_Ok Hf a d. cbn. rewrite H, Hf.
  unfold at_account. lia.
Qed.

Lemma onBank_mint m cs s s' f : onBank (bank_mint m cs) s = (Ok (), s') →
  (∀ d, amount_of cs d = f d) → balances_change s s' (at_account (module_address m) f).
Proof.
  intros (b & H & ->)%onBank_Ok Hf a d. cbn. rewrite (mint_val _ _ _ _ H), Hf.
  unfold at_account. lia.
Qed.

Lemma onBank_burn m cs s s' f : onBank (bank_burn m cs) s = (Ok (), s') →
  (∀ d, amount_of cs d = f d) →
  balances_change s s' (λ a d, - at_account (module_address m) f a d).
Proof.
  intros (b & H & ->)%onBank_Ok Hf a d. cbn. rewrite (burn_val _ _ _ _ H), Hf.
  unfold at_account. destruct (String.eqb a _); lia.
Qed.
End Coins.
