(* ===== verification/ClpKeeper.v ===== *)
(** * The clp keeper: stores, parameters, prices

    x/clp/keeper: keeper.go, pool.go, liquidityprovider.go, the parameter files,
    swap.go, swap_fee_params.go, liquidityprotection.go, validatorWhitelist.go.
    A method with a pointer argument it writes through returns the new value. *)
From S2P Require Import Prelude Sdk ClpTypes ClpCalc Admin TokenRegistry MarginTypes Chain.

Definition MaxUint64 : Z := 2 ^ 64 - 1.

Section WithSdk.
Context {sdk : SDK}.

(** ** pool.go *)

Definition pool_key (symbol : string) : string :=
  GetPoolKey symbol (Symbol GetSettlementAsset).

Definition SetPool (pool : Pool) : M chain () :=
  v ← lift (PoolValidate pool);
  if negb v then fail (EClp ErrUnableToSetPool) else
  modify (λ s, s <| Pools := <[pool_key (Symbol (ExternalAsset pool)) := pool]> (Pools s) |>).

Definition ValidatePool (pool : Pool) : res bool := PoolValidate pool.

Definition GetPool (symbol : string) : M chain Pool :=
  ps ← gets Pools;
  match ps !! pool_key symbol with
  | Some pool => mret pool
  | None => fail (EClp ErrPoolDoesNotExist)
  end.

Definition ExistsPool (symbol : string) : M chain bool :=
  gets (λ s, bool_decide (is_Some (Pools s !! pool_key symbol))).

Definition GetPools : M chain (list Pool) := gets (λ s, (kv_iterate (Pools s)).*2).

Definition DestroyPool (symbol : string) : M chain () :=
  e ← ExistsPool symbol;
  if negb e then fail (EClp ErrPoolDoesNotExist) else
  modify (λ s, s <| Pools := delete (pool_key symbol) (Pools s) |>).

Definition SendFuryFromPoolNoPoolUpdate (pool : Pool) (amount : Z) (recipient : string)
    : M chain Pool :=
  if NativeAssetBalance pool <? amount then fail (EOther "pool balance too low for transfer") else
  a ← lift (i_of_big amount);
  coin ← lift (new_coin NativeSymbol a);
  coins ← lift (new_coins [coin]);
  onBank (bank_send_mod_to_acc ModuleName recipient coins);;
  n ← lift (u_sub (NativeAssetBalance pool) amount);
  mret (pool <| NativeAssetBalance := n |>).

Definition SendFuryFromPool (pool : Pool) (amount : Z) (recipient : string) : M chain Pool :=
  pool ← SendFuryFromPoolNoPoolUpdate pool amount recipient;
  SetPool pool;; mret pool.

Definition RemoveFuryFromPool (pool : Pool) (amount : Z) : M chain Pool :=
  if NativeAssetBalance pool <? amount then fail (EOther "pool balance too low for transfer") else
  n ← lift (u_sub (NativeAssetBalance pool) amount);
  let pool := pool <| NativeAssetBalance := n |> in
  SetPool pool;; mret pool.

(** ** liquidityprovider.go *)

Definition SetLiquidityProvider (lp : LiquidityProvider) : M chain () :=
  v ← lift (LiquidityProviderValidate lp);
  if negb v then mret () else
  modify (λ s, s <| LiquidityProviders :=
    <[GetLiquidityProviderKey (Symbol (LPAsset lp)) (LiquidityProviderAddress lp) := lp]>
      (LiquidityProviders s) |>).

Definition GetLiquidityProvider (symbol lpAddress : string) : M chain LiquidityProvider :=
  lps ← gets LiquidityProviders;
  match lps !! GetLiquidityProviderKey symbol lpAddress with
  | Some lp => mret lp
  | None => fail (EClp ErrLiquidityProviderDoesNotExist)
  end.

Definition DestroyLiquidityProvider (symbol lpAddress : string) : M chain () :=
  modify (λ s, s <| LiquidityProviders :=
    delete (GetLiquidityProviderKey symbol lpAddress) (LiquidityProviders s) |>).

Definition GetLiquidityProvidersForAssetPaginated (asset : Asset) (limit : Z)
    : M chain (list LiquidityProvider) :=
  gets (λ s, kv_filtered_paginate limit (λ lp, AssetEquals (LPAsset lp) asset)
               (kv_iterate (LiquidityProviders s))).

Definition GetAllLiquidityProvidersForAsset (asset : Asset)
    : M chain (list LiquidityProvider) :=
  GetLiquidityProvidersForAssetPaginated asset (MaxUint64 - 1).

Definition GetAllLiquidityProviders : M chain (list LiquidityProvider) :=
  gets (λ s, kv_filtered_paginate (MaxUint64 - 1) (λ _, true)
               (kv_iterate (LiquidityProviders s))).

Definition GetAssetsForLiquidityProviderPaginated (lpAddress : string) (limit : Z)
    : M chain (list Asset) :=
  gets (λ s, LPAsset <$> kv_filtered_paginate limit
               (λ lp, String.eqb (LiquidityProviderAddress lp) (acc_string lpAddress))
               (kv_iterate (LiquidityProviders s))).

(** The Go map from asset to providers; an asset is its symbol. *)
Definition partitionLPsbyAsset (lps : list LiquidityProvider)
    : gmap string (list LiquidityProvider) :=
  foldl (λ mapping lp,
    let k := Symbol (LPAsset lp) in
    match mapping !! k with
    | Some arr => <[k := arr ++ [lp]]> mapping
    | None => <[k := [lp]]> mapping
    end) ∅ lps.

Definition GetAllLiquidityProvidersPartitions
    : M chain (gmap string (list LiquidityProvider)) :=
  all ← GetAllLiquidityProviders; mret (partitionLPsbyAsset all).

(** ** Parameter files *)

Definition SetPmtpBlockRate (blockRate : Z) : M chain () :=
  modify (λ s, s <| RateParams := (RateParams s) <| PmtpPeriodBlockRate := blockRate |> |>).
Definition SetPmtpCurrentRunningRate (runningRate : Z) : M chain () :=
  modify (λ s, s <| RateParams := (RateParams s) <| PmtpCurrentRunningRate := runningRate |> |>).
Definition SetPmtpInterPolicyRate (rate : Z) : M chain () :=
  modify (λ s, s <| RateParams := (RateParams s) <| PmtpInterPolicyRate := rate |> |>).

Definition SetPmtpEpoch (epoch : PmtpEpoch) : M chain () :=
  modify (λ s, s <| Epoch := epoch |>).
Definition DecrementPmtpEpochCounter : M chain () :=
  modify (λ s, s <| Epoch := (Epoch s) <| EpochCounter := i64 (EpochCounter (Epoch s) - 1) |> |>).
Definition DecrementPmtpBlockCounter : M chain () :=
  modify (λ s, s <| Epoch := (Epoch s) <| BlockCounter := i64 (BlockCounter (Epoch s) - 1) |> |>).
Definition SetPmtpBlockCounter (epochLength : Z) : M chain () :=
  modify (λ s, s <| Epoch := (Epoch s) <| BlockCounter := epochLength |> |>).

(** ** keeper.go *)

Definition GetAssetDecimals (asset : Asset) : M chain Z :=
  registry ← gets TokenRegistry;
  registryEntry ← lift (GetEntry registry (Symbol asset));
  lift (Int64ToUint8Safe (Decimals registryEntry)).

Definition GetSymmetryThreshold : M chain Z :=
  gets (λ s, match SymmetryThreshold s with Some (t, _) => t | None => dec_prec 5 5 end).
Definition GetSymmetryRatio : M chain Z :=
  gets (λ s, match SymmetryThreshold s with Some (_, r) => r | None => dec_prec 5 3 end).

(** ** swap_fee_params.go, swap.go *)

Definition GetSwapFeeParams : M chain SwapFeeParams :=
  gets (λ s, default (mkSwapFeeParams (dec_prec 3 3) []) (SwapFees s)).

Fixpoint find_token_rate (symbol : string) (ps : list SwapFeeTokenParams) : option Z :=
  match ps with
  | [] => None
  | p :: ps' => if StringCompare symbol (FeeAsset p) then Some (SwapFeeRate p)
                else find_token_rate symbol ps'
  end.

Definition GetSwapFeeRate (asset : Asset) (marginEnabled : bool) : M chain Z :=
  params ← GetSwapFeeParams;
  mret (default (DefaultSwapFeeRate params)
    (if negb marginEnabled then find_token_rate (Symbol asset) (TokenParams params) else None)).

Definition CLPCalcSwap (sentAmount : Z) (to : Asset) (pool : Pool) (marginEnabled : bool)
    : M chain Z :=
  let '(X, Y, toFury, from) := ExtractValues pool to in
  '(Xincl, Yincl) ← lift (ExtractDebt pool X Y toFury);
  pmtpCurrentRunningRate ← gets (λ s, PmtpCurrentRunningRate (RateParams s));
  swapFeeRate ← GetSwapFeeRate from marginEnabled;
  '(swapResult, _) ← lift (CalcSwapResult toFury Xincl sentAmount Yincl
                             pmtpCurrentRunningRate swapFeeRate);
  if swapResult >=? Y then fail (EClp ErrNotEnoughAssetTokens) else mret swapResult.

(** ** liquidityprotection.go *)

Definition SetLiquidityProtectionCurrentFuryLiquidityThreshold (x : Z) : M chain () :=
  modify (λ s, s <| CurrentFuryLiquidityThreshold := x |>).

Definition MustUpdateLiquidityProtectionThreshold (sellNative : bool)
    (nativeAmount nativePrice : Z) : M chain () :=
  params ← gets ProtectionParams;
  let max := MaxFuryLiquidityThreshold params in
  current ← gets CurrentFuryLiquidityThreshold;
  if negb (IsActive params) then mret () else
  nativeValue ← lift (CalcFuryValue nativeAmount nativePrice);
  updated ← lift (
    if sellNative then
      if current <? nativeValue then Panic else u_sub current nativeValue
    else
      room ← u_sub max current;
      if room <? nativeValue then Ok max else u_add current nativeValue);
  SetLiquidityProtectionCurrentFuryLiquidityThreshold updated.

Definition GetNativePrice : M chain Z :=
  params ← gets ProtectionParams;
  let asset := MaxFuryLiquidityThresholdAsset params in
  if StringCompare asset NativeSymbol then mret P18 else
  pool ← wrapM (EClp ErrMaxFuryLiquidityThresholdAssetPoolDoesNotExist) (GetPool asset);
  rate ← gets (λ s, PmtpCurrentRunningRate (RateParams s));
  lift (CalcFurySpotPrice pool rate).

Definition IsBlockedByLiquidityProtection (nativeAmount nativePrice : Z) : M chain bool :=
  value ← lift (CalcFuryValue nativeAmount nativePrice);
  current ← gets CurrentFuryLiquidityThreshold;
  mret (current <? value).

(** ** validatorWhitelist.go *)

Definition SetClpWhiteList (validatorList : list string) : M chain () :=
  modify (λ s, s <| ClpWhiteList := Some (acc_string <$> validatorList) |>).

Definition GetClpWhiteList : M chain (list string) :=
  wl ← gets (λ s, default [] (ClpWhiteList s));
  lift (must (foldR (λ vl entry, addr ← acc_from_bech32 entry; Ok (vl ++ [addr])) [] wl)).

Definition ValidateAddress (address : string) : M chain bool :=
  wl ← gets ClpWhiteList;
  match wl with
  | None => mret false
  | Some _ => valList ← GetClpWhiteList; mret (existsb (λ v, String.eqb v address) valList)
  end.

(** ** provider_distribution.go, rewards.go: stored accumulators *)

Definition SetBlockDistributionAccu (blockDistribution : Z) : M chain () :=
  modify (λ s, s <| BlockDistributionAccu := Some blockDistribution |>).
Definition GetBlockDistributionAccu : M chain Z :=
  gets (λ s, default 0 (BlockDistributionAccu s)).
End WithSdk.
