(* ===== verification/ClpExec.v ===== *)
(** * Executors, unlocks and the removal queue of the clp keeper

    x/clp/keeper: executors.go, the unlock records of rewards.go and
    removalqueue.go.  Comparing two [sdk.Int] structs with [!=] compares
    pointers, so the tests against [sdk.ZeroInt()] of AddLiquidity always hold.
    The removal queue is walked over the requests present when the walk
    starts. *)
From S2P Require Import Prelude Sdk ClpTypes ClpCalc Admin TokenRegistry MarginTypes Chain.
From S2P Require Import ClpKeeper.

Section WithSdk.
Context {sdk : SDK}.

(** ** Unlock records (rewards.go) *)

(** The first loop of UseUnlockedLiquidity: the records after the loop and the
    units still to use. *)
Fixpoint use_records (any : bool) (currentHeight lockPeriod : Z)
    (records : list LiquidityUnlock) (left : Z) : res (list LiquidityUnlock * Z) :=
  match records with
  | [] => Ok ([], left)
  | r :: rs =>
      if any || (i64 (RequestHeight r + i64 lockPeriod) <=? currentHeight) then
        if left >? Units r then
          left' ← u_sub left (Units r);
          '(rs', left'') ← use_records any currentHeight lockPeriod rs left';
          Ok (r <| Units := 0 |> :: rs', left'')
        else
          u ← u_sub (Units r) left;
          Ok (r <| Units := u |> :: rs, 0)
      else
        '(rs', left') ← use_records any currentHeight lockPeriod rs left;
        Ok (r :: rs', left')
  end.

(** The records are shared with the caller's provider, which therefore sees
    the new units; the pruned list is only in the stored copy. *)
Definition UseUnlockedLiquidity (lp : LiquidityProvider) (units : Z) (any : bool)
    : M chain LiquidityProvider :=
  params ← gets RewardsParams;
  currentHeight ← gets BlockHeight;
  let lockPeriod := LiquidityRemovalLockPeriod params in
  '(records, unitsLeftToUse) ← lift (use_records any currentHeight lockPeriod (Unlocks lp) units);
  if negb (lockPeriod =? 0) && negb (unitsLeftToUse =? 0)
  then fail (EClp ErrBalanceNotAvailable) else
  let kept := filter (λ r, Units r ≠ 0) records in
  SetLiquidityProvider (lp <| Unlocks := kept |>);;
  mret (lp <| Unlocks := records |>).

Definition expired (currentHeight lockPeriod cancelPeriod : Z) (r : LiquidityUnlock) : bool :=
  currentHeight >=? i64 (i64 (RequestHeight r + i64 lockPeriod) + i64 cancelPeriod).

Definition PruneUnlockRecords (lp : LiquidityProvider) (lockPeriod cancelPeriod : Z)
    : M chain LiquidityProvider :=
  currentHeight ← gets BlockHeight;
  let prune r := expired currentHeight lockPeriod cancelPeriod r || (Units r =? 0) in
  let records := filter (λ r, prune r = false) (Unlocks lp) in
  if existsb prune (Unlocks lp) then
    let lp' := lp <| Unlocks := records |> in
    SetLiquidityProvider lp';; mret lp'
  else mret lp.

(** ** executors.go *)

Definition ParseToInt (nu : string) : res Z :=
  match i_of_str nu with
  | Some x => Ok x
  | None => Err (EClp ErrUnableToParseInt)
  end.

Definition clp_module_address : string := module_address ModuleName.

Definition CreatePool (poolUnits : Z) (msg : MsgCreatePool.t) : M chain Pool :=
  extInt ← lift (ParseToInt (u_str (MsgCreatePool.ExternalAssetAmount msg)));
  nativeInt ← lift (ParseToInt (u_str (MsgCreatePool.NativeAssetAmount msg)));
  addr ← lift (acc_from_bech32 (MsgCreatePool.Signer msg));
  externalAssetCoin ← lift (new_coin (Symbol (MsgCreatePool.ExternalAsset msg)) extInt);
  nativeAssetCoin ← lift (new_coin (Symbol GetSettlementAsset) nativeInt);
  b ← gets Bank;
  if negb (bank_has_balance b addr externalAssetCoin)
     && negb (bank_has_balance b addr nativeAssetCoin)
  then fail (EClp ErrBalanceNotAvailable) else
  let pool := NewPool (MsgCreatePool.ExternalAsset msg) (MsgCreatePool.NativeAssetAmount msg)
                (MsgCreatePool.ExternalAssetAmount msg) poolUnits in
  coins ← lift (new_coins [externalAssetCoin; nativeAssetCoin]);
  onBank (bank_send_acc_to_mod addr ModuleName coins);;
  wrapM (EClp ErrUnableToSetPool) (SetPool pool);;
  mret pool.

Definition CreateLiquidityProvider (asset : Asset) (lpunits : Z) (lpaddress : string)
    : M chain LiquidityProvider :=
  let lp := NewLiquidityProvider asset lpunits lpaddress in
  SetLiquidityProvider lp;; mret lp.

(** [coins[i]] *)
Definition coin_at (coins : list coin) (i : nat) : res coin :=
  match nth_error coins i with Some c => Ok c | None => Panic end.

Definition AddLiquidity (msg : MsgAddLiquidity.t) (pool : Pool) (newPoolUnits lpUnits : Z)
    : M chain LiquidityProvider :=
  extInt ← lift (ParseToInt (u_str (MsgAddLiquidity.ExternalAssetAmount msg)));
  nativeInt ← lift (ParseToInt (u_str (MsgAddLiquidity.NativeAssetAmount msg)));
  externalAssetCoin ← lift (new_coin (Symbol (MsgAddLiquidity.ExternalAsset msg)) extInt);
  coins ← lift (coins_add [] externalAssetCoin);
  nativeAssetCoin ← lift (new_coin (Symbol GetSettlementAsset) nativeInt);
  coins ← lift (coins_add coins nativeAssetCoin);
  addr ← lift (acc_from_bech32 (MsgAddLiquidity.Signer msg));
  b ← gets Bank;
  c0 ← lift (coin_at coins 0);
  missing ← lift (if bank_has_balance b addr c0 then Ok false
                  else c1 ← coin_at coins 1; Ok (negb (bank_has_balance b addr c1)));
  if missing : bool then fail (EClp ErrBalanceNotAvailable) else
  onBank (bank_send_acc_to_mod addr ModuleName coins);;
  n ← lift (u_add (NativeAssetBalance pool) (MsgAddLiquidity.NativeAssetAmount msg));
  e ← lift (u_add (ExternalAssetBalance pool) (MsgAddLiquidity.ExternalAssetAmount msg));
  let pool := pool <| PoolUnits := newPoolUnits |> <| NativeAssetBalance := n |>
                   <| ExternalAssetBalance := e |> in
  found ← try (GetLiquidityProvider (Symbol (MsgAddLiquidity.ExternalAsset msg))
                 (MsgAddLiquidity.Signer msg));
  '(lp, lpUnits) ← (match found with
    | inl lp => mret (lp, lpUnits)
    | inr _ => lp ← CreateLiquidityProvider (MsgAddLiquidity.ExternalAsset msg) lpUnits addr;
               mret (lp, 0)
    end);
  units ← lift (u_add (LiquidityProviderUnits lp) lpUnits);
  let lp := lp <| LiquidityProviderUnits := units |> in
  wrapM (EClp ErrUnableToSetPool) (SetPool pool);;
  SetLiquidityProvider lp;;
  mret lp.

Definition RemoveLiquidityProvider (coins : list coin) (lp : LiquidityProvider) : M chain () :=
  lpaddr ← lift (acc_from_bech32 (LiquidityProviderAddress lp));
  wrapM (EClp ErrUnableToAddBalance) (onBank (bank_send_mod_to_acc ModuleName lpaddr coins));;
  DestroyLiquidityProvider (Symbol (LPAsset lp)) (LiquidityProviderAddress lp).

Definition DecommissionPool (pool : Pool) : M chain () :=
  wrapM (EClp ErrUnableToDestroyPool) (DestroyPool (Symbol (ExternalAsset pool))).

(** [if !c.IsZero() && !c.IsNegative() { coins = coins.Add(c) }] *)
Definition add_positive (coins : list coin) (c : coin) : res (list coin) :=
  if negb (c.2 =? 0) && negb (c.2 <? 0) then coins_add coins c else Ok coins.

Definition RemoveLiquidity (pool : Pool) (externalAssetCoin nativeAssetCoin : coin)
    (lp : LiquidityProvider) (lpUnitsLeft poolOriginalEB poolOriginalNB : Z) : M chain () :=
  lpAddr ← lift (acc_from_bech32 (LiquidityProviderAddress lp));
  sendCoins ← lift (new_coins []);
  sendCoins ← lift (add_positive sendCoins externalAssetCoin);
  sendCoins ← lift (add_positive sendCoins nativeAssetCoin);
  if (externalAssetCoin.2 >=? poolOriginalEB) || (nativeAssetCoin.2 >=? poolOriginalNB)
  then fail (EClp ErrPoolTooShallow) else
  wrapM (EClp ErrUnableToSetPool) (SetPool pool);;
  (if (length sendCoins =? 0)%nat then mret () else
     b ← gets Bank;
     lift (ensure (forallb (bank_has_balance b clp_module_address) sendCoins)
             (EClp ErrNotEnoughLiquidity));;
     onBank (bank_send_mod_to_acc ModuleName lpAddr sendCoins));;
  if lpUnitsLeft =? 0
  then DestroyLiquidityProvider (Symbol (LPAsset lp)) (LiquidityProviderAddress lp)
  else SetLiquidityProvider (lp <| LiquidityProviderUnits := lpUnitsLeft |>).

Definition InitiateSwap (sentCoin : coin) (swapper : string) : M chain () :=
  b ← gets Bank;
  if negb (bank_has_balance b swapper sentCoin) then fail (EClp ErrBalanceNotAvailable) else
  coins ← lift (new_coins [sentCoin]);
  onBank (bank_send_acc_to_mod swapper ModuleName coins).

Definition FinalizeSwap (sentAmount : string) (finalPool : Pool) (msg : MsgSwap.t)
    : M chain () :=
  wrapM (EClp ErrUnableToSetPool) (SetPool finalPool);;
  sentAmountInt ← lift (ParseToInt sentAmount);
  addr ← lift (acc_from_bech32 (MsgSwap.Signer msg));
  sentCoin ← lift (new_coin (Symbol (MsgSwap.ReceivedAsset msg)) sentAmountInt);
  coins ← lift (new_coins [sentCoin]);
  onBank (bank_send_mod_to_acc ModuleName addr coins).

(** The swap an asymmetric removal makes; the pool and the two coins after it. *)
Definition swap_asymmetry (msg : MsgRemoveLiquidity.t) (pool : Pool)
    (externalAssetCoin nativeAssetCoin : coin)
    (swapAmount pmtpCurrentRunningRate nativeSwapFeeRate externalSwapFeeRate : Z)
    : res (Pool * coin * coin) :=
  let ext := MsgRemoveLiquidity.ExternalAsset msg in
  let asymmetry := MsgRemoveLiquidity.Asymmetry msg in
  '(pool, externalAssetCoin, nativeAssetCoin) ←
    (if 0 <? asymmetry then
       '(swapResult, _, _, swappedPool) ← wrap (EClp ErrUnableToSwap)
         (SwapOne GetSettlementAsset swapAmount ext pool pmtpCurrentRunningRate
            nativeSwapFeeRate);
       '(e, n) ← (if swapResult =? 0 then Ok (externalAssetCoin, nativeAssetCoin) else
         swapResultInt ← ParseToInt (u_str swapResult);
         swapAmountInt ← ParseToInt (u_str swapAmount);
         swapCoin ← new_coin (Symbol ext) swapResultInt;
         swapAmountInCoin ← new_coin (Symbol GetSettlementAsset) swapAmountInt;
         e ← coin_add externalAssetCoin swapCoin;
         n ← coin_sub nativeAssetCoin swapAmountInCoin;
         Ok (e, n));
       Ok (swappedPool, e, n)
     else Ok (pool, externalAssetCoin, nativeAssetCoin));
  if asymmetry <? 0 then
    '(swapResult, _, _, swappedPool) ← wrap (EClp ErrUnableToSwap)
      (SwapOne ext swapAmount GetSettlementAsset pool pmtpCurrentRunningRate
         externalSwapFeeRate);
    '(e, n) ← (if swapResult =? 0 then Ok (externalAssetCoin, nativeAssetCoin) else
      swapInt ← ParseToInt (u_str swapResult);
      swapAmountInt ← ParseToInt (u_str swapAmount);
      swapCoin ← new_coin (Symbol GetSettlementAsset) swapInt;
      swapAmountInCoin ← new_coin (Symbol ext) swapAmountInt;
      n ← coin_add nativeAssetCoin swapCoin;
      e ← coin_sub externalAssetCoin swapAmountInCoin;
      Ok (e, n));
    Ok (swappedPool, e, n)
  else Ok (pool, externalAssetCoin, nativeAssetCoin).

(** The pool after the withdrawn amounts and units are taken out. *)
Definition subtract_from_pool (pool : Pool) (lpUnits lpUnitsLeft native external : Z)
    : res Pool :=
  u ← u_sub (PoolUnits pool) lpUnits;
  u ← u_add u lpUnitsLeft;
  n ← u_sub (NativeAssetBalance pool) native;
  e ← u_sub (ExternalAssetBalance pool) external;
  Ok (pool <| PoolUnits := u |> <| NativeAssetBalance := n |> <| ExternalAssetBalance := e |>).

Definition ProcessRemoveLiquidityMsg (msg : MsgRemoveLiquidity.t) : M chain (Z * Z * Z) :=
  let ext := MsgRemoveLiquidity.ExternalAsset msg in
  registry ← gets TokenRegistry;
  wrapM (EClp ErrTokenNotSupported) (lift (GetEntry registry (Symbol ext)));;
  pool ← wrapM (EClp ErrPoolDoesNotExist) (GetPool (Symbol ext));
  lp ← wrapM (EClp ErrLiquidityProviderDoesNotExist)
         (GetLiquidityProvider (Symbol ext) (MsgRemoveLiquidity.Signer msg));
  let poolOriginalEB := ExternalAssetBalance pool in
  let poolOriginalNB := NativeAssetBalance pool in
  pmtpCurrentRunningRate ← gets (λ s, PmtpCurrentRunningRate (RateParams s));
  externalSwapFeeRate ← GetSwapFeeRate ext false;
  nativeSwapFeeRate ← GetSwapFeeRate GetSettlementAsset false;
  '(nativeAssetDepth, externalAssetDepth) ← lift
    (ExtractDebt pool (NativeAssetBalance pool) (ExternalAssetBalance pool) false);
  '(withdrawNative, withdrawExternal, lpUnitsLeft, swapAmount) ← lift
    (CalculateWithdrawal (PoolUnits pool) (u_str nativeAssetDepth) (u_str externalAssetDepth)
       (u_str (LiquidityProviderUnits lp)) (i_str (MsgRemoveLiquidity.WBasisPoints msg))
       (MsgRemoveLiquidity.Asymmetry msg));
  extFuryValue ← lift (CalculateWithdrawalFuryValue withdrawExternal GetSettlementAsset pool
                         pmtpCurrentRunningRate externalSwapFeeRate);
  externalInt ← lift (ParseToInt (u_str withdrawExternal));
  nativeInt ← lift (ParseToInt (u_str withdrawNative));
  externalAssetCoin ← lift (new_coin (Symbol ext) externalInt);
  nativeAssetCoin ← lift (new_coin (Symbol GetSettlementAsset) nativeInt);
  pool ← lift (subtract_from_pool pool (LiquidityProviderUnits lp) lpUnitsLeft
                 withdrawNative withdrawExternal);
  if negb (MsgRemoveLiquidity.Asymmetry msg =? 0)
     && ((ExternalAssetBalance pool =? 0) || (NativeAssetBalance pool =? 0))
  then fail (EClp ErrPoolTooShallow) else
  '(pool, externalAssetCoin, nativeAssetCoin) ← lift
    (swap_asymmetry msg pool externalAssetCoin nativeAssetCoin swapAmount
       pmtpCurrentRunningRate nativeSwapFeeRate externalSwapFeeRate);
  wrapM (EClp ErrUnableToRemoveLiquidity)
    (RemoveLiquidity pool externalAssetCoin nativeAssetCoin lp lpUnitsLeft
       poolOriginalEB poolOriginalNB);;
  value ← lift (u_add extFuryValue withdrawNative);
  mret (nativeAssetCoin.2, externalAssetCoin.2, value).

(** ** removalqueue.go *)

Definition GetRemovalQueue (symbol : string) : M chain RemovalQueue :=
  gets (λ s, default (mkRemovalQueue 0 0 0 0) (RemovalQueues s !! GetRemovalQueueKey symbol)).

Definition SetRemovalQueue (queue : RemovalQueue) (symbol : string) : M chain () :=
  modify (λ s, s <| RemovalQueues := <[GetRemovalQueueKey symbol := queue]> (RemovalQueues s) |>).

Definition request_key (request : RemovalRequest) : string :=
  GetRemovalRequestKey (MsgRemoveLiquidity.Signer (RequestMsg request)) (RequestId request).

Definition set_request (request : RemovalRequest) : M chain () :=
  modify (λ s, s <| RemovalRequests := <[request_key request := request]> (RemovalRequests s) |>).

Definition QueueRemoval (msg : MsgRemoveLiquidity.t) (furyValue : Z) : M chain () :=
  let symbol := Symbol (MsgRemoveLiquidity.ExternalAsset msg) in
  queue ← GetRemovalQueue symbol;
  let request := mkRemovalRequest (i64 (Id queue + 1)) msg furyValue in
  set_request request;;
  height ← gets BlockHeight;
  total ← lift (u_add (TotalValue queue) furyValue);
  let queue := queue <| Count := i64 (Count queue + 1) |> <| Id := i64 (Id queue + 1) |>
                     <| TotalValue := total |> in
  let queue := if Count queue =? 1 then queue <| StartHeight := height |> else queue in
  SetRemovalQueue queue symbol.

Definition DequeueRemovalRequest (request : RemovalRequest) : M chain () :=
  let symbol := Symbol (MsgRemoveLiquidity.ExternalAsset (RequestMsg request)) in
  modify (λ s, s <| RemovalRequests := delete (request_key request) (RemovalRequests s) |>);;
  queue ← GetRemovalQueue symbol;
  SetRemovalQueue (queue <| Count := i64 (Count queue - 1) |>) symbol.

Definition SetProcessedRemovalRequest (request : RemovalRequest) (pointsProcessed furyRemoved : Z)
    : M chain () :=
  let msg := RequestMsg request in
  points ← lift (i_sub (MsgRemoveLiquidity.WBasisPoints msg) pointsProcessed);
  let request := request <| RequestMsg := msg <| MsgRemoveLiquidity.WBasisPoints := points |> |> in
  let symbol := Symbol (MsgRemoveLiquidity.ExternalAsset msg) in
  set_request request;;
  queue ← GetRemovalQueue symbol;
  total ← lift (u_sub (TotalValue queue) furyRemoved);
  SetRemovalQueue (queue <| TotalValue := total |>) symbol;;
  if points <=? 0 then DequeueRemovalRequest request else mret ().

Definition process_request (msg : MsgAddLiquidity.t) (perRequestUnits : Z)
    (request : RemovalRequest) : M chain () :=
  let rmsg := RequestMsg request in
  if negb (AssetEquals (MsgAddLiquidity.ExternalAsset msg) (MsgRemoveLiquidity.ExternalAsset rmsg))
  then mret () else
  found ← try (GetLiquidityProvider (Symbol (MsgRemoveLiquidity.ExternalAsset rmsg))
                 (MsgRemoveLiquidity.Signer rmsg));
  match found with
  | inr _ => mret ()
  | inl lp =>
      requestUnits ← lift (ConvWBasisPointsToUnits (LiquidityProviderUnits lp)
                             (MsgRemoveLiquidity.WBasisPoints rmsg));
      let withdrawUnits := Z.min requestUnits perRequestUnits in
      withdrawWBasisPoints ← lift (ConvUnitsToWBasisPoints (LiquidityProviderUnits lp) withdrawUnits);
      r ← try (ProcessRemoveLiquidityMsg
        {| MsgRemoveLiquidity.Signer := MsgRemoveLiquidity.Signer rmsg;
           MsgRemoveLiquidity.ExternalAsset := MsgAddLiquidity.ExternalAsset msg;
           MsgRemoveLiquidity.WBasisPoints := withdrawWBasisPoints;
           MsgRemoveLiquidity.Asymmetry := MsgRemoveLiquidity.Asymmetry rmsg |});
      match r with
      | inr _ => mret ()
      | inl (_, _, totalFuryValue) =>
          SetProcessedRemovalRequest request withdrawWBasisPoints totalFuryValue
      end
  end.

Definition ProcessRemovalQueue (msg : MsgAddLiquidity.t) (unitsToDistribute : Z) : M chain () :=
  queue ← GetRemovalQueue (Symbol (MsgAddLiquidity.ExternalAsset msg));
  perRequestUnits ← lift (u_quo unitsToDistribute (u64 (Count queue)));
  requests ← gets (λ s, (kv_iterate (RemovalRequests s)).*2);
  forM requests (process_request msg perRequestUnits).

Definition GetRemovalQueueUnitsForLP (lp : LiquidityProvider) : M chain Z :=
  requests ← gets (λ s, kv_iterate (RemovalRequests s));
  let mine := filter (λ kr, String.prefix (GetRemovalRequestLPPrefix (LiquidityProviderAddress lp))
                              kr.1 = true) requests in
  lift (foldR (λ units kr,
    if AssetEquals (LPAsset lp) (MsgRemoveLiquidity.ExternalAsset (RequestMsg kr.2))
    then u ← ConvWBasisPointsToUnits (LiquidityProviderUnits lp)
               (MsgRemoveLiquidity.WBasisPoints (RequestMsg kr.2));
         u_add units u
    else Ok units) 0 mine).
End WithSdk.
