(* ===== verification/ClpMsg.v ===== *)
(** * Message handlers of the clp module

    x/clp/keeper/msg_server.go and the stateless checks of x/clp/types/msgs.go.
    Events and logging are left out; what is computed only for an event stays
    when it can panic.  The handlers reach the margin module through the
    interface [MarginKeeper]. *)
From S2P Require Import Prelude Sdk ClpTypes ClpCalc Admin TokenRegistry MarginTypes Chain.
From S2P Require Import ClpKeeper ClpExec.

(** What the clp handlers ask of the margin keeper (x/margin/types
    expected_keepers.go). *)
Class MarginKeeper {sdk : SDK} := {
  IsPoolEnabled : chain → string → bool;
  CalculatePoolHealth : Pool → res Z;
  GetRemovalQueueThreshold : chain → Z
}.

Module MsgUpdatePmtpParams.
Record t := mk {
  Signer : string; PmtpPeriodGovernanceRate : string; PmtpPeriodEpochLength : Z;
  PmtpPeriodStartBlock : Z; PmtpPeriodEndBlock : Z }.
End MsgUpdatePmtpParams.

Module MsgModifyPmtpRates.
Record t := mk { Signer : string; BlockRate : string; RunningRate : string; EndPolicy : bool }.
End MsgModifyPmtpRates.

Module MsgUpdateLiquidityProtectionParams.
Record t := mk {
  Signer : string; MaxFuryLiquidityThreshold : Z; MaxFuryLiquidityThresholdAsset : string;
  EpochLength : Z; IsActive : bool }.
End MsgUpdateLiquidityProtectionParams.

(** ** ValidateBasic (msgs.go) *)
Section Validate.
Context {sdk : SDK}.

Definition invalid_address : error := EOther "invalid address".

Definition check_signer (signer : string) : res () :=
  ensure (negb (String.length signer =? 0)%nat) invalid_address.

Definition check_asset (a : Asset) : res () :=
  v ← AssetValidate a; ensure v (EClp ErrInValidAsset).

Definition MsgSwap_ValidateBasic (m : MsgSwap.t) : res () :=
  check_signer (MsgSwap.Signer m);;
  check_asset (MsgSwap.SentAsset m);;
  check_asset (MsgSwap.ReceivedAsset m);;
  ensure (negb (AssetEquals (MsgSwap.SentAsset m) (MsgSwap.ReceivedAsset m)))
    (EClp ErrInValidAsset);;
  ensure (negb (MsgSwap.SentAmount m =? 0)) (EClp ErrInValidAmount).

Definition MsgRemoveLiquidity_ValidateBasic (m : MsgRemoveLiquidity.t) : res () :=
  check_signer (MsgRemoveLiquidity.Signer m);;
  check_asset (MsgRemoveLiquidity.ExternalAsset m);;
  ensure (negb (negb (0 <? MsgRemoveLiquidity.WBasisPoints m)
                || (MsgRemoveLiquidity.WBasisPoints m >? MaxWbasis))) (EClp ErrInvalidWBasis);;
  ensure (negb ((MsgRemoveLiquidity.Asymmetry m >? 10000)
                || (MsgRemoveLiquidity.Asymmetry m <? -10000))) (EClp ErrInvalidAsymmetry).

Definition MsgRemoveLiquidityUnits_ValidateBasic (m : MsgRemoveLiquidityUnits.t) : res () :=
  check_signer (MsgRemoveLiquidityUnits.Signer m);;
  check_asset (MsgRemoveLiquidityUnits.ExternalAsset m);;
  ensure (MsgRemoveLiquidityUnits.WithdrawUnits m >? 0) (EClp ErrInValidAmount).

Definition MsgAddLiquidity_ValidateBasic (m : MsgAddLiquidity.t) : res () :=
  check_signer (MsgAddLiquidity.Signer m);;
  check_asset (MsgAddLiquidity.ExternalAsset m);;
  ensure (negb (AssetEquals (MsgAddLiquidity.ExternalAsset m) GetSettlementAsset))
    (EClp ErrInValidAsset);;
  ensure (negb (negb (MsgAddLiquidity.NativeAssetAmount m >? 0)
                && negb (MsgAddLiquidity.ExternalAssetAmount m >? 0))) (EClp ErrInValidAmount).

Definition MsgCreatePool_ValidateBasic (m : MsgCreatePool.t) : res () :=
  check_signer (MsgCreatePool.Signer m);;
  check_asset (MsgCreatePool.ExternalAsset m);;
  ensure (negb (AssetEquals (MsgCreatePool.ExternalAsset m) GetSettlementAsset))
    (EClp ErrInValidAsset);;
  ensure (MsgCreatePool.NativeAssetAmount m >? 0) (EClp ErrInValidAmount);;
  ensure (MsgCreatePool.ExternalAssetAmount m >? 0) (EClp ErrInValidAmount).

Definition MsgDecommissionPool_ValidateBasic (m : MsgDecommissionPool.t) : res () :=
  check_signer (MsgDecommissionPool.Signer m);;
  ensure (VerifyRange (Z.of_nat (String.length (trim_space (MsgDecommissionPool.Symbol m)))) 0
            MaxSymbolLength) (EOther "invalid request").

(** [MsgUnlockLiquidityRequest] and [MsgCancelUnlock] *)
Definition MsgUnlock_ValidateBasic (m : MsgUnlock.t) : res () :=
  check_signer (MsgUnlock.Signer m);;
  check_asset (MsgUnlock.ExternalAsset m).

(** A nil multiplier pointer panics. *)
Definition check_multiplier (m : PoolMultiplier) : res () :=
  x ← deref (Multiplier m);
  ensure (negb (x <? 0)) (EOther "pool multiplier should be less than 0");;
  ensure (negb (x >? dec_prec 10 0)) (EOther "pool multiplier should be greater than 10").

Definition check_period (p : RewardPeriod) : res () :=
  ensure (negb (String.eqb (RewardPeriodId p) "")) (EOther "reward period id must be non-empty");;
  ensure (negb (RewardPeriodEndBlock p <? RewardPeriodStartBlock p))
    (EOther "reward period start block must be before end block");;
  foldR (λ _ m, check_multiplier m) () (RewardPeriodPoolMultipliers p);;
  d ← deref (RewardPeriodDefaultMultiplier p);
  ensure (negb (d <? 0)) (EOther "default should be less than 0");;
  ensure (negb (d >? dec_prec 10 0))
    (EOther "default multiplier should be greater than 10").

Definition MsgAddRewardPeriod_ValidateBasic (periods : list RewardPeriod) : res () :=
  foldR (λ _ p, check_period p) () periods.

Definition MsgUpdatePmtpParams_ValidateBasic (m : MsgUpdatePmtpParams.t) : res () :=
  let start := MsgUpdatePmtpParams.PmtpPeriodStartBlock m in
  let finish := MsgUpdatePmtpParams.PmtpPeriodEndBlock m in
  let len := MsgUpdatePmtpParams.PmtpPeriodEpochLength m in
  acc_from_bech32 (MsgUpdatePmtpParams.Signer m);;
  ensure (negb (len <=? 0)) (EOther "pmtp epoch length must be greated than zero");;
  ensure (negb (start <? 0)) (EOther "pmtp start block cannot be negative");;
  ensure (negb (finish <=? 0)) (EOther "pmtp end block cannot be negative");;
  ensure (negb (finish <? start)) (EOther "end block must be after begin block");;
  ensure (Z.rem (i64 (i64 (finish - start) + 1)) len =? 0)
    (EOther "all epochs must have equal number of blocks").

Definition MsgUpdateLiquidityProtectionParams_ValidateBasic
    (m : MsgUpdateLiquidityProtectionParams.t) : res () :=
  acc_from_bech32 (MsgUpdateLiquidityProtectionParams.Signer m);;
  ensure (negb (MsgUpdateLiquidityProtectionParams.EpochLength m <=? 0))
    (EOther "liquidity protection epoch length must be greated than zero").

Definition check_distribution_period (p : ProviderDistributionPeriod) : res () :=
  ensure (negb (DistributionPeriodStartBlock p >? DistributionPeriodEndBlock p))
    (EOther "provider distribution period start block must be < end block");;
  ensure (negb ((DistributionPeriodBlockRate p <? NewDec 0)
                || (DistributionPeriodBlockRate p >? NewDec 1)))
    (EOther "provider distribution period block rate must be >= 0 and <= 1");;
  ensure (negb (DistributionPeriodMod p =? 0))
    (EOther "provider distribution period modulo must be > 0").

Definition MsgAddProviderDistributionPeriod_ValidateBasic (signer : string)
    (periods : list ProviderDistributionPeriod) : res () :=
  ensure (negb (String.eqb signer "")) invalid_address;;
  foldR (λ _ p, check_distribution_period p) () periods.

Definition check_rate (r : Z) : res () :=
  ensure (negb (r <? 0)) (EOther "swap rate fee must be greater than or equal to zero");;
  ensure (negb (r >? P18)) (EOther "swap rate fee must be less than or equal to one").

Definition MsgSetSymmetryThreshold_ValidateBasic (signer : string) : res () :=
  ensure (negb (String.eqb signer "")) invalid_address.

Definition MsgUpdateSwapFeeParams_ValidateBasic (signer : string) (params : SwapFeeParams)
    : res () :=
  ensure (negb (String.eqb signer "")) invalid_address;;
  check_rate (DefaultSwapFeeRate params);;
  foldR (λ _ p, check_rate (SwapFeeRate p)) () (TokenParams params).
End Validate.

(** ** Handlers of liquidity providers and traders (msg_server.go) *)
Section Handlers.
Context {sdk : SDK} {mk : MarginKeeper}.

Definition registry_entry (symbol : string) : M chain RegistryEntry :=
  registry ← gets TokenRegistry;
  wrapM (EClp ErrTokenNotSupported) (lift (GetEntry registry symbol)).

Definition require_permission (entry : RegistryEntry) (p : Permission) : M chain () :=
  lift (ensure (CheckEntryPermissions entry [p]) (ERegistry ErrPermissionDenied)).

Definition msg_CreatePool (msg : MsgCreatePool.t) : M chain () :=
  let symbol := Symbol (MsgCreatePool.ExternalAsset msg) in
  if MsgCreatePool.NativeAssetAmount msg <? PoolThrehold
  then fail (EClp ErrTotalAmountTooLow) else
  eAsset ← registry_entry symbol;
  require_permission eAsset Permission_CLP;;
  exists_ ← ExistsPool symbol;
  if exists_ : bool then fail (EClp ErrUnableToCreatePool) else
  pmtpCurrentRunningRate ← gets (λ s, PmtpCurrentRunningRate (RateParams s));
  sellNativeSwapFeeRate ← GetSwapFeeRate GetSettlementAsset false;
  buyNativeSwapFeeRate ← GetSwapFeeRate (MsgCreatePool.ExternalAsset msg) false;
  '(poolUnits, lpunits, _, _) ← wrapM (EClp ErrUnableToCreatePool) (lift
    (CalculatePoolUnits 0 0 0 (MsgCreatePool.NativeAssetAmount msg)
       (MsgCreatePool.ExternalAssetAmount msg) sellNativeSwapFeeRate buyNativeSwapFeeRate
       pmtpCurrentRunningRate));
  wrapM (EClp ErrUnableToSetPool) (CreatePool poolUnits msg);;
  accAddr ← lift (acc_from_bech32 (MsgCreatePool.Signer msg));
  CreateLiquidityProvider (MsgCreatePool.ExternalAsset msg) lpunits accAddr;;
  mret ().

(** The native price, and the guard on selling fury, when protection is on. *)
Definition swap_price (sAsset : RegistryEntry) (sentAmount : Z) : M chain (option Z) :=
  params ← gets ProtectionParams;
  if negb (IsActive params) then mret None else
  price ← GetNativePrice;
  if StringCompare (Denom sAsset) NativeSymbol then
    blocked ← IsBlockedByLiquidityProtection sentAmount price;
    if blocked : bool then fail (EClp ErrReachedMaxFuryLiquidityThreshold) else mret (Some price)
  else mret (Some price).

(** The first leg of a swap between two external assets: the amount and asset
    of the second leg, its price impact and its fee (in fury). *)
Definition swap_first_leg (msg : MsgSwap.t) (inPool : option Pool)
    (pmtpCurrentRunningRate swapFeeRate : Z) : M chain (Z * Asset * Z * Z) :=
  match inPool with
  | Some inPool =>
      if negb (AssetEquals (MsgSwap.ReceivedAsset msg) GetSettlementAsset) then
        '(emitAmount, lp, ts, finalPool) ← lift
          (SwapOne (MsgSwap.SentAsset msg) (MsgSwap.SentAmount msg) GetSettlementAsset inPool
             pmtpCurrentRunningRate swapFeeRate);
        wrapM (EClp ErrUnableToSetPool) (SetPool finalPool);;
        impact ← lift (u_add 0 ts);
        fee ← lift (u_add 0 lp);
        mret (emitAmount, GetSettlementAsset, impact, fee)
      else mret (MsgSwap.SentAmount msg, MsgSwap.SentAsset msg, 0, 0)
  | None => mret (MsgSwap.SentAmount msg, MsgSwap.SentAsset msg, 0, 0)
  end.

(** The liquidity fee and price impact a swap reports. *)
Definition swap_event (msg : MsgSwap.t) (outPool : Pool) (liquidityFeeNative lp priceImpact ts
    pmtpCurrentRunningRate swapFeeRate : Z) : res (Z * Z) :=
  totalLiquidityFee ←
    (if liquidityFeeNative >? 0 then
       liquidityFeeExternal ← u_add 0 lp;
       first ← GetSwapFee liquidityFeeNative (MsgSwap.ReceivedAsset msg) outPool
                 pmtpCurrentRunningRate swapFeeRate;
       u_add liquidityFeeExternal first
     else u_add liquidityFeeNative lp);
  priceImpact ← u_add priceImpact ts;
  Ok (totalLiquidityFee, priceImpact).

Definition swap_update_threshold (sAsset rAsset : RegistryEntry) (msg : MsgSwap.t)
    (emitAmount swapFeeRate : Z) (price : option Z) : M chain () :=
  match price with
  | None => mret ()
  | Some price =>
      (if StringCompare (Denom sAsset) NativeSymbol then
         discounted ← lift (CalculateDiscountedSentAmount (MsgSwap.SentAmount msg) swapFeeRate);
         MustUpdateLiquidityProtectionThreshold true discounted price
       else mret ());;
      (if StringCompare (Denom rAsset) NativeSymbol then
         MustUpdateLiquidityProtectionThreshold false emitAmount price
       else mret ())
  end.

Definition msg_Swap (msg : MsgSwap.t) : M chain () :=
  sAsset ← registry_entry (Symbol (MsgSwap.SentAsset msg));
  rAsset ← registry_entry (Symbol (MsgSwap.ReceivedAsset msg));
  require_permission sAsset Permission_CLP;;
  require_permission rAsset Permission_CLP;;
  lift (ensure (negb (CheckEntryPermissions sAsset [Permission_DISABLE_SELL]))
          (ERegistry ErrNotAllowedToSellAsset));;
  lift (ensure (negb (CheckEntryPermissions rAsset [Permission_DISABLE_BUY]))
          (ERegistry ErrNotAllowedToBuyAsset));;
  pmtpCurrentRunningRate ← gets (λ s, PmtpCurrentRunningRate (RateParams s));
  swapFeeRate ← GetSwapFeeRate (MsgSwap.SentAsset msg) false;
  price ← swap_price sAsset (MsgSwap.SentAmount msg);
  inPool ← (if negb (AssetEquals (MsgSwap.SentAsset msg) GetSettlementAsset) then
              p ← wrapM (EClp ErrPoolDoesNotExist) (GetPool (Symbol (MsgSwap.SentAsset msg)));
              mret (Some p)
            else mret None);
  sentAmountInt ← lift (ParseToInt (u_str (MsgSwap.SentAmount msg)));
  accAddr ← lift (acc_from_bech32 (MsgSwap.Signer msg));
  sentCoin ← lift (new_coin (Symbol (MsgSwap.SentAsset msg)) sentAmountInt);
  wrapM (EClp ErrUnableToSwap) (InitiateSwap sentCoin accAddr);;
  '(sentAmount, sentAsset, priceImpact, liquidityFeeNative) ←
    swap_first_leg msg inPool pmtpCurrentRunningRate swapFeeRate;
  outPool ← wrapM (EClp ErrPoolDoesNotExist)
    (GetPool (if AssetEquals (MsgSwap.ReceivedAsset msg) GetSettlementAsset
              then Symbol (MsgSwap.SentAsset msg) else Symbol (MsgSwap.ReceivedAsset msg)));
  '(emitAmount, lp, ts, finalPool) ← lift
    (SwapOne sentAsset sentAmount (MsgSwap.ReceivedAsset msg) outPool pmtpCurrentRunningRate
       swapFeeRate);
  if emitAmount <? MsgSwap.MinReceivingAmount msg
  then fail (EClp ErrReceivedAmountBelowExpected) else
  wrapM (EClp ErrUnableToSwap) (FinalizeSwap (u_str emitAmount) finalPool msg);;
  lift (swap_event msg outPool liquidityFeeNative lp priceImpact ts pmtpCurrentRunningRate
          swapFeeRate);;
  swap_update_threshold sAsset rAsset msg emitAmount swapFeeRate price.

(** The permission and protection checks of an addition that needs a swap. *)
Definition add_checks (swapStatus : SwapStatus) (nAsset eAsset : RegistryEntry)
    (swapAmount nativeAssetDepth externalAssetDepth pmtpCurrentRunningRate
     sellNativeSwapFeeRate buyNativeSwapFeeRate : Z) : M chain () :=
  match swapStatus with
  | NoSwap => mret ()
  | SellNative =>
      lift (ensure (negb (CheckEntryPermissions nAsset [Permission_DISABLE_SELL]))
              (ERegistry ErrNotAllowedToSellAsset));;
      lift (ensure (negb (CheckEntryPermissions eAsset [Permission_DISABLE_BUY]))
              (ERegistry ErrNotAllowedToBuyAsset));;
      params ← gets ProtectionParams;
      if negb (IsActive params) then mret () else
      price ← GetNativePrice;
      blocked ← IsBlockedByLiquidityProtection swapAmount price;
      if blocked : bool then fail (EClp ErrReachedMaxFuryLiquidityThreshold) else
      discounted ← lift (CalculateDiscountedSentAmount swapAmount sellNativeSwapFeeRate);
      MustUpdateLiquidityProtectionThreshold true discounted price
  | BuyNative =>
      lift (ensure (negb (CheckEntryPermissions eAsset [Permission_DISABLE_SELL]))
              (ERegistry ErrNotAllowedToSellAsset));;
      lift (ensure (negb (CheckEntryPermissions nAsset [Permission_DISABLE_BUY]))
              (ERegistry ErrNotAllowedToBuyAsset));;
      params ← gets ProtectionParams;
      if negb (IsActive params) then mret () else
      '(nativeAmount, _) ← lift (CalcSwapResult true externalAssetDepth swapAmount
                                   nativeAssetDepth pmtpCurrentRunningRate buyNativeSwapFeeRate);
      price ← GetNativePrice;
      MustUpdateLiquidityProtectionThreshold false nativeAmount price
  end.

Definition msg_AddLiquidity (msg : MsgAddLiquidity.t) : M chain () :=
  let ext := MsgAddLiquidity.ExternalAsset msg in
  nAsset ← registry_entry NativeSymbol;
  eAsset ← registry_entry (Symbol ext);
  require_permission eAsset Permission_CLP;;
  pool ← wrapM (EClp ErrPoolDoesNotExist) (GetPool (Symbol ext));
  pmtpCurrentRunningRate ← gets (λ s, PmtpCurrentRunningRate (RateParams s));
  sellNativeSwapFeeRate ← GetSwapFeeRate GetSettlementAsset false;
  buyNativeSwapFeeRate ← GetSwapFeeRate ext false;
  '(nativeAssetDepth, externalAssetDepth) ← lift
    (ExtractDebt pool (NativeAssetBalance pool) (ExternalAssetBalance pool) false);
  '(newPoolUnits, lpUnits, swapStatus, swapAmount) ← lift
    (CalculatePoolUnits (PoolUnits pool) nativeAssetDepth externalAssetDepth
       (MsgAddLiquidity.NativeAssetAmount msg) (MsgAddLiquidity.ExternalAssetAmount msg)
       sellNativeSwapFeeRate buyNativeSwapFeeRate pmtpCurrentRunningRate);
  add_checks swapStatus nAsset eAsset swapAmount nativeAssetDepth externalAssetDepth
    pmtpCurrentRunningRate sellNativeSwapFeeRate buyNativeSwapFeeRate;;
  wrapM (EClp ErrUnableToAddLiquidity) (AddLiquidity msg pool newPoolUnits lpUnits);;
  marginEnabled ← gets (λ s, IsPoolEnabled s (Symbol ext));
  queueEnabled ← gets EnableRemovalQueue;
  if negb marginEnabled || negb queueEnabled then mret () else
  queue ← GetRemovalQueue (Symbol ext);
  if 0 <? Count queue then ProcessRemovalQueue msg newPoolUnits else mret ().

(** Removals from a margin pool that would leave it unhealthy are queued (and
    the message fails with [ErrQueued]) or refused. *)
Definition health_gate (request : res MsgRemoveLiquidity.t) (denom : string) (pool : Pool)
    (withdrawNative withdrawExternal queuedPart pmtpCurrentRunningRate swapFeeRate : Z)
    : M chain () :=
  marginEnabled ← gets (λ s, IsPoolEnabled s denom);
  if negb marginEnabled then mret () else
  extFuryValue ← lift (CalculateWithdrawalFuryValue withdrawExternal GetSettlementAsset pool
                         pmtpCurrentRunningRate swapFeeRate);
  n ← lift (u_sub (NativeAssetBalance pool) withdrawNative);
  e ← lift (u_sub (ExternalAssetBalance pool) withdrawExternal);
  health ← lift (CalculatePoolHealth (pool <| NativeAssetBalance := n |>
                                           <| ExternalAssetBalance := e |>));
  threshold ← gets GetRemovalQueueThreshold;
  if health <? threshold then
    queueEnabled ← gets EnableRemovalQueue;
    if queueEnabled : bool then
      msg ← lift request;
      value ← lift (u_add extFuryValue queuedPart);
      QueueRemoval msg value;;
      fail (EClp ErrQueued)
    else fail (EClp ErrRemovalsBlockedByHealth)
  else mret ().

Definition msg_RemoveLiquidityUnits (msg : MsgRemoveLiquidityUnits.t) : M chain () :=
  let ext := MsgRemoveLiquidityUnits.ExternalAsset msg in
  let signer := MsgRemoveLiquidityUnits.Signer msg in
  let withdrawUnits := MsgRemoveLiquidityUnits.WithdrawUnits msg in
  eAsset ← registry_entry (Symbol ext);
  require_permission eAsset Permission_CLP;;
  pool ← wrapM (EClp ErrPoolDoesNotExist) (GetPool (Symbol ext));
  lp ← wrapM (EClp ErrLiquidityProviderDoesNotExist) (GetLiquidityProvider (Symbol ext) signer);
  lpQueuedUnits ← GetRemovalQueueUnitsForLP lp;
  available ← lift (u_sub (LiquidityProviderUnits lp) lpQueuedUnits);
  if withdrawUnits >? available then fail (EClp ErrUnableToRemoveLiquidity) else
  pmtpCurrentRunningRate ← gets (λ s, PmtpCurrentRunningRate (RateParams s));
  swapFeeRate ← GetSwapFeeRate ext false;
  params ← gets RewardsParams;
  lp ← PruneUnlockRecords lp (LiquidityRemovalLockPeriod params)
         (LiquidityRemovalCancelPeriod params);
  '(nativeAssetDepth, externalAssetDepth) ← lift
    (ExtractDebt pool (NativeAssetBalance pool) (ExternalAssetBalance pool) false);
  '(withdrawNative, withdrawExternal, lpUnitsLeft) ← lift
    (CalculateWithdrawalFromUnits (PoolUnits pool) (u_str nativeAssetDepth)
       (u_str externalAssetDepth) (u_str (LiquidityProviderUnits lp)) withdrawUnits);
  used ← lift (u_sub (LiquidityProviderUnits lp) lpUnitsLeft);
  lp ← UseUnlockedLiquidity lp used false;
  health_gate (points ← ConvUnitsToWBasisPoints (LiquidityProviderUnits lp) withdrawUnits;
               Ok {| MsgRemoveLiquidity.Signer := signer;
                     MsgRemoveLiquidity.ExternalAsset := ext;
                     MsgRemoveLiquidity.WBasisPoints := points;
                     MsgRemoveLiquidity.Asymmetry := 0 |})
    (Denom eAsset) pool withdrawNative withdrawExternal withdrawNative
    pmtpCurrentRunningRate swapFeeRate;;
  externalInt ← lift (ParseToInt (u_str withdrawExternal));
  nativeInt ← lift (ParseToInt (u_str withdrawNative));
  externalAssetCoin ← lift (new_coin (Symbol ext) externalInt);
  nativeAssetCoin ← lift (new_coin (Symbol GetSettlementAsset) nativeInt);
  pool ← lift (subtract_from_pool pool (LiquidityProviderUnits lp) lpUnitsLeft
                 withdrawNative withdrawExternal);
  wrapM (EClp ErrUnableToRemoveLiquidity)
    (RemoveLiquidity pool externalAssetCoin nativeAssetCoin lp lpUnitsLeft
       externalAssetDepth nativeAssetDepth).

Definition msg_RemoveLiquidity (msg : MsgRemoveLiquidity.t) : M chain () :=
  let ext := MsgRemoveLiquidity.ExternalAsset msg in
  eAsset ← registry_entry (Symbol ext);
  require_permission eAsset Permission_CLP;;
  pool ← wrapM (EClp ErrPoolDoesNotExist) (GetPool (Symbol ext));
  lp ← wrapM (EClp ErrLiquidityProviderDoesNotExist)
         (GetLiquidityProvider (Symbol ext) (MsgRemoveLiquidity.Signer msg));
  pmtpCurrentRunningRate ← gets (λ s, PmtpCurrentRunningRate (RateParams s));
  externalSwapFeeRate ← GetSwapFeeRate ext false;
  nativeSwapFeeRate ← GetSwapFeeRate GetSettlementAsset false;
  params ← gets RewardsParams;
  lp ← PruneUnlockRecords lp (LiquidityRemovalLockPeriod params)
         (LiquidityRemovalCancelPeriod params);
  if negb (MsgRemoveLiquidity.Asymmetry msg =? 0) then fail (EClp ErrAsymmetricRemove) else
  lpQueuedUnits ← GetRemovalQueueUnitsForLP lp;
  msgUnits ← lift (ConvWBasisPointsToUnits (LiquidityProviderUnits lp)
                     (MsgRemoveLiquidity.WBasisPoints msg));
  available ← lift (u_sub (LiquidityProviderUnits lp) lpQueuedUnits);
  if msgUnits >? available then fail (EClp ErrUnableToRemoveLiquidity) else
  '(nativeAssetDepth, externalAssetDepth) ← lift
    (ExtractDebt pool (NativeAssetBalance pool) (ExternalAssetBalance pool) false);
  '(withdrawNative, withdrawExternal, lpUnitsLeft, swapAmount) ← lift
    (CalculateWithdrawal (PoolUnits pool) (u_str nativeAssetDepth) (u_str externalAssetDepth)
       (u_str (LiquidityProviderUnits lp)) (i_str (MsgRemoveLiquidity.WBasisPoints msg))
       (MsgRemoveLiquidity.Asymmetry msg));
  used ← lift (u_sub (LiquidityProviderUnits lp) lpUnitsLeft);
  lp ← UseUnlockedLiquidity lp used false;
  health_gate (Ok msg) (Denom eAsset) pool withdrawNative withdrawExternal withdrawExternal
    pmtpCurrentRunningRate externalSwapFeeRate;;
  externalInt ← lift (ParseToInt (u_str withdrawExternal));
  nativeInt ← lift (ParseToInt (u_str withdrawNative));
  externalAssetCoin ← lift (new_coin (Symbol ext) externalInt);
  nativeAssetCoin ← lift (new_coin (Symbol GetSettlementAsset) nativeInt);
  pool ← lift (subtract_from_pool pool (LiquidityProviderUnits lp) lpUnitsLeft
                 withdrawNative withdrawExternal);
  if negb (MsgRemoveLiquidity.Asymmetry msg =? 0)
     && ((ExternalAssetBalance pool =? 0) || (NativeAssetBalance pool =? 0))
  then fail (EClp ErrPoolTooShallow) else
  '(pool, externalAssetCoin, nativeAssetCoin) ← lift
    (swap_asymmetry msg pool externalAssetCoin nativeAssetCoin swapAmount
       pmtpCurrentRunningRate nativeSwapFeeRate externalSwapFeeRate);
  wrapM (EClp ErrUnableToRemoveLiquidity)
    (RemoveLiquidity pool externalAssetCoin nativeAssetCoin lp lpUnitsLeft
       externalAssetDepth nativeAssetDepth).

Definition msg_UnlockLiquidity (request : MsgUnlock.t) : M chain () :=
  lp ← wrapM (EClp ErrLiquidityProviderDoesNotExist)
         (GetLiquidityProvider (Symbol (MsgUnlock.ExternalAsset request))
            (MsgUnlock.Signer request));
  params ← gets RewardsParams;
  lp ← PruneUnlockRecords lp (LiquidityRemovalLockPeriod params)
         (LiquidityRemovalCancelPeriod params);
  totalUnlocks ← lift (foldR (λ t u, u_add t (Units u)) 0 (Unlocks lp));
  total ← lift (u_add totalUnlocks (MsgUnlock.Units request));
  if total >? LiquidityProviderUnits lp then fail (EClp ErrBalanceNotAvailable) else
  height ← gets BlockHeight;
  SetLiquidityProvider (lp <| Unlocks :=
    Unlocks lp ++ [mkLiquidityUnlock height (MsgUnlock.Units request)] |>).

Definition msg_CancelUnlockLiquidity (request : MsgUnlock.t) : M chain () :=
  lp ← wrapM (EClp ErrLiquidityProviderDoesNotExist)
         (GetLiquidityProvider (Symbol (MsgUnlock.ExternalAsset request))
            (MsgUnlock.Signer request));
  params ← gets RewardsParams;
  lp ← PruneUnlockRecords lp (LiquidityRemovalLockPeriod params)
         (LiquidityRemovalCancelPeriod params);
  UseUnlockedLiquidity lp (MsgUnlock.Units request) true;;
  mret ().

(** One refund of the decommissioning loop; the accumulator is the units and
    balances left. *)
Definition refund_lp (symbol : string) (pool : Pool) (acc : Z * Z * Z)
    (lp : LiquidityProvider) : M chain (Z * Z * Z) :=
  let '(poolUnits, nativeAssetBalance, externalAssetBalance) := acc in
  '(withdrawNative, withdrawExternal, _, _) ← lift (CalculateAllAssetsForLP pool lp);
  u ← lift (u_sub poolUnits (LiquidityProviderUnits lp));
  n ← lift (u_sub nativeAssetBalance withdrawNative);
  e ← lift (u_sub externalAssetBalance withdrawExternal);
  nativeInt ← lift (ParseToInt (u_str withdrawNative));
  externalInt ← lift (ParseToInt (u_str withdrawExternal));
  nativeCoins ← lift (new_coin (Symbol GetSettlementAsset) nativeInt);
  externalCoins ← lift (new_coin symbol externalInt);
  refundingCoins ← lift (new_coins [externalCoins; nativeCoins]);
  wrapM (EClp ErrUnableToRemoveLiquidityProvider) (RemoveLiquidityProvider refundingCoins lp);;
  mret (u, n, e).

Fixpoint refund_lps (symbol : string) (pool : Pool) (acc : Z * Z * Z)
    (lps : list LiquidityProvider) : M chain (Z * Z * Z) :=
  match lps with
  | [] => mret acc
  | lp :: lps' => acc' ← refund_lp symbol pool acc lp; refund_lps symbol pool acc' lps'
  end.

Definition msg_DecommissionPool (msg : MsgDecommissionPool.t) : M chain () :=
  pool ← wrapM (EClp ErrPoolDoesNotExist) (GetPool (MsgDecommissionPool.Symbol msg));
  addAddr ← lift (acc_from_bech32 (MsgDecommissionPool.Signer msg));
  allowed ← ValidateAddress addAddr;
  if negb allowed then fail (EClp ErrInvalid) else
  if NativeAssetBalance pool >=? PoolThrehold then fail (EClp ErrBalanceTooHigh) else
  lpList ← GetLiquidityProvidersForAssetPaginated (ExternalAsset pool) MaxUint64;
  refund_lps (MsgDecommissionPool.Symbol msg) pool
    (PoolUnits pool, NativeAssetBalance pool, ExternalAssetBalance pool) lpList;;
  wrapM (EClp ErrUnableToDecommissionPool) (DecommissionPool pool).
End Handlers.

(** ** Handlers of the administrators (msg_server.go) *)
Section AdminHandlers.
Context {sdk : SDK}.

Definition not_enough : error := EClp ErrNotEnoughPermissions.

Definition msg_SetSymmetryThreshold (signer : string) (threshold ratio : Z) : M chain () :=
  require_admin AdminType_CLPDEX signer not_enough;;
  modify (λ s, s <| SymmetryThreshold := Some (threshold, ratio) |>).

Definition msg_UpdateRewardsParams (signer : string) (lockPeriod cancelPeriod : Z) : M chain () :=
  require_admin AdminType_PMTPREWARDS signer not_enough;;
  modify (λ s, s <| RewardsParams := (RewardsParams s) <| LiquidityRemovalLockPeriod := lockPeriod |>
                      <| LiquidityRemovalCancelPeriod := cancelPeriod |> |>).

Definition msg_AddRewardPeriod (signer : string) (periods : list RewardPeriod) : M chain () :=
  require_admin AdminType_PMTPREWARDS signer not_enough;;
  modify (λ s, s <| RewardsParams := (RewardsParams s) <| RewardPeriods := periods |> |>).

Definition msg_AddProviderDistributionPeriod (signer : string)
    (periods : list ProviderDistributionPeriod) : M chain () :=
  lift (MsgAddProviderDistributionPeriod_ValidateBasic signer periods);;
  require_admin AdminType_PMTPREWARDS signer not_enough;;
  modify (λ s, s <| DistributionPeriods := periods |>).

Definition IsInsidePmtpWindow : M chain bool :=
  gets (λ s, (BlockHeight s <=? PmtpPeriodEndBlock (PolicyParams s))
             && (BlockHeight s >=? PmtpPeriodStartBlock (PolicyParams s))).

Definition msg_UpdatePmtpParams (msg : MsgUpdatePmtpParams.t) : M chain () :=
  require_admin AdminType_PMTPREWARDS (MsgUpdatePmtpParams.Signer msg) not_enough;;
  params ← gets PolicyParams;
  inside ← IsInsidePmtpWindow;
  if inside : bool then fail (EClp ErrCannotStartPolicy) else
  height ← gets BlockHeight;
  if MsgUpdatePmtpParams.PmtpPeriodStartBlock msg <=? height
  then fail (EOther "Start block cannot be in the past/current block") else
  let params := params <| PmtpPeriodStartBlock := MsgUpdatePmtpParams.PmtpPeriodStartBlock msg |>
                       <| PmtpPeriodEndBlock := MsgUpdatePmtpParams.PmtpPeriodEndBlock msg |>
                       <| PmtpPeriodEpochLength := MsgUpdatePmtpParams.PmtpPeriodEpochLength msg |> in
  params ← (if StringCompare (MsgUpdatePmtpParams.PmtpPeriodGovernanceRate msg) "" then mret params
            else rGov ← lift (d_of_str (MsgUpdatePmtpParams.PmtpPeriodGovernanceRate msg));
                 mret (params <| PmtpPeriodGovernanceRate := rGov |>));
  modify (λ s, s <| PolicyParams := params |>).

Definition msg_ModifyPmtpRates (msg : MsgModifyPmtpRates.t) : M chain () :=
  require_admin AdminType_PMTPREWARDS (MsgModifyPmtpRates.Signer msg) not_enough;;
  params ← gets PolicyParams;
  rateParams ← gets RateParams;
  inside ← IsInsidePmtpWindow;
  rateParams ←
    (if negb (StringCompare (MsgModifyPmtpRates.BlockRate msg) "") && negb inside then
       blockRate ← lift (d_of_str (MsgModifyPmtpRates.BlockRate msg));
       mret (rateParams <| PmtpPeriodBlockRate := blockRate |>)
     else mret rateParams);
  rateParams ←
    (if negb (StringCompare (MsgModifyPmtpRates.RunningRate msg) "") && negb inside then
       runningRate ← lift (d_of_str (MsgModifyPmtpRates.RunningRate msg));
       mret (rateParams <| PmtpCurrentRunningRate := runningRate |>
                        <| PmtpInterPolicyRate := runningRate |>)
     else mret rateParams);
  modify (λ s, s <| RateParams := rateParams |>);;
  if MsgModifyPmtpRates.EndPolicy msg && inside then
    height ← gets BlockHeight;
    modify (λ s, s <| PolicyParams := params <| PmtpPeriodEndBlock := height |> |>);;
    SetPmtpEpoch (mkPmtpEpoch 0 0);;
    SetPmtpInterPolicyRate (PmtpCurrentRunningRate rateParams)
  else mret ().

Definition msg_UpdateLiquidityProtectionParams (msg : MsgUpdateLiquidityProtectionParams.t)
    : M chain () :=
  require_admin AdminType_CLPDEX (MsgUpdateLiquidityProtectionParams.Signer msg) not_enough;;
  modify (λ s, s <| ProtectionParams :=
    mkLiquidityProtectionParams (MsgUpdateLiquidityProtectionParams.MaxFuryLiquidityThreshold msg)
      (MsgUpdateLiquidityProtectionParams.MaxFuryLiquidityThresholdAsset msg)
      (MsgUpdateLiquidityProtectionParams.EpochLength msg)
      (MsgUpdateLiquidityProtectionParams.IsActive msg) |>);;
  SetLiquidityProtectionCurrentFuryLiquidityThreshold
    (MsgUpdateLiquidityProtectionParams.MaxFuryLiquidityThreshold msg).

Definition msg_ModifyLiquidityProtectionRates (signer : string) (current : Z) : M chain () :=
  require_admin AdminType_CLPDEX signer not_enough;;
  SetLiquidityProtectionCurrentFuryLiquidityThreshold current.

Definition msg_UpdateSwapFeeParams (signer : string) (params : SwapFeeParams) : M chain () :=
  require_admin AdminType_PMTPREWARDS signer not_enough;;
  modify (λ s, s <| SwapFees := Some params |>).
End AdminHandlers.
