(* ===== verification/ClpStaking.v ===== *)
(** * The parameters of the mint module

    UpdateStakingRewardParams of x/clp/keeper/msg_server.go.  The mint module is the
    SDK's: its keeper is the class [MintKeeper], and the handler runs over the chain
    together with its store. *)
From S2P Require Import Prelude Sdk ClpTypes Admin Chain ClpKeeper ClpExec ClpMsg.

Class MintKeeper := {
  MintStore : Type;
  minter : Type;
  mint_params : Type;
  AnnualProvisions : minter → Z;
  Inflation : minter → Z;
  SetMinter : minter → MintStore → MintStore;
  SetMintParams : mint_params → MintStore → MintStore;
  MintParamsValidate : mint_params → res ()
}.

Module MsgUpdateStakingRewardParams.
Record t {mt : MintKeeper} := mk { Signer : string; Minter : minter; Params : mint_params }.
End MsgUpdateStakingRewardParams.

Section Staking.
Context {sdk : SDK} {mt : MintKeeper}.
Implicit Types s : chain.

Definition MsgUpdateStakingRewardParams_ValidateBasic (msg : MsgUpdateStakingRewardParams.t) : res () :=
  MintParamsValidate (MsgUpdateStakingRewardParams.Params msg).

Definition msg_UpdateStakingRewardParams (msg : MsgUpdateStakingRewardParams.t)
    : M (chain * MintStore) () :=
  let minter := MsgUpdateStakingRewardParams.Minter msg in
  st ← gets (λ x, AdminState x.1);
  lift (admin_signer st AdminType_PMTPREWARDS (MsgUpdateStakingRewardParams.Signer msg)
          (EClp ErrNotEnoughPermissions));;
  (if negb ((AnnualProvisions minter =? 0) && (Inflation minter =? 0))
   then modify (λ x, (x.1, SetMinter minter x.2)) else mret ());;
  modify (λ x, (x.1, SetMintParams (MsgUpdateStakingRewardParams.Params msg) x.2)).

(** It never touches the chain of this repository, and the mint module only for a
    rewards administrator, who replaces the minter unless it is given empty. *)
Lemma msg_UpdateStakingRewardParams_spec msg s ms :
  msg_UpdateStakingRewardParams msg (s, ms)
  = match admin_signer (AdminState s) AdminType_PMTPREWARDS (MsgUpdateStakingRewardParams.Signer msg)
            (EClp ErrNotEnoughPermissions) with
    | Ok _ =>
        let minter := MsgUpdateStakingRewardParams.Minter msg in
        let ms := if (AnnualProvisions minter =? 0) && (Inflation minter =? 0) then ms else SetMinter minter ms in
        (Ok (), (s, SetMintParams (MsgUpdateStakingRewardParams.Params msg) ms))
    | Err e => (Err e, (s, ms))
    | Panic => (Panic, (s, ms))
    end.
Proof.
  unfold msg_UpdateStakingRewardParams, gets, lift, modify, mbind, M_bind. cbn [fst snd].
  destruct (admin_signer _ _ _ _); [|done..]. cbv zeta. by destruct (_ && _).
Qed.
End Staking.
