(* ===== verification/ClpBlock.v ===== *)
(** * Block processing of the clp module

    x/clp/abci.go with keeper/pmtp.go (the policy that moves the fury price),
    keeper/rewards.go (liquidity mining) and keeper/provider_distribution.go
    (payouts from the pools to their providers).

    The maps of a distribution are Go maps: the order of a [range] over one is
    not specified, so it is an argument of the model ([GoMap]).  A map keyed by
    [*Pool] is keyed by the pool's external symbol; the pointers come from one
    listing of the store, where every symbol occurs once. *)
From S2P Require Import Prelude Sdk ClpTypes ClpCalc Admin TokenRegistry MarginTypes Chain.
From S2P Require Import ClpKeeper ClpExec ClpMsg.

(** ** pmtp.go *)
Section Pmtp.
Context {sdk : SDK}.

(** int64 division *)
Definition i64_quo (x y : Z) : res Z := if y =? 0 then Panic else Ok (i64 (Z.quot x y)).

Definition PolicyStart : M chain () :=
  params ← gets PolicyParams;
  let numBlocks := i64 (i64 (PmtpPeriodEndBlock params - PmtpPeriodStartBlock params) + 1) in
  numEpochs ← lift (i64_quo numBlocks (PmtpPeriodEpochLength params));
  base ← lift (d_add (NewDec 1) (PmtpPeriodGovernanceRate params));
  blockRate ← lift (must (f_block_rate base numEpochs numBlocks));
  SetPmtpBlockRate blockRate;;
  SetPmtpEpoch (mkPmtpEpoch numEpochs (PmtpPeriodEpochLength params)).

Definition PolicyCalculations : M chain Z :=
  currentHeight ← gets BlockHeight;
  start ← gets (λ s, PmtpPeriodStartBlock (PolicyParams s));
  rateParams ← gets RateParams;
  base ← lift (d_add (NewDec 1) (PmtpPeriodBlockRate rateParams));
  p ← lift (d_pow base (u64 (i64 (i64 (currentHeight - start) + 1))));
  r ← lift (d_sub p (NewDec 1));
  r ← lift (d_add r (PmtpInterPolicyRate rateParams));
  SetPmtpCurrentRunningRate r;;
  mret r.

(** [price, err := f(); if err != nil { price = sdk.ZeroDec() }] *)
Definition or_zero (r : res Z) : res Z :=
  match r with Err _ => Ok 0 | _ => r end.

Definition update_prices (pmtpCurrentRunningRate : Z) (pool : Pool) : M chain () :=
  decimals ← try (GetAssetDecimals (ExternalAsset pool));
  match decimals with
  | inr _ => mret ()
  | inl decimalsExternal =>
      n ← lift (or_zero (CalcSpotPriceNative pool decimalsExternal pmtpCurrentRunningRate));
      e ← lift (or_zero (CalcSpotPriceExternal pool decimalsExternal pmtpCurrentRunningRate));
      try (SetPool (pool <| SwapPriceNative := Some n |> <| SwapPriceExternal := Some e |>));;
      mret ()
  end.

Definition PolicyRun (pmtpCurrentRunningRate : Z) : M chain () :=
  pools ← GetPools; forM pools (update_prices pmtpCurrentRunningRate).
End Pmtp.

(** ** provider_distribution.go *)

(** pool symbol -> (pool object, fury) *)
Abbreviation PoolFuryMap := (gmap string (Pool * Z)).
Abbreviation LpFuryMap := (gmap string Z).
(** provider address -> (pool symbol, amount) *)
Abbreviation LpPoolMap := (gmap string (list (string * Z))).

Section Distribution.
Context {sdk : SDK} {go : GoMap}.

Definition isActivePeriod (current start finish : Z) : bool :=
  (current >=? i64 start) && (current <=? i64 finish).

Definition FindProviderDistributionPeriod (currentHeight : Z)
    (periods : list ProviderDistributionPeriod) : option ProviderDistributionPeriod :=
  List.find (λ p, isActivePeriod currentHeight (DistributionPeriodStartBlock p)
                    (DistributionPeriodEndBlock p)) periods.

Definition FilterValidLiquidityProviders (lps : list LiquidityProvider)
    : res (list (string * LiquidityProvider)) :=
  foldR (λ valid lp,
    match acc_from_bech32 (LiquidityProviderAddress lp) with
    | Ok address => Ok (valid ++ [(address, lp)])
    | Err _ => Ok valid
    | Panic => Panic
    end) [] lps.

Definition CalcProviderDistributionAmount (furyProviderDistribution totalPoolUnits
    providerPoolUnits : Z) : res Z :=
  providerPercentage ← d_quo (d_of_big providerPoolUnits) (d_of_big totalPoolUnits);
  providerFury ← d_mul providerPercentage furyProviderDistribution;
  d_round providerFury.

(** One provider of the loop of CollectProviderDistribution. *)
Definition collect_one (pool : Pool) (furyPd furyPdUint poolUnits : Z)
    (acc : Z * LpFuryMap * LpPoolMap) (lp : string * LiquidityProvider)
    : res (Z * LpFuryMap * LpPoolMap) :=
  let '(totalFuryDistribute, lpFuryMap, lpPoolMap) := acc in
  providerFury ← CalcProviderDistributionAmount furyPd poolUnits (LiquidityProviderUnits lp.2);
  total ← u_add totalFuryDistribute providerFury;
  '(providerFury, total) ←
    (if total >? furyPdUint then
       others ← u_sub total providerFury;
       rest ← u_sub furyPdUint others;
       Ok (rest, furyPdUint)
     else Ok (providerFury, total));
  let addr := acc_string lp.1 in
  lpFury ← u_add (default 0 (lpFuryMap !! addr)) providerFury;
  let elem := (Symbol (ExternalAsset pool), providerFury) in
  Ok (total, <[addr := lpFury]> lpFuryMap,
      <[addr := default [] (lpPoolMap !! addr) ++ [elem]]> lpPoolMap).

Definition CollectProviderDistribution (pool : Pool) (poolDepthFury blockRate poolUnits : Z)
    (lps : list (string * LiquidityProvider)) (lpFuryMap : LpFuryMap) (lpPoolMap : LpPoolMap)
    : res (Z * LpFuryMap * LpPoolMap) :=
  furyPd ← d_mul blockRate poolDepthFury;
  rounded ← d_round furyPd;
  furyPdUint ← u_of_big rounded;
  foldR (collect_one pool furyPd furyPdUint poolUnits) (0, lpFuryMap, lpPoolMap) lps.

(** One pool of the loop of CollectProviderDistributions. *)
Definition collect_pool (partitions : gmap string (list LiquidityProvider)) (blockRate : Z)
    (acc : PoolFuryMap * LpFuryMap * LpPoolMap) (pool : Pool)
    : res (PoolFuryMap * LpFuryMap * LpPoolMap) :=
  let '(poolFuryMap, lpMap, lpPoolMap) := acc in
  match partitions !! Symbol (ExternalAsset pool) with
  | None => Ok acc
  | Some lps =>
      lpsFiltered ← FilterValidLiquidityProviders lps;
      '(furyToDistribute, lpMap, lpPoolMap) ←
        CollectProviderDistribution pool (d_of_big (NativeAssetBalance pool)) blockRate
          (PoolUnits pool) lpsFiltered lpMap lpPoolMap;
      Ok (<[Symbol (ExternalAsset pool) := (pool, furyToDistribute)]> poolFuryMap, lpMap, lpPoolMap)
  end.

Definition CollectProviderDistributions (pools : list Pool) (blockRate : Z)
    : M chain (PoolFuryMap * LpFuryMap * LpPoolMap) :=
  partitions ← GetAllLiquidityProvidersPartitions;
  lift (foldR (collect_pool partitions blockRate) (∅, ∅, ∅) pools).

Definition doProviderDistribution : M chain (PoolFuryMap * LpFuryMap * LpPoolMap) :=
  blockHeight ← gets BlockHeight;
  periods ← gets DistributionPeriods;
  match FindProviderDistributionPeriod blockHeight periods with
  | None => mret (∅, ∅, ∅)
  | Some period =>
      allPools ← GetPools;
      CollectProviderDistributions allPools (DistributionPeriodBlockRate period)
  end.

(** [poolFuryMap[lpPool.Pool] = poolFuryMap[lpPool.Pool].Sub(lpPool.Amount)]; a
    missing key gives a nil [sdk.Uint], whose methods panic. *)
Definition take_back (poolFuryMap : PoolFuryMap) (elem : string * Z) : res PoolFuryMap :=
  '(pool, fury) ← deref (poolFuryMap !! elem.1);
  left ← u_sub fury elem.2;
  Ok (<[elem.1 := (pool, left)]> poolFuryMap).

(** The payment to one provider; an error takes its shares back. *)
Definition pay_provider (lpPoolMap : LpPoolMap) (poolFuryMap : PoolFuryMap)
    (entry : string * Z) : M chain PoolFuryMap :=
  let '(lpAddress, totalFury) := entry in
  addr ← lift (match acc_from_bech32 lpAddress with Err _ => Ok "" | r => r end);
  amount ← lift (i_of_big totalFury);
  coin ← lift (new_coin NativeSymbol amount);
  coins ← lift (new_coins [coin]);
  sent ← try (onBank (bank_send_mod_to_acc ModuleName addr coins));
  match sent with
  | inl _ => mret poolFuryMap
  | inr _ => lift (foldR take_back poolFuryMap (default [] (lpPoolMap !! lpAddress)))
  end.

Definition TransferProviderDistributionGeneric (poolFuryMap : PoolFuryMap) (lpFuryMap : LpFuryMap)
    (lpPoolMap : LpPoolMap) : M chain PoolFuryMap :=
  foldM (pay_provider lpPoolMap) poolFuryMap (map_range lpFuryMap).

Definition TransferProviderDistribution (poolFuryMap : PoolFuryMap) (lpFuryMap : LpFuryMap)
    (lpPoolMap : LpPoolMap) : M chain () :=
  poolFuryMap ← TransferProviderDistributionGeneric poolFuryMap lpFuryMap lpPoolMap;
  forM (map_range poolFuryMap) (λ e, try (RemoveFuryFromPool e.2.1 e.2.2);; mret ()).

Definition ProviderDistributionPolicyRun : M chain () :=
  '(a, b, c) ← doProviderDistribution;
  TransferProviderDistribution a b c.

(** [(blockHeight-int64(startHeight))%int64(mod) == 0] *)
Definition IsDistributionBlockPure (blockHeight startHeight mod_ : Z) : res bool :=
  if i64 mod_ =? 0 then Panic else
  Ok (Z.rem (i64 (blockHeight - i64 startHeight)) (i64 mod_) =? 0).

Definition IsDistributionBlock : M chain bool :=
  blockHeight ← gets BlockHeight;
  periods ← gets DistributionPeriods;
  match FindProviderDistributionPeriod blockHeight periods with
  | None => mret false
  | Some period => lift (IsDistributionBlockPure blockHeight (DistributionPeriodStartBlock period)
                           (DistributionPeriodMod period))
  end.
End Distribution.

(** ** rewards.go *)
Section Rewards.
Context {sdk : SDK} {go : GoMap}.

(** [height] is [uint64(ctx.BlockHeight())].  The copy it returns has its mod
    set to 1 when it is 0; the stored one keeps its value. *)
Fixpoint GetCurrentRewardPeriod (height : Z) (periods : list RewardPeriod) : option RewardPeriod :=
  match periods with
  | [] => None
  | period :: periods' =>
      if (height >=? RewardPeriodStartBlock period) && (height <=? RewardPeriodEndBlock period)
      then Some (if RewardPeriodMod period =? 0 then period <| RewardPeriodMod := 1 |> else period)
      else GetCurrentRewardPeriod height periods'
  end.

Definition CalcBlockDistribution (period : RewardPeriod) : res Z :=
  let periodLength := u64 (RewardPeriodEndBlock period - RewardPeriodStartBlock period + 1) in
  allocation ← deref (RewardPeriodAllocation period);
  u_quo allocation periodLength.

(** A nil multiplier of the asset is skipped, a nil default panics. *)
Fixpoint find_multiplier (asset : string) (ms : list PoolMultiplier) : option Z :=
  match ms with
  | [] => None
  | m :: ms' =>
      if StringCompare asset (PoolMultiplierAsset m) then
        match Multiplier m with Some x => Some x | None => find_multiplier asset ms' end
      else find_multiplier asset ms'
  end.
Definition GetPoolMultiplier (asset : string) (period : RewardPeriod) : res Z :=
  match find_multiplier asset (RewardPeriodPoolMultipliers period) with
  | Some x => Ok x
  | None => deref (RewardPeriodDefaultMultiplier period)
  end.

Definition calcPoolDistribution (multiplier poolNativeBalance totalDepth blockDistributionAmount : Z)
    : res Z :=
  weighted ← d_mul (d_of_big poolNativeBalance) multiplier;
  weight ← d_quo weighted totalDepth;
  poolDistribution ← d_mul weight (d_of_big blockDistributionAmount);
  truncated ← d_trunc poolDistribution;
  u_of_big truncated.

(** The loop of CollectPoolRewardTuples, with what is left to distribute. *)
Fixpoint collect_tuples (blockDistribution totalDepth : Z) (period : RewardPeriod)
    (remaining coinsToMint : Z) (pools : list Pool) : res (list (Pool * Z) * Z) :=
  match pools with
  | [] => Ok ([], coinsToMint)
  | pool :: pools' =>
      if remaining =? 0 then Ok ([], coinsToMint) else
      m ← GetPoolMultiplier (Symbol (ExternalAsset pool)) period;
      poolDistribution ← calcPoolDistribution m (NativeAssetBalance pool) totalDepth blockDistribution;
      if poolDistribution =? 0
      then collect_tuples blockDistribution totalDepth period remaining coinsToMint pools' else
      let poolDistribution := if poolDistribution >? remaining then remaining else poolDistribution in
      coinsToMint ← u_add coinsToMint poolDistribution;
      remaining ← u_sub remaining poolDistribution;
      '(tuples, minted) ← collect_tuples blockDistribution totalDepth period remaining coinsToMint pools';
      Ok ((pool, poolDistribution) :: tuples, minted)
  end.

Definition CollectPoolRewardTuples (pools : list Pool) (blockDistribution totalDepth : Z)
    (period : RewardPeriod) : res (list (Pool * Z) * Z) :=
  collect_tuples blockDistribution totalDepth period blockDistribution 0 pools.

Definition addRewardsToPool (pool : Pool) (poolDistribution : Z) : M chain () :=
  n ← lift (u_add (NativeAssetBalance pool) poolDistribution);
  d ← lift (u_add (RewardPeriodNativeDistributed pool) poolDistribution);
  try (SetPool (pool <| NativeAssetBalance := n |> <| RewardPeriodNativeDistributed := d |>));;
  mret ().

Definition CollectRewards (pool : Pool) (poolDistribution poolUnits : Z)
    (lps : list (string * LiquidityProvider)) (maps : PoolFuryMap * LpFuryMap * LpPoolMap)
    : res (PoolFuryMap * LpFuryMap * LpPoolMap) :=
  let '(poolFuryMap, lpFuryMap, lpPoolMap) := maps in
  '(furyToDistribute, lpFuryMap, lpPoolMap) ←
    CollectProviderDistribution pool (d_of_big poolDistribution) (NewDec 1) poolUnits lps lpFuryMap
      lpPoolMap;
  Ok (<[Symbol (ExternalAsset pool) := (pool, furyToDistribute)]> poolFuryMap, lpFuryMap, lpPoolMap).

(** One pool of calcTotalDepth: the depth so far and the pools as the loop
    leaves them. *)
Definition add_depth (period : RewardPeriod) (height : Z) (acc : Z * list Pool) (pool : Pool)
    : M chain (Z * list Pool) :=
  let '(totalDepth, pools) := acc in
  m ← lift (GetPoolMultiplier (Symbol (ExternalAsset pool)) period);
  weighted ← lift (d_mul (d_of_big (NativeAssetBalance pool)) m);
  totalDepth ← lift (d_add totalDepth weighted);
  if height =? RewardPeriodStartBlock period then
    let pool := pool <| RewardPeriodNativeDistributed := 0 |> in
    SetPool pool;; mret (totalDepth, pools ++ [pool])
  else mret (totalDepth, pools ++ [pool]).

Definition calcTotalDepth (pools : list Pool) (period : RewardPeriod) (height : Z)
    : M chain (Z * list Pool) :=
  foldM (add_depth period height) (0, []) pools.

Definition GetModuleFury : M chain coin :=
  gets (λ s, (NativeSymbol, bank_balance (Bank s) clp_module_address NativeSymbol)).

Definition BurnFury (amount : Z) : M chain () :=
  coin ← lift (new_coin NativeSymbol amount);
  coins ← lift (new_coins [coin]);
  onBank (bank_burn ModuleName coins).

Definition TransferRewards (poolFuryMap : PoolFuryMap) (lpFuryMap : LpFuryMap)
    (lpPoolMap : LpPoolMap) : M chain PoolFuryMap :=
  TransferProviderDistributionGeneric poolFuryMap lpFuryMap lpPoolMap.

(** One tuple of a period that pays the providers. *)
Definition reward_providers (partitions : gmap string (list LiquidityProvider))
    (maps : PoolFuryMap * LpFuryMap * LpPoolMap) (e : Pool * Z)
    : M chain (PoolFuryMap * LpFuryMap * LpPoolMap) :=
  match partitions !! Symbol (ExternalAsset e.1) with
  | None => addRewardsToPool e.1 e.2;; mret maps
  | Some lps =>
      lpsFiltered ← lift (FilterValidLiquidityProviders lps);
      lift (CollectRewards e.1 e.2 (PoolUnits e.1) lpsFiltered maps)
  end.

Definition record_reward (e : string * (Pool * Z)) : M chain () :=
  let '(pool, fury) := e.2 in
  if fury =? 0 then mret () else
  d ← lift (u_add (RewardPeriodNativeDistributed pool) fury);
  try (SetPool (pool <| RewardPeriodNativeDistributed := d |>));; mret ().

Definition distribute_rewards (tuples : list (Pool * Z)) (coinsToMint : Z)
    (moduleBalancePreMinting : coin) : M chain () :=
  partitions ← GetAllLiquidityProvidersPartitions;
  '(poolFuryMap, lpFuryMap, lpPoolMap) ← foldM (reward_providers partitions) (∅, ∅, ∅) tuples;
  lift (foldR (λ sum e, u_add sum e.2.2) 0 (map_range poolFuryMap));;
  poolFuryMap ← TransferRewards poolFuryMap lpFuryMap lpPoolMap;
  forM (map_range poolFuryMap) record_reward;;
  moduleBalancePostTransfer ← GetModuleFury;
  diff ← lift (coin_sub moduleBalancePostTransfer moduleBalancePreMinting);
  (if negb (diff.2 =? 0) then try (BurnFury diff.2);; mret () else mret ());;
  minted ← lift (i_of_big coinsToMint);
  lift (i_sub minted diff.2);;
  mret ().

Definition DistributeDepthRewards (blockDistribution : Z) (period : RewardPeriod)
    (pools : list Pool) : M chain () :=
  height ← gets (λ s, u64 (BlockHeight s));
  (if height =? RewardPeriodStartBlock period then
     now ← gets BlockTime;
     modify (λ s, s <| RewardsParams := (RewardsParams s) <| RewardPeriodStartTime := now |> |>)
   else mret ());;
  if blockDistribution =? 0 then mret () else
  '(totalDepth, pools) ← calcTotalDepth pools period height;
  if totalDepth <=? 0 then mret () else
  '(tuples, coinsToMint) ← lift (CollectPoolRewardTuples pools blockDistribution totalDepth period);
  moduleBalancePreMinting ← GetModuleFury;
  amount ← lift (i_of_big coinsToMint);
  coin ← lift (new_coin NativeSymbol amount);
  rewardCoins ← lift (new_coins [coin]);
  onBank (bank_mint ModuleName rewardCoins);;
  if RewardPeriodDistribute period
  then distribute_rewards tuples coinsToMint moduleBalancePreMinting
  else forM tuples (λ e, addRewardsToPool e.1 e.2);;
       lift (i_of_big coinsToMint);;
       mret ().
End Rewards.

(** ** abci.go *)
Section Abci.
Context {sdk : SDK} {go : GoMap}.

Definition EndBlocker : M chain () :=
  distribution ← IsDistributionBlock;
  (if distribution : bool then ProviderDistributionPolicyRun else mret ());;
  params ← gets RewardsParams;
  pools ← GetPools;
  blockHeight ← gets BlockHeight;
  match GetCurrentRewardPeriod (u64 blockHeight) (RewardPeriods params) with
  | None => mret ()
  | Some currentPeriod =>
      allocation ← lift (deref (RewardPeriodAllocation currentPeriod));
      if allocation =? 0 then mret () else
      isDistributionBlock ← lift (IsDistributionBlockPure blockHeight
        (RewardPeriodStartBlock currentPeriod) (RewardPeriodMod currentPeriod));
      currentBlockDistribution ← lift (CalcBlockDistribution currentPeriod);
      blockDistributionAccu ← GetBlockDistributionAccu;
      blockDistribution ← lift (u_add blockDistributionAccu currentBlockDistribution);
      if isDistributionBlock : bool then
        try (DistributeDepthRewards blockDistribution currentPeriod pools);;
        SetBlockDistributionAccu 0
      else SetBlockDistributionAccu blockDistribution
  end.

(** The replenishment of the liquidity protection threshold. *)
Definition replenish_threshold : M chain () :=
  params ← gets ProtectionParams;
  if negb (IsActive params) then mret () else
  let max := MaxFuryLiquidityThreshold params in
  current ← gets CurrentFuryLiquidityThreshold;
  replenishmentAmount ← lift (u_quo max (EpochLength params));
  room ← lift (u_sub max current);
  current ← lift (if room <? replenishmentAmount then Ok max else u_add current replenishmentAmount);
  SetLiquidityProtectionCurrentFuryLiquidityThreshold current.

Definition start_policy : M chain () :=
  currentHeight ← gets BlockHeight;
  start ← gets (λ s, PmtpPeriodStartBlock (PolicyParams s));
  epoch ← gets Epoch;
  if (currentHeight =? start) && (EpochCounter epoch =? 0) && (BlockCounter epoch =? 0)
  then PolicyStart else mret ().

(** The block and epoch counters; returns the running rate. *)
Definition manage_policy : M chain Z :=
  currentHeight ← gets BlockHeight;
  params ← gets PolicyParams;
  let start := PmtpPeriodStartBlock params in
  let finish := PmtpPeriodEndBlock params in
  rate ← gets (λ s, PmtpCurrentRunningRate (RateParams s));
  epoch ← gets Epoch;
  rate ← (if (currentHeight >=? start) && (currentHeight <=? finish) && (EpochCounter epoch >? 0)
          then r ← PolicyCalculations; DecrementPmtpBlockCounter;; mret r
          else mret rate);
  epoch ← gets Epoch;
  (if (BlockCounter epoch =? 0) && (currentHeight <? finish) && (currentHeight >=? start) then
     DecrementPmtpEpochCounter;;
     SetPmtpBlockCounter (PmtpPeriodEpochLength params)
   else mret ());;
  (if currentHeight =? finish then
     SetPmtpEpoch (mkPmtpEpoch 0 0);; SetPmtpInterPolicyRate rate
   else mret ());;
  mret rate.

Definition BeginBlocker : M chain () :=
  replenish_threshold;;
  start_policy;;
  rate ← manage_policy;
  PolicyRun rate.
End Abci.
