(* ===== verification/ClpState.v ===== *)
(** * Accounting of the clp module

    The invariant of the clp store, the two ledgers it must keep - what the
    module account holds against what the pools claim, and the units of the
    providers against the units of the pool - and what each keeper operation
    does to the state when it succeeds. *)
From S2P Require Import Prelude Sdk ClpTypes ClpCalc ClpCalcProps Admin TokenRegistry.
From S2P Require Import MarginTypes Chain ClpKeeper ClpExec.

(** ** The ledgers *)

(** What a pool claims of the module account in denomination [d]. *)
Definition pool_claim (d : string) (p : Pool) : Z :=
  (if String.eqb NativeSymbol d then NativeAssetBalance p + NativeCustody p else 0)
  + (if String.eqb (Symbol (ExternalAsset p)) d then ExternalAssetBalance p + ExternalCustody p
     else 0).

Definition lp_units_of (sym : string) (lp : LiquidityProvider) : Z :=
  if String.eqb (Symbol (LPAsset lp)) sym then LiquidityProviderUnits lp else 0.

(** A stored pool: unsigned amounts, an external asset that is not fury, and
    depth (debt included) on both sides. *)
Definition pool_deep (p : Pool) : Prop :=
  0 < NativeAssetBalance p + NativeLiabilities p
  ∧ 0 < ExternalAssetBalance p + ExternalLiabilities p.

Definition pool_wf (p : Pool) : Prop :=
  pool_uints p ∧ is_uint (NativeCustody p) ∧ is_uint (ExternalCustody p)
  ∧ IsSettlementAsset (ExternalAsset p) = false ∧ pool_deep p.

Definition lp_wf (lp : LiquidityProvider) : Prop :=
  is_uint (LiquidityProviderUnits lp) ∧ no_sep (LiquidityProviderAddress lp) = true.

Definition lp_key (lp : LiquidityProvider) : string :=
  GetLiquidityProviderKey (Symbol (LPAsset lp)) (LiquidityProviderAddress lp).

Section Ledgers.
Context {sdk : SDK}.

Definition module_balance (s : chain) (d : string) : Z :=
  bank_balance (Bank s) clp_module_address d.
Definition claims (s : chain) (d : string) : Z := msum (pool_claim d) (Pools s).

(** What the module account holds beyond what the pools claim. *)
Definition surplus (s : chain) (d : string) : Z := module_balance s d - claims s d.

Definition lp_total (s : chain) (sym : string) : Z :=
  msum (lp_units_of sym) (LiquidityProviders s).
Definition pool_units_of (s : chain) (sym : string) : Z :=
  match Pools s !! pool_key sym with Some p => PoolUnits p | None => 0 end.

(** Units of [sym] no provider holds. *)
Definition unit_gap (s : chain) (sym : string) : Z := pool_units_of s sym - lp_total s sym.

(** Everything is stored under its own key and is well formed. *)
Record clp_wf (s : chain) : Prop := {
  wf_pool k p : Pools s !! k = Some p →
    k = pool_key (Symbol (ExternalAsset p)) ∧ pool_wf p;
  wf_lp k lp : LiquidityProviders s !! k = Some lp → k = lp_key lp ∧ lp_wf lp;
  wf_valid k p : Pools s !! k = Some p → AssetValidate (ExternalAsset p) = Ok true
}.
End Ledgers.

(** ** Keys *)

Lemma Asset_eta_eq a b : Symbol a = Symbol b → a = b.
Proof. destruct a, b; cbn. by intros ->. Qed.

Lemma pool_key_inj a b : pool_key a = pool_key b → a = b.
Proof.
  unfold pool_key, GetPoolKey. intros H.
  apply (string_app_inj_length _ _ _ _ eq_refl) in H. by destruct H.
Qed.

Lemma lp_key_inj a x b y : no_sep x = true → no_sep y = true →
  GetLiquidityProviderKey a x = GetLiquidityProviderKey b y → a = b ∧ x = y.
Proof. apply sep_key_inj. Qed.

(** ** Effects of the keeper operations *)
Section Effects.
Context {sdk : SDK} {L : SDKLaws sdk}.

Lemma AssetValidate_denom a : AssetValidate a = Ok true → valid_denom (Symbol a) = true.
Proof.
  unfold AssetValidate. intros H. case_test; inv_ok. rewrite new_coin_law in E.
  case_test; [|done]. by bool_prop.
Qed.

Lemma SetPool_Ok p s u s' : SetPool p s = (Ok u, s') →
  AssetValidate (ExternalAsset p) = Ok true
  ∧ s' = s <| Pools := <[pool_key (Symbol (ExternalAsset p)) := p]> (Pools s) |>.
Proof.
  unfold SetPool, PoolValidate. intros H. inv_ok. destruct v; cbn [negb] in H; inv_ok. done.
Qed.

Lemma GetPool_Ok sym s p s' : GetPool sym s = (Ok p, s') →
  Pools s !! pool_key sym = Some p ∧ s' = s.
Proof. unfold GetPool. intros H. inv_ok. case_match; inv_ok. done. Qed.

Lemma GetLiquidityProvider_Ok sym a s lp s' : GetLiquidityProvider sym a s = (Ok lp, s') →
  LiquidityProviders s !! GetLiquidityProviderKey sym a = Some lp ∧ s' = s.
Proof. unfold GetLiquidityProvider. intros H. inv_ok. case_match; inv_ok. done. Qed.

Lemma GetSwapFeeRate_Ok a m s r s' : GetSwapFeeRate a m s = (Ok r, s') → s' = s.
Proof. unfold GetSwapFeeRate, GetSwapFeeParams. intros H. inv_ok. done. Qed.

Lemma ExistsPool_Ok sym s b s' : ExistsPool sym s = (Ok b, s') →
  s' = s ∧ b = bool_decide (is_Some (Pools s !! pool_key sym)).
Proof. unfold ExistsPool. intros H. inv_ok. done. Qed.

(** [SetLiquidityProvider] stores the provider when its asset is valid and
    does nothing otherwise. *)
Lemma SetLiquidityProvider_Ok lp s u s' : SetLiquidityProvider lp s = (Ok u, s') →
  (AssetValidate (LPAsset lp) = Ok false ∧ s' = s)
  ∨ (AssetValidate (LPAsset lp) = Ok true ∧
     s' = s <| LiquidityProviders := <[lp_key lp := lp]> (LiquidityProviders s) |>).
Proof.
  unfold SetLiquidityProvider, LiquidityProviderValidate. intros H.
  destruct (AssetValidate (LPAsset lp)) as [[]| |] eqn:E; cbn in H; inv_ok;
    cbn [negb] in H; inv_ok; [right|left]; done.
Qed.

Lemma SetLiquidityProvider_valid lp s u s' : AssetValidate (LPAsset lp) = Ok true →
  SetLiquidityProvider lp s = (Ok u, s') →
  s' = s <| LiquidityProviders := <[lp_key lp := lp]> (LiquidityProviders s) |>.
Proof. intros Hv [[Hn _]|[_ ->]]%SetLiquidityProvider_Ok; [congruence|done]. Qed.

(** ** The bank *)

Lemma send_in_Ok from cs s u s' :
  onBank (bank_send_acc_to_mod from ModuleName cs) s = (Ok u, s') →
  ∃ b, s' = s <| Bank := b |> ∧ transferred from clp_module_address cs (Bank s) b.
Proof.
  intros (b & Hb & ->)%onBank_Ok. destruct u. exists b. split; [done|].
  by apply send_acc_to_mod_val in Hb.
Qed.

Lemma send_out_Ok to cs s u s' :
  onBank (bank_send_mod_to_acc ModuleName to cs) s = (Ok u, s') →
  ∃ b, s' = s <| Bank := b |> ∧ transferred clp_module_address to cs (Bank s) b.
Proof.
  intros (b & Hb & ->)%onBank_Ok. destruct u. exists b. split; [done|].
  by apply send_mod_to_acc_val in Hb.
Qed.

Lemma transferred_to from to cs b b' d : transferred from to cs b b' → from ≠ to →
  bank_balance b' to d = bank_balance b to d + amount_of cs d.
Proof.
  intros H Hne. rewrite (H to d). apply not_eq_sym, String.eqb_neq in Hne.
  rewrite Hne, String.eqb_refl. lia.
Qed.

Lemma transferred_from from to cs b b' d : transferred from to cs b b' → from ≠ to →
  bank_balance b' from d = bank_balance b from d - amount_of cs d.
Proof.
  intros H Hne. rewrite (H from d). apply String.eqb_neq in Hne.
  rewrite Hne, String.eqb_refl. lia.
Qed.

Lemma ParseToInt_Ok x y : is_uint x → ParseToInt (u_str x) = Ok y → y = x.
Proof.
  intros Hx. unfold ParseToInt. case_match eqn:E; [|done]. intros [= <-].
  by apply i_of_str_val in E.
Qed.

Lemma new_coin_Ok d x c : new_coin d x = Ok c → c = (d, x) ∧ 0 ≤ x ∧ valid_denom d = true.
Proof. rewrite new_coin_law. intros H. case_test; inv_ok. bool_prop. done. Qed.

Lemma new_coins_amount l cs d : new_coins l = Ok cs → amount_of cs d = amount_of l d.
Proof. intros H. by apply new_coins_val. Qed.
End Effects.

(** ** Replacing a stored pool *)

(** The part of the state the ledgers read. *)
Definition same_ledger {sdk : SDK} (s s' : chain) : Prop :=
  Pools s' = Pools s ∧ LiquidityProviders s' = LiquidityProviders s ∧ Bank s' = Bank s.

Section Update.
Context {sdk : SDK} {L : SDKLaws sdk}.
Implicit Types s : chain.

Lemma same_ledger_refl s : same_ledger s s.
Proof. done. Qed.

Lemma same_ledger_trans s1 s2 s3 : same_ledger s1 s2 → same_ledger s2 s3 → same_ledger s1 s3.
Proof. unfold same_ledger. intros (?&?&?) (?&?&?). split_and!; congruence. Qed.

Lemma same_ledger_wf s s' : same_ledger s s' → clp_wf s → clp_wf s'.
Proof. intros (HP & HL & _) [H1 H2 H3]. split; rewrite ?HP, ?HL; done. Qed.

Lemma same_ledger_surplus s s' d : same_ledger s s' → surplus s' d = surplus s d.
Proof.
  intros (HP & _ & HB). unfold surplus, module_balance, claims. by rewrite HP, HB.
Qed.

Lemma same_ledger_gap s s' sym : same_ledger s s' → unit_gap s' sym = unit_gap s sym.
Proof.
  intros (HP & HL & _). unfold unit_gap, pool_units_of, lp_total. by rewrite HP, HL.
Qed.

Lemma wf_lookup_pool s sym p : clp_wf s → Pools s !! pool_key sym = Some p →
  Symbol (ExternalAsset p) = sym ∧ pool_wf p.
Proof. intros Hwf [Hk ?]%(wf_pool s Hwf). split; [|done]. by apply pool_key_inj in Hk. Qed.

Definition put_pool s p : chain :=
  s <| Pools := <[pool_key (Symbol (ExternalAsset p)) := p]> (Pools s) |>.

Lemma put_pool_wf s p : AssetValidate (ExternalAsset p) = Ok true → pool_wf p → clp_wf s →
  clp_wf (put_pool s p).
Proof.
  intros Hv Hp [H1 H2 H3]. split; [|exact H2|]; intros k q; cbn; rewrite lookup_insert_Some;
    (intros [[<- <-]|[_ Hq]]; [done|by eauto]).
Qed.

Lemma put_pool_claims s p q d : Pools s !! pool_key (Symbol (ExternalAsset p)) = Some q →
  claims (put_pool s p) d = claims s d + pool_claim d p - pool_claim d q.
Proof. intros Hq. unfold claims. cbn. by rewrite msum_insert, Hq. Qed.

Lemma put_pool_units s p sym :
  pool_units_of (put_pool s p) sym
  = if String.eqb (Symbol (ExternalAsset p)) sym then PoolUnits p else pool_units_of s sym.
Proof.
  unfold pool_units_of. cbn. destruct (String.eqb_spec (Symbol (ExternalAsset p)) sym) as [<-|Hn].
  - by rewrite lookup_insert_eq.
  - rewrite lookup_insert_ne; [done|]. by intros ?%pool_key_inj.
Qed.

(** ** Replacing a stored provider *)

Definition put_lp s lp : chain :=
  s <| LiquidityProviders := <[lp_key lp := lp]> (LiquidityProviders s) |>.

Lemma put_lp_wf s lp : lp_wf lp → clp_wf s → clp_wf (put_lp s lp).
Proof.
  intros Hl [H1 H2 H3]. split; [exact H1| |exact H3]. intros k q. cbn. rewrite lookup_insert_Some.
  intros [[<- <-]|[_ Hq]]; [done|by apply H2].
Qed.

Lemma put_lp_total s lp sym :
  lp_total (put_lp s lp) sym
  = lp_total s sym + lp_units_of sym lp
    - match LiquidityProviders s !! lp_key lp with Some l => lp_units_of sym l | None => 0 end.
Proof. unfold lp_total. cbn. apply msum_insert. Qed.

Lemma wf_lookup_lp s sym a lp : clp_wf s → no_sep a = true →
  LiquidityProviders s !! GetLiquidityProviderKey sym a = Some lp →
  Symbol (LPAsset lp) = sym ∧ LiquidityProviderAddress lp = a ∧ lp_wf lp
  ∧ LiquidityProviders s !! lp_key lp = Some lp.
Proof.
  intros Hwf Ha Hl. pose proof (wf_lp s Hwf _ _ Hl) as [Hk [Hu Hs]].
  pose proof Hk as Hk'. apply lp_key_inj in Hk' as [<- <-]; [|done..]. by rewrite Hk in Hl.
Qed.

(** Replacing a provider by one with the same owner, asset and units. *)
Lemma put_lp_same s l lp : LiquidityProviders s !! lp_key l = Some l →
  lp_key lp = lp_key l → LPAsset lp = LPAsset l →
  LiquidityProviderUnits lp = LiquidityProviderUnits l →
  ∀ sym, lp_total (put_lp s lp) sym = lp_total s sym.
Proof.
  intros Hl Hk Ha Hu sym. rewrite put_lp_total, Hk, Hl. unfold lp_units_of.
  rewrite Ha, Hu. lia.
Qed.

Lemma lp_total_nonneg s sym : clp_wf s → 0 ≤ lp_total s sym.
Proof.
  intros Hwf. apply msum_nonneg. intros k lp [_ [[? ?] _]]%(wf_lp s Hwf).
  unfold lp_units_of. case_test; lia.
Qed.

(** The units of one provider are part of the total. *)
Lemma lp_units_le_total s lp : clp_wf s → LiquidityProviders s !! lp_key lp = Some lp →
  LiquidityProviderUnits lp ≤ lp_total s (Symbol (LPAsset lp)).
Proof.
  intros Hwf Hl. set (sym := Symbol (LPAsset lp)).
  pose proof (msum_delete (lp_units_of sym) _ _ _ Hl) as Hd.
  assert (0 ≤ msum (lp_units_of sym) (delete (lp_key lp) (LiquidityProviders s))).
  { apply msum_nonneg. intros k l [_ [_ [[? ?] _]]%(wf_lp s Hwf)]%lookup_delete_Some.
    unfold lp_units_of. case_test; lia. }
  assert (lp_units_of sym lp = LiquidityProviderUnits lp) as Heq.
  { unfold lp_units_of, sym. by rewrite String.eqb_refl. }
  unfold lp_total. lia.
Qed.
End Update.

(** Every unit of every pool is held by a provider. *)
Definition units_match {sdk : SDK} (s : chain) : Prop := ∀ sym, unit_gap s sym = 0.

#[export] Hint Resolve same_ledger_refl : fury.

(** Runs [inv_ok] and the effect lemmas of the reading operations. *)
Ltac inv_read :=
  inv_ok;
  repeat (match goal with
  | H : GetPool _ _ = (Ok _, _) |- _ => apply GetPool_Ok in H as [H ?]
  | H : GetLiquidityProvider _ _ _ = (Ok _, _) |- _ => apply GetLiquidityProvider_Ok in H as [H ?]
  | H : GetSwapFeeRate _ _ _ = (Ok _, _) |- _ => apply GetSwapFeeRate_Ok in H
  | H : SetPool _ _ = (Ok _, _) |- _ => apply SetPool_Ok in H as [? ?]
  | H : ExistsPool _ _ = (Ok _, _) |- _ => apply ExistsPool_Ok in H as [? ?]
  | H : new_coin _ _ = Ok _ |- _ => apply new_coin_Ok in H as (? & ? & ?)
  | H : onBank (bank_send_acc_to_mod _ _ _) _ = (Ok _, _) |- _ =>
      let b := fresh "b" in let T := fresh "Ht" in apply send_in_Ok in H as (b & ? & T)
  | H : onBank (bank_send_mod_to_acc _ _ _) _ = (Ok _, _) |- _ =>
      let b := fresh "b" in let T := fresh "Ht" in apply send_out_Ok in H as (b & ? & T)
  | H : ParseToInt (u_str _) = Ok _ |- _ => apply ParseToInt_Ok in H; [|assumption]
  end; subst; inv_ok).
