(* ===== verification/ClpSwapProps.v ===== *)
(** * Swaps keep the books

    The handler of MsgSwap: whatever its route (fury for a token, a token for
    fury, or a token for another one through fury), what the module account
    receives and pays is what the pools record, and the trader pays exactly the
    amount sent and receives at least the amount asked for. *)
From S2P Require Import Prelude Sdk Reference ClpTypes ClpCalc ClpCalcProps Admin.
From S2P Require Import TokenRegistry MarginTypes Chain ClpKeeper ClpExec ClpMsg ClpState.

Lemma IsSettlementAsset_spec a : IsSettlementAsset a = true ↔ Symbol a = NativeSymbol.
Proof. unfold IsSettlementAsset, AssetEquals. apply String.eqb_eq. Qed.

Lemma AssetEquals_spec a b : AssetEquals a b = true ↔ Symbol a = Symbol b.
Proof. unfold AssetEquals. apply String.eqb_eq. Qed.

Lemma amount_of_one c d : amount_of [c] d = if String.eqb c.1 d then c.2 else 0.
Proof. unfold amount_of; cbn. destruct (String.eqb c.1 d); lia. Qed.

(** Asset paid in and out of a pool with external asset [sym]. *)
Definition leg_in (toFury : bool) (sym : string) : string := if toFury then sym else NativeSymbol.
Definition leg_out (toFury : bool) (sym : string) : string := if toFury then NativeSymbol else sym.

Lemma pool_claim_after_swap d p toFury x y : pool_wf p →
  pool_claim d (after_swap p toFury x y)
  = pool_claim d p + amount_of [(leg_in toFury (Symbol (ExternalAsset p)), x)] d
    - amount_of [(leg_out toFury (Symbol (ExternalAsset p)), y)] d.
Proof.
  intros _. rewrite !amount_of_one. cbn [fst snd]. unfold pool_claim, leg_in, leg_out.
  generalize NativeSymbol as n. intros n. destruct toFury; cbn;
    destruct (String.eqb n d), (String.eqb (Symbol (ExternalAsset p)) d); lia.
Qed.

Lemma after_swap_same p toFury x y :
  ExternalAsset (after_swap p toFury x y) = ExternalAsset p
  ∧ PoolUnits (after_swap p toFury x y) = PoolUnits p
  ∧ NativeCustody (after_swap p toFury x y) = NativeCustody p
  ∧ ExternalCustody (after_swap p toFury x y) = ExternalCustody p.
Proof. by destruct toFury. Qed.

Section Legs.
Context {sdk : SDK} {L : SDKLaws sdk} {mk : MarginKeeper}.
Implicit Types s : chain.

(** One leg: the pool of [sym] receives [x] and pays [y]. *)
Lemma swap_leg s sym p from x to r f y fee pi p' : clp_wf s →
  Pools s !! pool_key sym = Some p → is_uint x →
  SwapOne from x to p r f = Ok (y, fee, pi, p') →
  let toFury := IsSettlementAsset to in
  Symbol (ExternalAsset p) = sym ∧ Symbol (ExternalAsset p') = sym ∧ is_uint y
  ∧ clp_wf (put_pool s p')
  ∧ (∀ d, claims (put_pool s p') d
          = claims s d + amount_of [(leg_in toFury sym, x)] d
            - amount_of [(leg_out toFury sym, y)] d)
  ∧ (∀ sym', pool_units_of (put_pool s p') sym' = pool_units_of s sym').
Proof.
  intros Hwf Hp Hx HS toFury. destruct (wf_lookup_pool s sym p Hwf Hp) as [Hsym Hpw].
  pose proof Hpw as (Hu & Hc1 & Hc2 & Hext & Hdeep).
  apply SwapOne_inv in HS as (X & Y & _ & _ & _ & Hlt & Hy & -> & Hu'); [|done|done].
  fold toFury in Hu', Hlt |- *.
  destruct (after_swap_same p toFury x y) as (He & Hun & Hn & Hc).
  rewrite He. split_and!; try done.
  - apply put_pool_wf; [by rewrite He; eapply wf_valid| |done]. unfold pool_wf. rewrite He, Hn, Hc. split_and!; try done;
      unfold pool_deep, pool_uints, is_uint, balance_out in *; destruct toFury; cbn; lia.
  - intros d. rewrite (put_pool_claims s _ p) by (by rewrite He, Hsym).
    rewrite pool_claim_after_swap, Hsym by done. lia.
  - intros sym'. rewrite put_pool_units, He, Hsym. case_test; [|done].
    bool_prop. subst sym'. unfold pool_units_of. by rewrite Hp.
Qed.

Lemma MustUpdate_ledger b n pr s u s' :
  MustUpdateLiquidityProtectionThreshold b n pr s = (Ok u, s') → same_ledger s s'.
Proof.
  unfold MustUpdateLiquidityProtectionThreshold,
    SetLiquidityProtectionCurrentFuryLiquidityThreshold.
  intros H. inv_ok. case_test; inv_ok; done.
Qed.

Lemma GetNativePrice_state s r s' : GetNativePrice s = (Ok r, s') → s' = s.
Proof. unfold GetNativePrice. intros H. inv_ok. case_test; inv_read; done. Qed.

Lemma IsBlocked_state n pr s b s' :
  IsBlockedByLiquidityProtection n pr s = (Ok b, s') → s' = s.
Proof. unfold IsBlockedByLiquidityProtection. intros H. by inv_ok. Qed.

Lemma swap_price_state e x s r s' : swap_price e x s = (Ok r, s') → s' = s.
Proof.
  unfold swap_price. intros H. inv_ok. case_test; inv_ok; [done|].
  apply GetNativePrice_state in E as ->. case_test; inv_ok; [|done].
  apply IsBlocked_state in E as ->. case_test; by inv_ok.
Qed.

Lemma swap_update_threshold_ledger a b msg y f pr s u s' :
  swap_update_threshold a b msg y f pr s = (Ok u, s') → same_ledger s s'.
Proof.
  unfold swap_update_threshold. intros H. destruct pr; inv_ok; [|done].
  repeat case_test; inv_ok; eauto using same_ledger_trans, MustUpdate_ledger, same_ledger_refl.
Qed.

Lemma InitiateSwap_Ok c addr s u s' : InitiateSwap c addr s = (Ok u, s') →
  ∃ b cs, s' = s <| Bank := b |> ∧ (∀ d, amount_of cs d = amount_of [c] d)
    ∧ transferred addr clp_module_address cs (Bank s) b.
Proof.
  unfold InitiateSwap. intros H. inv_ok. case_test; inv_ok.
  apply send_in_Ok in H as (b & -> & Ht). exists b, v. split_and!; [done| |done].
  intros d. by apply new_coins_amount.
Qed.

Lemma FinalizeSwap_Ok y p msg s u s' : is_uint y → FinalizeSwap (u_str y) p msg s = (Ok u, s') →
  ∃ b cs addr, s' = (put_pool s p) <| Bank := b |>
    ∧ acc_from_bech32 (MsgSwap.Signer msg) = Ok addr
    ∧ (∀ d, amount_of cs d = amount_of [(Symbol (MsgSwap.ReceivedAsset msg), y)] d)
    ∧ transferred clp_module_address addr cs (Bank s) b.
Proof.
  unfold FinalizeSwap. intros Hy H. inv_read.
  do 3 eexists. split_and!; [done|done| |eassumption]. intros d. by apply new_coins_amount.
Qed.

Lemma swap_first_leg_Ok msg inPool r f s x' asset' impact fee s' : clp_wf s →
  is_uint (MsgSwap.SentAmount msg) →
  (inPool = None ∧ IsSettlementAsset (MsgSwap.SentAsset msg) = true
   ∨ ∃ p, inPool = Some p ∧ Pools s !! pool_key (Symbol (MsgSwap.SentAsset msg)) = Some p
          ∧ IsSettlementAsset (MsgSwap.SentAsset msg) = false) →
  swap_first_leg msg inPool r f s = (Ok (x', asset', impact, fee), s') →
  clp_wf s' ∧ is_uint x' ∧ Bank s' = Bank s ∧ LiquidityProviders s' = LiquidityProviders s
  ∧ (∀ sym, pool_units_of s' sym = pool_units_of s sym)
  ∧ (∀ d, claims s' d = claims s d + amount_of [(Symbol (MsgSwap.SentAsset msg), MsgSwap.SentAmount msg)] d
            - amount_of [(Symbol asset', x')] d)
  ∧ (if IsSettlementAsset (MsgSwap.ReceivedAsset msg) then asset' = MsgSwap.SentAsset msg
     else Symbol asset' = NativeSymbol).
Proof.
  intros Hwf Hx Hin H. unfold swap_first_leg in H.
  change (AssetEquals (MsgSwap.ReceivedAsset msg) GetSettlementAsset)
    with (IsSettlementAsset (MsgSwap.ReceivedAsset msg)) in H.
  destruct Hin as [[-> Hn]|(p & -> & Hp & Hn)].
  - inv_ok. simplify_eq. split_and!; try done; [intros; lia|].
    apply IsSettlementAsset_spec in Hn. by destruct (IsSettlementAsset _).
  - destruct (IsSettlementAsset (MsgSwap.ReceivedAsset msg)); cbn [negb] in H.
    { inv_ok. simplify_eq. split_and!; try done. intros; lia. }
    inv_ok. destruct v as [[[y lp] ts] p']. inv_read. simplify_eq.
    eapply swap_leg in E as (_ & Hs & Hy & Hwf' & Hcl & Hu); [|done..].
    change (IsSettlementAsset GetSettlementAsset) with true in Hcl. cbn [leg_in leg_out] in Hcl.
    split_and!; try done.
Qed.
End Legs.

Section SwapHandler.
Context {sdk : SDK} {L : SDKLaws sdk} {mk : MarginKeeper}.
Implicit Types s : chain.

Lemma registry_entry_state sym s e s' : registry_entry sym s = (Ok e, s') → s' = s.
Proof. unfold registry_entry. intros H. by inv_ok. Qed.

Lemma require_permission_state e p s u s' : require_permission e p s = (Ok u, s') → s' = s.
Proof. unfold require_permission. intros H. by inv_ok. Qed.

(** What a successful swap does: the trader's payment, the pools, the payout. *)
Record swapped (msg : MsgSwap.t) (s s' : chain) (addr : string) (y : Z) (b1 : bank) : Prop := {
  sw_min : MsgSwap.MinReceivingAmount msg ≤ y;
  sw_uint : is_uint y;
  sw_in : ∃ cs, (∀ d, amount_of cs d
                      = amount_of [(Symbol (MsgSwap.SentAsset msg), MsgSwap.SentAmount msg)] d)
            ∧ transferred addr clp_module_address cs (Bank s) b1;
  sw_out : ∃ cs, (∀ d, amount_of cs d = amount_of [(Symbol (MsgSwap.ReceivedAsset msg), y)] d)
            ∧ transferred clp_module_address addr cs b1 (Bank s');
  sw_claims d : claims s' d
    = claims s d + amount_of [(Symbol (MsgSwap.SentAsset msg), MsgSwap.SentAmount msg)] d
      - amount_of [(Symbol (MsgSwap.ReceivedAsset msg), y)] d;
  sw_wf : clp_wf s';
  sw_lps : LiquidityProviders s' = LiquidityProviders s;
  sw_units sym : pool_units_of s' sym = pool_units_of s sym
}.

(** The second leg and the payout, from the state after the first leg. *)
Lemma swap_second_leg msg s p asset' x' r f y lp ts p' s1 u : clp_wf s → is_uint x' →
  Pools s !! pool_key (if IsSettlementAsset (MsgSwap.ReceivedAsset msg)
                       then Symbol (MsgSwap.SentAsset msg)
                       else Symbol (MsgSwap.ReceivedAsset msg)) = Some p →
  (if IsSettlementAsset (MsgSwap.ReceivedAsset msg) then asset' = MsgSwap.SentAsset msg
   else Symbol asset' = NativeSymbol) →
  SwapOne asset' x' (MsgSwap.ReceivedAsset msg) p r f = Ok (y, lp, ts, p') →
  FinalizeSwap (u_str y) p' msg s = (Ok u, s1) →
  ∃ b cs addr, s1 = (put_pool s p') <| Bank := b |> ∧ is_uint y
    ∧ acc_from_bech32 (MsgSwap.Signer msg) = Ok addr
    ∧ (∀ d, amount_of cs d = amount_of [(Symbol (MsgSwap.ReceivedAsset msg), y)] d)
    ∧ transferred clp_module_address addr cs (Bank s) b
    ∧ clp_wf (put_pool s p')
    ∧ (∀ d, claims (put_pool s p') d = claims s d + amount_of [(Symbol asset', x')] d
            - amount_of [(Symbol (MsgSwap.ReceivedAsset msg), y)] d)
    ∧ (∀ sym, pool_units_of (put_pool s p') sym = pool_units_of s sym).
Proof.
  intros Hwf Hx Hp Ha HS HF.
  eapply swap_leg in HS as (_ & _ & Hy & Hwf' & Hcl & Hu); [|done..].
  apply FinalizeSwap_Ok in HF as (b & cs & addr & -> & Haddr & Hcs & Ht); [|done].
  exists b, cs, addr. split_and!; try done. intros d. rewrite Hcl. unfold leg_in, leg_out.
  destruct (IsSettlementAsset (MsgSwap.ReceivedAsset msg)) eqn:E.
  - apply IsSettlementAsset_spec in E. by rewrite Ha, E.
  - by rewrite Ha.
Qed.

Lemma msg_Swap_Ok msg s u s' : clp_wf s → is_uint (MsgSwap.SentAmount msg) →
  msg_Swap msg s = (Ok u, s') →
  ∃ addr y b1, acc_from_bech32 (MsgSwap.Signer msg) = Ok addr ∧ swapped msg s s' addr y b1.
Proof.
  intros Hwf Hx H. unfold msg_Swap in H. inv_ok.
  apply registry_entry_state in E as ->, E0 as ->.
  apply require_permission_state in E1 as ->, E2 as ->.
  apply GetSwapFeeRate_Ok in E6 as ->. apply swap_price_state in E7 as ->.
  assert (v8 = None ∧ IsSettlementAsset (MsgSwap.SentAsset msg) = true ∧ s9 = s
    ∨ ∃ p, v8 = Some p ∧ Pools s !! pool_key (Symbol (MsgSwap.SentAsset msg)) = Some p
           ∧ IsSettlementAsset (MsgSwap.SentAsset msg) = false ∧ s9 = s) as Hin.
  { change (AssetEquals (MsgSwap.SentAsset msg) GetSettlementAsset)
      with (IsSettlementAsset (MsgSwap.SentAsset msg)) in E8.
    destruct (IsSettlementAsset _); cbn [negb] in E8; inv_read; [by left|right; eauto]. }
  assert (s9 = s) as -> by (destruct Hin as [(_ & _ & ->)|(? & _ & _ & _ & ->)]; done).
  apply ParseToInt_Ok in E9 as ->; [|done]. apply new_coin_Ok in E11 as (-> & _ & _).
  apply InitiateSwap_Ok in E12 as (b1 & cs1 & -> & Hcs1 & Ht1).
  destruct v13 as [[[x' asset'] impact] fee].
  apply swap_first_leg_Ok in E13 as (Hwf1 & Hx' & HB & HL & Hu & Hcl & Has);
    [|by destruct Hwf; split|done|naive_solver].
  change (AssetEquals (MsgSwap.ReceivedAsset msg) GetSettlementAsset)
    with (IsSettlementAsset (MsgSwap.ReceivedAsset msg)) in H.
  inv_read. destruct v9 as [[[y lp] ts] p']. case_test; inv_ok. bool_prop.
  apply swap_update_threshold_ledger in H as (HP3 & HL3 & HB3).
  eapply swap_second_leg in E1
    as (b2 & cs2 & addr & -> & Hy & Haddr & Hcs2 & Ht2 & Hwf2 & Hcl2 & Hu2); [|done..].
  rewrite E10 in Haddr. injection Haddr as <-.
  exists v10, y, b1. split; [done|]. split; try done.
  - exists cs1. done.
  - exists cs2. split; [done|]. rewrite HB3. cbn. by rewrite HB in Ht2.
  - intros d. specialize (Hcl d). specialize (Hcl2 d).
    unfold claims in *. rewrite HP3. cbn in *. lia.
  - destruct Hwf2. split; rewrite ?HP3, ?HL3; done.
  - rewrite HL3. cbn. by rewrite HL.
  - intros sym. specialize (Hu sym). specialize (Hu2 sym). unfold pool_units_of in *.
    rewrite HP3. cbn in *. congruence.
Qed.

Lemma swapped_surplus msg s s' addr y b1 d : addr ≠ clp_module_address →
  swapped msg s s' addr y b1 → surplus s' d = surplus s d.
Proof.
  intros Hne [_ _ (cs1 & H1 & T1) (cs2 & H2 & T2) Hcl _ _ _]. unfold surplus, module_balance.
  rewrite (transferred_from _ _ _ _ _ d T2), (transferred_to _ _ _ _ _ d T1) by done.
  rewrite H1, H2, Hcl. lia.
Qed.

(** Balances of the trader, in a denomination it sends or receives. *)
Lemma swapped_trader msg s s' addr y b1 d : addr ≠ clp_module_address →
  swapped msg s s' addr y b1 →
  bank_balance (Bank s') addr d
  = bank_balance (Bank s) addr d
    - amount_of [(Symbol (MsgSwap.SentAsset msg), MsgSwap.SentAmount msg)] d
    + amount_of [(Symbol (MsgSwap.ReceivedAsset msg), y)] d.
Proof.
  intros Hne [_ _ (cs1 & H1 & T1) (cs2 & H2 & T2) _ _ _ _].
  rewrite (transferred_to _ _ _ _ _ d T2), (transferred_from _ _ _ _ _ d T1) by done.
  rewrite H1, H2. lia.
Qed.
End SwapHandler.

(** [inv_read] for the bodies of the message handlers. *)
Ltac inv_msg :=
  inv_read;
  repeat (match goal with
  | H : registry_entry _ _ = (Ok _, _) |- _ => apply registry_entry_state in H
  | H : require_permission _ _ _ = (Ok _, _) |- _ => apply require_permission_state in H
  end; subst; inv_read).
