(* ===== verification/ClpLiquidityProps.v ===== *)
(** * Adding and removing liquidity keeps the books

    What the executors of executors.go do to the two ledgers: the deposit of
    CreatePool and AddLiquidity, the payout of RemoveLiquidity, and the unlock
    records in between. *)
From S2P Require Import Prelude Sdk Reference ClpTypes ClpCalc ClpCalcProps Admin.
From S2P Require Import TokenRegistry MarginTypes Chain ClpKeeper ClpExec ClpMsg ClpState.
From S2P Require Import ClpSwapProps.

Lemma amount_of_two c c' d : amount_of [c; c'] d = amount_of [c] d + amount_of [c'] d.
Proof. unfold amount_of; cbn. destruct (String.eqb c.1 d), (String.eqb c'.1 d); lia. Qed.

Lemma amount_of_nil d : amount_of [] d = 0.
Proof. done. Qed.

Section Bases.
Context {sdk : SDK} {L : SDKLaws sdk} {mk : MarginKeeper}.
Implicit Types s : chain.

Lemma CalculatePoolUnits_empty r a fs fb p : r ≠ 0 → a ≠ 0 →
  CalculatePoolUnits 0 0 0 r a fs fb p = Ok (r, r, NoSwap, 0).
Proof.
  intros Hr%Z.eqb_neq Ha%Z.eqb_neq. unfold CalculatePoolUnits, GetLiquidityAddSymmetryState. cbn.
  by rewrite Hr, Ha.
Qed.

Lemma CalculatePoolUnitsSymmetric_sum X x P t u : is_uint P →
  CalculatePoolUnitsSymmetric X x P = Ok (t, u) → t = P + u ∧ is_uint t ∧ is_uint u.
Proof.
  unfold CalculatePoolUnitsSymmetric. intros HP H. inv_ok. simplify_eq.
  apply u_of_big_Ok in E0 as [-> ?]. by apply u_add_Ok in E1 as [-> ?].
Qed.

(** On a pool with depth the new total is the old one plus the new units. *)
Lemma CalculatePoolUnits_sum P R A r a fs fb p t u st x : is_uint P → R ≠ 0 → A ≠ 0 →
  CalculatePoolUnits P R A r a fs fb p = Ok (t, u, st, x) →
  t = P + u ∧ is_uint t ∧ is_uint u.
Proof.
  intros HP HR HA H. unfold CalculatePoolUnits in H. inv_ok.
  destruct v; inv_ok; simplify_eq;
    try (match goal with v : (Z * Z)%type |- _ => destruct v end; inv_ok; simplify_eq;
         by eapply CalculatePoolUnitsSymmetric_sum).
  - exfalso. unfold GetLiquidityAddSymmetryState in E.
    apply Z.eqb_neq in HR, HA. rewrite HR, HA in E. cbn in E.
    repeat case_test; inv_ok; simplify_eq. by destruct (_ ?= _)%Q.
  - rewrite Z.add_0_r. split_and!; [done|done|apply is_uint_0].
Qed.

Lemma acc_string_no_sep (w a : string) : acc_from_bech32 w = Ok a → no_sep (acc_string a) = true.
Proof. intros H. eapply acc_no_sep, acc_round_trip, H. Qed.

Lemma CreatePool_Ok units msg s p s' : is_uint (MsgCreatePool.ExternalAssetAmount msg) →
  is_uint (MsgCreatePool.NativeAssetAmount msg) →
  CreatePool units msg s = (Ok p, s') →
  ∃ addr b cs, acc_from_bech32 (MsgCreatePool.Signer msg) = Ok addr
    ∧ p = NewPool (MsgCreatePool.ExternalAsset msg) (MsgCreatePool.NativeAssetAmount msg)
            (MsgCreatePool.ExternalAssetAmount msg) units
    ∧ AssetValidate (MsgCreatePool.ExternalAsset msg) = Ok true
    ∧ s' = put_pool (s <| Bank := b |>) p
    ∧ (∀ d, amount_of cs d
            = amount_of [(Symbol (MsgCreatePool.ExternalAsset msg),
                          MsgCreatePool.ExternalAssetAmount msg)] d
              + amount_of [(NativeSymbol, MsgCreatePool.NativeAssetAmount msg)] d)
    ∧ transferred addr clp_module_address cs (Bank s) b.
Proof.
  intros He Hn H. unfold CreatePool in H. inv_read. case_test; inv_read.
  do 3 eexists. split_and!; try done. intros d. erewrite new_coins_amount by eassumption.
  apply amount_of_two.
Qed.
End Bases.

Section CreatePoolHandler.
Context {sdk : SDK} {L : SDKLaws sdk} {mk : MarginKeeper}.
Implicit Types s : chain.

Lemma NewPool_wf a n e u : is_uint n → is_uint e → is_uint u → 0 < n → 0 < e →
  IsSettlementAsset a = false → pool_wf (NewPool a n e u).
Proof.
  intros. unfold pool_wf, pool_deep, pool_uints; cbn.
  split_and!; try done; try apply is_uint_0; lia.
Qed.

Lemma CreateLiquidityProvider_Ok a u addr s lp s' : AssetValidate a = Ok true →
  CreateLiquidityProvider a u addr s = (Ok lp, s') →
  lp = NewLiquidityProvider a u addr ∧ s' = put_lp s lp.
Proof.
  unfold CreateLiquidityProvider. intros Hv H. inv_ok.
  by apply SetLiquidityProvider_valid in E as ->.
Qed.

Lemma msg_CreatePool_Ok msg s u s' : clp_wf s →
  is_uint (MsgCreatePool.ExternalAssetAmount msg) →
  is_uint (MsgCreatePool.NativeAssetAmount msg) →
  MsgCreatePool_ValidateBasic msg = Ok () →
  msg_CreatePool msg s = (Ok u, s') →
  let ext := MsgCreatePool.ExternalAsset msg in
  let units := MsgCreatePool.NativeAssetAmount msg in
  ∃ addr b cs, acc_from_bech32 (MsgCreatePool.Signer msg) = Ok addr
    ∧ Pools s !! pool_key (Symbol ext) = None
    ∧ s' = put_lp (put_pool (s <| Bank := b |>)
                     (NewPool ext units (MsgCreatePool.ExternalAssetAmount msg) units))
             (NewLiquidityProvider ext units addr)
    ∧ AssetValidate ext = Ok true
    ∧ pool_wf (NewPool ext units (MsgCreatePool.ExternalAssetAmount msg) units)
    ∧ (∀ d, amount_of cs d
            = amount_of [(Symbol ext, MsgCreatePool.ExternalAssetAmount msg)] d
              + amount_of [(NativeSymbol, units)] d)
    ∧ transferred addr clp_module_address cs (Bank s) b.
Proof.
  intros Hwf He Hn Hv H ext units. unfold MsgCreatePool_ValidateBasic in Hv. inv_ok. bool_prop.
  unfold msg_CreatePool in H. case_test; inv_msg. case_test; inv_msg.
  match goal with H : CalculatePoolUnits _ _ _ _ _ _ _ _ = Ok _ |- _ =>
    rewrite CalculatePoolUnits_empty in H by lia; injection H as <- end. inv_msg.
  match goal with H : CreatePool _ _ _ = _ |- _ =>
    apply CreatePool_Ok in H as (addr & b & cs & Ha & -> & Hval & -> & Hcs & Ht); [|done..] end.
  rewrite Ha in E4. injection E4 as <-.
  apply CreateLiquidityProvider_Ok in E5 as [-> ->]; [|done].
  exists addr, b, cs. split_and!; try done.
  - apply bool_decide_eq_false in Heqb0. by apply eq_None_not_Some.
  - apply NewPool_wf; try done; unfold units; lia.
Qed.
End CreatePoolHandler.

(** ** Depositing into a pool *)
Section Deposit.
Context {sdk : SDK} {L : SDKLaws sdk} {mk : MarginKeeper}.
Implicit Types s : chain.

(** A deposit of [n] fury and [e] of the external asset that issues [u] units
    to one provider. *)
Definition deposited (p : Pool) (n e u : Z) : Pool :=
  p <| PoolUnits := PoolUnits p + u |> <| NativeAssetBalance := NativeAssetBalance p + n |>
    <| ExternalAssetBalance := ExternalAssetBalance p + e |>.

Lemma deposited_claim p n e u d :
  pool_claim d (deposited p n e u)
  = pool_claim d p + amount_of [(NativeSymbol, n)] d
    + amount_of [(Symbol (ExternalAsset p), e)] d.
Proof.
  rewrite !amount_of_one. unfold pool_claim. cbn [fst snd].
  generalize NativeSymbol as k. intros k. cbn.
  destruct (String.eqb k d), (String.eqb (Symbol (ExternalAsset p)) d); lia.
Qed.

Lemma try_GetLiquidityProvider sym a s r s' :
  try (GetLiquidityProvider sym a) s = (Ok r, s') →
  s' = s ∧ match r with
           | inl lp => LiquidityProviders s !! GetLiquidityProviderKey sym a = Some lp
           | inr _ => LiquidityProviders s !! GetLiquidityProviderKey sym a = None
           end.
Proof.
  unfold try, GetLiquidityProvider, mbind, M_bind, gets. cbn.
  destruct (LiquidityProviders s !! _) eqn:E; cbn; intros [= <- <-]; done.
Qed.

(** The provider the deposit goes to, as found or created. *)
Lemma add_provider ext signer addr u r s l0 u0 s' : clp_wf s → is_uint u →
  AssetValidate ext = Ok true → no_sep signer = true → acc_string addr = signer →
  match r with
  | inl lp => LiquidityProviders s !! GetLiquidityProviderKey (Symbol ext) signer = Some lp
  | inr _ => LiquidityProviders s !! GetLiquidityProviderKey (Symbol ext) signer = None
  end →
  match r : LiquidityProvider + error with
  | inl lp => mret (lp, u)
  | inr _ => lp ← CreateLiquidityProvider ext u addr; mret (lp, 0)
  end s = (Ok (l0, u0), s') →
  Symbol (LPAsset l0) = Symbol ext ∧ LiquidityProviderAddress l0 = signer
  ∧ is_uint (LiquidityProviderUnits l0) ∧ is_uint u0
  ∧ Pools s' = Pools s ∧ Bank s' = Bank s ∧ RemovalRequests s' = RemovalRequests s
  ∧ (∀ l, <[lp_key l0 := l]> (LiquidityProviders s') = <[lp_key l0 := l]> (LiquidityProviders s))
  ∧ LiquidityProviderUnits l0 + u0
    = u + match LiquidityProviders s !! lp_key l0 with
          | Some l => LiquidityProviderUnits l
          | None => 0
          end.
Proof.
  intros Hwf Hu Hv Hsep Hcan Hr H. destruct r as [lp|e]; inv_ok; simplify_eq.
  - apply wf_lookup_lp in Hr as (Hs & Ha & [Hlu _] & Hk); [|done..]. rewrite Hk.
    split_and!; try done. lia.
  - apply CreateLiquidityProvider_Ok in E as [-> ->]; [|done].
    change (lp_key (NewLiquidityProvider ext u addr))
      with (GetLiquidityProviderKey (Symbol ext) (acc_string addr)). rewrite Hr.
    split_and!; try done; try apply is_uint_0.
    intros l. cbn. apply insert_insert_eq.
Qed.

(** The provider after the deposit: the stored one with more units, or a new
    one. *)
Lemma AddLiquidity_Ok msg p total u s lp s' addr : clp_wf s → pool_wf p →
  is_uint (MsgAddLiquidity.ExternalAssetAmount msg) →
  is_uint (MsgAddLiquidity.NativeAssetAmount msg) → is_uint u →
  Symbol (ExternalAsset p) = Symbol (MsgAddLiquidity.ExternalAsset msg) →
  acc_from_bech32 (MsgAddLiquidity.Signer msg) = Ok addr →
  acc_string addr = MsgAddLiquidity.Signer msg →
  total = PoolUnits p + u → is_uint total →
  AddLiquidity msg p total u s = (Ok lp, s') →
  let sym := Symbol (MsgAddLiquidity.ExternalAsset msg) in
  let p' := deposited p (MsgAddLiquidity.NativeAssetAmount msg)
              (MsgAddLiquidity.ExternalAssetAmount msg) u in
  ∃ b cs, (∀ d, amount_of cs d
             = amount_of [(sym, MsgAddLiquidity.ExternalAssetAmount msg)] d
               + amount_of [(NativeSymbol, MsgAddLiquidity.NativeAssetAmount msg)] d)
    ∧ transferred addr clp_module_address cs (Bank s) b
    ∧ pool_wf p' ∧ lp_wf lp ∧ Symbol (LPAsset lp) = sym
    ∧ Pools s' = <[pool_key sym := p']> (Pools s) ∧ Bank s' = b
    ∧ LiquidityProviders s' = <[lp_key lp := lp]> (LiquidityProviders s)
    ∧ LiquidityProviderUnits lp
      = u + match LiquidityProviders s !! lp_key lp with
            | Some l => LiquidityProviderUnits l
            | None => 0
            end
    ∧ RemovalRequests s' = RemovalRequests s
    ∧ LiquidityProviderAddress lp = MsgAddLiquidity.Signer msg.
Proof.
  intros Hwf Hpw He Hn Hu Hsym Haddr Hcanon -> Ht H sym p'.
  unfold AddLiquidity in H. inv_read. destruct v8; [done|]. inv_ok.
  match goal with H : try _ _ = _ |- _ => apply try_GetLiquidityProvider in H as [? Hfound] end.
  subst. match goal with v : (LiquidityProvider * Z)%type |- _ => destruct v as [l0 u0] end. inv_read.
  assert (v5 = addr) as -> by congruence.
  pose proof Hpw as ((Hpn & Hpe & Hpu & Hnl & Hel) & Hcn & Hce & Hext & [Hd1 Hd2]).
  repeat match goal with
  | H : u_add (NativeAssetBalance p) _ = Ok _ |- _ => apply u_add_Ok in H as [-> ?]; [|done|done]
  | H : u_add (ExternalAssetBalance p) _ = Ok _ |- _ => apply u_add_Ok in H as [-> ?]; [|done|done]
  end.
  assert (ExternalAsset p = MsgAddLiquidity.ExternalAsset msg) as Hasset by by apply Asset_eta_eq.
  match goal with H : AssetValidate _ = Ok true |- _ => cbn in H; rewrite Hasset in H end.
  assert (no_sep (MsgAddLiquidity.Signer msg) = true) as Hsep by by eapply acc_no_sep.
  assert (pool_wf p') as Hpw'.
  { unfold pool_wf, pool_deep, pool_uints, is_uint, p', deposited in *. cbn. split_and!; try done; lia. }
  eapply (add_provider _ _ addr) in E6
    as (Hls & Hla & Hlu & Hu0 & HP & HB & HQ & HL & Hsum); [|by destruct Hwf|done..].
  apply u_add_Ok in E3 as [-> Hv6]; [|done|done].
  apply SetLiquidityProvider_valid in E10; [|cbn; by rewrite (Asset_eta_eq _ _ Hls)].
  subst s3. exists b, v4. split_and!; try done.
  - intros d. rewrite (coins_add_val _ _ _ E4), (coins_add_val _ _ _ E2).
    change (Symbol GetSettlementAsset) with NativeSymbol. fold sym. rewrite (amount_of_nil d). lia.
  - split; cbn; [done|by rewrite Hla].
  - cbn. rewrite HP. unfold sym. by rewrite Hasset.
  - cbn. apply (HL (l0 <| LiquidityProviderUnits := LiquidityProviderUnits l0 + u0 |>)).
Qed.
End Deposit.

(** ** Balancing the two ledgers *)

(** The store stays well formed and neither ledger changes. *)
Record keeps_books {sdk : SDK} (s s' : chain) : Prop := {
  kb_wf : clp_wf s';
  kb_surplus d : surplus s' d = surplus s d;
  kb_gap sym : unit_gap s' sym = unit_gap s sym
}.

Section Books.
Context {sdk : SDK} {L : SDKLaws sdk} {mk : MarginKeeper}.
Implicit Types s : chain.

(** One pool is replaced, the module account changes by what the pool's claim
    changes, and the units of the pool's providers by what its units do. *)
Lemma books_move s s' p p' : clp_wf s → pool_wf p' → clp_wf s' →
  Pools s !! pool_key (Symbol (ExternalAsset p')) = Some p →
  Pools s' = <[pool_key (Symbol (ExternalAsset p')) := p']> (Pools s) →
  (∀ d, module_balance s' d = module_balance s d + pool_claim d p' - pool_claim d p) →
  (∀ sym, lp_total s' sym = lp_total s sym
     + if String.eqb (Symbol (ExternalAsset p')) sym then PoolUnits p' - PoolUnits p else 0) →
  keeps_books s s'.
Proof.
  intros Hwf Hp' Hwf' Hp HP HB HL. split; [done| |].
  - intros d. unfold surplus, claims. rewrite HB, HP, msum_insert, Hp. lia.
  - intros sym. unfold unit_gap. rewrite HL.
    change (pool_units_of s' sym) with (match Pools s' !! pool_key sym with
      Some p => PoolUnits p | None => 0 end). rewrite HP.
    pose proof (put_pool_units s p' sym) as Hu. unfold pool_units_of at 1 in Hu. cbn in Hu.
    rewrite Hu. case_test; [|lia]. bool_prop. subst sym. unfold pool_units_of. rewrite Hp. lia.
Qed.

Lemma clp_wf_ext s s' : Pools s' = Pools s → LiquidityProviders s' = LiquidityProviders s →
  clp_wf s → clp_wf s'.
Proof. intros HP HL [H1 H2 H3]. split; rewrite ?HP, ?HL; done. Qed.

Lemma wf_puts s s' p lp : clp_wf s → AssetValidate (ExternalAsset p) = Ok true → pool_wf p → lp_wf lp →
  Pools s' = <[pool_key (Symbol (ExternalAsset p)) := p]> (Pools s) →
  LiquidityProviders s' = <[lp_key lp := lp]> (LiquidityProviders s) → clp_wf s'.
Proof.
  intros Hwf Hv Hp Hl HP HL. apply (clp_wf_ext (put_lp (put_pool s p) lp)); [done..|].
  by apply put_lp_wf, put_pool_wf.
Qed.

(** Storing one provider of the symbol [sym] with [delta] more units. *)
Lemma lp_total_put s s' lp sym delta : clp_wf s → Symbol (LPAsset lp) = sym →
  LiquidityProviders s' = <[lp_key lp := lp]> (LiquidityProviders s) →
  no_sep (LiquidityProviderAddress lp) = true →
  LiquidityProviderUnits lp = delta + match LiquidityProviders s !! lp_key lp with
                                      | Some l => LiquidityProviderUnits l | None => 0 end →
  ∀ sym', lp_total s' sym' = lp_total s sym' + if String.eqb sym sym' then delta else 0.
Proof.
  intros Hwf Hs HL Hsep Hu sym'. unfold lp_total. rewrite HL, msum_insert.
  unfold lp_units_of at 2. rewrite Hs.
  destruct (LiquidityProviders s !! lp_key lp) as [l|] eqn:Hl; [|case_test; lia].
  apply wf_lookup_lp in Hl as (Hls & _); [|done..]. unfold lp_units_of. rewrite Hls, Hs.
  case_test; lia.
Qed.

Lemma add_checks_ledger st na ea x nd ed r fs fb s u s' :
  add_checks st na ea x nd ed r fs fb s = (Ok u, s') →
  same_ledger s s' ∧ RemovalRequests s' = RemovalRequests s.
Proof.
  assert (∀ b n pr t v t', MustUpdateLiquidityProtectionThreshold b n pr t = (Ok v, t') →
            same_ledger t t' ∧ RemovalRequests t' = RemovalRequests t) as HM.
  { intros b n pr t v t' H. split; [by eapply MustUpdate_ledger|].
    unfold MustUpdateLiquidityProtectionThreshold,
      SetLiquidityProtectionCurrentFuryLiquidityThreshold in H.
    inv_ok. case_test; inv_ok; done. }
  unfold add_checks. intros H. destruct st; inv_ok; try done; (case_test; inv_ok; [done|]).
  - apply GetNativePrice_state in E1 as ->. apply IsBlocked_state in E2 as ->.
    case_test; inv_ok. by apply HM in H.
  - match goal with v : (Z * Z)%type |- _ => destruct v end. inv_ok.
    match goal with H : GetNativePrice _ = _ |- _ => apply GetNativePrice_state in H as -> end.
    by apply HM in H.
Qed.

Lemma ExtractDebt_plain p n e : ExtractDebt p (NativeAssetBalance p) (ExternalAssetBalance p) false
  = Ok (n, e) → pool_wf p →
  n = NativeAssetBalance p + NativeLiabilities p
  ∧ e = ExternalAssetBalance p + ExternalLiabilities p
  ∧ is_uint n ∧ is_uint e ∧ n ≠ 0 ∧ e ≠ 0.
Proof.
  intros H ((Hn & He & _ & Hnl & Hel) & _ & _ & _ & [Hd1 Hd2]). unfold ExtractDebt in H. inv_ok.
  simplify_eq. apply u_add_Ok in E as [-> ?], E0 as [-> ?]; try done. split_and!; try done; lia.
Qed.

(** With no request in the queue, walking the queue does nothing. *)
Lemma ProcessRemovalQueue_empty msg x s u s' : RemovalRequests s = ∅ →
  ProcessRemovalQueue msg x s = (Ok u, s') → s' = s.
Proof.
  intros Hq H. unfold ProcessRemovalQueue, GetRemovalQueue in H. inv_ok.
  pose proof (kv_iterate_law (RemovalRequests s)) as Hp. rewrite Hq, map_to_list_empty in Hp.
  apply Permutation_nil_r in Hp. rewrite Hq, Hp in H. cbn in H. by inv_ok.
Qed.

(** The swap fee of an asset outside margin. *)
Definition fee_rate s (asset : Asset) : Z :=
  let params := default (mkSwapFeeParams (dec_prec 3 3) []) (SwapFees s) in
  default (DefaultSwapFeeRate params) (find_token_rate (Symbol asset) (TokenParams params)).

(** What a successful MsgAddLiquidity does: the pool and the provider gain the units
    CalculatePoolUnits computes from the pool as it was, and the coins move. *)
Lemma msg_AddLiquidity_Ok msg s u s' addr : clp_wf s → RemovalRequests s = ∅ →
  is_uint (MsgAddLiquidity.ExternalAssetAmount msg) →
  is_uint (MsgAddLiquidity.NativeAssetAmount msg) →
  acc_from_bech32 (MsgAddLiquidity.Signer msg) = Ok addr →
  acc_string addr = MsgAddLiquidity.Signer msg →
  msg_AddLiquidity msg s = (Ok u, s') →
  let ext := MsgAddLiquidity.ExternalAsset msg in
  let n := MsgAddLiquidity.NativeAssetAmount msg in
  let e := MsgAddLiquidity.ExternalAssetAmount msg in
  ∃ p units st x b cs lp, Pools s !! pool_key (Symbol ext) = Some p
    ∧ Symbol (ExternalAsset p) = Symbol ext ∧ pool_wf p
    ∧ CalculatePoolUnits (PoolUnits p) (NativeAssetBalance p + NativeLiabilities p)
        (ExternalAssetBalance p + ExternalLiabilities p) n e (fee_rate s GetSettlementAsset) (fee_rate s ext)
        (PmtpCurrentRunningRate (RateParams s)) = Ok (PoolUnits p + units, units, st, x)
    ∧ (∀ d, amount_of cs d = amount_of [(Symbol ext, e)] d + amount_of [(NativeSymbol, n)] d)
    ∧ transferred addr clp_module_address cs (Bank s) b
    ∧ pool_wf (deposited p n e units) ∧ lp_wf lp ∧ Symbol (LPAsset lp) = Symbol ext
    ∧ LiquidityProviderAddress lp = MsgAddLiquidity.Signer msg
    ∧ Pools s' = <[pool_key (Symbol ext) := deposited p n e units]> (Pools s) ∧ Bank s' = b
    ∧ LiquidityProviders s' = <[lp_key lp := lp]> (LiquidityProviders s)
    ∧ LiquidityProviderUnits lp
      = units + match LiquidityProviders s !! lp_key lp with
                | Some l => LiquidityProviderUnits l
                | None => 0
                end
    ∧ RemovalRequests s' = RemovalRequests s.
Proof.
  intros Hwf Hq He Hn Ha Hc H ext n e.
  unfold msg_AddLiquidity, GetSwapFeeRate, ClpKeeper.GetSwapFeeParams in H. inv_msg.
  match goal with H : Pools _ !! _ = Some ?p |- _ =>
    rename H into Hp; destruct (wf_lookup_pool _ _ _ Hwf Hp) as [Hsym Hpw] end.
  do 2 (open_pairs; inv_msg).
  match goal with H : ExtractDebt _ _ _ _ = _ |- _ =>
    apply ExtractDebt_plain in H as (-> & -> & ? & ? & ? & ?); [|done] end.
  match goal with H : CalculatePoolUnits _ _ _ _ _ _ _ _ = _ |- _ => pose proof H as Hunits0;
    apply CalculatePoolUnits_sum in H as (-> & Ht & Hu); [|apply Hpw|done..] end.
  match goal with H : add_checks _ _ _ _ _ _ _ _ _ _ = _ |- _ =>
    apply add_checks_ledger in H as [(HP & HL & HB) HQ] end.
  match goal with H : AddLiquidity _ _ _ _ _ = _ |- _ =>
    eapply AddLiquidity_Ok in H
      as (b & cs & Hcs & Htr & Hpw' & Hlw & Hls & HP' & HB' & HL' & Hunits & HQ' & Hadd);
      [|by destruct Hwf; split; rewrite ?HP, ?HL|done..] end.
  assert (s' = s2) as ->.
  { cbn [negb] in *. match goal with H : (if ?b then _ else _) _ = (Ok _, _) |- _ => destruct b in H end; inv_ok; [done|]. unfold GetRemovalQueue in *. inv_ok.
    case_test; inv_ok; [|done]. apply ProcessRemovalQueue_empty in H; [done|].
    by rewrite HQ', HQ. }
  rewrite HP in HP'. rewrite HL in HL', Hunits. rewrite HB in Htr.
  do 7 eexists. split_and!; try done; try congruence.
Qed.

Lemma msg_AddLiquidity_books msg s u s' addr : clp_wf s → RemovalRequests s = ∅ →
  is_uint (MsgAddLiquidity.ExternalAssetAmount msg) →
  is_uint (MsgAddLiquidity.NativeAssetAmount msg) →
  acc_from_bech32 (MsgAddLiquidity.Signer msg) = Ok addr →
  acc_string addr = MsgAddLiquidity.Signer msg → addr ≠ clp_module_address →
  msg_AddLiquidity msg s = (Ok u, s') → keeps_books s s' ∧ RemovalRequests s' = RemovalRequests s.
Proof.
  intros Hwf Hq He Hn Ha Hc Hne H. eapply msg_AddLiquidity_Ok in H; [|done..].
  destruct H as (p & units & st & x & b & cs & lp & Hp & Hsym & Hpw & _ & Hcs & Htr & Hpw' & Hlw & Hls & _ & HP' & HB' & HL' & Hunits & HQ').
  split; [|done]. pose proof Hlw as [Hlu Hsep].
  set (p' := deposited p _ _ _) in *. rewrite <- Hsym in HP', Hp.
  apply (books_move s _ p p'); [done|done|eapply (wf_puts s s' p'); [done|by eapply (wf_valid s Hwf _ p)|done..]|done|done| |].
  - intros d. unfold module_balance. rewrite HB', (transferred_to _ _ _ _ _ d Htr), Hcs by done.
    unfold p'. rewrite deposited_claim, Hsym. lia.
  - intros sym. rewrite (lp_total_put s _ _ _ _ Hwf Hls HL' Hsep Hunits). unfold p'. cbn.
    rewrite Hsym. destruct (String.eqb _ sym); lia.
Qed.
End Books.

Section CreateBooks.
Context {sdk : SDK} {L : SDKLaws sdk} {mk : MarginKeeper}.
Implicit Types s : chain.

(** No provider of an asset without a pool holds units. *)
Lemma no_stale_units s sym a lp : clp_wf s → units_match s → no_sep a = true →
  Pools s !! pool_key sym = None →
  LiquidityProviders s !! GetLiquidityProviderKey sym a = Some lp →
  LiquidityProviderUnits lp = 0.
Proof.
  intros Hwf Hm Ha Hp Hl. apply wf_lookup_lp in Hl as (Hs & _ & [[? _] _] & Hk); [|done..].
  pose proof (lp_units_le_total s lp Hwf Hk) as Hle. rewrite Hs in Hle.
  specialize (Hm sym). unfold unit_gap, pool_units_of in Hm. rewrite Hp in Hm. lia.
Qed.

Lemma NewPool_claim a n e u d :
  pool_claim d (NewPool a n e u)
  = amount_of [(Symbol a, e)] d + amount_of [(NativeSymbol, n)] d.
Proof.
  rewrite !amount_of_one. unfold pool_claim. cbn [fst snd].
  generalize NativeSymbol as k. intros k. cbn.
  destruct (String.eqb k d), (String.eqb (Symbol a) d); lia.
Qed.

Lemma msg_CreatePool_surplus msg s u s' addr : clp_wf s →
  is_uint (MsgCreatePool.ExternalAssetAmount msg) →
  is_uint (MsgCreatePool.NativeAssetAmount msg) →
  MsgCreatePool_ValidateBasic msg = Ok () →
  acc_from_bech32 (MsgCreatePool.Signer msg) = Ok addr → addr ≠ clp_module_address →
  msg_CreatePool msg s = (Ok u, s') → clp_wf s' ∧ ∀ d, surplus s' d = surplus s d.
Proof.
  intros Hwf He Hn Hv Ha Hne H.
  apply msg_CreatePool_Ok in H as (a & b & cs & Ha' & Hnone & -> & Hval & Hpw & Hcs & Htr); [|done..].
  assert (a = addr) as -> by congruence. pose proof (acc_string_no_sep _ _ Ha) as Hsep.
  split.
  - apply put_lp_wf, put_pool_wf; try done. by apply (clp_wf_ext s).
  - intros d. unfold surplus, claims, module_balance. cbn.
    rewrite (transferred_to _ _ _ _ _ d Htr), Hcs, msum_insert, Hnone by done.
    rewrite NewPool_claim. lia.
Qed.

Lemma msg_CreatePool_books msg s u s' addr : clp_wf s → units_match s →
  is_uint (MsgCreatePool.ExternalAssetAmount msg) →
  is_uint (MsgCreatePool.NativeAssetAmount msg) →
  MsgCreatePool_ValidateBasic msg = Ok () →
  acc_from_bech32 (MsgCreatePool.Signer msg) = Ok addr → addr ≠ clp_module_address →
  msg_CreatePool msg s = (Ok u, s') → keeps_books s s'.
Proof.
  intros Hwf Hm He Hn Hv Ha Hne H. pose proof H as Hs.
  apply (msg_CreatePool_surplus _ _ _ _ addr) in Hs as [Hwf' Hsur]; [|done..].
  split; [done|done|]. intros sym.
  apply msg_CreatePool_Ok in H as (a & b & cs & Ha' & Hnone & -> & Hval & Hpw & Hcs & Htr); [|done..].
  assert (a = addr) as -> by congruence. pose proof (acc_string_no_sep _ _ Ha) as Hsep.
  set (ext := MsgCreatePool.ExternalAsset msg) in *.
  set (units := MsgCreatePool.NativeAssetAmount msg) in *.
  set (p := NewPool ext units _ units) in *. set (lp := NewLiquidityProvider ext units addr).
  unfold unit_gap. rewrite (lp_total_put s _ lp (Symbol ext) units Hwf); try done.
  - change (pool_units_of (put_lp (put_pool (s <| Bank := b |>) p) lp) sym)
      with (pool_units_of (put_pool s p) sym). rewrite put_pool_units.
    change (ExternalAsset p) with ext. change (PoolUnits p) with units.
    case_test; [bool_prop; subst sym; unfold pool_units_of; rewrite Hnone; lia|].
    by rewrite Z.add_0_r.
  - change (LiquidityProviderUnits lp) with units.
    destruct (_ !! lp_key lp) as [l|] eqn:Hl; [|lia].
    apply (no_stale_units s (Symbol ext)) in Hl; [lia|done..].
Qed.
End CreateBooks.
