(* ===== verification/ClpRemoveProps.v ===== *)
(** * Withdrawing liquidity keeps the books

    The unlock records a removal prunes and uses, the payout of RemoveLiquidity,
    and the two removal handlers. *)
From S2P Require Import Prelude Sdk Reference ClpTypes ClpCalc ClpCalcProps Admin.
From S2P Require Import TokenRegistry MarginTypes Chain ClpKeeper ClpExec ClpMsg ClpState.
From S2P Require Import ClpSwapProps ClpLiquidityProps.

(** Records of the same provider with the same units; unlocks may differ. *)
Definition same_holding (l l' : LiquidityProvider) : Prop :=
  LPAsset l = LPAsset l' ∧ LiquidityProviderAddress l = LiquidityProviderAddress l'
  ∧ LiquidityProviderUnits l = LiquidityProviderUnits l'.

Section Relock.
Context {sdk : SDK} {L : SDKLaws sdk} {mk : MarginKeeper}.
Implicit Types s : chain.

Lemma same_holding_trans a b c : same_holding a b → same_holding b c → same_holding a c.
Proof. unfold same_holding. intros (->&->&->) (->&->&->). done. Qed.

Lemma same_holding_sym a b : same_holding a b → same_holding b a.
Proof. unfold same_holding. intros (->&->&->). done. Qed.

Lemma same_holding_key a b : same_holding a b → lp_key a = lp_key b.
Proof. unfold same_holding, lp_key. by intros (->&->&_). Qed.

Lemma same_holding_wf a b : same_holding a b → lp_wf a → lp_wf b.
Proof. unfold same_holding, lp_wf. by intros (_&->&->). Qed.

Definition holds s lp : Prop :=
  ∃ l, LiquidityProviders s !! lp_key lp = Some l ∧ same_holding l lp.

(** Only unlock records changed. *)
Record relocked s s' : Prop := {
  rl_pools : Pools s' = Pools s;
  rl_bank : Bank s' = Bank s;
  rl_wf : clp_wf s';
  rl_total sym : lp_total s' sym = lp_total s sym
}.

Lemma relocked_refl s : clp_wf s → relocked s s.
Proof. done. Qed.

Lemma relocked_trans s1 s2 s3 : relocked s1 s2 → relocked s2 s3 → relocked s1 s3.
Proof.
  intros [P1 B1 _ T1] [P2 B2 W2 T2]. split; [congruence|congruence|done|].
  intros sym. by rewrite T2.
Qed.

Lemma relocked_books s s' : relocked s s' → keeps_books s s'.
Proof.
  intros [P B W T]. split; [done| |].
  - intros d. unfold surplus, module_balance, claims. by rewrite P, B.
  - intros sym. unfold unit_gap, pool_units_of. by rewrite P, T.
Qed.

Lemma SetLiquidityProvider_same lp s u s' : clp_wf s → holds s lp →
  SetLiquidityProvider lp s = (Ok u, s') → relocked s s' ∧ holds s' lp.
Proof.
  intros Hwf (l & Hl & Hs) [[_ ->]|[_ ->]]%SetLiquidityProvider_Ok.
  - split; [by apply relocked_refl|by exists l].
  - pose proof (wf_lp s Hwf _ _ Hl) as [Hk Hlw].
    split; [split; try done|exists lp; split; [apply lookup_insert_eq|done]].
    + apply put_lp_wf; [by apply (same_holding_wf l)|done].
    + intros sym. change (lp_total (put_lp s lp) sym = lp_total s sym).
      destruct Hs as (? & ? & ?). apply (put_lp_same s l); congruence.
Qed.

Lemma PruneUnlockRecords_Ok lp a b s lp' s' : clp_wf s → holds s lp →
  PruneUnlockRecords lp a b s = (Ok lp', s') →
  relocked s s' ∧ same_holding lp lp' ∧ holds s' lp'.
Proof.
  unfold PruneUnlockRecords. intros Hwf Hh H. inv_ok. case_test; inv_ok.
  - apply SetLiquidityProvider_same in E as [? Hh']; [done..|].
    destruct Hh as (l & Hl & Hs). exists l. done.
  - split_and!; [by apply relocked_refl|done|done].
Qed.

Lemma UseUnlockedLiquidity_Ok lp n any s lp' s' : clp_wf s → holds s lp →
  UseUnlockedLiquidity lp n any s = (Ok lp', s') →
  relocked s s' ∧ same_holding lp lp' ∧ holds s' lp'.
Proof.
  unfold UseUnlockedLiquidity. intros Hwf Hh H. inv_ok. open_pairs. case_test; inv_ok.
  match goal with H : SetLiquidityProvider _ _ = _ |- _ =>
    apply SetLiquidityProvider_same in H as [? Hh']; [done..|] end.
  destruct Hh as (l' & Hl & Hs). by exists l'.
Qed.

(** A removal that passes the health gate leaves the state alone. *)
Lemma health_gate_Ok req d p n e q r f s u s' :
  health_gate req d p n e q r f s = (Ok u, s') → s' = s.
Proof.
  unfold health_gate. intros H. inv_ok. case_test; inv_ok; [done|].
  case_test; inv_ok; [|done]. case_test; inv_ok.
Qed.

Lemma GetRemovalQueueUnits_state lp s n s' : GetRemovalQueueUnitsForLP lp s = (Ok n, s') → s' = s.
Proof. unfold GetRemovalQueueUnitsForLP. intros H. by inv_ok. Qed.
End Relock.

(** ** The payout *)
Section Payout.
Context {sdk : SDK} {L : SDKLaws sdk} {mk : MarginKeeper}.
Implicit Types s : chain.

(** A pool after a withdrawal of [n] fury and [e] of the external asset that
    burns [u] units. *)
Definition withdrawn (p : Pool) (n e u : Z) : Pool :=
  p <| PoolUnits := PoolUnits p - u |> <| NativeAssetBalance := NativeAssetBalance p - n |>
    <| ExternalAssetBalance := ExternalAssetBalance p - e |>.

Lemma withdrawn_claim p n e u d :
  pool_claim d (withdrawn p n e u)
  = pool_claim d p - amount_of [(NativeSymbol, n)] d
    - amount_of [(Symbol (ExternalAsset p), e)] d.
Proof.
  rewrite !amount_of_one. unfold pool_claim. cbn [fst snd].
  generalize NativeSymbol as k. intros k. cbn.
  destruct (String.eqb k d), (String.eqb (Symbol (ExternalAsset p)) d); lia.
Qed.

Lemma subtract_from_pool_Ok p u l n e p' : pool_wf p → is_uint u → is_uint l → is_uint n →
  is_uint e → subtract_from_pool p u l n e = Ok p' →
  p' = withdrawn p n e (u - l) ∧ is_uint (PoolUnits p') ∧ is_uint (NativeAssetBalance p')
  ∧ is_uint (ExternalAssetBalance p').
Proof.
  intros ((Hn & He & Hu & _) & _) ? ? ? ? Hsub. unfold subtract_from_pool in Hsub. inv_ok.
  apply u_sub_Ok in E as [-> ?]; [|done..]. apply u_add_Ok in E0 as [-> ?]; [|done..].
  apply u_sub_Ok in E1 as [-> ?]; [|done..]. apply u_sub_Ok in E2 as [-> ?]; [|done..].
  split; [|done]. unfold withdrawn. by replace (PoolUnits p - (u - l)) with (PoolUnits p - u + l) by lia.
Qed.

Lemma add_positive_amount cs c cs' d : 0 ≤ c.2 → add_positive cs c = Ok cs' →
  amount_of cs' d = amount_of cs d + amount_of [c] d.
Proof.
  unfold add_positive. intros Hc H. case_test; [by apply coins_add_val|]. inv_ok.
  apply andb_false_iff in Heqb as [?|?]; bool_prop; [|lia].
  rewrite amount_of_one. replace c.2 with 0. by case_test; lia.
Qed.

Lemma new_coins_nil cs d : new_coins [] = Ok cs → amount_of cs d = 0.
Proof. intros H. by rewrite (new_coins_amount _ _ d H). Qed.

(** The transfer of the payout, if there is any. *)
Lemma pay_out_Ok cs addr s u s' : addr ≠ clp_module_address →
  (if (length cs =? 0)%nat then mret () else
     b ← gets Bank;
     lift (ensure (forallb (bank_has_balance b clp_module_address) cs)
             (EClp ErrNotEnoughLiquidity));;
     onBank (bank_send_mod_to_acc ModuleName addr cs)) s = (Ok u, s') →
  ∃ b, s' = s <| Bank := b |>
    ∧ ∀ d, bank_balance b clp_module_address d
           = bank_balance (Bank s) clp_module_address d - amount_of cs d.
Proof.
  intros Hne H. destruct cs as [|c cs]; cbn in H.
  - inv_ok. exists (Bank s). split; [by destruct s|intros d; rewrite amount_of_nil; lia].
  - inv_ok. apply send_out_Ok in H as (b & -> & Ht). exists b. split; [done|].
    intros d. by apply (transferred_from _ _ _ _ _ d Ht), not_eq_sym.
Qed.

(** What [RemoveLiquidity] does when it succeeds. *)
Lemma RemoveLiquidity_Ok p ec nc lp left oe on s u s' addr : 0 ≤ ec.2 → 0 ≤ nc.2 →
  Symbol (LPAsset lp) = Symbol (ExternalAsset p) →
  acc_from_bech32 (LiquidityProviderAddress lp) = Ok addr → addr ≠ clp_module_address →
  RemoveLiquidity p ec nc lp left oe on s = (Ok u, s') →
  ec.2 < oe ∧ nc.2 < on
  ∧ Pools s' = <[pool_key (Symbol (ExternalAsset p)) := p]> (Pools s)
  ∧ (∀ d, module_balance s' d = module_balance s d - amount_of [ec] d - amount_of [nc] d)
  ∧ LiquidityProviders s' = (if left =? 0 then delete (lp_key lp) (LiquidityProviders s)
                             else <[lp_key lp := lp <| LiquidityProviderUnits := left |>]>
                                    (LiquidityProviders s)).
Proof.
  intros He Hn Hsym Ha Hne H. unfold RemoveLiquidity in H. inv_ok.
  rewrite Ha in E. injection E as <-. case_test; inv_read. bool_prop.
  assert (∀ d, amount_of v2 d = amount_of [ec] d + amount_of [nc] d) as Hcs.
  { intros d. rewrite (add_positive_amount _ _ _ d Hn E2), (add_positive_amount _ _ _ d He E1).
    rewrite (new_coins_nil _ d E0). lia. }
  apply pay_out_Ok in E3 as (b & -> & Hb); [|done].
  assert (∀ d, module_balance s' d = bank_balance b clp_module_address d
               ∧ Pools s' = <[pool_key (Symbol (ExternalAsset p)) := p]> (Pools s)
               ∧ LiquidityProviders s' = (if left =? 0 then delete (lp_key lp) (LiquidityProviders s)
                   else <[lp_key lp := lp <| LiquidityProviderUnits := left |>]>
                          (LiquidityProviders s))) as Hend.
  { intros d. case_test; [by unfold DestroyLiquidityProvider in H; inv_ok|].
    apply SetLiquidityProvider_valid in H as ->; [done|].
    cbn. by rewrite (Asset_eta_eq _ _ Hsym). }
  destruct (Hend "") as (_ & HP & HL). split_and!; try done.
  intros d. destruct (Hend d) as [-> _]. rewrite Hb, Hcs. unfold module_balance. cbn. lia.
Qed.
End Payout.

(** ** The removal handlers *)
Section Removal.
Context {sdk : SDK} {L : SDKLaws sdk} {mk : MarginKeeper}.
Implicit Types s : chain.

(** Replacing the units of a provider, or dropping the provider at zero. *)
Lemma lp_total_left s s' lp left : clp_wf s → holds s lp → is_uint left →
  LiquidityProviders s' = (if left =? 0 then delete (lp_key lp) (LiquidityProviders s)
                           else <[lp_key lp := lp <| LiquidityProviderUnits := left |>]>
                                  (LiquidityProviders s)) →
  ∀ sym, lp_total s' sym = lp_total s sym
    + if String.eqb (Symbol (LPAsset lp)) sym then left - LiquidityProviderUnits lp else 0.
Proof.
  intros Hwf (l & Hl & Ha & Hadr & Hu) Hleft HL sym. unfold lp_total. rewrite HL.
  case_test; bool_prop.
  - rewrite (msum_delete _ _ _ _ Hl). unfold lp_units_of at 2. rewrite Ha, Hu.
    case_test; lia.
  - rewrite msum_insert, Hl. unfold lp_units_of at 2 3. cbn. rewrite Ha, Hu. case_test; lia.
Qed.

Lemma wf_left s s' p lp left : clp_wf s → holds s lp → is_uint left →
  AssetValidate (ExternalAsset p) = Ok true → pool_wf p →
  Pools s' = <[pool_key (Symbol (ExternalAsset p)) := p]> (Pools s) →
  LiquidityProviders s' = (if left =? 0 then delete (lp_key lp) (LiquidityProviders s)
                           else <[lp_key lp := lp <| LiquidityProviderUnits := left |>]>
                                  (LiquidityProviders s)) → clp_wf s'.
Proof.
  intros Hwf (l & Hl & Hs) Hleft Hv Hp HP HL.
  pose proof (wf_lp s Hwf _ _ Hl) as [_ [_ Hsep]]. destruct Hs as (_ & Hadr & _).
  case_test.
  - apply (clp_wf_ext ((put_pool s p) <| LiquidityProviders := delete (lp_key lp) (LiquidityProviders s) |>));
      [done..|]. destruct (put_pool_wf s p Hv Hp Hwf) as [H1 H2 H3]. split; [exact H1| |exact H3].
    intros k q. cbn. intros [_ Hq]%lookup_delete_Some. by apply H2.
  - apply (wf_puts s s' p (lp <| LiquidityProviderUnits := left |>)); try done.
    split; cbn; [done|by rewrite <- Hadr].
Qed.

Lemma RemoveLiquidity_books p n e lp left p' s u s' addr : clp_wf s → holds s lp →
  Pools s !! pool_key (Symbol (ExternalAsset p)) = Some p →
  Symbol (LPAsset lp) = Symbol (ExternalAsset p) →
  acc_from_bech32 (LiquidityProviderAddress lp) = Ok addr → addr ≠ clp_module_address →
  is_uint left → is_uint n → is_uint e →
  subtract_from_pool p (LiquidityProviderUnits lp) left n e = Ok p' →
  RemoveLiquidity p' (Symbol (ExternalAsset p), e) (NativeSymbol, n) lp left
    (ExternalAssetBalance p + ExternalLiabilities p)
    (NativeAssetBalance p + NativeLiabilities p) s = (Ok u, s') →
  keeps_books s s'.
Proof.
  intros Hwf Hh Hp Hsym Ha Hne Hl Hn He Hsub H.
  destruct (wf_lookup_pool _ _ _ Hwf Hp) as [_ Hpw].
  assert (is_uint (LiquidityProviderUnits lp)) as Hlu.
  { destruct Hh as (l & Hk & _ & _ & <-). apply (wf_lp s Hwf _ _ Hk). }
  apply subtract_from_pool_Ok in Hsub as (-> & Hu' & Hn' & He'); [|done..].
  set (p' := withdrawn _ _ _ _) in *. pose proof (proj1 Hn). pose proof (proj1 He).
  apply (RemoveLiquidity_Ok _ _ _ _ _ _ _ _ _ _ addr) in H
    as (Hel & Hnl & HP & HB & HL); [|done..]. cbn [snd] in Hel, Hnl.
  assert (pool_wf p') as Hpw'.
  { destruct Hpw as ((? & ? & ? & ? & ?) & ? & ? & ? & _). unfold pool_wf, pool_deep, pool_uints.
    split_and!; try done; cbn; lia. }
  apply (books_move s s' p p'); try done.
  - apply (wf_left s s' p' lp left); try done. by eapply (wf_valid s Hwf _ p).
  - intros d. rewrite HB. unfold p'. rewrite withdrawn_claim. lia.
  - intros sym. rewrite (lp_total_left s s' lp left) by done. rewrite Hsym.
    change (Symbol (ExternalAsset p')) with (Symbol (ExternalAsset p)).
    change (PoolUnits p') with (PoolUnits p - (LiquidityProviderUnits lp - left)).
    destruct (String.eqb _ sym); lia.
Qed.

Lemma keeps_books_trans s1 s2 s3 : keeps_books s1 s2 → keeps_books s2 s3 → keeps_books s1 s3.
Proof.
  intros [_ S1 G1] [W2 S2 G2]. split; [done| |]; intros x; [by rewrite S2|by rewrite G2].
Qed.

Lemma withdraw_units_uint P nd ed lu w n e l :
  CalculateWithdrawalFromUnits P nd ed lu w = Ok (n, e, l) → is_uint n ∧ is_uint e ∧ is_uint l.
Proof.
  unfold CalculateWithdrawalFromUnits. intros H. inv_ok. simplify_eq.
  repeat match goal with H : u_of_big _ = Ok _ |- _ => apply u_of_big_Ok in H as [-> ?] end. done.
Qed.

Lemma withdraw_uint P nd ed lu w a n e l x :
  CalculateWithdrawal P nd ed lu w a = Ok (n, e, l, x) → is_uint n ∧ is_uint e ∧ is_uint l.
Proof.
  unfold CalculateWithdrawal. intros H. inv_ok. simplify_eq.
  repeat match goal with H : u_of_big _ = Ok _ |- _ => apply u_of_big_Ok in H as [-> ?] end. done.
Qed.

(** A provider found under a signer's key, as the handlers use it. *)
Lemma found_provider s sym signer addr lp : clp_wf s → acc_from_bech32 signer = Ok addr →
  LiquidityProviders s !! GetLiquidityProviderKey sym signer = Some lp →
  Symbol (LPAsset lp) = sym ∧ LiquidityProviderAddress lp = signer ∧ holds s lp.
Proof.
  intros Hwf Ha Hl. apply wf_lookup_lp in Hl as (? & ? & _ & Hk); [|done|by eapply acc_no_sep].
  split_and!; [done|done|by exists lp].
Qed.

(** Both removal handlers: unlock records first, then the payout. *)
Lemma removal_books s s1 s2 s' p lp lp1 lp2 sym signer addr a b used n e left p' u : clp_wf s →
  acc_from_bech32 signer = Ok addr → addr ≠ clp_module_address →
  Pools s !! pool_key sym = Some p →
  LiquidityProviders s !! GetLiquidityProviderKey sym signer = Some lp →
  PruneUnlockRecords lp a b s = (Ok lp1, s1) →
  UseUnlockedLiquidity lp1 used false s1 = (Ok lp2, s2) →
  is_uint n → is_uint e → is_uint left →
  subtract_from_pool p (LiquidityProviderUnits lp2) left n e = Ok p' →
  RemoveLiquidity p' (sym, e) (NativeSymbol, n) lp2 left
    (ExternalAssetBalance p + ExternalLiabilities p)
    (NativeAssetBalance p + NativeLiabilities p) s2 = (Ok u, s') →
  keeps_books s s'.
Proof.
  intros Hwf Ha Hne Hp Hl Hprune Huse Hn He Hleft Hsub H.
  destruct (wf_lookup_pool _ _ _ Hwf Hp) as [Hsym _].
  apply (found_provider _ _ _ addr) in Hl as (Hls & Hla & Hh); [|done..].
  apply PruneUnlockRecords_Ok in Hprune as (R1 & S1 & Hh1); [|done..].
  apply UseUnlockedLiquidity_Ok in Huse as (R2 & S2 & Hh2); [|apply R1|done].
  pose proof (same_holding_trans _ _ _ S1 S2) as (Hsa & Hsd & _).
  apply (keeps_books_trans _ s2).
  { by apply relocked_books, (relocked_trans _ s1). }
  apply (RemoveLiquidity_books p n e lp2 left p' s2 u s' addr); try done.
  - apply R2.
  - by rewrite (rl_pools _ _ R2), (rl_pools _ _ R1), Hsym.
  - by rewrite <- Hsa, Hls, Hsym.
  - by rewrite <- Hsd, Hla.
  - by rewrite Hsym.
Qed.

Lemma msg_RemoveLiquidityUnits_books msg s u s' addr : clp_wf s →
  acc_from_bech32 (MsgRemoveLiquidityUnits.Signer msg) = Ok addr → addr ≠ clp_module_address →
  msg_RemoveLiquidityUnits msg s = (Ok u, s') → keeps_books s s'.
Proof.
  intros Hwf Ha Hne H. unfold msg_RemoveLiquidityUnits in H. inv_msg.
  match goal with H : GetRemovalQueueUnitsForLP _ _ = _ |- _ =>
    apply GetRemovalQueueUnits_state in H end. subst. case_test; inv_msg.
  do 2 (open_pairs; inv_msg).
  apply withdraw_units_uint in E as (? & ? & ?). apply health_gate_Ok in E7 as ->.
  apply ParseToInt_Ok in E8 as ->; [|done]. apply ParseToInt_Ok in E9 as ->; [|done].
  destruct (wf_lookup_pool _ _ _ Hwf E1) as [Hsym Hpw].
  apply ExtractDebt_plain in E6 as (-> & -> & _); [|done].
  eapply removal_books; [done|exact Ha|done|exact E1|exact E2|exact E5|exact E3| | | |exact E12|exact H]; done.
Qed.

(** A symmetric removal makes no swap. *)
Lemma swap_asymmetry_none msg p e n x r fn fe : MsgRemoveLiquidity.Asymmetry msg = 0 →
  swap_asymmetry msg p e n x r fn fe = Ok (p, e, n).
Proof. unfold swap_asymmetry. by intros ->. Qed.

Lemma msg_RemoveLiquidity_books msg s u s' addr : clp_wf s →
  acc_from_bech32 (MsgRemoveLiquidity.Signer msg) = Ok addr → addr ≠ clp_module_address →
  msg_RemoveLiquidity msg s = (Ok u, s') → keeps_books s s'.
Proof.
  intros Hwf Ha Hne H. unfold msg_RemoveLiquidity in H. inv_msg. case_test; inv_msg.
  match goal with H : GetRemovalQueueUnitsForLP _ _ = _ |- _ =>
    apply GetRemovalQueueUnits_state in H end. subst. case_test; inv_msg.
  do 2 (open_pairs; inv_msg). cbn [andb] in H. bool_prop. rewrite swap_asymmetry_none in H by done.
  apply wrapM_Ok in H.
  apply withdraw_uint in E4 as (? & ? & ?). apply health_gate_Ok in E8 as ->.
  apply ParseToInt_Ok in E9 as ->; [|done]. apply ParseToInt_Ok in E10 as ->; [|done].
  destruct (wf_lookup_pool _ _ _ Hwf E1) as [Hsym Hpw].
  apply ExtractDebt_plain in E as (-> & -> & _); [|done].
  eapply removal_books; [done|exact Ha|done|exact E1|exact E2|exact E7|exact E6| | | |exact E13|exact H]; done.
Qed.
End Removal.
