(* ===== verification/ClpDecommission.v ===== *)
(** * Decommissioning a pool

    The handler of MsgDecommissionPool refunds the listed providers out of the
    pool's balances and then deletes the pool. *)
From S2P Require Import Prelude Sdk Reference ClpTypes ClpCalc ClpCalcProps Admin.
From S2P Require Import TokenRegistry MarginTypes Chain ClpKeeper ClpExec ClpMsg ClpState.
From S2P Require Import ClpSwapProps ClpLiquidityProps ClpRemoveProps.

Section Decommission.
Context {sdk : SDK} {L : SDKLaws sdk} {mk : MarginKeeper}.
Implicit Types s : chain.

Lemma CalculateAllAssets_uint p lp n e l x :
  CalculateAllAssetsForLP p lp = Ok (n, e, l, x) → is_uint n ∧ is_uint e ∧ is_uint l.
Proof. unfold CalculateAllAssetsForLP. intros H. inv_ok. open_pairs. by apply withdraw_uint in H. Qed.

(** Dropping providers leaves the store well formed. *)
Lemma wf_drop_lps s s' : clp_wf s → Pools s' = Pools s →
  LiquidityProviders s' ⊆ LiquidityProviders s → clp_wf s'.
Proof.
  intros [H1 H2 H3] HP HL. split; rewrite ?HP; [done| |done]. intros k lp Hk. apply H2.
  by eapply lookup_weaken.
Qed.

(** A payment out of the module account, to whoever it goes. *)
Lemma transferred_out from to cs b b' d : transferred from to cs b b' → 0 ≤ amount_of cs d →
  bank_balance b from d - amount_of cs d ≤ bank_balance b' from d.
Proof. intros H ?. rewrite (H from d), String.eqb_refl. case_test; lia. Qed.

(** What one refund, or the whole loop, does: the providers' list shrinks and
    the module account pays no more than the balances go down. *)
Record refunded (sym : string) (n e n' e' : Z) (s s' : chain) : Prop := {
  rf_pools : Pools s' = Pools s;
  rf_lps : LiquidityProviders s' ⊆ LiquidityProviders s;
  rf_requests : RemovalRequests s' = RemovalRequests s;
  rf_native : is_uint n' ∧ n' ≤ n;
  rf_external : is_uint e' ∧ e' ≤ e;
  rf_paid d : module_balance s d - amount_of [(NativeSymbol, n - n')] d - amount_of [(sym, e - e')] d
              ≤ module_balance s' d
}.

Lemma amount_of_diff d k x y z : amount_of [(k, x - z)] d
  = amount_of [(k, x - y)] d + amount_of [(k, y - z)] d.
Proof. rewrite !amount_of_one. cbn. case_test; lia. Qed.

Lemma refunded_trans sym n e n1 e1 n2 e2 s s1 s2 :
  refunded sym n e n1 e1 s s1 → refunded sym n1 e1 n2 e2 s1 s2 → refunded sym n e n2 e2 s s2.
Proof.
  intros [P1 L1 R1 N1 E1 D1] [P2 L2 R2 N2 E2 D2]. split; try congruence.
  - by etrans.
  - intuition lia.
  - intuition lia.
  - intros d. specialize (D1 d). specialize (D2 d).
    rewrite (amount_of_diff d NativeSymbol n n1 n2), (amount_of_diff d sym e e1 e2). lia.
Qed.

Lemma refund_lp_Ok sym p u n e lp s u' n' e' s' : is_uint n → is_uint e →
  refund_lp sym p (u, n, e) lp s = (Ok (u', n', e'), s') → refunded sym n e n' e' s s'.
Proof.
  intros Hn He H. unfold refund_lp in H. do 2 (open_pairs; inv_ok). simplify_eq.
  apply CalculateAllAssets_uint in E as (? & ? & _).
  unfold RemoveLiquidityProvider, DestroyLiquidityProvider in *. inv_read.
  apply u_sub_Ok in E1 as [-> ?]; [|done..]. apply u_sub_Ok in E2 as [-> ?]; [|done..].
  split; try done.
  - apply delete_subseteq.
  - split; [done|lia].
  - split; [done|lia].
  - intros d. change (module_balance (s <| Bank := b |> <| LiquidityProviders := _ |>) d)
      with (bank_balance b clp_module_address d).
    assert (amount_of v6 d = amount_of [(NativeSymbol, z1)] d + amount_of [(sym, z2)] d) as Hv.
    { rewrite (new_coins_amount _ _ d E7), amount_of_two.
      change (Symbol GetSettlementAsset) with NativeSymbol. lia. }
    pose proof (transferred_out _ _ _ _ _ d Ht) as Hle. rewrite Hv in Hle.
    replace (n - (n - z1)) with z1 by lia. replace (e - (e - z2)) with z2 by lia.
    assert (∀ k x, 0 ≤ x → 0 ≤ amount_of [(k, x)] d) as Hpos.
    { intros k x ?. rewrite amount_of_one. cbn [fst snd]. case_test; lia. }
    pose proof (Hpos NativeSymbol z1). pose proof (Hpos sym z2).
    change (bank_balance (Bank s) clp_module_address d) with (module_balance s d) in Hle. lia.
Qed.

Lemma refund_lps_Ok sym p lps : ∀ u n e s u' n' e' s', is_uint n → is_uint e →
  refund_lps sym p (u, n, e) lps s = (Ok (u', n', e'), s') → refunded sym n e n' e' s s'.
Proof.
  induction lps as [|lp lps IH]; intros u n e s u' n' e' s' Hn He H; cbn [refund_lps] in H.
  - inv_ok. simplify_eq. split; try done. intros d. rewrite !amount_of_one. cbn [fst snd].
    rewrite !Z.sub_diag. repeat case_test; lia.
  - inv_ok. open_pairs. apply refund_lp_Ok in E as R; [|done..].
    apply (refunded_trans _ _ _ _ _ _ _ _ _ _ R). eapply IH; [apply R|apply R|done].
Qed.

Lemma GetClpWhiteList_state s l s' : GetClpWhiteList s = (Ok l, s') → s' = s.
Proof. unfold GetClpWhiteList. intros H. by inv_ok. Qed.

Lemma ValidateAddress_state a s b s' : ValidateAddress a s = (Ok b, s') → s' = s.
Proof.
  unfold ValidateAddress. intros H. inv_ok. case_match; inv_ok; [|done].
  by apply GetClpWhiteList_state in E.
Qed.

(** The pool a decommissioning deletes and the state after the refunds. *)
Lemma msg_DecommissionPool_Ok msg s u s' : clp_wf s → msg_DecommissionPool msg s = (Ok u, s') →
  ∃ p n e s1, Pools s !! pool_key (MsgDecommissionPool.Symbol msg) = Some p
    ∧ NativeAssetBalance p < PoolThrehold
    ∧ refunded (MsgDecommissionPool.Symbol msg) (NativeAssetBalance p) (ExternalAssetBalance p) n e s s1
    ∧ s' = s1 <| Pools := delete (pool_key (MsgDecommissionPool.Symbol msg)) (Pools s) |>.
Proof.
  intros Hwf H. unfold msg_DecommissionPool in H. inv_read.
  apply ValidateAddress_state in E1. subst. repeat (case_test; inv_ok). bool_prop.
  destruct (wf_lookup_pool _ _ _ Hwf E) as [Hsym Hpw].
  unfold GetLiquidityProvidersForAssetPaginated in *. inv_ok. open_pairs.
  match goal with H : refund_lps _ _ _ _ _ = _ |- _ => apply refund_lps_Ok in H as R; [|apply Hpw..] end.
  unfold DecommissionPool, DestroyPool in H. inv_read. case_test; inv_ok.
  do 4 eexists. split_and!; [done|lia|exact R|]. by rewrite Hsym, (rf_pools _ _ _ _ _ _ _ R).
Qed.

Lemma pool_claim_bound p d n e : pool_wf p → is_uint n → is_uint e →
  n ≤ NativeAssetBalance p → e ≤ ExternalAssetBalance p →
  amount_of [(NativeSymbol, NativeAssetBalance p - n)] d
  + amount_of [(Symbol (ExternalAsset p), ExternalAssetBalance p - e)] d ≤ pool_claim d p.
Proof.
  intros (_ & [? _] & [? _] & _) [? _] [? _] ??. rewrite !amount_of_one. unfold pool_claim.
  cbn [fst snd]. generalize NativeSymbol. intros k. repeat case_test; lia.
Qed.

Lemma msg_DecommissionPool_surplus msg s u s' : clp_wf s →
  msg_DecommissionPool msg s = (Ok u, s') →
  clp_wf s' ∧ RemovalRequests s' = RemovalRequests s
  ∧ Pools s' = delete (pool_key (MsgDecommissionPool.Symbol msg)) (Pools s)
  ∧ ∀ d, surplus s d ≤ surplus s' d.
Proof.
  intros Hwf H. apply msg_DecommissionPool_Ok in H as (p & n & e & s1 & Hp & _ & R & ->); [|done].
  destruct (wf_lookup_pool _ _ _ Hwf Hp) as [Hsym Hpw]. split_and!; [|apply R|done|].
  - destruct (wf_drop_lps s s1 Hwf (rf_pools _ _ _ _ _ _ _ R) (rf_lps _ _ _ _ _ _ _ R)) as [H1 H2 H3].
    split; [|done|]; intros k q; cbn; intros [_ Hq]%lookup_delete_Some;
      [by apply (wf_pool s Hwf)|by eapply (wf_valid s Hwf)].
  - intros d. unfold surplus. change (module_balance (s1 <| Pools := ?x |>) d) with (module_balance s1 d).
    unfold claims at 2. cbn. rewrite (msum_delete _ _ _ _ Hp). fold (claims s d).
    pose proof (rf_paid _ _ _ _ _ _ _ R d) as Hpaid. destruct R as [_ _ _ [? ?] [? ?] _].
    pose proof (pool_claim_bound p d n e Hpw) as Hb. rewrite Hsym in Hb.
    unfold claims. intuition lia.
Qed.
End Decommission.
