(* ===== verification/ClpSystem.v ===== *)
(** * The clp module as a state machine

    x/clp/handler.go dispatches a message to its handler; the application first
    runs ValidateBasic and throws away the writes of a handler that fails.  The
    invariants of the module hold in every state a sequence of messages
    reaches. *)
From S2P Require Import Prelude Sdk Reference ClpTypes ClpCalc ClpCalcProps Admin.
From S2P Require Import TokenRegistry MarginTypes Chain ClpKeeper ClpExec ClpMsg ClpState.
From S2P Require Import ClpSwapProps ClpLiquidityProps ClpRemoveProps ClpDecommission.

(** The messages of x/clp/handler.go (MsgUpdateStakingRewardParams, which writes
    the parameters of the SDK's mint module, is left out). *)
Inductive clp_msg {sdk : SDK} :=
| CreatePoolMsg (m : MsgCreatePool.t)
| DecommissionPoolMsg (m : MsgDecommissionPool.t)
| AddLiquidityMsg (m : MsgAddLiquidity.t)
| RemoveLiquidityMsg (m : MsgRemoveLiquidity.t)
| RemoveLiquidityUnitsMsg (m : MsgRemoveLiquidityUnits.t)
| SwapMsg (m : MsgSwap.t)
| ModifyPmtpRatesMsg (m : MsgModifyPmtpRates.t)
| UpdatePmtpParamsMsg (m : MsgUpdatePmtpParams.t)
| CancelUnlockMsg (m : MsgUnlock.t)
| UnlockLiquidityMsg (m : MsgUnlock.t)
| UpdateRewardsParamsMsg (signer : string) (lockPeriod cancelPeriod : Z)
| AddRewardPeriodMsg (signer : string) (periods : list RewardPeriod)
| UpdateLiquidityProtectionParamsMsg (m : MsgUpdateLiquidityProtectionParams.t)
| ModifyLiquidityProtectionRatesMsg (signer : string) (current : Z)
| AddProviderDistributionPeriodMsg (signer : string) (periods : list ProviderDistributionPeriod)
| UpdateSwapFeeParamsMsg (signer : string) (params : SwapFeeParams)
| SetSymmetryThresholdMsg (signer : string) (threshold ratio : Z).

Section System.
Context {sdk : SDK} {mk : MarginKeeper}.

Definition check_bech32 (signer : string) : res () := acc_from_bech32 signer;; Ok ().

Definition ValidateBasic (m : clp_msg) : res () :=
  match m with
  | CreatePoolMsg m => MsgCreatePool_ValidateBasic m
  | DecommissionPoolMsg m => MsgDecommissionPool_ValidateBasic m
  | AddLiquidityMsg m => MsgAddLiquidity_ValidateBasic m
  | RemoveLiquidityMsg m => MsgRemoveLiquidity_ValidateBasic m
  | RemoveLiquidityUnitsMsg m => MsgRemoveLiquidityUnits_ValidateBasic m
  | SwapMsg m => MsgSwap_ValidateBasic m
  | ModifyPmtpRatesMsg m => check_bech32 (MsgModifyPmtpRates.Signer m)
  | UpdatePmtpParamsMsg m => MsgUpdatePmtpParams_ValidateBasic m
  | CancelUnlockMsg m | UnlockLiquidityMsg m => MsgUnlock_ValidateBasic m
  | UpdateRewardsParamsMsg _ _ _ => Ok ()
  | AddRewardPeriodMsg _ periods => MsgAddRewardPeriod_ValidateBasic periods
  | UpdateLiquidityProtectionParamsMsg m => MsgUpdateLiquidityProtectionParams_ValidateBasic m
  | ModifyLiquidityProtectionRatesMsg signer _ => check_bech32 signer
  | AddProviderDistributionPeriodMsg signer periods =>
      MsgAddProviderDistributionPeriod_ValidateBasic signer periods
  | UpdateSwapFeeParamsMsg signer params => MsgUpdateSwapFeeParams_ValidateBasic signer params
  | SetSymmetryThresholdMsg signer _ _ => MsgSetSymmetryThreshold_ValidateBasic signer
  end.

(** The switch of NewHandler, and MsgSetSymmetryThreshold, which only the service router
    delivers.  MsgUpdateStakingRewardParams, which writes nothing here, is in
    ClpStaking.v. *)
Definition NewHandler (m : clp_msg) : M chain () :=
  match m with
  | CreatePoolMsg m => msg_CreatePool m
  | DecommissionPoolMsg m => msg_DecommissionPool m
  | AddLiquidityMsg m => msg_AddLiquidity m
  | RemoveLiquidityMsg m => msg_RemoveLiquidity m
  | RemoveLiquidityUnitsMsg m => msg_RemoveLiquidityUnits m
  | SwapMsg m => msg_Swap m
  | ModifyPmtpRatesMsg m => msg_ModifyPmtpRates m
  | UpdatePmtpParamsMsg m => msg_UpdatePmtpParams m
  | CancelUnlockMsg m => msg_CancelUnlockLiquidity m
  | UnlockLiquidityMsg m => msg_UnlockLiquidity m
  | UpdateRewardsParamsMsg signer l c => msg_UpdateRewardsParams signer l c
  | AddRewardPeriodMsg signer ps => msg_AddRewardPeriod signer ps
  | UpdateLiquidityProtectionParamsMsg m => msg_UpdateLiquidityProtectionParams m
  | ModifyLiquidityProtectionRatesMsg signer x => msg_ModifyLiquidityProtectionRates signer x
  | AddProviderDistributionPeriodMsg signer ps => msg_AddProviderDistributionPeriod signer ps
  | UpdateSwapFeeParamsMsg signer ps => msg_UpdateSwapFeeParams signer ps
  | SetSymmetryThresholdMsg signer threshold ratio => msg_SetSymmetryThreshold signer threshold ratio
  end.

(** One transaction: the stateless checks, then the handler. *)
Definition tx (m : clp_msg) (s : chain) : chain :=
  match ValidateBasic m with Ok _ => deliver (NewHandler m) s | _ => s end.

Definition run (ms : list clp_msg) (s : chain) : chain := foldl (λ s m, tx m s) s ms.

(** ** Messages as they come out of a decoded transaction *)

(** The signer is an ordinary account, written the way the SDK prints it. *)
Definition account_signer (signer : string) : Prop :=
  ∃ addr, acc_from_bech32 signer = Ok addr ∧ acc_string addr = signer
          ∧ addr ≠ clp_module_address.

(** Amounts are [sdk.Uint]s. *)
Definition decoded (m : clp_msg) : Prop :=
  match m with
  | CreatePoolMsg m =>
      account_signer (MsgCreatePool.Signer m) ∧ is_uint (MsgCreatePool.ExternalAssetAmount m)
      ∧ is_uint (MsgCreatePool.NativeAssetAmount m)
  | AddLiquidityMsg m =>
      account_signer (MsgAddLiquidity.Signer m) ∧ is_uint (MsgAddLiquidity.ExternalAssetAmount m)
      ∧ is_uint (MsgAddLiquidity.NativeAssetAmount m)
  | RemoveLiquidityMsg m => account_signer (MsgRemoveLiquidity.Signer m)
  | RemoveLiquidityUnitsMsg m => account_signer (MsgRemoveLiquidityUnits.Signer m)
  | SwapMsg m => account_signer (MsgSwap.Signer m) ∧ is_uint (MsgSwap.SentAmount m)
  | CancelUnlockMsg m | UnlockLiquidityMsg m => account_signer (MsgUnlock.Signer m)
  | _ => True
  end.

Definition is_decommission (m : clp_msg) : bool :=
  match m with DecommissionPoolMsg _ => true | _ => false end.
End System.

(** ** The requests of the removal queue are never stored *)
Section Requests.
Context {sdk : SDK} {mk : MarginKeeper}.

Definition requests : chain → gmap string RemovalRequest := RemovalRequests.

Lemma keeps_SetPool p : keeps requests (SetPool p).
Proof. unfold SetPool. keep_auto. Qed.
Lemma keeps_GetPool sym : keeps requests (GetPool sym).
Proof. unfold GetPool. keep_auto. Qed.
Lemma keeps_SetLP lp : keeps requests (SetLiquidityProvider lp).
Proof. unfold SetLiquidityProvider. keep_auto. Qed.
Lemma keeps_GetLP a b : keeps requests (GetLiquidityProvider a b).
Proof. unfold GetLiquidityProvider. keep_auto. Qed.
Lemma keeps_onBank_requests {A} (m : M bank A) : keeps requests (onBank m).
Proof. by apply keeps_onBank. Qed.
Lemma keeps_SwapFeeRate a b : keeps requests (GetSwapFeeRate a b).
Proof. unfold GetSwapFeeRate, GetSwapFeeParams. keep_auto. Qed.
Lemma keeps_registry_entry a : keeps requests (registry_entry a).
Proof. unfold registry_entry. keep_auto. Qed.
Lemma keeps_permission a b : keeps requests (require_permission a b).
Proof. unfold require_permission. keep_auto. Qed.
Lemma keeps_MustUpdate a b c : keeps requests (MustUpdateLiquidityProtectionThreshold a b c).
Proof.
  unfold MustUpdateLiquidityProtectionThreshold,
    SetLiquidityProtectionCurrentFuryLiquidityThreshold. keep_auto.
Qed.
Hint Resolve keeps_SetPool keeps_GetPool keeps_SetLP keeps_GetLP keeps_onBank_requests
  keeps_SwapFeeRate keeps_registry_entry keeps_permission keeps_MustUpdate : frame.
Lemma keeps_NativePrice : keeps requests GetNativePrice.
Proof. unfold GetNativePrice. keep_auto. Qed.
Lemma keeps_IsBlocked a b : keeps requests (IsBlockedByLiquidityProtection a b).
Proof. unfold IsBlockedByLiquidityProtection. keep_auto. Qed.
Lemma keeps_Prune lp a b : keeps requests (PruneUnlockRecords lp a b).
Proof. unfold PruneUnlockRecords. keep_auto. Qed.
Lemma keeps_UseUnlocked lp a b : keeps requests (UseUnlockedLiquidity lp a b).
Proof. unfold UseUnlockedLiquidity. keep_auto. Qed.
Hint Resolve keeps_NativePrice keeps_IsBlocked keeps_Prune keeps_UseUnlocked : frame.

(** A request is written only on the way to [ErrQueued]. *)
Lemma keeps_health_gate a b c d e f g h : keeps requests (health_gate a b c d e f g h).
Proof. unfold health_gate. keep_auto. Qed.
Hint Resolve keeps_health_gate : frame.

Lemma keeps_Swap m : keeps requests (msg_Swap m).
Proof.
  unfold msg_Swap, swap_price, swap_first_leg, swap_update_threshold, InitiateSwap,
    FinalizeSwap. keep_auto.
Qed.
Lemma keeps_CreatePool m : keeps requests (msg_CreatePool m).
Proof.
  unfold msg_CreatePool, ExistsPool, CreatePool, CreateLiquidityProvider. keep_auto.
Qed.
Lemma keeps_GetRemovalQueueUnits lp : keeps requests (GetRemovalQueueUnitsForLP lp).
Proof. unfold GetRemovalQueueUnitsForLP. keep_auto. Qed.
Lemma keeps_DestroyLP a b : keeps requests (DestroyLiquidityProvider a b).
Proof. unfold DestroyLiquidityProvider. keep_auto. Qed.
Hint Resolve keeps_GetRemovalQueueUnits keeps_DestroyLP : frame.
Lemma keeps_RemoveLiquidityUnits m : keeps requests (msg_RemoveLiquidityUnits m).
Proof. unfold msg_RemoveLiquidityUnits, RemoveLiquidity. keep_auto. Qed.
Lemma keeps_RemoveLiquidity m : keeps requests (msg_RemoveLiquidity m).
Proof. unfold msg_RemoveLiquidity, RemoveLiquidity. keep_auto. Qed.
Lemma keeps_Unlock m : keeps requests (msg_UnlockLiquidity m).
Proof. unfold msg_UnlockLiquidity. keep_auto. Qed.
Lemma keeps_CancelUnlock m : keeps requests (msg_CancelUnlockLiquidity m).
Proof. unfold msg_CancelUnlockLiquidity. keep_auto. Qed.
End Requests.

(** ** The invariants *)

(** The store is well formed, the removal queue empty, and the module account
    holds at least what the pools claim. *)
Record clp_inv {sdk : SDK} (s : chain) : Prop := {
  inv_wf : clp_wf s;
  inv_requests : RemovalRequests s = ∅;
  inv_solvent d : 0 ≤ surplus s d
}.

Section Invariant.
Context {sdk : SDK} {L : SDKLaws sdk} {mk : MarginKeeper}.
Implicit Types s : chain.

(** The part of the state the invariants read. *)
Definition books s := (Pools s, LiquidityProviders s, Bank s, RemovalRequests s).

Lemma books_same s s' : books s' = books s → clp_wf s →
  keeps_books s s' ∧ RemovalRequests s' = RemovalRequests s.
Proof.
  intros [= HP HL HB HR] Hwf. split; [|done].
  assert (same_ledger s s') as Hs by done. split.
  - by apply (same_ledger_wf s).
  - intros d. by apply same_ledger_surplus.
  - intros sym. by apply same_ledger_gap.
Qed.

Lemma admin_books (m : clp_msg) : match m with
  | ModifyPmtpRatesMsg _ | UpdatePmtpParamsMsg _ | UpdateRewardsParamsMsg _ _ _
  | AddRewardPeriodMsg _ _ | UpdateLiquidityProtectionParamsMsg _
  | ModifyLiquidityProtectionRatesMsg _ _ | AddProviderDistributionPeriodMsg _ _
  | UpdateSwapFeeParamsMsg _ _ | SetSymmetryThresholdMsg _ _ _ => keeps books (NewHandler m)
  | _ => True
  end.
Proof.
  destruct m; try done; cbn [NewHandler];
    unfold msg_ModifyPmtpRates, msg_UpdatePmtpParams, msg_UpdateRewardsParams, msg_AddRewardPeriod,
      msg_UpdateLiquidityProtectionParams, msg_ModifyLiquidityProtectionRates,
      msg_AddProviderDistributionPeriod, msg_UpdateSwapFeeParams, msg_SetSymmetryThreshold, IsInsidePmtpWindow, SetPmtpEpoch,
      SetPmtpInterPolicyRate, SetLiquidityProtectionCurrentFuryLiquidityThreshold; keep_auto.
Qed.

Lemma unlock_books m s u s' : clp_wf s → account_signer (MsgUnlock.Signer m) →
  msg_UnlockLiquidity m s = (Ok u, s') → keeps_books s s'.
Proof.
  intros Hwf (addr & Ha & _) H. unfold msg_UnlockLiquidity in H. inv_read.
  match goal with H : LiquidityProviders s !! _ = Some _ |- _ =>
    apply (found_provider _ _ _ addr) in H as (_ & _ & Hh); [|done..] end.
  match goal with H : PruneUnlockRecords _ _ _ _ = _ |- _ =>
    apply PruneUnlockRecords_Ok in H as (R & S & Hh1); [|done..] end.
  case_test; inv_ok. destruct Hh1 as (l & Hl & Hsl).
  apply SetLiquidityProvider_same in H as [R2 _]; [|apply R|by exists l].
  by apply relocked_books, (relocked_trans _ s2).
Qed.

Lemma cancel_books m s u s' : clp_wf s → account_signer (MsgUnlock.Signer m) →
  msg_CancelUnlockLiquidity m s = (Ok u, s') → keeps_books s s'.
Proof.
  intros Hwf (addr & Ha & _) H. unfold msg_CancelUnlockLiquidity in H. inv_read.
  match goal with H : LiquidityProviders s !! _ = Some _ |- _ =>
    apply (found_provider _ _ _ addr) in H as (_ & _ & Hh); [|done..] end.
  match goal with H : PruneUnlockRecords _ _ _ _ = _ |- _ =>
    apply PruneUnlockRecords_Ok in H as (R & S & Hh1); [|done..] end.
  match goal with H : UseUnlockedLiquidity _ _ _ _ = _ |- _ =>
    apply UseUnlockedLiquidity_Ok in H as (R2 & _ & _); [|apply R|done] end.
  by eapply relocked_books, relocked_trans.
Qed.

(** What one successful handler does to the books. *)
Lemma handler_books m s u s' : clp_wf s → RemovalRequests s = ∅ → decoded m →
  ValidateBasic m = Ok () → NewHandler m s = (Ok u, s') →
  clp_wf s' ∧ RemovalRequests s' = ∅ ∧ (∀ d, surplus s d ≤ surplus s' d)
  ∧ (is_decommission m = false → ∀ d, surplus s' d = surplus s d)
  ∧ (units_match s → is_decommission m = false → ∀ sym, unit_gap s' sym = unit_gap s sym).
Proof.
  intros Hwf Hq Hd Hv H.
  assert (keeps_books s s' ∧ RemovalRequests s' = RemovalRequests s →
    clp_wf s' ∧ RemovalRequests s' = ∅ ∧ (∀ d, surplus s d ≤ surplus s' d)
    ∧ (is_decommission m = false → ∀ d, surplus s' d = surplus s d)
    ∧ (units_match s → is_decommission m = false → ∀ sym, unit_gap s' sym = unit_gap s sym)) as Hk.
  { intros [[W S G] R]. split_and!; [done|congruence| |done|done]. intros d. rewrite S. lia. }
  pose proof (admin_books m) as Hadm.
  destruct m as [m|m|m|m|m|m| | |m|m| | | | | | |]; cbn [NewHandler ValidateBasic] in H, Hv;
    try (apply Hk, books_same; [by eapply Hadm|done]).
  - destruct Hd as ((addr & Ha & _ & Hne) & He & Hn).
    pose proof H as Hs. apply (msg_CreatePool_surplus _ _ _ _ addr) in Hs as [W S]; [|done..].
    split_and!; [done| |intros d; rewrite S; lia|done|].
    + pose proof (keeps_CreatePool _ _ _ _ H) as R. unfold requests in R. congruence.
    + intros Hm _. by eapply msg_CreatePool_books.
  - apply msg_DecommissionPool_surplus in H as (W & R & _ & S); [|done].
    split_and!; [done|congruence|done|done|done].
  - destruct Hd as ((addr & Ha & Hc & Hne) & He & Hn). apply Hk.
    by eapply msg_AddLiquidity_books.
  - destruct Hd as (addr & Ha & _ & Hne). apply Hk. split; [|by eapply keeps_RemoveLiquidity].
    by eapply msg_RemoveLiquidity_books.
  - destruct Hd as (addr & Ha & _ & Hne). apply Hk. split; [|by eapply keeps_RemoveLiquidityUnits].
    by eapply msg_RemoveLiquidityUnits_books.
  - destruct Hd as ((addr & Ha & _ & Hne) & Hx). apply Hk. split; [|by eapply keeps_Swap].
    apply msg_Swap_Ok in H as (a & y & b1 & Ha' & Hsw); [|done..].
    assert (a = addr) as -> by congruence. split; [apply Hsw| |].
    + intros d. by eapply swapped_surplus.
    + intros sym. unfold unit_gap, lp_total.
      by rewrite (sw_lps _ _ _ _ _ _ Hsw), (sw_units _ _ _ _ _ _ Hsw).
  - apply Hk. split; [by eapply cancel_books|by eapply keeps_CancelUnlock].
  - apply Hk. split; [by eapply unlock_books|by eapply keeps_Unlock].
Qed.

Lemma tx_books m s : clp_inv s → decoded m →
  clp_inv (tx m s) ∧ (is_decommission m = false → ∀ d, surplus (tx m s) d = surplus s d)
  ∧ (units_match s → is_decommission m = false → units_match (tx m s)).
Proof.
  intros Hi Hd. unfold tx. destruct (ValidateBasic m) as [[]| |] eqn:Hv; try done.
  unfold deliver. destruct (NewHandler m s) as [[[]| |] s'] eqn:H; try done.
  apply handler_books in H as (W & R & S & Q & G); [|apply Hi|apply Hi|done..]. split_and!; [|done|].
  - split; [done|done|]. intros d. specialize (S d). pose proof (inv_solvent s Hi d). lia.
  - intros Hm Hn sym. by rewrite (G Hm Hn sym).
Qed.
End Invariant.
