(* ===== verification/ClpDebts.v ===== *)
(** * The clp handlers leave the margin amounts of the pools alone

    Custody and liabilities are fields of a pool that only the margin module
    changes.  A handler of clp writes pools it has read and changed elsewhere, or a
    new pool without any; [tied] follows a pool from where it is read to where it
    is written. *)
From S2P Require Import Prelude Wp Sdk ClpTypes ClpCalc Admin TokenRegistry MarginTypes Chain.
From S2P Require Import ClpKeeper ClpExec ClpMsg ClpState ClpSystem.

Definition margin_part (p : Pool) : Z * Z * Z * Z :=
  (NativeLiabilities p, ExternalLiabilities p, NativeCustody p, ExternalCustody p).

Section Debts.
Context {sdk : SDK} {mk : MarginKeeper}.
Implicit Types s : chain.

(** The pool as it was in [s0], as far as margin is concerned; a new one has nothing. *)
Definition tied s0 (p : Pool) : Prop :=
  margin_part p = match Pools s0 !! pool_key (Symbol (ExternalAsset p)) with
                  | Some q => margin_part q
                  | None => (0, 0, 0, 0)
                  end.

Record debts_kept s0 s : Prop := {
  dk_tied k p : Pools s !! k = Some p → k = pool_key (Symbol (ExternalAsset p)) ∧ tied s0 p;
  dk_stays k : Pools s !! k = None → Pools s0 !! k = None
}.

Lemma debts_kept_refl s : (∀ k p, Pools s !! k = Some p → k = pool_key (Symbol (ExternalAsset p))) → debts_kept s s.
Proof.
  intros Hk. split; [|done]. intros k p Hp. pose proof (Hk k p Hp) as ->. split; [done|]. unfold tied. by rewrite Hp.
Qed.

End Debts.

Create HintDb tied.

Section Walk.
Context {sdk : SDK} {mk : MarginKeeper} (s0 : chain).

(** [m] keeps the debts however it ends short of a panic, and its results are [R]. *)
Definition keeps_debts {A} (m : M chain A) (R : A → Prop) : Prop :=
  ∀ s, debts_kept s0 s → wp m (λ a s', debts_kept s0 s' ∧ R a) (debts_kept s0) s.

Lemma kd_mono {A} (m : M chain A) (R R' : A → Prop) : keeps_debts m R → (∀ a, R a → R' a) → keeps_debts m R'.
Proof. intros H HR s Hs. eapply wp_mono; [by apply H|intros a s' [? ?]; auto|done]. Qed.

Lemma kd_bind {A B} (m : M chain A) (k : A → M chain B) R R' :
  keeps_debts m R → (∀ a, R a → keeps_debts (k a) R') → keeps_debts (m ≫= k) R'.
Proof. intros Hm Hk s Hs. apply wp_bind. eapply wp_mono; [by apply Hm|intros a s' [? ?]; by apply Hk|done]. Qed.

Lemma kd_ret {A} (a : A) (R : A → Prop) : R a → keeps_debts (mret a) R.
Proof. intros Ha s Hs. by apply wp_ret. Qed.

Lemma kd_lift {A} (r : res A) : keeps_debts (lift r) (λ a, r = Ok a).
Proof. intros s Hs. apply wp_lift; [by intros a ->|done]. Qed.

Lemma kd_frames {A} (m : M chain A) : frames Pools m → keeps_debts m (λ _, True).
Proof.
  intros Hf s [H1 H2]. eapply wp_mono; [by apply (wp_frames Pools)| |].
  - intros a s' Hp. cbn in Hp. split; [|done]. split; by rewrite Hp.
  - intros s' Hp. split; by rewrite Hp.
Qed.

Lemma kd_fail {A} e (R : A → Prop) : keeps_debts (fail e) R.
Proof. intros s Hs. by apply wp_fail. Qed.

Lemma kd_wrapM {A} e (m : M chain A) R : keeps_debts m R → keeps_debts (wrapM e m) R.
Proof. intros H s Hs. specialize (H s Hs). unfold wp, wrapM in *. by destruct (m s) as [[]]. Qed.

Lemma kd_try {A} (m : M chain A) R : keeps_debts m R →
  keeps_debts (try m) (λ r, match r with inl a => R a | inr _ => True end).
Proof. intros H s Hs. specialize (H s Hs). unfold wp, try in *. by destruct (m s) as [[]]. Qed.

Lemma kd_forM {A} (l : list A) body : (∀ x, keeps_debts (body x) (λ _, True)) →
  keeps_debts (forM l body) (λ _, True).
Proof. intros H. induction l as [|x l IH]; [by apply kd_ret|]. eapply kd_bind; [apply H|by intros]. Qed.

Lemma kd_GetPool sym : keeps_debts (GetPool sym) (tied s0).
Proof.
  intros s Hs. unfold GetPool. wp_steps. destruct (Pools s !! pool_key sym) as [p|] eqn:Hp; wp_steps; [|done].
  split; [done|]. by apply (dk_tied _ _ Hs) in Hp as [_ ?].
Qed.

Lemma kd_ExistsPool sym : keeps_debts (ExistsPool sym) (λ b, b = false → Pools s0 !! pool_key sym = None).
Proof.
  intros s Hs. unfold ExistsPool. wp_steps. split; [done|]. intros Hb. apply (dk_stays _ _ Hs).
  by destruct (Pools s !! pool_key sym).
Qed.

Lemma kd_SetPool p : tied s0 p → keeps_debts (SetPool p) (λ _, True).
Proof.
  intros Hp s Hs. unfold SetPool. wp_steps. apply wp_lift; [intros v _|done]. wp_steps. case_test; wp_steps; [done|].
  split; [|done]. destruct Hs as [H1 H2]. split; cbn.
  - intros k q [[<- <-]|[_ Hq]]%lookup_insert_Some; [done|by apply H1].
  - intros k [Hq _]%lookup_insert_None. by apply H2.
Qed.

(** Functions that change balances and units only. *)
Lemma tied_same p q : ExternalAsset q = ExternalAsset p → margin_part q = margin_part p → tied s0 p → tied s0 q.
Proof. unfold tied. by intros -> ->. Qed.

Lemma UpdateBalances_tied p f a b c d q : UpdateBalances p f a b c d = Ok q → tied s0 p → tied s0 q.
Proof. unfold UpdateBalances. intros H. destruct f; inv_ok; by apply tied_same. Qed.

Lemma SwapOne_tied a b c p d e x y z q : SwapOne a b c p d e = Ok (x, y, z, q) → tied s0 p → tied s0 q.
Proof.
  unfold SwapOne. intros H. destruct (ExtractValues p c) as [[[X Y] f] g]. inv_ok.
  repeat (match goal with v : (_ * _)%type |- _ => destruct v end; inv_ok). case_test; inv_ok.
  by eapply UpdateBalances_tied.
Qed.

Lemma subtract_tied p a b c d q : subtract_from_pool p a b c d = Ok q → tied s0 p → tied s0 q.
Proof. unfold subtract_from_pool. intros H. inv_ok. by apply tied_same. Qed.

Lemma asymmetry_tied msg p e n a b c d q x y : swap_asymmetry msg p e n a b c d = Ok (q, x, y) → tied s0 p → tied s0 q.
Proof.
  unfold swap_asymmetry. intros H Hp. inv_ok. destruct v as [[p1 e1] n1].
  assert (tied s0 p1) as Hp1.
  { clear H. case_test; inv_ok; [|done]. destruct v as [[[? ?] ?] p2]. inv_ok. destruct v as [? ?]. inv_ok.
    by eapply SwapOne_tied. }
  case_test; inv_ok; [|done]. destruct v as [[[? ?] ?] p2]. inv_ok. destruct v as [? ?]. inv_ok.
  by eapply SwapOne_tied.
Qed.

(** ** The walk through the handlers *)
Hint Resolve UpdateBalances_tied SwapOne_tied subtract_tied asymmetry_tied : tied.

Lemma frames_Bank {A} (m : M bank A) : frames Pools (onBank m).
Proof. intros s. unfold onBank. by destruct (m (Bank s)). Qed.
Hint Resolve frames_Bank : reads.

(** A step that does not write pools. *)
Ltac frames_pools :=
  unfold CreateLiquidityProvider, SetLiquidityProvider, GetLiquidityProvider, DestroyLiquidityProvider, GetPool,
    GetSwapFeeRate, GetSwapFeeParams, registry_entry, require_permission, require_admin,
    ValidateAddress, GetClpWhiteList, GetLiquidityProvidersForAssetPaginated, IsInsidePmtpWindow,
    SetPmtpEpoch, SetPmtpInterPolicyRate, SetLiquidityProtectionCurrentFuryLiquidityThreshold,
    GetRemovalQueue, SetRemovalQueue, set_request in *; frames_auto.

Lemma frames_Pools_price : frames Pools GetNativePrice.
Proof. unfold GetNativePrice. frames_pools. Qed.
Lemma frames_Pools_protect a b c : frames Pools (MustUpdateLiquidityProtectionThreshold a b c).
Proof. unfold MustUpdateLiquidityProtectionThreshold. frames_pools. Qed.
Lemma frames_Pools_blocked a b : frames Pools (IsBlockedByLiquidityProtection a b).
Proof. unfold IsBlockedByLiquidityProtection. frames_pools. Qed.
Lemma frames_Pools_prune lp a b : frames Pools (PruneUnlockRecords lp a b).
Proof. unfold PruneUnlockRecords. frames_pools. Qed.
Lemma frames_Pools_unlocked lp a b : frames Pools (UseUnlockedLiquidity lp a b).
Proof. unfold UseUnlockedLiquidity. frames_pools. Qed.
Lemma frames_Pools_queued lp : frames Pools (GetRemovalQueueUnitsForLP lp).
Proof. unfold GetRemovalQueueUnitsForLP. frames_pools. Qed.
Lemma frames_Pools_gate a b c d e f g h : frames Pools (health_gate a b c d e f g h).
Proof. unfold health_gate, QueueRemoval. frames_pools. Qed.
Hint Resolve frames_Pools_price frames_Pools_protect frames_Pools_blocked frames_Pools_prune frames_Pools_unlocked
  frames_Pools_queued frames_Pools_gate : reads.
Lemma frames_Pools_checks a b c d e f g h i : frames Pools (add_checks a b c d e f g h i).
Proof. unfold add_checks. frames_pools. Qed.
Lemma frames_Pools_swap_price a b : frames Pools (swap_price a b).
Proof. unfold swap_price. frames_pools. Qed.
Lemma frames_Pools_threshold a b c d e f : frames Pools (swap_update_threshold a b c d e f).
Proof. unfold swap_update_threshold. frames_pools. Qed.
Lemma frames_Pools_initiate a b : frames Pools (InitiateSwap a b).
Proof. unfold InitiateSwap. frames_pools. Qed.
Lemma frames_Pools_processed a b c : frames Pools (SetProcessedRemovalRequest a b c).
Proof. unfold SetProcessedRemovalRequest, DequeueRemovalRequest. frames_pools. Qed.
Hint Resolve frames_Pools_checks frames_Pools_swap_price frames_Pools_threshold frames_Pools_initiate
  frames_Pools_processed : reads.

(** One call with what is known of its result. *)
Ltac kd_call :=
  match goal with
  | |- keeps_debts (wrapM _ _) _ => eapply kd_wrapM; kd_call
  | |- keeps_debts (try _) _ => eapply kd_try; kd_call
  | |- keeps_debts (lift _) _ => apply kd_lift
  | |- keeps_debts (GetPool _) _ => apply kd_GetPool
  | |- keeps_debts (ExistsPool _) _ => apply kd_ExistsPool
  | |- keeps_debts (SetPool _) _ => apply kd_SetPool; eauto using tied_same with tied
  | |- _ => solve [auto with tied]
  | |- _ => apply kd_frames; solve [frames_pools]
  end.
Ltac kd_step :=
  match goal with
  | H : subtract_from_pool _ _ _ _ _ = Ok _ |- _ => apply subtract_tied in H; [|assumption]
  | H : SwapOne _ _ _ _ _ _ = Ok _ |- _ => apply SwapOne_tied in H; [|assumption]
  | H : swap_asymmetry _ _ _ _ _ _ _ _ = Ok _ |- _ => apply asymmetry_tied in H; [|assumption]
  | |- keeps_debts (mret _) _ => by apply kd_ret
  | |- keeps_debts (fail _) _ => apply kd_fail
  | |- keeps_debts (if ?b then _ else _) _ => destruct b eqn:?
  | |- keeps_debts (let '(_, _) := ?x in _) _ => destruct x
  | |- keeps_debts (match ?x with _ => _ end) _ => destruct x eqn:?
  | |- keeps_debts (_ ≫= _) _ => eapply kd_bind; [kd_call|cbv beta; intros]
  | |- keeps_debts _ _ => eapply kd_mono; [kd_call|done]
  end.

Lemma kd_RemoveLiquidity p a b lp c d e : tied s0 p → keeps_debts (RemoveLiquidity p a b lp c d e) (λ _, True).
Proof. intros Hp. unfold RemoveLiquidity. repeat kd_step. Qed.
Hint Resolve kd_RemoveLiquidity : tied.

Lemma kd_AddLiquidity msg p a b : tied s0 p → keeps_debts (AddLiquidity msg p a b) (λ _, True).
Proof. intros Hp. unfold AddLiquidity. repeat kd_step. Qed.

Lemma kd_ProcessRemoveLiquidityMsg msg : keeps_debts (ProcessRemoveLiquidityMsg msg) (λ _, True).
Proof. unfold ProcessRemoveLiquidityMsg. repeat kd_step. Qed.
Hint Resolve kd_AddLiquidity kd_ProcessRemoveLiquidityMsg : tied.

Lemma kd_ProcessRemovalQueue msg u : keeps_debts (ProcessRemovalQueue msg u) (λ _, True).
Proof.
  unfold ProcessRemovalQueue. repeat kd_step. apply kd_forM. intros r. unfold process_request. repeat kd_step.
  Qed.
Hint Resolve kd_ProcessRemovalQueue : tied.

Lemma kd_FinalizeSwap a p msg : tied s0 p → keeps_debts (FinalizeSwap a p msg) (λ _, True).
Proof. intros Hp. unfold FinalizeSwap. repeat kd_step. Qed.
Hint Resolve kd_FinalizeSwap : tied.

Lemma kd_msg_AddLiquidity msg : keeps_debts (msg_AddLiquidity msg) (λ _, True).
Proof. unfold msg_AddLiquidity. repeat kd_step. Qed.
Lemma kd_msg_RemoveLiquidityUnits msg : keeps_debts (msg_RemoveLiquidityUnits msg) (λ _, True).
Proof. unfold msg_RemoveLiquidityUnits. repeat kd_step. Qed.
Lemma kd_msg_RemoveLiquidity msg : keeps_debts (msg_RemoveLiquidity msg) (λ _, True).
Proof. unfold msg_RemoveLiquidity. repeat kd_step. Qed.

(** The pool a swap takes from, if any. *)
Definition tied_opt (o : option Pool) : Prop := match o with Some p => tied s0 p | None => True end.

Lemma kd_in_pool (b : bool) e sym : keeps_debts
  (if b then p ← wrapM e (GetPool sym); mret (Some p) else mret None) tied_opt.
Proof.
  destruct b; [|by apply kd_ret]. eapply kd_bind; [apply kd_wrapM, kd_GetPool|]. intros p Hp. by apply kd_ret.
Qed.

Lemma kd_swap_first_leg msg o a b : tied_opt o → keeps_debts (swap_first_leg msg o a b) (λ _, True).
Proof. intros Ho. unfold swap_first_leg. destruct o as [p|]; [cbn in Ho|]; repeat kd_step. Qed.
Hint Resolve kd_in_pool kd_swap_first_leg : tied.

Lemma kd_msg_Swap msg : keeps_debts (msg_Swap msg) (λ _, True).
Proof. unfold msg_Swap. repeat kd_step. Qed.

Lemma kd_CreatePool u msg : Pools s0 !! pool_key (Symbol (MsgCreatePool.ExternalAsset msg)) = None →
  keeps_debts (CreatePool u msg) (λ _, True).
Proof.
  intros Hn. assert (∀ n e, tied s0 (NewPool (MsgCreatePool.ExternalAsset msg) n e u)) as Ht
    by (intros n e; unfold tied; cbn; by rewrite Hn).
  unfold CreatePool. repeat kd_step.
Qed.

Lemma kd_msg_CreatePool msg : keeps_debts (msg_CreatePool msg) (λ _, True).
Proof.
  unfold msg_CreatePool. repeat kd_step.
  eapply kd_bind; [eapply kd_wrapM, kd_CreatePool; auto|intros; repeat kd_step].
Qed.

(** Every message of clp except a decommissioning. *)
Lemma kd_NewHandler m : is_decommission m = false → keeps_debts (NewHandler m) (λ _, True).
Proof.
  destruct m; cbn [NewHandler is_decommission]; intros Hd; try done;
    first [apply kd_msg_CreatePool|apply kd_msg_AddLiquidity|apply kd_msg_RemoveLiquidityUnits
          |apply kd_msg_RemoveLiquidity|apply kd_msg_Swap|idtac].
  all: apply kd_frames;
    unfold msg_ModifyPmtpRates, msg_UpdatePmtpParams, msg_CancelUnlockLiquidity, msg_UnlockLiquidity,
      msg_UpdateRewardsParams, msg_AddRewardPeriod, msg_UpdateLiquidityProtectionParams,
      msg_ModifyLiquidityProtectionRates, msg_AddProviderDistributionPeriod, msg_UpdateSwapFeeParams,
      msg_SetSymmetryThreshold; frames_pools.
Qed.
End Walk.
