(* ===== verification/ClpInvariants.v ===== *)
(** * The invariants the module states about itself

    x/clp/keeper/invariants.go: the checks of the module account and of the
    units.  A check returns [true] when the invariant is broken. *)
From S2P Require Import Prelude Sdk Reference ClpTypes ClpCalc ClpCalcProps Admin.
From S2P Require Import TokenRegistry MarginTypes Chain ClpKeeper ClpExec ClpMsg ClpState.

Section Checks.
Context {sdk : SDK}.

(** [sdk.NewUintFromString(bankKeeper.GetBalance(...).Amount.String())] *)
Definition module_uint (symbol : string) : M chain Z :=
  b ← gets Bank;
  lift (u_of_str (i_str (bank_balance b clp_module_address symbol))).

Definition external_matches (pool : Pool) : M chain bool :=
  balance ← module_uint (Symbol (ExternalAsset pool));
  total ← lift (u_add (ExternalAssetBalance pool) (ExternalCustody pool));
  mret (total =? balance).

(** The loop over the pools: the native totals, or [None] at a mismatch. *)
Fixpoint check_pools (external : bool) (nativeBalance nativeCustody : Z) (pools : list Pool)
    : M chain (option (Z * Z)) :=
  match pools with
  | [] => mret (Some (nativeBalance, nativeCustody))
  | pool :: pools' =>
      n ← lift (u_add nativeBalance (NativeAssetBalance pool));
      c ← lift (u_add nativeCustody (NativeCustody pool));
      ok ← (if external then external_matches pool else mret true);
      if negb ok then mret None else check_pools external n c pools'
  end.

Definition native_mismatch (clpModuleTotalNativeBalance : Z) (totals : option (Z * Z)) : res bool :=
  match totals with
  | None => Ok true
  | Some (n, c) => total ← u_add n c; Ok (negb (total =? clpModuleTotalNativeBalance))
  end.

Definition BalanceModuleAccountCheck : M chain bool :=
  balance ← module_uint (Symbol GetSettlementAsset);
  pools ← GetPools;
  totals ← check_pools true 0 0 pools;
  lift (native_mismatch balance totals).

Definition SingleExternalBalanceModuleAccountCheck (externalAsset : string) : M chain bool :=
  found ← try (GetPool externalAsset);
  ok ← (match found with inl pool => external_matches pool | inr _ => mret true end);
  if negb ok then mret true else
  balance ← module_uint (Symbol GetSettlementAsset);
  pools ← GetPools;
  totals ← check_pools false 0 0 pools;
  lift (native_mismatch balance totals).

Definition units_of (lps : list LiquidityProvider) : res Z :=
  foldR (λ t lp, u_add t (LiquidityProviderUnits lp)) 0 lps.

Fixpoint check_units (pools : list Pool) : M chain bool :=
  match pools with
  | [] => mret false
  | pool :: pools' =>
      lps ← GetAllLiquidityProvidersForAsset (ExternalAsset pool);
      totalLPUnits ← lift (units_of lps);
      if negb (PoolUnits pool =? totalLPUnits) then mret true else check_units pools'
  end.

Definition UnitsCheck : M chain bool := pools ← GetPools; check_units pools.
End Checks.

(** ** Sums over the pools of a listing *)
Section Sums.
Context {sdk : SDK} {L : SDKLaws sdk}.
Implicit Types s : chain.

(** A listing of the store has the sums of the store. *)
Lemma listing_sum {A} (f : A → Z) (m : gmap string A) : zsum f (kv_iterate m).*2 = msum f m.
Proof.
  rewrite msum_list. transitivity (zsum f (map_to_list m).*2).
  - apply zsum_perm, Permutation_map, kv_iterate_law.
  - induction (map_to_list m) as [|[k x] l IH]; cbn; [done|lia].
Qed.

Lemma listing_elem {A} (m : gmap string A) x : x ∈ (kv_iterate m).*2 ↔ ∃ k, m !! k = Some x.
Proof.
  rewrite list_elem_of_fmap. split.
  - intros ([k y] & -> & Hin). exists k. rewrite kv_iterate_law in Hin.
    by apply elem_of_map_to_list in Hin.
  - intros [k Hk]. exists (k, x). split; [done|]. rewrite kv_iterate_law.
    by apply elem_of_map_to_list.
Qed.

Lemma claims_native s : clp_wf s →
  claims s NativeSymbol
  = zsum NativeAssetBalance (kv_iterate (Pools s)).*2 + zsum NativeCustody (kv_iterate (Pools s)).*2.
Proof.
  intros Hwf. unfold claims. rewrite <- listing_sum, <- zsum_plus. apply zsum_ext.
  intros p [k Hk]%listing_elem. apply (wf_pool s Hwf) in Hk as [_ (_ & _ & _ & Hs & _)].
  unfold pool_claim. rewrite String.eqb_refl. unfold IsSettlementAsset, AssetEquals in Hs.
  change (Symbol GetSettlementAsset) with NativeSymbol in Hs. rewrite Hs. lia.
Qed.

Lemma msum_zero {A} (f : A → Z) (m : gmap string A) :
  (∀ k x, m !! k = Some x → f x = 0) → msum f m = 0.
Proof.
  intros Hf. rewrite <- listing_sum. transitivity (zsum (λ _ : A, 0) (kv_iterate m).*2).
  - apply zsum_ext. intros x [k Hk]%listing_elem. by eapply Hf.
  - induction (kv_iterate m).*2; cbn; lia.
Qed.

Lemma claims_external s sym p : clp_wf s → Pools s !! pool_key sym = Some p →
  claims s sym = ExternalAssetBalance p + ExternalCustody p.
Proof.
  intros Hwf Hp. destruct (wf_lookup_pool _ _ _ Hwf Hp) as [Hs (_ & _ & _ & Hn & _)].
  unfold IsSettlementAsset, AssetEquals in Hn. rewrite Hs in Hn.
  change (Symbol GetSettlementAsset) with NativeSymbol in Hn.
  unfold claims. pose proof (msum_delete (pool_claim sym) _ _ _ Hp) as Hd.
  rewrite (msum_zero (pool_claim sym) (delete _ _)) in Hd.
  - unfold pool_claim in Hd at 2. rewrite Hs, String.eqb_refl, String.eqb_sym, Hn in Hd. lia.
  - intros k q [Hk Hq]%lookup_delete_Some. apply (wf_pool s Hwf) in Hq as [-> _].
    unfold pool_claim. rewrite (String.eqb_sym NativeSymbol), Hn.
    destruct (String.eqb_spec (Symbol (ExternalAsset q)) sym) as [Heq|]; [|lia].
    by rewrite Heq in Hk.
Qed.

Lemma lp_total_filter s sym : lp_total s sym
  = zsum LiquidityProviderUnits (filter (λ lp, AssetEquals (LPAsset lp) (mkAsset sym) = true)
                                   (kv_iterate (LiquidityProviders s)).*2).
Proof.
  rewrite (zsum_filter LiquidityProviderUnits (λ lp, AssetEquals (LPAsset lp) (mkAsset sym))).
  unfold lp_total. rewrite <- listing_sum. done.
Qed.

(** Sums whose total is a [Uint] do not overflow. *)
Lemma u_sum_ok {A} (f : A → Z) l : ∀ t, 0 ≤ t → (∀ x, x ∈ l → 0 ≤ f x) → t + zsum f l ≤ uint_max →
  foldR (λ t x, u_add t (f x)) t l = Ok (t + zsum f l).
Proof.
  induction l as [|x l IH]; intros t Ht Hf Hle; cbn in *; [by rewrite Z.add_0_r|].
  assert (0 ≤ f x) by (apply Hf; left).
  assert (0 ≤ zsum f l) by (apply zsum_nonneg; intros y Hy; apply Hf; by right).
  rewrite u_add_in by (unfold is_uint; lia). cbn. rewrite IH; [f_equal; lia|lia| |lia].
  intros y Hy. apply Hf. by right.
Qed.
End Sums.

(** ** The checks on a balanced state *)
Section Balanced.
Context {sdk : SDK} {L : SDKLaws sdk}.
Implicit Types s : chain.

Lemma module_uint_ok s d : is_uint (module_balance s d) → module_uint d s = (Ok (module_balance s d), s).
Proof.
  intros Hu. unfold module_uint, mbind, M_bind, gets, lift. by rewrite u_of_istr_law.
Qed.

Lemma external_matches_ok s p : clp_wf s → (∀ d, is_uint (module_balance s d)) →
  (∀ d, surplus s d = 0) → Pools s !! pool_key (Symbol (ExternalAsset p)) = Some p →
  external_matches p s = (Ok true, s).
Proof.
  intros Hwf Hu Hsur Hp. specialize (Hsur (Symbol (ExternalAsset p))). unfold surplus in Hsur.
  rewrite (claims_external s _ p Hwf Hp) in Hsur. specialize (Hu (Symbol (ExternalAsset p))).
  pose proof (wf_pool s Hwf _ _ Hp) as [_ ((_ & He & _) & _ & Hc & _)].
  unfold external_matches. erewrite M_bind_val by by apply module_uint_ok.
  rewrite u_add_in; [|done|done|].
  - unfold mbind, M_bind, lift, mret, M_ret. do 2 f_equal. apply Z.eqb_eq. lia.
  - unfold is_uint in *. lia.
Qed.

Lemma check_pools_ok s ext pools : ∀ n c, clp_wf s → (∀ d, is_uint (module_balance s d)) →
  (∀ d, surplus s d = 0) →
  (∀ p, p ∈ pools → Pools s !! pool_key (Symbol (ExternalAsset p)) = Some p) →
  0 ≤ n → 0 ≤ c →
  n + zsum NativeAssetBalance pools ≤ uint_max → c + zsum NativeCustody pools ≤ uint_max →
  check_pools ext n c pools s
  = (Ok (Some (n + zsum NativeAssetBalance pools, c + zsum NativeCustody pools)), s).
Proof.
  intros n c Hwf Hu Hsur. revert n c.
  induction pools as [|p pools IH]; intros n c Hin Hn Hc Hln Hlc; cbn in *.
  { by rewrite !Z.add_0_r. }
  assert (∀ q, q ∈ p :: pools → is_uint (NativeAssetBalance q) ∧ is_uint (NativeCustody q)) as Hq.
  { intros q Hq%Hin. by apply (wf_pool s Hwf) in Hq as [_ ((? & _) & ? & _)]. }
  destruct (Hq p (list_elem_of_here _ _)) as [Hp1 Hp2].
  assert (0 ≤ zsum NativeAssetBalance pools) by (apply zsum_nonneg; intros q Hq'; apply Hq; by right).
  assert (0 ≤ zsum NativeCustody pools) by (apply zsum_nonneg; intros q Hq'; apply Hq; by right).
  unfold is_uint in Hp1, Hp2.
  rewrite !u_add_in by (unfold is_uint; lia). unfold mbind, M_bind, lift.
  replace ((if ext then external_matches p else mret true) s) with (Ok true, s).
  2: { destruct ext; [|done]. symmetry. apply external_matches_ok; try done. apply Hin. left. }
  cbn [negb]. rewrite IH; [|intros q Hq'; apply Hin; by right|lia..].
  do 3 f_equal. f_equal; lia.
Qed.

Lemma listing_pools s p : clp_wf s → p ∈ (kv_iterate (Pools s)).*2 →
  Pools s !! pool_key (Symbol (ExternalAsset p)) = Some p.
Proof. intros Hwf [k Hk]%listing_elem. by pose proof (wf_pool s Hwf _ _ Hk) as [<- _]. Qed.

Lemma native_sums s : clp_wf s → surplus s NativeSymbol = 0 →
  let pools := (kv_iterate (Pools s)).*2 in
  zsum NativeAssetBalance pools + zsum NativeCustody pools = module_balance s NativeSymbol
  ∧ 0 ≤ zsum NativeAssetBalance pools ∧ 0 ≤ zsum NativeCustody pools.
Proof.
  intros Hwf Hsur pools. unfold surplus in Hsur. rewrite claims_native in Hsur by done.
  fold pools in Hsur. split_and!; [lia|apply zsum_nonneg|apply zsum_nonneg];
    intros p Hp%listing_pools; try done; by apply (wf_pool s Hwf) in Hp as [_ (([? _] & _) & [? _] & _)].
Qed.

(** On a balanced state neither account check reports a mismatch. *)
Lemma native_mismatch_ok s n c : is_uint (module_balance s NativeSymbol) → 0 ≤ n → 0 ≤ c →
  n + c = module_balance s NativeSymbol →
  native_mismatch (module_balance s NativeSymbol) (Some (n, c)) = Ok false.
Proof.
  intros [Hu1 Hu2] ?? Heq. unfold native_mismatch. rewrite u_add_in by (unfold is_uint; lia).
  cbn. rewrite Heq, Z.eqb_refl. done.
Qed.

Lemma native_check_ok ext s : clp_wf s → (∀ d, is_uint (module_balance s d)) →
  (∀ d, surplus s d = 0) →
  (balance ← module_uint (Symbol GetSettlementAsset);
   pools ← GetPools;
   totals ← check_pools ext 0 0 pools;
   lift (native_mismatch balance totals)) s = (Ok false, s).
Proof.
  intros Hwf Hu Hsur. destruct (native_sums s Hwf (Hsur _)) as (Hsum & Hn & Hc).
  erewrite M_bind_val by by apply module_uint_ok.
  change (Symbol GetSettlementAsset) with NativeSymbol. pose proof (Hu NativeSymbol) as [_ Hmax].
  unfold GetPools, gets. unfold mbind, M_bind, lift. rewrite check_pools_ok; try done; [|
    intros p Hp; by apply listing_pools|lia..].
  by rewrite native_mismatch_ok.
Qed.

Lemma single_check_ok s sym : clp_wf s → (∀ d, is_uint (module_balance s d)) →
  (∀ d, surplus s d = 0) → SingleExternalBalanceModuleAccountCheck sym s = (Ok false, s).
Proof.
  intros Hwf Hu Hsur. unfold SingleExternalBalanceModuleAccountCheck.
  rewrite (M_bind_val _ _ s (match Pools s !! pool_key sym with
    | Some p => inl p | None => inr (EClp ErrPoolDoesNotExist) end) s).
  2: { unfold try, GetPool, gets, mbind, M_bind. by destruct (Pools s !! pool_key sym). }
  rewrite (M_bind_val _ _ s true s); [by apply native_check_ok|].
  destruct (Pools s !! pool_key sym) as [p|] eqn:Hp; [|done].
  apply external_matches_ok; try done. by destruct (wf_lookup_pool _ _ _ Hwf Hp) as [-> _].
Qed.

(** With no unit missing, the units check passes. *)
Lemma check_units_ok s pools : clp_wf s → units_match s →
  Z.of_nat (length (kv_iterate (LiquidityProviders s))) < MaxUint64 →
  (∀ p, p ∈ pools → Pools s !! pool_key (Symbol (ExternalAsset p)) = Some p) →
  check_units pools s = (Ok false, s).
Proof.
  intros Hwf Hm Hlen. induction pools as [|p pools IH]; intros Hin; [done|]. cbn [check_units].
  unfold GetAllLiquidityProvidersForAsset, GetLiquidityProvidersForAssetPaginated.
  erewrite M_bind_val by reflexivity.
  rewrite kv_filtered_paginate_law by (unfold MaxUint64 in *; lia).
  assert (Pools s !! pool_key (Symbol (ExternalAsset p)) = Some p) as Hp by (apply Hin; left).
  pose proof (wf_pool s Hwf _ _ Hp) as [_ ((_ & _ & Hu & _) & _)].
  specialize (Hm (Symbol (ExternalAsset p))). unfold unit_gap, pool_units_of in Hm.
  rewrite Hp, lp_total_filter in Hm.
  replace (mkAsset (Symbol (ExternalAsset p))) with (ExternalAsset p) in Hm by by destruct (ExternalAsset p).
  unfold units_of. rewrite u_sum_ok; [|done| |].
  - erewrite M_bind_val by reflexivity. rewrite Z.add_0_l.
    replace (PoolUnits p =? _) with true by (symmetry; apply Z.eqb_eq; lia). cbn [negb].
    apply IH. intros q Hq. apply Hin. by right.
  - intros l [_ [k Hk]%listing_elem]%list_elem_of_filter. by apply (wf_lp s Hwf) in Hk as [_ [[? _] _]].
  - unfold is_uint in Hu. lia.
Qed.

Lemma units_check_ok s : clp_wf s → units_match s →
  Z.of_nat (length (kv_iterate (LiquidityProviders s))) < MaxUint64 →
  UnitsCheck s = (Ok false, s).
Proof.
  intros Hwf Hm Hlen. unfold UnitsCheck, GetPools. erewrite M_bind_val by reflexivity.
  apply check_units_ok; [done..|]. intros p Hp. by apply listing_pools.
Qed.
End Balanced.
