(* ===== verification/ClpDistribution.v ===== *)
(** * Payouts to liquidity providers

    The arithmetic of provider_distribution.go and rewards.go: what is collected
    for the providers is what the pools give up, and what is paid is no more. *)
From S2P Require Import Prelude Sdk Reference ClpTypes ClpCalc ClpCalcProps Admin.
From S2P Require Import TokenRegistry MarginTypes Chain ClpKeeper ClpExec ClpMsg ClpBlock.
From S2P Require Import ClpState ClpSwapProps ClpLiquidityProps ClpRemoveProps ClpDecommission.
From S2P Require Import ClpInvariants.

(** What a provider's list of shares adds up to. *)
Definition share_of (lpPoolMap : LpPoolMap) (a : string) : Z := zsum snd (default [] (lpPoolMap !! a)).

(** Each provider's total is the sum of its shares, all of them uints. *)
Record shares_ok (lpFuryMap : LpFuryMap) (lpPoolMap : LpPoolMap) : Prop := {
  so_total a : default 0 (lpFuryMap !! a) = share_of lpPoolMap a;
  so_uint a x : lpFuryMap !! a = Some x → is_uint x;
  so_shares a l e : lpPoolMap !! a = Some l → e ∈ l → is_uint e.2
}.

Lemma shares_ok_empty : shares_ok ∅ ∅.
Proof.
  split; [done|intros a x H|intros a l e H]; discriminate H.
Qed.

Section Collect.
Context {sdk : SDK} {L : SDKLaws sdk}.

(** A provider's share of a distribution is between nothing and all of it. *)
Lemma CalcProviderDistributionAmount_range pd R total units r : 0 ≤ pd → d_round pd = Ok R →
  0 ≤ units ≤ total → CalcProviderDistributionAmount pd total units = Ok r → 0 ≤ r ≤ R.
Proof.
  intros Hpd HR Hu H. unfold CalcProviderDistributionAmount in H. inv_ok.
  rewrite !d_of_big_law in E. pose proof P18_pos.
  assert (0 < total) as Ht.
  { destruct (Z.eq_dec total 0) as [->|]; [|lia]. by rewrite Z.mul_0_l, d_quo_zero in E. }
  assert (0 ≤ v) as Hv by (eapply d_quo_nonneg; [| |exact E]; nia).
  assert (v ≤ P18) as Hv' by (eapply d_quo_le; [| |exact E]; nia).
  apply d_mul_val in E0 as Hm.
  assert (0 ≤ v0) as Hv0 by (eapply nearest_nonneg; [|exact Hm]; nia).
  assert (v0 ≤ pd) as Hv0' by (eapply nearest_le; [exact Hm|nia]).
  split; [eapply nearest_nonneg; [|by apply d_round_val]; done|].
  destruct (Z.eq_dec v0 pd) as [->|]; [rewrite HR in H; injection H; lia|].
  assert (v0 < pd) as Hlt by lia. apply d_round_val in H, HR. unfold nearest in *. nia.
Qed.

Lemma shares_ok_add m pm a k x y : shares_ok m pm → is_uint x →
  u_add (default 0 (m !! a)) x = Ok y →
  shares_ok (<[a := y]> m) (<[a := default [] (pm !! a) ++ [(k, x)]]> pm)
  ∧ msum id (<[a := y]> m) = msum id m + x.
Proof.
  intros [Ht Hu Hs] Hx Hy.
  assert (is_uint (default 0 (m !! a))) as Hd.
  { destruct (m !! a) eqn:E; [by apply (Hu a)|apply is_uint_0]. }
  apply u_add_Ok in Hy as [-> Hy]; [|done|done]. split; [split|].
  - intros b. destruct (decide (a = b)) as [<-|Hne].
    + unfold share_of. rewrite !lookup_insert_eq. cbn. rewrite zsum_app, Ht. cbn. unfold share_of. lia.
    + unfold share_of. rewrite !lookup_insert_ne by done. apply Ht.
  - intros b z. rewrite lookup_insert_Some. intros [[_ <-]|[_ ?]]; [done|by apply (Hu b)].
  - intros b l e. rewrite lookup_insert_Some. intros [[<- <-]|[_ ?]] He; [|by apply (Hs b l)].
    apply elem_of_app in He as [He|He]; [|by apply list_elem_of_singleton in He as ->].
    destruct (pm !! a) as [l|] eqn:El; [by apply (Hs a l)|by apply not_elem_of_nil in He].
  - rewrite msum_insert. destruct (m !! a); cbn; unfold id; lia.
Qed.

(** One provider: the running total stays within the distribution and the
    maps grow by what it grows by. *)
Lemma collect_one_Ok p pd R units T m pm lp T' m' pm' : 0 ≤ pd → d_round pd = Ok R → is_uint R →
  is_uint T → T ≤ R → 0 ≤ LiquidityProviderUnits lp.2 ≤ units → shares_ok m pm →
  collect_one p pd R units (T, m, pm) lp = Ok (T', m', pm') →
  is_uint T' ∧ T' ≤ R ∧ shares_ok m' pm' ∧ msum id m' - msum id m = T' - T.
Proof.
  intros Hpd HR HRu HT HTR Hlp Hok H. unfold collect_one in H. inv_ok.
  apply (CalcProviderDistributionAmount_range _ R) in E as Hr; [|done..].
  assert (is_uint v) as Hvu by (unfold is_uint in *; lia).
  apply u_add_Ok in E0 as [-> Hv0]; [|done..].
  assert (∃ x, v1 = (x, T + x) ∧ is_uint x ∧ T + x ≤ R) as (x & -> & Hx & Hxr).
  { case_test; inv_ok; bool_prop.
    - apply u_sub_Ok in E0 as [-> ?]; [|done..]. replace (T + v - v) with T in * by lia.
      apply u_sub_Ok in E2 as [-> ?]; [|done..]. exists (R - T). split_and!; [f_equal; lia|done|lia].
    - exists v. done. }
  inv_ok. simplify_eq.
  destruct (shares_ok_add m pm (acc_string lp.1) (Symbol (ExternalAsset p)) x v0) as [Hok' Hs]; [done..|].
  split_and!; [unfold is_uint in *; lia|done|done|lia].
Qed.

Lemma collect_all_Ok p pd R units lps : ∀ T m pm T' m' pm', 0 ≤ pd → d_round pd = Ok R → is_uint R →
  is_uint T → T ≤ R → (∀ lp, lp ∈ lps → 0 ≤ LiquidityProviderUnits lp.2 ≤ units) → shares_ok m pm →
  foldR (collect_one p pd R units) (T, m, pm) lps = Ok (T', m', pm') →
  is_uint T' ∧ T' ≤ R ∧ shares_ok m' pm' ∧ msum id m' - msum id m = T' - T.
Proof.
  induction lps as [|lp lps IH]; intros T m pm T' m' pm' Hpd HR HRu HT HTR Hin Hok H; cbn [foldR] in H.
  - inv_ok. simplify_eq. split_and!; try done. lia.
  - inv_ok. open_pairs. apply collect_one_Ok in E as (HT1 & HTR1 & Hok1 & Hs1); [|done..|apply Hin; left|done].
    apply IH in H as (? & ? & ? & ?); [|done..|intros q Hq; apply Hin; by right|done].
    split_and!; try done. lia.
Qed.

(** A distribution of a pool's fury at a rate of at most one. *)
Lemma CollectProviderDistribution_Ok p bal rate units lps m pm T m' pm' : 0 ≤ bal → 0 ≤ rate ≤ P18 →
  (∀ lp, lp ∈ lps → 0 ≤ LiquidityProviderUnits lp.2 ≤ units) → shares_ok m pm →
  CollectProviderDistribution p (d_of_big bal) rate units lps m pm = Ok (T, m', pm') →
  is_uint T ∧ T ≤ bal ∧ (2 * rate ≤ P18 → 2 ≤ bal → T < bal) ∧ shares_ok m' pm' ∧ msum id m' = msum id m + T.
Proof.
  intros Hb Hr Hin Hok H. unfold CollectProviderDistribution in H. inv_ok.
  apply d_mul_val in E. rewrite d_of_big_law in E. pose proof P18_pos.
  assert (v = rate * bal) as -> by (unfold nearest in E; nia).
  apply u_of_big_Ok in E1 as [-> Hu].
  assert (v0 ≤ bal) as Hle.
  { eapply nearest_le; [by apply d_round_val|nia]. }
  assert (2 * rate ≤ P18 → 2 ≤ bal → v0 < bal) as Hlt.
  { intros Hh Hb2. apply d_round_val in E0. unfold nearest in E0. nia. }
  apply collect_all_Ok in H as (? & ? & ? & ?); [split_and!; [done|lia|intros; specialize (Hlt ltac:(done) ltac:(done)); lia|done|lia]|nia|done|done| | |done|done].
  - apply is_uint_0.
  - apply Hu.
Qed.
End Collect.

(** ** From the store to the maps *)
Section Collected.
Context {sdk : SDK} {L : SDKLaws sdk}.
Implicit Types s : chain.

Lemma partition_elem lps k arr lp : partitionLPsbyAsset lps !! k = Some arr → lp ∈ arr →
  lp ∈ lps ∧ Symbol (LPAsset lp) = k.
Proof.
  revert k arr lp. unfold partitionLPsbyAsset.
  induction lps as [|l lps IH] using rev_ind; intros k arr lp; [done|].
  rewrite foldl_app. cbn [foldl]. set (mp := foldl _ ∅ lps) in *.
  assert (∀ old, default [] (mp !! Symbol (LPAsset l)) = old →
    <[Symbol (LPAsset l) := old ++ [l]]> mp !! k = Some arr → lp ∈ arr →
    lp ∈ lps ++ [l] ∧ Symbol (LPAsset lp) = k) as Hgen.
  { intros old Hold. rewrite lookup_insert_Some, elem_of_app.
    intros [[<- <-]|[_ Hk]] Hin; [|destruct (IH _ _ _ Hk Hin); auto].
    apply elem_of_app in Hin as [Hin|Hin]; [|apply list_elem_of_singleton in Hin as ->; split; [right; by left|done]].
    destruct (mp !! Symbol (LPAsset l)) as [a|] eqn:E; cbn in Hold; subst old; [|by apply not_elem_of_nil in Hin].
    destruct (IH _ _ _ E Hin). auto. }
  destruct (mp !! Symbol (LPAsset l)) as [a|]; intros Hk Hin; by apply (Hgen _ eq_refl).
Qed.

Lemma FilterValid_elem lps v x : FilterValidLiquidityProviders lps = Ok v → x ∈ v → x.2 ∈ lps.
Proof.
  unfold FilterValidLiquidityProviders.
  assert (∀ acc, foldR (λ valid lp, match acc_from_bech32 (LiquidityProviderAddress lp) with
    | Ok address => Ok (valid ++ [(address, lp)]) | Err _ => Ok valid | Panic => Panic end) acc lps = Ok v →
    x ∈ v → x ∈ acc ∨ x.2 ∈ lps) as Hgen.
  { induction lps as [|lp lps IH]; intros acc H Hx; cbn [foldR] in H; [inv_ok; by left|].
    inv_ok. apply IH in H as [Hv|?]; [|right; by right|done].
    case_match; inv_ok; [|by left].
    apply elem_of_app in Hv as [?|Hv]; [by left|]. apply list_elem_of_singleton in Hv as ->. right. left. }
  intros H Hx. destruct (Hgen [] H Hx) as [?%not_elem_of_nil|]; done.
Qed.

(** The providers a pool is partitioned with hold a part of its units. *)
Lemma partition_units s sym p arr lp : clp_wf s → units_match s →
  Z.of_nat (length (kv_iterate (LiquidityProviders s))) < MaxUint64 →
  Pools s !! pool_key sym = Some p →
  partitionLPsbyAsset (kv_filtered_paginate (MaxUint64 - 1) (λ _, true)
    (kv_iterate (LiquidityProviders s))) !! sym = Some arr → lp ∈ arr →
  0 ≤ LiquidityProviderUnits lp ≤ PoolUnits p.
Proof.
  intros Hwf Hm Hlen Hp Harr Hin. apply (partition_elem _ _ _ lp) in Harr as [Hl Hs]; [|done].
  rewrite kv_filtered_paginate_law in Hl by (unfold MaxUint64 in *; lia).
  apply list_elem_of_filter in Hl as [_ [k Hk]%listing_elem].
  pose proof (wf_lp s Hwf _ _ Hk) as [-> [[Hu _] _]].
  pose proof (lp_units_le_total s lp Hwf Hk) as Hle. rewrite Hs in Hle.
  specialize (Hm sym). unfold unit_gap, pool_units_of in Hm. rewrite Hp in Hm. lia.
Qed.

(** What the maps of a distribution hold; at a rate of at most one half, something
    of the fury is left in the pool. *)
Record collected s (half : Prop) (pf : PoolFuryMap) (m : LpFuryMap) (pm : LpPoolMap) : Prop := {
  co_shares : shares_ok m pm;
  co_sum : msum snd pf = msum id m;
  co_pools sym p x : pf !! sym = Some (p, x) →
    sym = Symbol (ExternalAsset p) ∧ Pools s !! pool_key sym = Some p
    ∧ is_uint x ∧ x ≤ NativeAssetBalance p
    ∧ (half → 2 ≤ NativeAssetBalance p → x < NativeAssetBalance p)
}.

Lemma collect_pools_Ok s (half : Prop) parts rate pools : ∀ pf m pm pf' m' pm', 0 ≤ rate ≤ P18 →
  (half → 2 * rate ≤ P18) →
  (∀ p, p ∈ pools → Pools s !! pool_key (Symbol (ExternalAsset p)) = Some p
     ∧ 0 ≤ NativeAssetBalance p ∧ pf !! Symbol (ExternalAsset p) = None
     ∧ ∀ arr lp, parts !! Symbol (ExternalAsset p) = Some arr → lp ∈ arr →
         0 ≤ LiquidityProviderUnits lp ≤ PoolUnits p) →
  NoDup ((λ p, Symbol (ExternalAsset p)) <$> pools) → collected s half pf m pm →
  foldR (collect_pool parts rate) (pf, m, pm) pools = Ok (pf', m', pm') → collected s half pf' m' pm'.
Proof.
  induction pools as [|p pools IH]; intros pf m pm pf' m' pm' Hr Hh Hin Hnd Hc H; cbn [foldR] in H.
  { inv_ok. by simplify_eq. }
  inv_ok. open_pairs. rewrite fmap_cons, NoDup_cons in Hnd. destruct Hnd as [Hni Hnd].
  destruct (Hin p ltac:(left)) as (Hp & Hb & Hnone & Hunits).
  unfold collect_pool in E. destruct (parts !! Symbol (ExternalAsset p)) as [arr|] eqn:Earr.
  - inv_ok. open_pairs. inv_ok. simplify_eq.
    apply CollectProviderDistribution_Ok in E1 as (HT & HTb & HTl & Hok & Hs);
      [|done|done| |apply Hc].
    2: { intros lp Hlp. apply (Hunits arr); [done|]. by eapply FilterValid_elem. }
    apply (IH _ _ _ _ _ _ Hr Hh) in H; [done| |done|].
    + intros q Hq. destruct (Hin q ltac:(by right)) as (? & ? & ? & ?). split_and!; try done.
      rewrite lookup_insert_ne; [done|]. intros Heq. apply Hni. apply list_elem_of_fmap. by exists q.
    + destruct Hc as [Hc1 Hc2 Hc3]. split; [done| |].
      * rewrite msum_insert, Hnone. cbn. lia.
      * intros sym q x. rewrite lookup_insert_Some. intros [[<- [= <- <-]]|[_ ?]]; [|by apply Hc3].
        split_and!; try done. intros ??. by apply HTl; [apply Hh|].
  - inv_ok. simplify_eq. apply (IH _ _ _ _ _ _ Hr Hh) in H; [done| |done|done].
    intros q Hq. apply Hin. by right.
Qed.
End Collected.

(** ** Paying *)
Section Pay.
Context {sdk : SDK} {L : SDKLaws sdk} {go : GoMap} {G : GoMapLaws go}.
Implicit Types s : chain.

Lemma listing_symbols s : clp_wf s →
  NoDup ((λ p, Symbol (ExternalAsset p)) <$> (kv_iterate (Pools s)).*2).
Proof.
  intros Hwf. apply (NoDup_fmap_1 pool_key). rewrite <- list_fmap_compose.
  assert ((pool_key ∘ (λ p, Symbol (ExternalAsset p))) <$> (kv_iterate (Pools s)).*2
          = (kv_iterate (Pools s)).*1) as ->.
  { assert (∀ kp, kp ∈ kv_iterate (Pools s) → pool_key (Symbol (ExternalAsset kp.2)) = kp.1) as Hk.
    { intros [k p] Hin. rewrite kv_iterate_law in Hin. apply elem_of_map_to_list in Hin.
      by apply (wf_pool s Hwf) in Hin as [-> _]. }
    induction (kv_iterate (Pools s)) as [|kp l IH]; [done|]. cbn. f_equal.
    - apply Hk. left.
    - apply IH. intros q Hq. apply Hk. by right. }
  rewrite (Permutation_map fst (kv_iterate_law (Pools s))). apply NoDup_fst_map_to_list.
Qed.

Lemma take_back_Ok pf e pf' : is_uint e.2 → (∀ k p x, pf !! k = Some (p, x) → is_uint x) →
  take_back pf e = Ok pf' →
  ∃ p x, pf !! e.1 = Some (p, x) ∧ pf' = <[e.1 := (p, x - e.2)]> pf ∧ is_uint (x - e.2).
Proof.
  unfold take_back. intros He Hu H. destruct (pf !! e.1) as [[p x]|] eqn:Hp; cbn in H; inv_ok.
  apply u_sub_Ok in E as [-> ?]; [|by eapply Hu|done]. by exists p, x.
Qed.

(** Taking shares back only lowers amounts, by what is taken back. *)
Lemma take_backs_Ok l : ∀ pf pf', (∀ e, e ∈ l → is_uint e.2) →
  (∀ k p x, pf !! k = Some (p, x) → is_uint x) →
  foldR take_back pf l = Ok pf' →
  msum snd pf' = msum snd pf - zsum snd l
  ∧ ∀ k p x', pf' !! k = Some (p, x') → ∃ x, pf !! k = Some (p, x) ∧ is_uint x' ∧ x' ≤ x.
Proof.
  induction l as [|e l IH]; intros pf pf' Hl Hu H; cbn [foldR] in H.
  - inv_ok. cbn. split; [lia|]. intros k p x' Hk. exists x'. split_and!; [done|by eapply Hu|lia].
  - inv_ok. apply take_back_Ok in E as (p & x & Hx & -> & Hxu); [|apply Hl; left|done].
    apply IH in H as [Hs Hd]; [|intros f Hf; apply Hl; by right|].
    + split.
      * rewrite Hs, msum_insert, Hx. cbn. lia.
      * intros k q x' Hk. apply Hd in Hk as (y & Hy & Hu' & Hle).
        apply lookup_insert_Some in Hy as [[<- [= <- <-]]|[_ Hy]]; [|by exists y].
        exists x. split_and!; [done|done|]. pose proof (Hl e ltac:(left)). unfold is_uint in *. lia.
    + intros k q y. rewrite lookup_insert_Some. intros [[_ [= _ <-]]|[_ ?]]; [done|by eapply Hu].
Qed.

(** State of the payments: the pools are untouched, and the module account has
    paid at most what the pools' part went down by less than planned. *)
Record paid (pf pf' : PoolFuryMap) (due : Z) s s' : Prop := {
  pd_pools : Pools s' = Pools s;
  pd_lps : LiquidityProviders s' = LiquidityProviders s;
  pd_map k p x' : pf' !! k = Some (p, x') → ∃ x, pf !! k = Some (p, x) ∧ is_uint x' ∧ x' ≤ x;
  pd_balance d : module_balance s d
    - amount_of [(NativeSymbol, due - (msum snd pf - msum snd pf'))] d ≤ module_balance s' d
}.

Lemma pay_provider_Ok pm pf e s pf' s' : is_uint e.2 → e.2 = share_of pm e.1 →
  (∀ a l x, pm !! a = Some l → x ∈ l → is_uint x.2) →
  (∀ k p x, pf !! k = Some (p, x) → is_uint x) →
  pay_provider pm pf e s = (Ok pf', s') → paid pf pf' e.2 s s'.
Proof.
  intros He Hsh Hpm Hpf H. destruct e as [a x]. cbn [fst snd] in *. unfold pay_provider in H. inv_ok.
  match goal with H : i_of_big _ = Ok _ |- _ => apply i_of_big_val in H as -> end. inv_read.
  match goal with H : try _ _ = _ |- _ => unfold try, onBank in H;
    destruct (bank_send_mod_to_acc _ _ _ _) as [[]] eqn:Hsend in H; simplify_eq/= end.
  - inv_ok. destruct a0. apply send_mod_to_acc_val in Hsend. split; try done.
    + intros k p x' Hk. exists x'. split_and!; [done|by eapply Hpf|lia].
    + intros d. rewrite Z.sub_diag, Z.sub_0_r.
      pose proof (transferred_out _ _ _ _ _ d Hsend) as Hout.
      rewrite (new_coins_amount _ _ d E2) in Hout. apply Hout.
      rewrite amount_of_one. cbn. case_test; lia.
  - inv_ok. pose proof (send_one_err _ _ _ _ _ _ _ E2 Hsend) as Hsame.
    match goal with H : foldR take_back _ _ = _ |- _ => apply take_backs_Ok in H as [Hs Hd]; [|shelve|done] end.
    Unshelve.
    + split; try done. intros d. rewrite Hs. unfold share_of.
      replace (_ - (msum snd pf - _)) with 0 by lia.
      change (module_balance (s <| Bank := b |>) d) with (bank_balance b clp_module_address d).
      rewrite Hsame, amount_of_one. unfold module_balance. cbn. case_test; lia.
    + intros y. destruct (pm !! a) as [l|] eqn:El; cbn; [by apply (Hpm a)|by intros ?%not_elem_of_nil].
Qed.

Lemma native_amount_add x y d : amount_of [(NativeSymbol, x + y)] d
  = amount_of [(NativeSymbol, x)] d + amount_of [(NativeSymbol, y)] d.
Proof. rewrite !amount_of_one. cbn [fst snd]. case_test; lia. Qed.

Lemma pay_providers_Ok pm l : ∀ pf s pf' s',
  (∀ e, e ∈ l → is_uint e.2 ∧ e.2 = share_of pm e.1) →
  (∀ a l x, pm !! a = Some l → x ∈ l → is_uint x.2) →
  (∀ k p x, pf !! k = Some (p, x) → is_uint x) →
  foldM (pay_provider pm) pf l s = (Ok pf', s') → paid pf pf' (zsum snd l) s s'.
Proof.
  induction l as [|e l IH]; intros pf s pf' s' Hl Hpm Hpf H; cbn [foldM] in H.
  - inv_ok. split; try done.
    + intros k p x' Hk. exists x'. split_and!; [done|by eapply Hpf|lia].
    + intros d. rewrite amount_of_one. cbn. case_test; lia.
  - inv_ok. destruct (Hl e ltac:(left)) as [He Hs].
    apply pay_provider_Ok in E as [P1 L1 M1 B1]; [|done..].
    apply IH in H as [P2 L2 M2 B2]; [|intros f Hf; apply Hl; by right|done|].
    + split; [congruence|congruence| |].
      * intros k p x' (x1 & Hx1 & ? & ?)%M2. apply M1 in Hx1 as (x & Hx & ? & ?).
        exists x. split_and!; [done|done|lia].
      * intros d. specialize (B1 d). specialize (B2 d). cbn [zsum].
        replace (e.2 + zsum snd l - (msum snd pf - msum snd pf'))
          with ((e.2 - (msum snd pf - msum snd v)) + (zsum snd l - (msum snd v - msum snd pf'))) by lia.
        rewrite native_amount_add. lia.
    + intros k p x Hk. apply M1 in Hk as (? & _ & ? & _). done.
Qed.

(** ** Debiting the pools *)

Lemma fury_claim p x d :
  pool_claim d (p <| NativeAssetBalance := NativeAssetBalance p - x |>)
  = pool_claim d p - amount_of [(NativeSymbol, x)] d.
Proof.
  rewrite !amount_of_one. unfold pool_claim. cbn [fst snd].
  generalize NativeSymbol as k. intros k. cbn. destruct (String.eqb k d); lia.
Qed.

Lemma RemoveFuryFromPool_ok p x s : is_uint x → is_uint (NativeAssetBalance p) →
  x ≤ NativeAssetBalance p → AssetValidate (ExternalAsset p) = Ok true →
  let p' := p <| NativeAssetBalance := NativeAssetBalance p - x |> in
  RemoveFuryFromPool p x s = (Ok p', put_pool s p').
Proof.
  intros Hx Hn Hle Hv p'. unfold RemoveFuryFromPool. rewrite (proj2 (Z.ltb_ge _ _)) by lia.
  rewrite u_sub_law, uint_checked_in by (done || unfold is_uint in *; lia).
  unfold SetPool, PoolValidate, mbind, M_bind, lift, modify. cbn. by rewrite Hv.
Qed.

Lemma debit_pools_Ok l : ∀ s u s',
  (∀ e, e ∈ l → e.1 = Symbol (ExternalAsset e.2.1) ∧ Pools s !! pool_key e.1 = Some e.2.1
     ∧ is_uint e.2.2 ∧ e.2.2 ≤ NativeAssetBalance e.2.1 ∧ is_uint (NativeAssetBalance e.2.1)
     ∧ AssetValidate (ExternalAsset e.2.1) = Ok true) →
  NoDup l.*1 →
  forM l (λ e, try (RemoveFuryFromPool e.2.1 e.2.2);; mret ()) s = (Ok u, s') →
  Bank s' = Bank s ∧ LiquidityProviders s' = LiquidityProviders s
  ∧ ∀ d, claims s' d = claims s d - amount_of [(NativeSymbol, zsum (λ e, e.2.2) l)] d.
Proof.
  induction l as [|[k [p x]] l IH]; intros s u s' Hl Hnd H; cbn [forM] in H.
  - inv_ok. split_and!; try done. intros d. rewrite amount_of_one. cbn. case_test; lia.
  - rewrite fmap_cons, NoDup_cons in Hnd. destruct Hnd as [Hni Hnd]. cbn [fst] in Hni.
    destruct (Hl (k, (p, x)) ltac:(left)) as (Hk & Hp & Hx & Hle & Hn & Hv). cbn [fst snd] in *.
    apply M_bind_Ok in H as (u1 & s1 & H1 & H).
    assert (s1 = put_pool s (p <| NativeAssetBalance := NativeAssetBalance p - x |>)) as ->.
    { unfold try, mbind, M_bind in H1. rewrite RemoveFuryFromPool_ok in H1 by done.
      cbn [fst snd] in H1. by inv_ok. }
    apply IH in H as (HB & HL & HC); [|intros e He|done].
    + split_and!; [done|done|]. intros d. rewrite HC.
      rewrite (put_pool_claims _ _ p) by (cbn; by rewrite <- Hk). rewrite fury_claim. cbn [zsum fst snd].
      rewrite native_amount_add. lia.
    + destruct (Hl e ltac:(by right)) as (? & ? & ? & ? & ? & ?). split_and!; try done.
      cbn. rewrite lookup_insert_ne; [done|]. intros Heq%pool_key_inj. apply Hni.
      apply list_elem_of_fmap. exists e. split; [congruence|done].
Qed.
End Pay.
