(* ===== verification/Ante.v ===== *)
(** * Checks before a transaction is executed

    The decorators of src/app/ante that this application adds to the ante handler
    of the SDK: the minimum fee of a transaction (ante.go) and the limits on the
    commission and the voting power of validators (commission.go). *)
From S2P Require Import Prelude Sdk ClpTypes ClpCalc Admin Oracle BridgeTypes.

(** ** Transactions *)

(** The messages of the staking module the decorators look into. *)
Inductive msg_body :=
| MsgCreateValidator (rate : Z)
| MsgEditValidator (rate : option Z)
| MsgDelegate (validatorAddress : string) (amount : Z)
| MsgBeginRedelegate (srcAddress dstAddress : string) (amount : Z)
| OtherMsg.

Record sdk_msg := mkMsg {
  MsgTypeURL : string;
  MsgBody : msg_body
}.

(** [TxFee] is absent when the transaction is not a FeeTx. *)
Record sdk_tx := mkTx {
  GetMsgs : list sdk_msg;
  TxFee : option (list coin)
}.

(** The part of the context a decorator changes. *)
Abbreviation gas_prices := (list (string * Z)).

(** [strings.Contains] *)
Definition contains (s sub : string) : bool :=
  match String.index 0 sub s with Some _ => true | None => false end.

(** ** ante.go *)

Definition MsgTypeCreateDistribution : string := "createDistribution".
Definition MsgTypeRunDistribution : string := "runDistribution".
Definition fee_high : Z := 100000000000000000.
Definition fee_transfer : Z := 10000000000000000.

(** The first branch: transfers of coins and operations of users on pools. *)
Definition pays_high (url : string) : bool :=
  contains url "send" || contains url "multisend" || contains url "createuserclaim"
  || contains url "swap" || contains url "removeliquidity" || contains url "removeliquidityunits"
  || contains url "addliquidity".
Definition submits_proposal (url : string) : bool :=
  contains url "submitproposal" || contains url "submit_proposal".

Section Fee.
Context {sdk : SDK}.

Definition min_fee_step (submitProposalFee minFee : Z) (msg : sdk_msg) : res Z :=
  let url := ToLower (MsgTypeURL msg) in
  if pays_high url then Ok fee_high else
  if contains url "transfer" && (minFee <=? fee_transfer) then Ok fee_transfer else
  if submits_proposal url then i_of_big submitProposalFee else Ok minFee.

Definition min_fee (submitProposalFee : Z) (msgs : list sdk_msg) : res Z :=
  foldR (min_fee_step submitProposalFee) 0 msgs.

Definition is_distribution (msgs : list sdk_msg) : bool :=
  match msgs with
  | [m] => contains (ToLower (MsgTypeURL m)) (ToLower MsgTypeCreateDistribution)
           || contains (ToLower (MsgTypeURL m)) (ToLower MsgTypeRunDistribution)
  | _ => false
  end.

(** The fee in fury; of several entries the last one counts. *)
Definition fury_fee (fees : list coin) : Z :=
  foldl (λ furyFee fee, if StringCompare (Symbol GetSettlementAsset) fee.1 then fee.2 else furyFee)
    0 fees.

(** AdjustGasPriceDecorator.AnteHandle: the gas prices of the context that is
    passed on. *)
Definition AdjustGasPrice (st : AdminStore) (prices : gas_prices) (tx : sdk_tx) : res gas_prices :=
  let submitProposalFee := GetAdminParams st in
  let msgs := GetMsgs tx in
  if is_distribution msgs then
    let minGasPrice := ("fury", 50000000000) in
    ensure (valid_denom minGasPrice.1 && (0 <=? minGasPrice.2)) (EOther "invalid gas price");;
    Ok [minGasPrice]
  else
  minFee ← min_fee submitProposalFee msgs;
  if minFee =? 0 then Ok prices else
  match TxFee tx with
  | None => Err (EOther "tx must be a FeeTx")
  | Some fees =>
      let furyFee := fury_fee fees in
      if furyFee <=? 0 then Err (EOther "unsupported fee asset") else
      if furyFee <? minFee then Err (EOther "tx fee is too low") else Ok prices
  end.
End Fee.

(** ** commission.go *)

Definition MinCommission : Z := dec_prec 5 2.
Definition maxVotingPower : Z := dec_prec 66 1.

(** The staking and bank keepers: the tokens of a validator by its address, and
    the balances of the bonded and the unbonded pool. *)
Record DelegationKeeper := mkDelegationKeeper {
  ValidatorTokens : string → option Z;
  BondedAmount : Z;
  NotBondedAmount : Z
}.

Section Commission.
Context {sdk : SDK} (sk : DelegationKeeper).

Definition AnteGetValidator (bech32ValAddr : string) : res Z :=
  valAddr ← wrap (EOther "invalid address") (val_from_bech32 bech32ValAddr);
  match ValidatorTokens sk valAddr with
  | Some tokens => Ok tokens
  | None => Err (EOther "no validator exists")
  end.

Definition getTotalDelegatedTokens : res Z := i_add (NotBondedAmount sk) (BondedAmount sk).

Definition CalculateDelegateProjectedVotingPower (tokens delegateAmount : Z) : res Z :=
  total ← getTotalDelegatedTokens;
  projectedTotal ← d_add (d_of_big total) delegateAmount;
  projectedTokens ← d_add (d_of_big tokens) delegateAmount;
  share ← d_quo projectedTokens projectedTotal;
  d_mul share (NewDec 100).

Definition CalculateRedelegateProjectedVotingPower (tokens delegateAmount : Z) : res Z :=
  total ← getTotalDelegatedTokens;
  projectedTokens ← d_add (d_of_big tokens) delegateAmount;
  share ← d_quo projectedTokens (d_of_big total);
  d_mul share (NewDec 100).

Definition too_low : error := EOther "validator commission cannot be lower than minimum".
Definition too_much_power : error := EOther "delegations not allowed to this validator".

Definition validateMsg (msg : sdk_msg) : res () :=
  match MsgBody msg with
  | MsgCreateValidator rate => ensure (negb (rate <? MinCommission)) too_low
  | MsgEditValidator (Some rate) => ensure (negb (rate <? MinCommission)) too_low
  | MsgEditValidator None => Ok ()
  | MsgDelegate validatorAddress amount =>
      val ← AnteGetValidator validatorAddress;
      power ← CalculateDelegateProjectedVotingPower val (d_of_big amount);
      ensure (negb (power >=? maxVotingPower)) too_much_power
  | MsgBeginRedelegate srcAddress dstAddress amount =>
      dstVal ← AnteGetValidator dstAddress;
      let delegateAmount := if String.eqb srcAddress dstAddress then 0 else d_of_big amount in
      power ← CalculateRedelegateProjectedVotingPower dstVal delegateAmount;
      ensure (negb (power >=? maxVotingPower)) too_much_power
  | OtherMsg => Ok ()
  end.

(** ValidateMinCommissionDecorator.AnteHandle *)
Definition ValidateMinCommission (tx : sdk_tx) : res () :=
  foldR (λ _ msg, validateMsg msg) () (GetMsgs tx).
End Commission.

(** ** Lemmas *)
Section Fees.
Context {sdk : SDK} {L : SDKLaws sdk}.

Definition pays_transfer (m : sdk_msg) : bool := contains (ToLower (MsgTypeURL m)) "transfer".
Definition pays_high_msg (m : sdk_msg) : bool := pays_high (ToLower (MsgTypeURL m)).
Definition proposal_msg (m : sdk_msg) : bool := submits_proposal (ToLower (MsgTypeURL m)).

(** Without proposals the fee only grows along the messages. *)
Lemma min_fee_grows fee msgs : ∀ acc r, forallb (λ m, negb (proposal_msg m)) msgs = true →
  acc = 0 ∨ acc = fee_transfer ∨ acc = fee_high →
  foldR (min_fee_step fee) acc msgs = Ok r →
  acc ≤ r ∧ (r = 0 ∨ r = fee_transfer ∨ r = fee_high)
  ∧ (existsb pays_high_msg msgs = true → r = fee_high)
  ∧ (existsb pays_transfer msgs = true → fee_transfer ≤ r).
Proof.
  induction msgs as [|m msgs IH]; intros acc r Hp Ha H; cbn in *; [inv_ok; lia|].
  bool_prop. inv_ok. unfold min_fee_step in E. fold (proposal_msg m) (pays_high_msg m) (pays_transfer m) in E.
  assert (acc ≤ v ∧ (v = 0 ∨ v = fee_transfer ∨ v = fee_high)
    ∧ (pays_high_msg m = true → v = fee_high) ∧ (pays_transfer m = true → fee_transfer ≤ v))
    as (Hle & Hv & Hh & Ht).
  { unfold fee_high, fee_transfer in *. destruct (pays_high_msg m); [inv_ok; lia|].
    destruct (pays_transfer m); cbn in E; [case_test; [inv_ok; bool_prop; lia|]|]; bool_prop.
    all: change (submits_proposal _) with (proposal_msg m) in E; rewrite H0 in E; inv_ok; lia. }
  destruct (IH v r) as (Hle' & Hr & Hh' & Ht'); [done|done|done|].
  unfold fee_high, fee_transfer in *. split_and!; [lia|done| |].
  - intros [Hm|Hm]%orb_true_iff; [specialize (Hh Hm); lia|by apply Hh'].
  - intros [Hm|Hm]%orb_true_iff; [specialize (Ht Hm); lia|by apply Ht'].
Qed.

(** ** Voting power *)

(** A quotient of integers as decimals, in units of 10^-18: within half a unit of
    the exact value (and a little, because the SDK rounds twice). *)
Lemma quo_close X Y r : 0 < Y → d_quo (X * P18) (Y * P18) = Ok r →
  2 * P18 * Z.abs (r * Y - X * P18) ≤ Y * (P18 + 2).
Proof.
  intros HY [_ H]%d_quo_val. pose proof P18_pos.
  replace (r * (Y * P18) - X * P18 * P18) with ((r * Y - X * P18) * P18) in H by ring.
  rewrite Z.abs_mul, (Z.abs_eq P18), (Z.abs_eq (Y * P18)) in H by lia. nia.
Qed.

Lemma mul_hundred r p : d_mul r (NewDec 100) = Ok p → p = 100 * r.
Proof.
  intros H%d_mul_val. unfold NewDec in H. rewrite d_of_big_law in H. unfold nearest in H.
  pose proof P18_pos. replace (p * P18 - r * (100 * P18)) with ((p - 100 * r) * P18) in H by ring.
  rewrite Z.abs_mul, (Z.abs_eq P18) in H by lia. nia.
Qed.

(** Below the limit after rounding is strictly below it; at or above it after
    rounding is at most one unit of 10^-18 below it. *)
Lemma share_limit X Y r p : 0 ≤ X → 0 < Y → d_quo (X * P18) (Y * P18) = Ok r →
  d_mul r (NewDec 100) = Ok p →
  (p < maxVotingPower → 1000 * X < 66 * Y)
  ∧ (maxVotingPower ≤ p → (66 * 10 ^ 15 - 1) * Y < X * 10 ^ 18).
Proof.
  intros HX HY Hr Hp. apply quo_close in Hr; [|done]. apply mul_hundred in Hp as ->.
  unfold maxVotingPower, dec_prec. change (10 ^ (18 - 1)) with (100 * 10 ^ 15).
  unfold P18 in *. set (e := r * Y - X * 10 ^ 18) in Hr.
  assert (4 * Z.abs e < 3 * Y) as He by lia. subst e.
  change (10 ^ 18) with (1000 * 10 ^ 15) in *. generalize (10 ^ 15), (eq_refl : 10 ^ 15 = 1000000000000000).
  intros z ->. split; intros H; nia.
Qed.

(** The staking module holds no negative amounts, and something is delegated. *)
Record delegation_wf (sk : DelegationKeeper) : Prop := {
  dw_tokens a t : ValidatorTokens sk a = Some t → 0 ≤ t;
  dw_total : 0 < NotBondedAmount sk + BondedAmount sk
}.

Definition total_delegated (sk : DelegationKeeper) : Z := NotBondedAmount sk + BondedAmount sk.

Lemma delegate_power sk tokens amount p : delegation_wf sk → 0 ≤ tokens → 0 ≤ amount →
  CalculateDelegateProjectedVotingPower sk tokens (d_of_big amount) = Ok p →
  (p < maxVotingPower → 1000 * (tokens + amount) < 66 * (total_delegated sk + amount))
  ∧ (maxVotingPower ≤ p →
     (66 * 10 ^ 15 - 1) * (total_delegated sk + amount) < (tokens + amount) * 10 ^ 18).
Proof.
  intros [_ Ht] Hk Ha H. unfold CalculateDelegateProjectedVotingPower, getTotalDelegatedTokens in H. inv_ok.
  apply i_add_val in E as ->. apply d_add_val in E0 as ->. apply d_add_val in E1 as ->.
  rewrite !d_of_big_law, <- !Z.mul_add_distr_r in E2. unfold total_delegated.
  eapply share_limit; [lia|lia|exact E2|exact H].
Qed.

Lemma redelegate_power sk tokens amount p : delegation_wf sk → 0 ≤ tokens → 0 ≤ amount →
  CalculateRedelegateProjectedVotingPower sk tokens (amount * P18) = Ok p →
  (p < maxVotingPower → 1000 * (tokens + amount) < 66 * total_delegated sk)
  ∧ (maxVotingPower ≤ p → (66 * 10 ^ 15 - 1) * total_delegated sk < (tokens + amount) * 10 ^ 18).
Proof.
  intros [_ Ht] Hk Ha H. unfold CalculateRedelegateProjectedVotingPower, getTotalDelegatedTokens in H. inv_ok.
  apply i_add_val in E as ->. apply d_add_val in E0 as ->.
  rewrite !d_of_big_law, <- !Z.mul_add_distr_r in E1. unfold total_delegated.
  eapply share_limit; [lia|lia|exact E1|exact H].
Qed.

Lemma AnteGetValidator_Ok sk addr t : AnteGetValidator sk addr = Ok t →
  ∃ a, val_from_bech32 addr = Ok a ∧ ValidatorTokens sk a = Some t.
Proof.
  unfold AnteGetValidator. intros H. inv_ok. case_match; inv_ok. eauto.
Qed.
End Fees.
