(* ===== verification/Margin.v ===== *)
(** * The margin module

    x/margin/keeper: keeper.go, params.go, calculations.go, abci.go,
    msg_server.go and admin_msg_server.go.  The code passes positions and pools
    by pointer and keeps what was assigned to them when a later step fails, so a
    method with such arguments runs in the state [mctx]: the chain and the two
    objects behind the pointers. *)
From S2P Require Import Prelude Sdk ClpTypes ClpCalc Admin TokenRegistry MarginTypes Chain.
From S2P Require Import ClpKeeper ClpExec ClpMsg.

(** ** params.go *)
Section Params.
Context {sdk : SDK}.

Definition GetParams (s : chain) : MarginParams.t := default DefaultGenesis (Params (MarginState s)).

Definition ValidateParams (params : MarginParams.t) : res () :=
  match MarginParams.SqModifier params with
  | None => Err (EOther "sq modifier must be > 0")
  | Some q =>
      if q =? 0 then Err (EOther "sq modifier must be > 0") else
      if MarginParams.LeverageMax params <? 0 then Err (EOther "leverage max must be >= 0") else
      Ok ()
  end.

Definition SetParams (params : MarginParams.t) : M chain () :=
  lift (must (ValidateParams params));;
  modify (λ s, s <| MarginState := (MarginState s) <| Params := Some params |> |>).

Definition SetEnabledPools (pools : list string) : M chain () :=
  params ← gets GetParams; SetParams (params <| MarginParams.Pools := pools |>).

Definition margin_IsPoolEnabled (s : chain) (asset : string) : bool :=
  existsb (λ p, String.eqb p asset) (MarginParams.Pools (GetParams s)).

Definition IsPoolClosed (s : chain) (asset : string) : bool :=
  existsb (λ p, String.eqb p asset) (MarginParams.ClosedPools (GetParams s)).

Definition margin_RemovalQueueThreshold (s : chain) : Z :=
  MarginParams.RemovalQueueThreshold (GetParams s).

(** The fund addresses are parsed on every use; a malformed one panics. *)
Definition GetForceCloseFundAddress : M chain string :=
  params ← gets GetParams; lift (must (acc_from_bech32 (MarginParams.ForceCloseFundAddress params))).

Definition GetIncrementalInterestPaymentFundAddress : M chain string :=
  params ← gets GetParams;
  lift (must (acc_from_bech32 (MarginParams.IncrementalInterestPaymentFundAddress params))).

(** ** Pool health (keeper.go) *)

Definition margin_CalculatePoolHealth (pool : Pool) : res Z :=
  let e := d_of_big (ExternalAssetBalance pool) in
  let el := d_of_big (ExternalLiabilities pool) in
  let n := d_of_big (NativeAssetBalance pool) in
  let nl := d_of_big (NativeLiabilities pool) in
  edepth ← d_add e el;
  ndepth ← (if edepth =? 0 then Ok 0 else d_add n nl);
  if (edepth =? 0) || (ndepth =? 0) then Ok 0 else
  edepth ← d_add e el;
  mul1 ← d_quo e edepth;
  ndepth ← d_add n nl;
  mul2 ← d_quo n ndepth;
  d_mul mul1 mul2.
End Params.

(** The margin keeper implements the interface of the clp handlers. *)
#[export] Instance margin_keeper {sdk : SDK} : MarginKeeper := {|
  IsPoolEnabled := margin_IsPoolEnabled;
  CalculatePoolHealth := margin_CalculatePoolHealth;
  GetRemovalQueueThreshold := margin_RemovalQueueThreshold
|}.

(** ** The objects behind the pointers *)
Record mctx {sdk : SDK} := mkCtx {
  CtxChain : chain;
  CtxMtp : MTP;
  CtxPool : Pool
}.
#[global] Instance mctx_eta {sdk : SDK} : Eta mctx := λ r,
  mkCtx sdk (CtxChain r) (CtxMtp r) (CtxPool r).

Section Pointers.
Context {sdk : SDK}.

Definition onChain {A} (m : M chain A) : M mctx A := λ c,
  let '(r, s) := m (CtxChain c) in (r, c <| CtxChain := s |>).

(** [mtp.f = ...], [pool.f = ...] *)
Definition updMtp (f : MTP → res MTP) : M mctx () :=
  mtp ← gets CtxMtp; mtp' ← lift (f mtp); modify (λ c, c <| CtxMtp := mtp' |>).
Definition updPool (f : Pool → res Pool) : M mctx () :=
  pool ← gets CtxPool; pool' ← lift (f pool); modify (λ c, c <| CtxPool := pool' |>).

(** Calls a method with pointers to a position and a pool. *)
Definition withPointers {A} (mtp : MTP) (pool : Pool) (m : M mctx A) : M chain (A * MTP * Pool) :=
  λ s, let '(r, c) := m (mkCtx sdk s mtp pool) in
       (match r with
        | Ok a => Ok (a, CtxMtp c, CtxPool c)
        | Err e => Err e
        | Panic => Panic
        end, CtxChain c).
End Pointers.

(** ** keeper.go: the store of positions *)
Section Store.
Context {sdk : SDK}.

Definition margin_modify (f : MarginStore → MarginStore) : M chain () :=
  modify (λ s, s <| MarginState := f (MarginState s) |>).

Definition GetMTPCount (s : chain) : Z := default 0 (MTPCount (MarginState s)).
Definition GetOpenMTPCount (s : chain) : Z := default 0 (OpenMTPCount (MarginState s)).

Definition SetMTP : M mctx () :=
  mtp ← gets CtxMtp;
  count ← gets (λ c, GetMTPCount (CtxChain c));
  openCount ← gets (λ c, GetOpenMTPCount (CtxChain c));
  (if MtpId mtp =? 0 then
     let count := u64 (count + 1) in
     updMtp (λ m, Ok (m <| MtpId := count |>));;
     onChain (margin_modify (λ st, st <| MTPCount := Some count |>));;
     onChain (margin_modify (λ st, st <| OpenMTPCount := Some (u64 (openCount + 1)) |>))
   else mret ());;
  mtp ← gets CtxMtp;
  lift (MTPValidate mtp);;
  onChain (margin_modify (λ st, st <| MTPs :=
    <[GetMTPKey (MtpAddress mtp) (MtpId mtp) := mtp]> (MTPs st) |>)).

Definition GetMTP (mtpAddress : string) (id : Z) : M chain MTP :=
  st ← gets MarginState;
  match MTPs st !! GetMTPKey mtpAddress id with
  | Some mtp => mret mtp
  | None => fail (EMargin ErrMTPDoesNotExist)
  end.

Definition GetMTPsForPool (asset : string) : M chain (list MTP) :=
  gets (λ s, kv_filtered_paginate (MaxUint64 - 1)
    (λ mtp, String.eqb (CustodyAsset mtp) asset || String.eqb (CollateralAsset mtp) asset)
    (kv_iterate (MTPs (MarginState s)))).

Definition DestroyMTP (mtpAddress : string) (id : Z) : M chain () :=
  GetMTP mtpAddress id;;
  margin_modify (λ st, st <| MTPs := delete (GetMTPKey mtpAddress id) (MTPs st) |>);;
  openCount ← gets GetOpenMTPCount;
  margin_modify (λ st, st <| OpenMTPCount := Some (u64 (openCount - 1)) |>).

Definition WhitelistAddress (address : string) : M chain () :=
  margin_modify (λ st, st <| Whitelist := <[GetWhitelistKey address := address]> (Whitelist st) |>).
Definition DewhitelistAddress (address : string) : M chain () :=
  margin_modify (λ st, st <| Whitelist := delete (GetWhitelistKey address) (Whitelist st) |>).
Definition IsWhitelisted (s : chain) (address : string) : bool :=
  bool_decide (is_Some (Whitelist (MarginState s) !! GetWhitelistKey address)).

Definition sq_key (pool : Pool) : string := Symbol (ExternalAsset pool).
Definition GetSQBeginBlock (s : chain) (pool : Pool) : Z :=
  default 0 (SQBeginBlocks (MarginState s) !! sq_key pool).
Definition SetSQBeginBlock (pool : Pool) (height : Z) : M chain () :=
  margin_modify (λ st, st <| SQBeginBlocks := <[sq_key pool := height]> (SQBeginBlocks st) |>).
End Store.

(** ** keeper.go and calculations.go: computations *)
Section Compute.
Context {sdk : SDK}.

Definition ToAsset (asset : string) : Asset := mkAsset asset.

Definition GetEpochPosition (s : chain) (epochLength : Z) : Z :=
  Z.rem (BlockHeight s) (if epochLength <=? 0 then 1 else epochLength).

Definition CLPSwap (sentAmount : Z) (to : string) (pool : Pool) : M chain Z :=
  marginEnabled ← gets (λ s, margin_IsPoolEnabled s (Symbol (ExternalAsset pool)));
  swapResult ← CLPCalcSwap sentAmount (ToAsset to) pool marginEnabled;
  if swapResult =? 0 then fail (EClp ErrAmountTooLow) else mret swapResult.

Definition UpdateMTPHealth (mtp : MTP) (pool : Pool) : M chain Z :=
  let xl := Liabilities mtp in
  if xl =? 0 then mret 0 else
  xl ← lift (if InterestUnpaidCollateral mtp >? 0 then u_add xl (InterestUnpaidCollateral mtp)
             else Ok xl);
  C ← CLPSwap (CustodyAmount mtp) (CollateralAsset mtp) pool;
  lift (d_quo (d_of_big C) (d_of_big xl)).

Definition CalcMTPInterestLiabilities (mtp : MTP) (interestRate epochPosition epochLength : Z)
    : res Z :=
  let rate := d_float_rat interestRate in
  let liabilities := inject_Z (Liabilities mtp + InterestUnpaidCollateral mtp) in
  let interest := (rate * liabilities)%Q in
  interest ← (if 0 <? epochPosition then
                q ← rat_quo (inject_Z epochPosition) (inject_Z epochLength);
                Ok (interest * q)%Q
              else Ok interest);
  interestNew ← u_of_big (RatIntQuo interest + InterestUnpaidCollateral mtp);
  Ok (if (interestNew =? 0) && negb (interestRate =? 0) then 1 else interestNew).

Definition CheckMinLiabilities (collateralAmount eta : Z) (pool : Pool) (custodyAsset : string)
    : M chain () :=
  minInterestRate ← gets (λ s, MarginParams.InterestRateMin (GetParams s));
  liabilitiesDec ← lift (d_mul (d_of_big collateralAmount) eta);
  l ← lift (d_trunc liabilitiesDec);
  liabilities ← lift (u_of_big l);
  let interest := (d_float_rat minInterestRate * inject_Z liabilities)%Q in
  samplePayment ← lift (u_of_big (RatIntQuo interest));
  if (samplePayment =? 0) && negb (minInterestRate =? 0) then fail (EMargin ErrBorrowTooLow) else
  wrapM (EMargin ErrBorrowTooLow) (CLPSwap samplePayment custodyAsset pool);;
  mret ().

Definition GetSQFromBlocks (pool : Pool) (poolInterestRate : Z) : M chain Z :=
  beginBlock ← gets (λ s, GetSQBeginBlock s pool);
  if beginBlock =? 0 then mret 0 else
  height ← gets BlockHeight;
  let blocks := i64 (height - i64 beginBlock) in
  maxInterestRate ← gets (λ s, MarginParams.InterestRateMax (GetParams s));
  multipliedBy ← lift (d_sub (NewDec 1) (f_decay poolInterestRate blocks));
  lift (d_mul maxInterestRate multipliedBy).

Definition GetSQFromQueue (pool : Pool) : M chain Z :=
  q ← GetRemovalQueue (Symbol (ExternalAsset pool));
  if Count q =? 0 then mret 0 else
  height ← gets BlockHeight;
  let blocks := NewDec (i64 (height - StartHeight q)) in
  modifier ← gets (λ s, MarginParams.SqModifier (GetParams s));
  v ← lift (d_mul (d_of_big (TotalValue q)) blocks);
  lift (match modifier with Some m => d_quo v m | None => Panic end).

(** The rate moves towards [target] by at most the increase or decrease. *)
Definition step_rate (prev target increase decrease : Z) : res Z :=
  change ← d_sub target prev;
  negDecrease ← d_mul decrease (NewDec (-1));
  if (change >=? negDecrease) && (change <=? increase) then Ok target else
  if change >? increase then d_add prev increase else
  if change <? negDecrease then d_sub prev decrease else Ok prev.

Definition clamp_rate (rate lo hi : Z) : Z :=
  if (rate >? lo) && (rate <? hi) then rate else
  if rate <=? lo then lo else
  if rate >=? hi then hi else rate.

Definition InterestRateComputation (pool : Pool) : M chain Z :=
  params ← gets GetParams;
  let e := d_of_big (ExternalAssetBalance pool) in
  let el := d_of_big (ExternalLiabilities pool) in
  let n := d_of_big (NativeAssetBalance pool) in
  let nl := d_of_big (NativeLiabilities pool) in
  newInterestRate ← lift (
    edepth ← d_add e el; mul1 ← d_quo edepth e;
    ndepth ← d_add n nl; mul2 ← d_quo ndepth n;
    t ← d_mul (MarginParams.HealthGainFactor params) mul1;
    targetInterestRate ← d_mul t mul2;
    interestRate ← step_rate (InterestRate pool) targetInterestRate
                     (MarginParams.InterestRateIncrease params)
                     (MarginParams.InterestRateDecrease params);
    Ok (clamp_rate interestRate (MarginParams.InterestRateMin params)
          (MarginParams.InterestRateMax params)));
  sQ ← GetSQFromBlocks pool newInterestRate;
  lift (d_add newInterestRate sQ).

Definition TakeFundPayment (returnAmount : Z) (returnAsset : string) (takePercentage : Z)
    (fundAddr : string) : M chain Z :=
  t ← lift (d_mul takePercentage (d_of_big returnAmount));
  t ← lift (d_trunc t);
  takeAmount ← lift (u_of_big t);
  (if takeAmount =? 0 then mret () else
     i ← lift (i_of_big takeAmount);
     coin ← lift (new_coin returnAsset i);
     takeCoins ← lift (new_coins [coin]);
     onBank (bank_send_mod_to_acc ModuleName fundAddr takeCoins));;
  mret takeAmount.
End Compute.

(** ** keeper.go: borrowing and repaying *)
Section Positions.
Context {sdk : SDK}.

Definition savePool : M mctx () := pool ← gets CtxPool; onChain (SetPool pool).

(** [mtp.MtpHealth, err = k.UpdateMTPHealth(ctx, *mtp, *pool)]: an error also
    assigns the zero that comes with it. *)
Definition refresh_health : M mctx () :=
  mtp ← gets CtxMtp;
  pool ← gets CtxPool;
  r ← try (onChain (UpdateMTPHealth mtp pool));
  match r with
  | inl h => updMtp (λ m, Ok (m <| MtpHealth := h |>))
  | inr e => updMtp (λ m, Ok (m <| MtpHealth := 0 |>));; fail e
  end.

Definition is_native (asset : string) : bool := String.eqb asset settlement.

Definition Borrow (collateralAsset : string) (collateralAmount custodyAmount eta : Z)
    : M mctx () :=
  mtp ← gets CtxMtp;
  mtpAddress ← lift (acc_from_bech32 (MtpAddress mtp));
  i ← lift (i_of_big collateralAmount);
  collateralCoin ← lift (new_coin collateralAsset i);
  b ← gets (λ c, Bank (CtxChain c));
  if negb (bank_has_balance b mtpAddress collateralCoin) then fail (EClp ErrBalanceNotAvailable) else
  liabilitiesDec ← lift (d_mul (d_of_big collateralAmount) eta);
  updMtp (λ m, x ← u_add (CollateralAmount m) collateralAmount; Ok (m <| CollateralAmount := x |>));;
  updMtp (λ m, t ← d_trunc liabilitiesDec; t ← u_of_big t; x ← u_add (Liabilities m) t;
               Ok (m <| Liabilities := x |>));;
  updMtp (λ m, x ← u_add (CustodyAmount m) custodyAmount; Ok (m <| CustodyAmount := x |>));;
  updMtp (λ m, x ← d_add eta P18; Ok (m <| Leverage := x |>));;
  mtp ← gets CtxMtp;
  pool ← gets CtxPool;
  h ← onChain (UpdateMTPHealth mtp pool);
  updMtp (λ m, Ok (m <| MtpHealth := h |>));;
  collateralCoins ← lift (new_coins [collateralCoin]);
  onChain (onBank (bank_send_acc_to_mod mtpAddress ModuleName collateralCoins));;
  mtp ← gets CtxMtp;
  (if is_native (CollateralAsset mtp) then
     updPool (λ p, x ← u_add (NativeAssetBalance p) collateralAmount;
                   Ok (p <| NativeAssetBalance := x |>));;
     updPool (λ p, x ← u_add (NativeLiabilities p) (Liabilities mtp);
                   Ok (p <| NativeLiabilities := x |>))
   else
     updPool (λ p, x ← u_add (ExternalAssetBalance p) collateralAmount;
                   Ok (p <| ExternalAssetBalance := x |>));;
     updPool (λ p, x ← u_add (ExternalLiabilities p) (Liabilities mtp);
                   Ok (p <| ExternalLiabilities := x |>)));;
  savePool;;
  SetMTP.

Definition UpdatePoolHealth : M mctx () :=
  updPool (λ p, h ← margin_CalculatePoolHealth p; Ok (p <| Health := Some h |>));;
  savePool.

Definition TakeInCustody (mtp : MTP) : M mctx () :=
  (if is_native (CustodyAsset mtp) then
     updPool (λ p, x ← u_sub (NativeAssetBalance p) (CustodyAmount mtp);
                   Ok (p <| NativeAssetBalance := x |>));;
     updPool (λ p, x ← u_add (NativeCustody p) (CustodyAmount mtp);
                   Ok (p <| NativeCustody := x |>))
   else
     updPool (λ p, x ← u_sub (ExternalAssetBalance p) (CustodyAmount mtp);
                   Ok (p <| ExternalAssetBalance := x |>));;
     updPool (λ p, x ← u_add (ExternalCustody p) (CustodyAmount mtp);
                   Ok (p <| ExternalCustody := x |>)));;
  savePool.

Definition TakeOutCustody (mtp : MTP) : M mctx () :=
  (if is_native (CustodyAsset mtp) then
     updPool (λ p, x ← u_sub (NativeCustody p) (CustodyAmount mtp);
                   Ok (p <| NativeCustody := x |>));;
     updPool (λ p, x ← u_add (NativeAssetBalance p) (CustodyAmount mtp);
                   Ok (p <| NativeAssetBalance := x |>))
   else
     updPool (λ p, x ← u_sub (ExternalCustody p) (CustodyAmount mtp);
                   Ok (p <| ExternalCustody := x |>));;
     updPool (λ p, x ← u_add (ExternalAssetBalance p) (CustodyAmount mtp);
                   Ok (p <| ExternalAssetBalance := x |>)));;
  savePool.

(** What is returned to the owner, the unpaid principal and the unpaid
    interest. *)
Definition settle (have liabilities unpaid : Z) : res (Z * Z * Z) :=
  owe ← u_add liabilities unpaid;
  if have <? liabilities then
    debtP ← u_sub liabilities have; Ok (0, debtP, unpaid)
  else if have <? owe then
    t ← u_add liabilities unpaid; debtI ← u_sub t have; Ok (0, 0, debtI)
  else
    t ← u_sub have liabilities; returnAmount ← u_sub t unpaid; Ok (returnAmount, 0, 0).

(** Pays [returnAmount] out, the fund's share first when it takes one. *)
Definition pay_return (mtp : MTP) (returnAmount : Z) (takeFundPayment : bool) : M chain () :=
  if returnAmount =? 0 then mret () else
  actual ← (if takeFundPayment then
    takePercentage ← gets (λ s, MarginParams.ForceCloseFundPercentage (GetParams s));
    fundAddr ← GetForceCloseFundAddress;
    takeAmount ← TakeFundPayment returnAmount (CollateralAsset mtp) takePercentage fundAddr;
    lift (u_sub returnAmount takeAmount)
  else mret returnAmount);
  if actual =? 0 then mret () else
  i ← lift (i_of_big actual);
  returnCoin ← lift (new_coin (CollateralAsset mtp) i);
  returnCoins ← lift (coins_add [] returnCoin);
  addr ← lift (acc_from_bech32 (MtpAddress mtp));
  onBank (bank_send_mod_to_acc ModuleName addr returnCoins).

Definition Repay (repayAmount : Z) (takeFundPayment : bool) : M mctx () :=
  mtp ← gets CtxMtp;
  refresh_health;;
  '(returnAmount, debtP, debtI) ← lift
    (settle repayAmount (Liabilities mtp) (InterestUnpaidCollateral mtp));
  onChain (pay_return mtp returnAmount takeFundPayment);;
  (if is_native (CollateralAsset mtp) then
     updPool (λ p, x ← u_sub (NativeAssetBalance p) returnAmount;
                   Ok (p <| NativeAssetBalance := x |>));;
     updPool (λ p, x ← u_sub (NativeLiabilities p) (Liabilities mtp);
                   Ok (p <| NativeLiabilities := x |>));;
     updPool (λ p, x ← u_add (UnsettledNativeLiabilities p) debtI; x ← u_add x debtP;
                   Ok (p <| UnsettledNativeLiabilities := x |>))
   else
     updPool (λ p, x ← u_sub (ExternalAssetBalance p) returnAmount;
                   Ok (p <| ExternalAssetBalance := x |>));;
     updPool (λ p, x ← u_sub (ExternalLiabilities p) (Liabilities mtp);
                   Ok (p <| ExternalLiabilities := x |>));;
     updPool (λ p, x ← u_add (UnsettledExternalLiabilities p) debtI; x ← u_add x debtP;
                   Ok (p <| UnsettledExternalLiabilities := x |>)));;
  onChain (DestroyMTP (MtpAddress mtp) (MtpId mtp));;
  savePool.

Definition IncrementalInterestPayment (interestPayment : Z) : M mctx Z :=
  mtp ← gets CtxMtp;
  interestPayment ← lift (if InterestUnpaidCollateral mtp >? 0
                          then u_add interestPayment (InterestUnpaidCollateral mtp)
                          else Ok interestPayment);
  pool ← gets CtxPool;
  interestPaymentCustody ← onChain (CLPSwap interestPayment (CustodyAsset mtp) pool);
  updMtp (λ m, Ok (m <| InterestUnpaidCollateral := 0 |>));;
  '(interestPayment, interestPaymentCustody) ←
    (if interestPaymentCustody >? CustodyAmount mtp then
       custodyAmountCollateral ← onChain (CLPSwap (CustodyAmount mtp) (CollateralAsset mtp) pool);
       updMtp (λ m, x ← u_sub interestPayment custodyAmountCollateral;
                    Ok (m <| InterestUnpaidCollateral := x |>));;
       mret (custodyAmountCollateral, CustodyAmount mtp)
     else mret (interestPayment, interestPaymentCustody));
  updMtp (λ m, x ← u_add (InterestPaidCollateral m) interestPayment;
               Ok (m <| InterestPaidCollateral := x |>));;
  updMtp (λ m, x ← u_add (InterestPaidCustody m) interestPaymentCustody;
               Ok (m <| InterestPaidCustody := x |>));;
  updMtp (λ m, x ← u_sub (CustodyAmount m) interestPaymentCustody;
               Ok (m <| CustodyAmount := x |>));;
  takePercentage ← gets (λ c,
    MarginParams.IncrementalInterestPaymentFundPercentage (GetParams (CtxChain c)));
  fundAddr ← onChain GetIncrementalInterestPaymentFundAddress;
  takeAmount ← onChain (TakeFundPayment interestPaymentCustody (CustodyAsset mtp) takePercentage
                          fundAddr);
  actual ← lift (u_sub interestPaymentCustody takeAmount);
  (if is_native (CustodyAsset mtp) then
     updPool (λ p, x ← u_sub (NativeCustody p) interestPaymentCustody;
                   Ok (p <| NativeCustody := x |>));;
     updPool (λ p, x ← u_add (NativeAssetBalance p) actual;
                   Ok (p <| NativeAssetBalance := x |>))
   else
     updPool (λ p, x ← u_sub (ExternalCustody p) interestPaymentCustody;
                   Ok (p <| ExternalCustody := x |>));;
     updPool (λ p, x ← u_add (ExternalAssetBalance p) actual;
                   Ok (p <| ExternalAssetBalance := x |>)));;
  SetMTP;;
  savePool;;
  mret actual.

Definition HandleInterestPayment (interestPayment : Z) : M mctx Z :=
  enabled ← gets (λ c, MarginParams.IncrementalInterestPaymentEnabled (GetParams (CtxChain c)));
  if enabled : bool then
    r ← try (IncrementalInterestPayment interestPayment);
    mret (match r with inl final => final | inr _ => 0 end)
  else
    updMtp (λ m, Ok (m <| InterestUnpaidCollateral := interestPayment |>));;
    mret 0.

(** Adds the interest to the counters of the block. *)
Definition record_block_interest (finalInterestPayment : Z) : M mctx () :=
  mtp ← gets CtxMtp;
  if is_native (CollateralAsset mtp) then
    updPool (λ p, x ← u_add (BlockInterestExternal p) finalInterestPayment;
                  Ok (p <| BlockInterestExternal := x |>))
  else
    updPool (λ p, x ← u_add (BlockInterestNative p) finalInterestPayment;
                  Ok (p <| BlockInterestNative := x |>)).

(** The interest due within an epoch, paid before a position is closed. *)
Definition pay_prorated_interest : M mctx () :=
  epochLength ← gets (λ c, MarginParams.EpochLength (GetParams (CtxChain c)));
  epochPosition ← gets (λ c, GetEpochPosition (CtxChain c) epochLength);
  if 0 <? epochPosition then
    mtp ← gets CtxMtp;
    pool ← gets CtxPool;
    interestPayment ← lift (CalcMTPInterestLiabilities mtp (InterestRate pool) epochPosition
                              epochLength);
    final ← HandleInterestPayment interestPayment;
    record_block_interest final;;
    refresh_health
  else mret ().

Definition close_out (takeFundPayment : bool) : M mctx Z :=
  mtp ← gets CtxMtp;
  TakeOutCustody mtp;;
  pool ← gets CtxPool;
  repayAmount ← onChain (CLPSwap (CustodyAmount mtp) (CollateralAsset mtp) pool);
  Repay repayAmount takeFundPayment;;
  mret repayAmount.

Definition ForceCloseLong (isAdminClose takeFundPayment : bool) : M mctx Z :=
  safetyFactor ← gets (λ c, MarginParams.SafetyFactor (GetParams (CtxChain c)));
  pay_prorated_interest;;
  mtp ← gets CtxMtp;
  if negb isAdminClose && (MtpHealth mtp >? safetyFactor) then fail (EMargin ErrMTPHealthy) else
  close_out takeFundPayment.

Definition TrackSQBeginBlock (pool : Pool) : M chain () :=
  threshold ← gets margin_RemovalQueueThreshold;
  sqBeginBlock ← gets (λ s, GetSQBeginBlock s pool);
  health ← lift (match Health pool with Some h => Ok h | None => Panic end);
  if sqBeginBlock =? 0 then
    if health <=? threshold then
      height ← gets BlockHeight; SetSQBeginBlock pool (u64 height)
    else mret ()
  else if health >? threshold then SetSQBeginBlock pool 0 else mret ().
End Positions.

(** ** msg_server.go, admin_msg_server.go *)
Section Handlers.
Context {sdk : SDK}.

Definition OpenLong (msg : MsgOpen.t) : M chain MTP :=
  params ← gets GetParams;
  let leverage := Z.min (MsgOpen.Leverage msg) (MarginParams.LeverageMax params) in
  eta ← lift (d_sub leverage P18);
  let collateralAmount := MsgOpen.CollateralAmount msg in
  let native := is_native (MsgOpen.CollateralAsset msg) in
  let mtp := NewMTP (MsgOpen.Signer msg) (MsgOpen.CollateralAsset msg) (MsgOpen.BorrowAsset msg)
               (MsgOpen.Position msg) leverage in
  if negb (MarginParams.FuryCollateralEnabled params) && native
  then fail (EMargin ErrFuryAsCollateralNotAllowed) else
  let externalAsset := if native then MsgOpen.BorrowAsset msg else MsgOpen.CollateralAsset msg in
  pool ← wrapM (EClp ErrPoolDoesNotExist) (GetPool externalAsset);
  enabled ← gets (λ s, margin_IsPoolEnabled s externalAsset);
  if negb enabled then fail (EMargin ErrMTPDisabled) else
  leveragedAmountDec ← lift (d_mul (d_of_big collateralAmount) leverage);
  t ← lift (d_trunc leveragedAmountDec);
  leveragedAmount ← lift (u_of_big t);
  if leveragedAmount >? (if native then NativeAssetBalance pool else ExternalAssetBalance pool)
  then fail (EMargin ErrBorrowTooHigh) else
  CheckMinLiabilities collateralAmount eta pool (MsgOpen.BorrowAsset msg);;
  custodyAmount ← CLPSwap leveragedAmount (MsgOpen.BorrowAsset msg) pool;
  if custodyAmount >? (if native then ExternalAssetBalance pool else NativeAssetBalance pool)
  then fail (EMargin ErrCustodyTooHigh) else
  '(_, mtp, pool) ← withPointers mtp pool
    (Borrow (MsgOpen.CollateralAsset msg) collateralAmount custodyAmount eta;;
     UpdatePoolHealth;;
     mtp ← gets CtxMtp;
     TakeInCustody mtp);
  safetyFactor ← gets (λ s, MarginParams.SafetyFactor (GetParams s));
  lr ← UpdateMTPHealth mtp pool;
  if lr <=? safetyFactor then fail (EMargin ErrMTPUnhealthy) else mret mtp.

Definition msg_Open (msg : MsgOpen.t) : M chain () :=
  params ← gets GetParams;
  whitelisted ← gets (λ s, IsWhitelisted s (MsgOpen.Signer msg));
  if MarginParams.WhitelistingEnabled params && negb whitelisted
  then fail (EMargin ErrUnauthorised) else
  openCount ← gets GetOpenMTPCount;
  if openCount >=? MarginParams.MaxOpenPositions params then fail (EMargin ErrMaxOpenPositions) else
  let externalAsset := if is_native (MsgOpen.CollateralAsset msg) then MsgOpen.BorrowAsset msg
                       else MsgOpen.CollateralAsset msg in
  pool ← wrapM (EClp ErrPoolDoesNotExist) (GetPool externalAsset);
  enabled ← gets (λ s, margin_IsPoolEnabled s externalAsset);
  closed ← gets (λ s, IsPoolClosed s externalAsset);
  if negb enabled || closed then fail (EMargin ErrMTPDisabled) else
  let unhealthy := match Health pool with
                   | Some h => h <=? MarginParams.PoolOpenThreshold params
                   | None => false
                   end in
  if unhealthy : bool then fail (EMargin ErrMTPDisabled) else
  if MsgOpen.Position msg =? Position_LONG then OpenLong msg;; mret ()
  else fail (EMargin ErrInvalidPosition).

(** The pool a position trades in. *)
Definition pool_of_mtp (mtp : MTP) : M chain Pool :=
  wrapM (EClp ErrPoolDoesNotExist)
    (GetPool (if is_native (CollateralAsset mtp) then CustodyAsset mtp else CollateralAsset mtp)).

Definition CloseLong (msg : MsgClose.t) : M chain (MTP * Z) :=
  mtp ← GetMTP (MsgClose.Signer msg) (MsgClose.Id msg);
  pool ← pool_of_mtp mtp;
  '(repayAmount, mtp, _) ← withPointers mtp pool (pay_prorated_interest;; close_out false);
  mret (mtp, repayAmount).

Definition msg_Close (msg : MsgClose.t) : M chain () :=
  mtp ← GetMTP (MsgClose.Signer msg) (MsgClose.Id msg);
  if Position mtp =? Position_LONG then CloseLong msg;; mret ()
  else fail (EMargin ErrInvalidPosition).

(** AdminClose, and ForceClose with [TakeMarginFund := false]. *)
Definition msg_AdminClose (msg : MsgAdminClose.t) : M chain () :=
  require_admin AdminType_MARGIN (MsgAdminClose.Signer msg) EAdminDenied;;
  mtpToClose ← GetMTP (MsgAdminClose.MtpAddress msg) (MsgAdminClose.Id msg);
  if Position mtpToClose =? Position_LONG then
    pool ← pool_of_mtp mtpToClose;
    withPointers mtpToClose pool (ForceCloseLong true (MsgAdminClose.TakeMarginFund msg));;
    mret ()
  else fail (EMargin ErrInvalidPosition).

Definition msg_ForceClose (signer mtpAddress : string) (id : Z) : M chain () :=
  msg_AdminClose (MsgAdminClose.mk signer mtpAddress id false).

Definition msg_AdminCloseAll (signer : string) (takeMarginFund : bool) : M chain () :=
  require_admin AdminType_MARGIN signer EAdminDenied;;
  params ← gets GetParams;
  let params := params <| MarginParams.SafetyFactor := NewDec 100 |> in
  let params := if takeMarginFund then params
                else params <| MarginParams.ForceCloseFundPercentage := 0 |> in
  SetParams params.

Definition msg_UpdateParams (signer : string) (new : MarginParams.t) : M chain () :=
  require_admin AdminType_MARGIN signer EAdminDenied;;
  params ← gets GetParams;
  SetParams (new <| MarginParams.Pools := MarginParams.Pools params |>).

Definition msg_UpdatePools (signer : string) (pools closedPools : list string) : M chain () :=
  require_admin AdminType_MARGIN signer EAdminDenied;;
  params ← gets GetParams;
  SetParams (params <| MarginParams.Pools := pools |> <| MarginParams.ClosedPools := closedPools |>).

Definition msg_UpdateFuryCollateral (signer : string) (enabled : bool) : M chain () :=
  require_admin AdminType_MARGIN signer EAdminDenied;;
  params ← gets GetParams;
  SetParams (params <| MarginParams.FuryCollateralEnabled := enabled |>).

Definition msg_Whitelist (signer address : string) : M chain () :=
  require_admin AdminType_MARGIN signer EAdminDenied;; WhitelistAddress address.

Definition msg_Dewhitelist (signer address : string) : M chain () :=
  require_admin AdminType_MARGIN signer EAdminDenied;; DewhitelistAddress address.

(** ** abci.go *)

(** The body of BeginBlockerProcessMTP; a panic is recovered. *)
Definition process_mtp : M mctx () :=
  mtp ← gets CtxMtp;
  pool ← gets CtxPool;
  r ← try (onChain (UpdateMTPHealth mtp pool));
  match r with
  | inr _ => mret ()
  | inl h =>
      updMtp (λ m, Ok (m <| MtpHealth := h |>));;
      mtp ← gets CtxMtp;
      interestPayment ← lift (CalcMTPInterestLiabilities mtp (InterestRate pool) 0 0);
      final ← HandleInterestPayment interestPayment;
      record_block_interest final;;
      try SetMTP;;
      try (ForceCloseLong false true);;
      mret ()
  end.

Definition BeginBlockerProcessMTP (mtp : MTP) : M mctx () :=
  modify (λ c, c <| CtxMtp := mtp |>);; recovering process_mtp.

(** One iteration over the pools. *)
Definition process_pool (pool : Pool) : M chain () :=
  height ← gets BlockHeight;
  let pool := pool <| BlockInterestExternal := 0 |> <| BlockInterestNative := 0 |> in
  enabled ← gets (λ s, margin_IsPoolEnabled s (Symbol (ExternalAsset pool)));
  if enabled : bool then
    r ← try (InterestRateComputation pool);
    match r with
    | inr _ => mret ()
    | inl rate =>
        let pool := pool <| InterestRate := rate |> <| LastHeightInterestRateComputed := height |> in
        '(_, _, pool) ← withPointers (NewMTP "" "" "" 0 0) pool
          (try UpdatePoolHealth;;
           p ← gets CtxPool;
           onChain (TrackSQBeginBlock p);;
           mtps ← onChain (GetMTPsForPool (Symbol (ExternalAsset pool)));
           forM mtps BeginBlockerProcessMTP);
        try (SetPool pool);; mret ()
    end
  else try (SetPool pool);; mret ().

Definition BeginBlocker : M chain () :=
  epochLength ← gets (λ s, MarginParams.EpochLength (GetParams s));
  epochPosition ← gets (λ s, GetEpochPosition s epochLength);
  if epochPosition =? 0 then
    pools ← GetPools;
    forM pools process_pool
  else mret ().
End Handlers.
