(* ===== verification/MarginBooks.v ===== *)
(** * What margin operations do to the books of the clp module

    Margin positions live on the balances and custody of the pools.  A method
    works on a position and a pool behind pointers, so the books are kept for the
    chain together with the pool as the pointer has it: every step leaves the
    coins of the module account beyond all claims at least what they were, and
    exactly that when the accounts that are paid are not the module account
    itself. *)
From S2P Require Import Prelude Wp Sdk ClpTypes ClpCalc ClpCalcProps Admin TokenRegistry.
From S2P Require Import MarginTypes Chain Ledger ClpKeeper ClpExec ClpMsg ClpState Margin.

(** [y] is at least [x], and [x] itself under [P]. *)
Definition kept (P : Prop) (x y : Z) : Prop := x ≤ y ∧ (P → y = x).

Lemma kept_refl P x : kept P x x.
Proof. done. Qed.
Lemma kept_trans P x y z : kept P x y → kept P y z → kept P x z.
Proof. intros [??] [??]. split; [lia|]. intros HP. rewrite H2, H0; done. Qed.

(** ** Positions *)

(** One side of a position is fury: the pool is that of the other side. *)
Definition paired (m : MTP) : Prop :=
  is_native (CollateralAsset m) = true ∨ is_native (CustodyAsset m) = true.
Definition pool_sym (m : MTP) : string :=
  if is_native (CollateralAsset m) then CustodyAsset m else CollateralAsset m.

(** The account is not the module account. *)
Definition is_outside {sdk : SDK} (addr : string) : Prop :=
  ∀ a, acc_from_bech32 addr = Ok a → a ≠ clp_module_address.

Record mtp_wf {sdk : SDK} (m : MTP) : Prop := {
  mw_liabilities : is_uint (Liabilities m);
  mw_custody : is_uint (CustodyAmount m);
  mw_unpaid : is_uint (InterestUnpaidCollateral m);
  mw_paired : paired m;
  mw_owner : is_outside (MtpAddress m)
}.
Definition ident (m : MTP) : string * string * string :=
  (MtpAddress m, CollateralAsset m, CustodyAsset m).

Lemma is_native_eq a : is_native a = true → a = NativeSymbol.
Proof. by intros ->%String.eqb_eq. Qed.

(** ** The books of a context *)
Section Context_.
Context {sdk : SDK}.

Definition margin_wf (s : chain) : Prop :=
  ∀ k m, MTPs (MarginState s) !! k = Some m → mtp_wf m.

Definition ctx_key (c : mctx) : string := pool_key (Symbol (ExternalAsset (CtxPool c))).

Definition ledger (c : mctx) (d : string) : Z :=
  module_balance (CtxChain c) d - msum (pool_claim d) (delete (ctx_key c) (Pools (CtxChain c)))
  - pool_claim d (CtxPool c).

Definition outer (s : chain) := (LiquidityProviders s, RemovalRequests s, Params (MarginState s)).

Record ctx_wf (c : mctx) : Prop := {
  cw_chain : clp_wf (CtxChain c);
  cw_margin : margin_wf (CtxChain c);
  cw_pool : pool_wf (CtxPool c);
  cw_mtp : mtp_wf (CtxMtp c);
  cw_sym : Symbol (ExternalAsset (CtxPool c)) = pool_sym (CtxMtp c)
}.

Record step (P : Prop) (c0 c : mctx) : Prop := {
  sp_ledger d : kept P (ledger c0 d) (ledger c d);
  sp_rest : delete (ctx_key c0) (Pools (CtxChain c)) = delete (ctx_key c0) (Pools (CtxChain c0));
  sp_asset : ExternalAsset (CtxPool c) = ExternalAsset (CtxPool c0);
  sp_units : PoolUnits (CtxPool c) = PoolUnits (CtxPool c0);
  sp_outer : outer (CtxChain c) = outer (CtxChain c0);
  sp_ident : ident (CtxMtp c) = ident (CtxMtp c0)
}.

(** The invariant of a method that started in [c0]. *)
Definition inv (P : Prop) (c0 c : mctx) : Prop := ctx_wf c ∧ step P c0 c.

Lemma inv_refl P c : ctx_wf c → inv P c c.
Proof. intros. split; [done|]. split; done. Qed.

Lemma inv_trans P c0 c1 c2 : inv P c0 c1 → inv P c1 c2 → inv P c0 c2.
Proof.
  intros [_ A] [W B]. split; [done|].
  assert (ctx_key c1 = ctx_key c0) as Hk by (unfold ctx_key; by rewrite (sp_asset _ _ _ A)).
  split.
  - intros d. eapply kept_trans; [apply A|apply B].
  - pose proof (sp_rest _ _ _ B) as HB. rewrite Hk in HB. by rewrite HB, (sp_rest _ _ _ A).
  - by rewrite (sp_asset _ _ _ B), (sp_asset _ _ _ A).
  - by rewrite (sp_units _ _ _ B), (sp_units _ _ _ A).
  - by rewrite (sp_outer _ _ _ B), (sp_outer _ _ _ A).
  - by rewrite (sp_ident _ _ _ B), (sp_ident _ _ _ A).
Qed.

(** A step that moves coins and changes the objects behind the pointers. *)
Lemma inv_next P c0 c c' : inv P c0 c →
  mtp_wf (CtxMtp c') → ident (CtxMtp c') = ident (CtxMtp c) →
  pool_wf (CtxPool c') → ExternalAsset (CtxPool c') = ExternalAsset (CtxPool c) →
  PoolUnits (CtxPool c') = PoolUnits (CtxPool c) →
  Pools (CtxChain c') = Pools (CtxChain c) → outer (CtxChain c') = outer (CtxChain c) →
  MarginState (CtxChain c') = MarginState (CtxChain c) →
  (∀ d, kept P (module_balance (CtxChain c) d - pool_claim d (CtxPool c))
               (module_balance (CtxChain c') d - pool_claim d (CtxPool c'))) →
  inv P c0 c'.
Proof.
  intros Hi Hm Hid Hp Ha Hu HP Ho HM Hd. apply (inv_trans P c0 c c' Hi). destruct Hi as [[W1 W2 W3 W4 W5] _].
  split.
  - split; [|by unfold margin_wf; rewrite HM|done|done|].
    + injection Ho as HL _ _. destruct W1 as [H1 H2 H3]. by split; rewrite ?HP, ?HL.
    + rewrite Ha, W5. unfold pool_sym. injection Hid as _ -> ->. done.
  - split; [|by rewrite HP|done..].
    intros d. specialize (Hd d). unfold ledger, ctx_key. rewrite HP, Ha.
    unfold kept in *. destruct Hd as [Hle Heq]. split; [lia|]. intros HPp. specialize (Heq HPp). lia.
Qed.
End Context_.

(** ** Rules for the pointers *)
Section Rules.
Context {sdk : SDK} {L : SDKLaws sdk}.

Lemma wp_onChain {A} (m : M chain A) (Q : A → mctx → Prop) E c :
  wp m (λ a s', Q a (c <| CtxChain := s' |>)) (λ s', E (c <| CtxChain := s' |>)) (CtxChain c) →
  wp (onChain m) Q E c.
Proof. unfold wp, onChain. destruct (m (CtxChain c)) as [[]]; done. Qed.

Lemma wp_updPool f (Q : () → mctx → Prop) E c :
  (∀ p, f (CtxPool c) = Ok p → Q () (c <| CtxPool := p |>)) → (∀ e, f (CtxPool c) = Err e → E c) →
  wp (updPool f) Q E c.
Proof. intros HQ HE. unfold updPool. wp_steps. apply wp_lift; [|done]. intros p Hp. wp_steps. by apply HQ. Qed.

Lemma wp_updMtp f (Q : () → mctx → Prop) E c :
  (∀ m, f (CtxMtp c) = Ok m → Q () (c <| CtxMtp := m |>)) → (∀ e, f (CtxMtp c) = Err e → E c) →
  wp (updMtp f) Q E c.
Proof. intros HQ HE. unfold updMtp. wp_steps. apply wp_lift; [|done]. intros p Hp. wp_steps. by apply HQ. Qed.

Lemma reads_onChain {A} (m : M chain A) : reads m → reads (onChain m).
Proof. intros H c. specialize (H (CtxChain c)). unfold onChain. destruct (m _). cbn in *. subst. by destruct c. Qed.

Lemma reads_CLPSwap x to p : reads (CLPSwap x to p).
Proof.
  unfold CLPSwap, CLPCalcSwap, GetSwapFeeRate, GetSwapFeeParams.
  destruct (ExtractValues p _) as [[[X Y] toFury] from]. reads_auto.
Qed.
#[local] Hint Resolve reads_CLPSwap : reads.

Lemma reads_UpdateMTPHealth m p : reads (UpdateMTPHealth m p).
Proof. unfold UpdateMTPHealth. reads_auto. Qed.

(** A swap is paid from the balance of its side. *)
Definition side_balance (native : bool) (p : Pool) : Z :=
  if native then NativeAssetBalance p else ExternalAssetBalance p.

Lemma CLPSwap_Ok x to p s y s' : CLPSwap x to p s = (Ok y, s') →
  s' = s ∧ is_uint y ∧ y < side_balance (is_native to) p.
Proof.
  intros H. pose proof (reads_CLPSwap x to p s) as Hr. rewrite H in Hr. cbn in Hr. split; [done|].
  unfold CLPSwap, CLPCalcSwap, ToAsset, ExtractValues in H. unfold side_balance.
  change (IsSettlementAsset (mkAsset to)) with (is_native to) in *.
  destruct (is_native to) eqn:En; inv_ok; case_test; inv_ok;
    repeat (match goal with v : (Z * Z)%type |- _ => destruct v end; inv_ok);
    case_test; inv_ok; bool_prop;
    match goal with E : CalcSwapResult _ _ _ _ _ _ = Ok _ |- _ => apply CalcSwapResult_uint in E as [? _] end;
    split; (done || lia).
Qed.

(** ** Writing the store *)

Definition saved (c : mctx) : Prop := Pools (CtxChain c) !! ctx_key c = Some (CtxPool c).

Lemma saved_surplus c d : saved c → surplus (CtxChain c) d = ledger c d.
Proof. intros Hs. unfold surplus, ledger, claims. rewrite (msum_delete _ _ _ _ Hs). lia. Qed.

Lemma SetPool_Err p s e s' : SetPool p s = (Err e, s') → s' = s.
Proof.
  unfold SetPool, mbind, M_bind, lift. destruct (PoolValidate p) as [[]| |]; cbn; by intros [= <-] || intros [= _ <-].
Qed.

Lemma wp_savePool P c0 c : inv P c0 c →
  wp savePool (λ _ c', inv P c0 c' ∧ saved c' ∧ CtxPool c' = CtxPool c ∧ CtxMtp c' = CtxMtp c) (inv P c0) c.
Proof.
  intros Hi. unfold savePool. wp_steps. apply wp_onChain. unfold wp.
  destruct (SetPool (CtxPool c) (CtxChain c)) as [[u|e|] s'] eqn:E; [| |done].
  - apply SetPool_Ok in E as [Hv ->]. split; [|by split; [unfold saved; cbn; rewrite lookup_insert_eq|]].
    apply (inv_trans P c0 c _ Hi). destruct Hi as [[W1 W2 W3 W4 W5] _]. split.
    + split; [by apply put_pool_wf|done..].
    + split; try done; cbn; unfold ledger, ctx_key; cbn; by rewrite delete_insert_eq.
  - apply SetPool_Err in E as ->. by destruct c.
Qed.

(** Writes to the positions keep the books. *)
Lemma inv_margin P c0 c ms : inv P c0 c → Params ms = Params (MarginState (CtxChain c)) →
  (∀ k m, MTPs ms !! k = Some m → mtp_wf m) →
  inv P c0 (c <| CtxChain := (CtxChain c) <| MarginState := ms |> |>).
Proof.
  intros Hi HP HM. apply (inv_trans P c0 c _ Hi). destruct Hi as [[W1 W2 W3 W4 W5] _].
  split; [by split; destruct W1|]. split; try done. unfold outer. cbn. by rewrite HP.
Qed.

Lemma inv_mtp P c0 c m : inv P c0 c → mtp_wf m → ident m = ident (CtxMtp c) →
  inv P c0 (c <| CtxMtp := m |>).
Proof. intros Hi Hm Hid. pose proof (cw_pool _ (proj1 Hi)). by apply (inv_next P c0 c). Qed.

Lemma wp_SetMTP P c0 c : inv P c0 c →
  wp SetMTP (λ _ c', inv P c0 c' ∧ CtxPool c' = CtxPool c ∧ (saved c → saved c')
                     ∧ CustodyAmount (CtxMtp c') = CustodyAmount (CtxMtp c)) (inv P c0) c.
Proof.
  intros Hi. unfold SetMTP. wp_steps.
  apply (wp_mono _ (λ _ c', inv P c0 c' ∧ CtxPool c' = CtxPool c
                            ∧ Pools (CtxChain c') = Pools (CtxChain c)
                            ∧ CustodyAmount (CtxMtp c') = CustodyAmount (CtxMtp c)) _ (inv P c0)); [|clear Hi|done].
  - case_test; wp_steps; [|done]. apply wp_updMtp; [|done]. intros m [= <-].
    unfold margin_modify. wp_steps. apply wp_onChain. wp_steps. apply wp_onChain. wp_steps.
    split; [|done]. pose proof (cw_mtp _ (proj1 Hi)) as [?????].
    apply (inv_margin P c0 (_ <| CtxChain := _ |>)); [|done|].
    + apply (inv_margin P c0 (_ <| CtxMtp := _ |>)); [by apply inv_mtp|done|].
      apply (cw_margin _ (proj1 Hi)).
    + apply (cw_margin _ (proj1 Hi)).
  - intros _ c' (Hi & Hp & HP & Hc). wp_steps. apply wp_lift; [intros _ _|done]. wp_steps.
    apply wp_onChain. unfold margin_modify. wp_steps. split; [|split; [done|split; [|done]]].
    + apply inv_margin; [done|done|]. cbn. intros k m [[<- <-]|[_ Hk]]%lookup_insert_Some;
        [apply (cw_mtp _ (proj1 Hi))|by apply (cw_margin _ (proj1 Hi) k)].
    + unfold saved, ctx_key. cbn. by rewrite Hp, HP.
Qed.
End Rules.

(** ** Payments *)
Section Payments.
Context {sdk : SDK} {L : SDKLaws sdk}.

Lemma must_Ok {A} (r : res A) a : must r = Ok a → r = Ok a.
Proof. by destruct r. Qed.

(** The funds a position pays are not the module account either. *)
Definition funds_outside (s : chain) : Prop :=
  is_outside (MarginParams.ForceCloseFundAddress (GetParams s))
  ∧ is_outside (MarginParams.IncrementalInterestPaymentFundAddress (GetParams s)).
Definition outside (c : mctx) : Prop := funds_outside (CtxChain c).

Lemma outside_step P c0 c : step P c0 c → outside c0 → outside c.
Proof. intros Hs. unfold outside, funds_outside, GetParams. by pose proof (sp_outer _ _ _ Hs) as [= _ _ ->]. Qed.

(** What [x] of a denomination does to the account of the module when it is sent
    away. *)
Definition paid_out (P : Prop) (denom : string) (x : Z) (s s' : chain) : Prop :=
  (∃ b, s' = s <| Bank := b |>)
  ∧ ∀ d, kept P (module_balance s d - only denom x d) (module_balance s' d).

Lemma paid_nothing P denom s : paid_out P denom 0 s s.
Proof.
  split; [exists (Bank s); by destruct s|]. intros d. unfold kept, only.
  case_test; split; [lia|intros _; lia|lia|intros _; lia].
Qed.

Lemma paid_trans P denom x y s1 s2 s3 : paid_out P denom x s1 s2 → paid_out P denom y s2 s3 →
  paid_out P denom (x + y) s1 s3.
Proof.
  intros [[b1 ->] H1] [[b2 ->] H2]. split; [by exists b2|]. intros d.
  specialize (H1 d) as [A1 B1]. specialize (H2 d) as [A2 B2]. unfold kept, only, module_balance in *. cbn in *.
  case_test; (split; [lia|intros HP; specialize (B1 HP); specialize (B2 HP); lia]).
Qed.

Lemma send_away P to cs denom x s s' : (P → to ≠ clp_module_address) → 0 ≤ x →
  (∀ d, amount_of cs d = only denom x d) →
  onBank (bank_send_mod_to_acc ModuleName to cs) s = (Ok (), s') → paid_out P denom x s s'.
Proof.
  intros HP Hx Ha (b & -> & Ht)%send_out_Ok. split; [by exists b|]. intros d.
  specialize (Ht clp_module_address d). unfold module_balance. cbn in *.
  rewrite String.eqb_refl, Ha in Ht. unfold kept.
  destruct (String.eqb_spec clp_module_address to) as [He|He].
  - split; [unfold only in *; case_test; lia|]. intros HPp. by destruct (HP HPp).
  - split; [lia|]. intros _. lia.
Qed.

Lemma wp_TakeFundPayment P ret asset pct fund s : (P → fund ≠ clp_module_address) →
  wp (TakeFundPayment ret asset pct fund)
    (λ t s', is_uint t ∧ paid_out P asset t s s')
    (λ s', (∃ b, s' = s <| Bank := b |>) ∧ ∀ d, module_balance s' d = module_balance s d) s.
Proof.
  intros HP. assert ((∃ b, s = s <| Bank := b |>) ∧ ∀ d, module_balance s d = module_balance s d) as Hs.
  { split; [exists (Bank s); by destruct s|done]. }
  unfold TakeFundPayment. wp_steps. apply wp_lift; [intros t1 _|done]. wp_steps.
  apply wp_lift; [intros t2 _|done]. wp_steps. apply wp_lift; [intros t [-> Hu]%u_of_big_Ok|done].
  wp_steps. case_test; bool_prop; wp_steps.
  { split; [done|]. subst. apply paid_nothing. }
  apply wp_lift; [intros i ->%i_of_big_val|done]. wp_steps.
  apply wp_lift; [intros c [-> [? ?]]%new_coin_Ok|done]. wp_steps.
  apply wp_lift; [intros cs Hcs|done]. unfold wp.
  destruct (onBank _ s) as [[[]|e|] s'] eqn:E; [|..|done]; cbn.
  - split; [done|]. eapply send_away; [done|done| |exact E]. intros d.
    rewrite (new_coins_amount _ _ d Hcs). unfold amount_of, only. cbn. lia.
  - apply onBank_inv in E as (b & Hb & ->). split; [by exists b|]. intros d. unfold module_balance. cbn.
    by eapply send_one_err.
Qed.

Lemma pay_return_Ok P m ret take s s' :
  (P → is_outside (MtpAddress m) ∧ is_outside (MarginParams.ForceCloseFundAddress (GetParams s))) →
  is_uint ret → pay_return m ret take s = (Ok (), s') → paid_out P (CollateralAsset m) ret s s'.
Proof.
  intros HP Hret. unfold pay_return. case_test; intros H; inv_ok; bool_prop; subst; [apply paid_nothing|].
  assert (∃ t, is_uint v ∧ ret = t + v ∧ paid_out P (CollateralAsset m) t s s0) as (t & Hv & -> & Hp).
  { destruct take; inv_ok; [|exists 0; split_and!; [done|lia|apply paid_nothing]].
    unfold GetForceCloseFundAddress in *. inv_ok.
    apply must_Ok in E1.
    destruct (wp_Ok _ _ _ _ _ _ (wp_TakeFundPayment P _ _ _ _ _ (λ Hpp, proj2 (HP Hpp) _ E1)) E2) as [Hu Hp].
    apply u_sub_Ok in E as [-> ?]; [|done..]. eexists. split_and!; [done| |exact Hp]. lia. }
  eapply paid_trans; [exact Hp|]. case_test; inv_ok; bool_prop; subst; [apply paid_nothing|].
  repeat match goal with
  | H : i_of_big _ = Ok _ |- _ => apply i_of_big_val in H as ->
  | H : new_coin _ _ = Ok _ |- _ => apply new_coin_Ok in H as (-> & ? & ?)
  | H : coins_add _ _ = Ok _ |- _ => rename H into Hc
  end.
  eapply send_away; [|exact (proj1 Hv)| |exact H].
  - intros Hpp. by apply (proj1 (HP Hpp)).
  - intros d. rewrite (coins_add_val _ _ _ Hc d). unfold amount_of, only. cbn. lia.
Qed.
End Payments.

(** ** Custody *)

(** Goals about a pool some of whose amounts changed. *)
Ltac pool_wf_tac :=
  unfold pool_wf, pool_uints, pool_deep in *; cbn in *; destruct_and?; split_and?; try done;
  unfold is_uint in *; lia.
(** The amounts of [u_add] and [u_sub] on a well-formed pool and position. *)
Ltac uints :=
  repeat match goal with
  | H : u_sub _ _ = Ok _ |- _ =>
      apply u_sub_Ok in H as [-> ?]; [|solve [unfold pool_wf, pool_uints in *; cbn in *; tauto]..]
  | H : u_add _ _ = Ok _ |- _ =>
      apply u_add_Ok in H as [-> ?]; [|solve [unfold pool_wf, pool_uints in *; cbn in *; tauto]..]
  end.

Section Custody.
Context {sdk : SDK} {L : SDKLaws sdk}.

(** The pool with [x] more in the balance and [y] more in the custody of a side. *)
Definition shift (native : bool) (x y : Z) (p : Pool) : Pool :=
  if native then p <| NativeAssetBalance := NativeAssetBalance p + x |>
                   <| NativeCustody := NativeCustody p + y |>
  else p <| ExternalAssetBalance := ExternalAssetBalance p + x |>
         <| ExternalCustody := ExternalCustody p + y |>.
Definition side_denom (native : bool) (p : Pool) : string :=
  if native then NativeSymbol else Symbol (ExternalAsset p).

Lemma shift_claim native x y p d :
  pool_claim d (shift native x y p) = pool_claim d p + only (side_denom native p) (x + y) d.
Proof.
  unfold pool_claim, only, side_denom. destruct native; cbn; repeat case_test; lia.
Qed.

Lemma mtp_denoms c : ctx_wf c →
  CollateralAsset (CtxMtp c) = side_denom (is_native (CollateralAsset (CtxMtp c))) (CtxPool c)
  ∧ CustodyAsset (CtxMtp c) = side_denom (is_native (CustodyAsset (CtxMtp c))) (CtxPool c)
  ∧ is_native (CustodyAsset (CtxMtp c)) = negb (is_native (CollateralAsset (CtxMtp c))).
Proof.
  intros W. pose proof (cw_sym _ W) as Hs. pose proof (mw_paired _ (cw_mtp _ W)) as Hp.
  pose proof (cw_pool _ W) as (_ & _ & _ & Hn & _).
  unfold pool_sym, paired, side_denom in *.
  destruct (is_native (CollateralAsset (CtxMtp c))) eqn:E1.
  - apply is_native_eq in E1. destruct (is_native (CustodyAsset (CtxMtp c))) eqn:E2; [|done].
    exfalso. change (is_native (Symbol (ExternalAsset (CtxPool c))) = false) in Hn. congruence.
  - destruct Hp as [|Hp]; [done|]. rewrite Hp. by apply is_native_eq in Hp.
Qed.

Lemma inv_pool P c0 c p : inv P c0 c → pool_wf p → ExternalAsset p = ExternalAsset (CtxPool c) →
  PoolUnits p = PoolUnits (CtxPool c) → (∀ d, pool_claim d p = pool_claim d (CtxPool c)) →
  inv P c0 (c <| CtxPool := p |>).
Proof.
  intros Hi Hp Ha Hu Hd. pose proof (cw_mtp _ (proj1 Hi)). apply (inv_next P c0 c); try done.
  intros d. cbn. rewrite Hd. apply kept_refl.
Qed.

(** A method that ends by saving the pool. *)
Lemma wp_then_save P c0 c (m : M mctx ()) :
  wp m (λ _ c', inv P c0 c' ∧ CtxMtp c' = CtxMtp c) (λ _, True) c →
  wp (m ;; savePool) (λ _ c', inv P c0 c' ∧ saved c' ∧ CtxMtp c' = CtxMtp c) (λ _, True) c.
Proof.
  intros H. wp_steps. eapply wp_mono; [exact H| |done]. intros _ c' [Hi Hm].
  eapply wp_mono; [apply (wp_savePool P c0 c' Hi)| |done].
  intros _ c2 (Hi2 & Hs & _ & Hm2). split_and!; [done|done|by rewrite Hm2].
Qed.

Lemma wp_TakeOutCustody P c0 c : inv P c0 c →
  wp (TakeOutCustody (CtxMtp c))
    (λ _ c', inv P c0 c' ∧ saved c' ∧ CtxMtp c' = CtxMtp c) (λ _, True) c.
Proof.
  intros Hi. pose proof (cw_pool _ (proj1 Hi)) as Wp. pose proof (cw_mtp _ (proj1 Hi)) as [Wl Wc Wu _ _].
  apply wp_then_save.
  case_test; wp_steps; (apply wp_updPool; [|done]); intros p1 H1; wp_steps;
      (apply wp_updPool; [|done]); intros p2 H2; inv_ok; cbn in *; uints;
      (split; [|done]); refine (inv_pool P c0 c _ Hi _ _ _ _); try done;
      first [pool_wf_tac|intros d; unfold pool_claim; cbn; repeat case_test; lia].
Qed.

Lemma wp_TakeInCustody P c0 c : inv P c0 c →
  CustodyAmount (CtxMtp c) < side_balance (is_native (CustodyAsset (CtxMtp c))) (CtxPool c) →
  wp (TakeInCustody (CtxMtp c))
    (λ _ c', inv P c0 c' ∧ saved c' ∧ CtxMtp c' = CtxMtp c) (λ _, True) c.
Proof.
  intros Hi Hlt. pose proof (cw_pool _ (proj1 Hi)) as Wp. pose proof (cw_mtp _ (proj1 Hi)) as [Wl Wc Wu _ _].
  apply wp_then_save.
  case_test; cbn [side_balance] in Hlt; wp_steps; (apply wp_updPool; [|done]); intros p1 H1; wp_steps;
      (apply wp_updPool; [|done]); intros p2 H2; inv_ok; cbn in *; uints;
      (split; [|done]); refine (inv_pool P c0 c _ Hi _ _ _ _); try done;
      first [pool_wf_tac|intros d; unfold pool_claim; cbn; repeat case_test; lia].
Qed.

Lemma wp_UpdatePoolHealth P c0 c : inv P c0 c →
  wp UpdatePoolHealth (λ _ c', inv P c0 c' ∧ saved c' ∧ CtxMtp c' = CtxMtp c
    ∧ ∀ native, side_balance native (CtxPool c') = side_balance native (CtxPool c)) (λ _, True) c.
Proof.
  intros Hi. pose proof (cw_pool _ (proj1 Hi)) as Wp. unfold UpdatePoolHealth. wp_steps.
  apply wp_updPool; [|done]. intros p Hp. inv_ok.
  eapply wp_mono; [apply (wp_savePool P c0 (c <| CtxPool := _ |>))| |done].
  - by apply inv_pool.
  - intros _ c' (Hi' & Hs & Hp & Hm). split_and!; [done..|]. intros native. rewrite Hp. by destruct native.
Qed.

(** An assignment to a field of the position. *)
Lemma wp_mtp P c0 c f (Q : () → mctx → Prop) E : inv P c0 c →
  (∀ m, f (CtxMtp c) = Ok m → mtp_wf m ∧ ident m = ident (CtxMtp c)) →
  (∀ m, f (CtxMtp c) = Ok m → inv P c0 (c <| CtxMtp := m |>) → Q () (c <| CtxMtp := m |>)) →
  (∀ e, f (CtxMtp c) = Err e → E c) → wp (updMtp f) Q E c.
Proof.
  intros Hi Hm HQ HE. apply wp_updMtp; [|done]. intros m H. apply HQ; [done|].
  apply inv_mtp; [done|by apply Hm..].
Qed.

End Custody.

(** Results of [u_add], [u_sub] and conversions on the amounts of a position. *)
Ltac mtp_uints :=
  cbn in *;
  repeat match goal with
  | H : u_of_big _ = Ok _ |- _ => apply u_of_big_Ok in H as [-> ?]
  | H : u_add _ _ = Ok _ |- _ => apply u_add_Ok in H as [-> ?]; [|assumption..]
  | H : u_sub _ _ = Ok _ |- _ => apply u_sub_Ok in H as [-> ?]; [|assumption..]
  end.
(** One assignment to the position of a context with [Hi : inv P c0 c]. *)
Ltac mtp_step Hi :=
  match type of Hi with inv ?P ?c0 ?c =>
    let Hi' := fresh "Hi" in
    pose proof (cw_mtp _ (proj1 Hi)) as [? ? ? ? ?];
    apply (wp_mtp P c0 c);
      [exact Hi
      |intros; inv_ok; mtp_uints; by split
      |intros ? ? Hi'; inv_ok; cbn in Hi'; mtp_uints; clear Hi; rename Hi' into Hi; wp_steps
      |done]
  end.

(** ** Opening a position *)
Section Open.
Context {sdk : SDK} {L : SDKLaws sdk}.

(** The collateral arrives. *)
Lemma inv_collateral P c0 c addr cs amount s' l : inv P c0 c → addr ≠ clp_module_address →
  0 ≤ amount → is_uint l →
  (∀ d, amount_of cs d = only (CollateralAsset (CtxMtp c)) amount d) →
  onBank (bank_send_acc_to_mod addr ModuleName cs) (CtxChain c) = (Ok (), s') →
  let native := is_native (CollateralAsset (CtxMtp c)) in
  let p := CtxPool c in
  let p' := if native then p <| NativeAssetBalance := NativeAssetBalance p + amount |>
                             <| NativeLiabilities := l |>
            else p <| ExternalAssetBalance := ExternalAssetBalance p + amount |>
                   <| ExternalLiabilities := l |> in
  pool_wf p' → inv P c0 (c <| CtxChain := s' |> <| CtxPool := p' |>).
Proof.
  intros Hi Hne Ha Hl Hcs (b & -> & Ht)%send_in_Ok native p p' Wp'.
  destruct (mtp_denoms c (proj1 Hi)) as (Hd & _). fold native p in Hd.
  pose proof (cw_mtp _ (proj1 Hi)). apply (inv_next P c0 c); try done; subst p'; [by destruct native..|].
  intros d. cbn. unfold module_balance. cbn. rewrite (transferred_to _ _ _ _ _ d Ht Hne), Hcs, Hd.
  subst p. unfold kept, only, pool_claim, side_denom.
  destruct native; cbv iota; generalize (String.eqb NativeSymbol d); intros [];
    cbn; repeat case_test; (split; [lia|intros _; lia]).
Qed.

Lemma wp_save_SetMTP P c0 c : inv P c0 c →
  wp (savePool ;; SetMTP) (λ _ c', inv P c0 c' ∧ saved c' ∧ CtxPool c' = CtxPool c
       ∧ CustodyAmount (CtxMtp c') = CustodyAmount (CtxMtp c)) (λ _, True) c.
Proof.
  intros Hi. wp_steps. eapply wp_mono; [apply (wp_savePool P c0 c Hi)| |done].
  intros _ c1 (Hi1 & Hs & Hp & Hm). eapply wp_mono; [apply (wp_SetMTP P c0 c1 Hi1)| |done].
  intros _ c2 (Hi2 & Hp2 & Hs2 & Hc2). split_and!; [done|auto|congruence|congruence].
Qed.

Lemma wp_Borrow P c0 c amount custody eta : inv P c0 c → is_outside (MtpAddress (CtxMtp c)) →
  CustodyAmount (CtxMtp c) = 0 → is_uint amount → is_uint custody →
  wp (Borrow (CollateralAsset (CtxMtp c)) amount custody eta)
    (λ _ c', inv P c0 c' ∧ saved c' ∧ CustodyAmount (CtxMtp c') = custody
       ∧ side_balance (is_native (CustodyAsset (CtxMtp c))) (CtxPool c')
         = side_balance (is_native (CustodyAsset (CtxMtp c))) (CtxPool c)) (λ _, True) c.
Proof.
  intros Hi Ho Hc0 Ha Hc. unfold Borrow. wp_steps.
  apply wp_lift; [|done]. intros addr Haddr. wp_steps.
  apply wp_lift; [|done]. intros i ->%i_of_big_val. wp_steps.
  apply wp_lift; [|done]. intros coin [-> [Hx _]]%new_coin_Ok. wp_steps.
  case_test; [by wp_steps|]. wp_steps.
  apply wp_lift; [|done]. intros ld _. wp_steps. pose proof (cw_mtp _ (proj1 Hi)) as [Wl Wc Wu Wp _].
  apply (wp_mtp P c0 c); [done|intros m Hm; inv_ok; by split| |done].
  intros m Hm Hi1. inv_ok. clear Hi E. wp_steps. mtp_step Hi1.
  mtp_step Hi1. mtp_step Hi1.
  apply wp_reads; [by apply reads_onChain, reads_UpdateMTPHealth|intros h _|done]. wp_steps.
  mtp_step Hi1. 
  match type of Hi1 with inv _ _ ?x =>
    assert (ident (CtxMtp x) = ident (CtxMtp c) ∧ CtxPool x = CtxPool c
            ∧ CustodyAmount (CtxMtp x) = custody) as (Hid & Hp & Hcust) by (cbn; rewrite Hc0; done);
    remember x as c1 eqn:Ec1 in Hi1, Hid, Hp, Hcust |- * end.
  clear - L Ho Haddr Ha Hx Hi1 Hid Hp Hcust. rewrite <- Hcust, <- Hp.
  injection Hid as Hown Hcoll Hcus. rewrite <- Hown in Ho, Haddr. rewrite <- Hcoll, <- Hcus.
  pose proof (cw_pool _ (proj1 Hi1)) as Wp.
  destruct (mtp_denoms c1 (proj1 Hi1)) as (_ & _ & Hside). rewrite Hside.
  apply wp_lift; [|done]. intros cs Hcs. wp_steps. apply wp_onChain. unfold wp at 1.
  destruct (onBank _ _) as [[[]|e|] s'] eqn:E; [|done|done].
  pose proof (cw_mtp _ (proj1 Hi1)) as [Wl _ _ _ _].
  pose proof (inv_collateral P c0 c1 addr cs amount s') as Hin.
  wp_steps. change (CtxMtp (c1 <| CtxChain := s' |>)) with (CtxMtp c1).
  case_test; wp_steps; (apply wp_updPool; [|done]); intros p1 H1; wp_steps;
    (apply wp_updPool; [|done]); intros p2 H2; inv_ok; cbn in *; uints;
    (eapply wp_mono;
      [apply (wp_save_SetMTP P c0)
      |intros _ c' (Hi' & Hs & Hp' & Hc'); split_and!; [done|done|done|rewrite Hp'; done]
      |done]);
    (eapply Hin; [done|by apply (Ho _ Haddr)|done|done| |done|pool_wf_tac]);
    intros d; rewrite (new_coins_amount _ _ d Hcs); unfold amount_of, only; cbn; lia.
Qed.
End Open.

(** ** Interest *)
Section Interest.
Context {sdk : SDK} {L : SDKLaws sdk}.

Lemma u_sub_no_err x y e : is_uint x → is_uint y → u_sub x y ≠ Err e.
Proof. intros ??. rewrite u_sub_law by done. unfold uint_checked. by case_test. Qed.
Lemma u_add_no_err x y e : is_uint x → is_uint y → u_add x y ≠ Err e.
Proof. intros ??. rewrite u_add_law by done. unfold uint_checked. by case_test. Qed.

Lemma inv_ident P c0 c1 c2 : inv P c0 c1 → inv P c0 c2 → ident (CtxMtp c2) = ident (CtxMtp c1).
Proof. intros [_ A] [_ B]. by rewrite (sp_ident _ _ _ A), (sp_ident _ _ _ B). Qed.

Lemma onChain_CLPSwap x to p (c : mctx) y c' : onChain (CLPSwap x to p) c = (Ok y, c') →
  c' = c ∧ is_uint y ∧ y < side_balance (is_native to) p.
Proof.
  unfold onChain. destruct (CLPSwap x to p (CtxChain c)) as [r s'] eqn:E. intros [= -> <-].
  apply CLPSwap_Ok in E as (-> & ? & ?). by destruct c.
Qed.

Lemma onChain_fund (c : mctx) a c' :
  onChain GetIncrementalInterestPaymentFundAddress c = (Ok a, c') →
  acc_from_bech32 (MarginParams.IncrementalInterestPaymentFundAddress (GetParams (CtxChain c))) = Ok a.
Proof.
  unfold onChain. destruct (GetIncrementalInterestPaymentFundAddress _) as [r s'] eqn:E. intros [= -> _].
  unfold GetIncrementalInterestPaymentFundAddress in E. inv_ok. by apply must_Ok.
Qed.

Lemma wp_pool_sub (g : Pool → Z) (h : Z → Pool → Pool) x (Q : () → mctx → Prop) E c :
  is_uint (g (CtxPool c)) → is_uint x →
  (is_uint (g (CtxPool c) - x) → Q () (c <| CtxPool := h (g (CtxPool c) - x) (CtxPool c) |>)) →
  wp (updPool (λ p, y ← u_sub (g p) x; Ok (h y p))) Q E c.
Proof.
  intros Hg Hx HQ. apply wp_updPool.
  - intros p Hp. inv_ok. apply u_sub_Ok in E0 as [-> ?]; auto.
  - intros e He. destruct (u_sub _ _) eqn:Hs; [done| |done]. by apply u_sub_no_err in Hs.
Qed.

Lemma wp_pool_add (g : Pool → Z) (h : Z → Pool → Pool) x (Q : () → mctx → Prop) E c :
  is_uint (g (CtxPool c)) → is_uint x →
  (is_uint (g (CtxPool c) + x) → Q () (c <| CtxPool := h (g (CtxPool c) + x) (CtxPool c) |>)) →
  wp (updPool (λ p, y ← u_add (g p) x; Ok (h y p))) Q E c.
Proof.
  intros Hg Hx HQ. apply wp_updPool.
  - intros p Hp. inv_ok. apply u_add_Ok in E0 as [-> ?]; auto.
  - intros e He. destruct (u_add _ _) eqn:Hs; [done| |done]. by apply u_add_no_err in Hs.
Qed.

(** The payment to the fund and the bookkeeping of it in the pool. *)
Lemma inv_interest P c0 c s' t paid p' : inv P c0 c → is_uint t → is_uint paid → is_uint (paid - t) →
  paid_out P (CustodyAsset (CtxMtp c)) t (CtxChain c) s' →
  let native := is_native (CustodyAsset (CtxMtp c)) in
  p' = (if native then (CtxPool c) <| NativeCustody := NativeCustody (CtxPool c) - paid |>
                          <| NativeAssetBalance := NativeAssetBalance (CtxPool c) + (paid - t) |>
        else (CtxPool c) <| ExternalCustody := ExternalCustody (CtxPool c) - paid |>
               <| ExternalAssetBalance := ExternalAssetBalance (CtxPool c) + (paid - t) |>) →
  pool_wf p' → inv P c0 (c <| CtxChain := s' |> <| CtxPool := p' |>).
Proof.
  intros Hi Ht Hpd Hact [[b ->] Hb] native -> Wp'.
  destruct (mtp_denoms c (proj1 Hi)) as (_ & Hd & _). fold native in Hd.
  pose proof (cw_mtp _ (proj1 Hi)). apply (inv_next P c0 c); try done; [by destruct native..|].
  intros d. specialize (Hb d). cbn in *. rewrite Hd in Hb. destruct Hb as [Hb1 Hb2].
  unfold kept, only, pool_claim, side_denom in *.
  destruct native; cbv iota in *; destruct (String.eqb NativeSymbol d);
    cbn in *; repeat case_test; (split; [lia|intros HP; specialize (Hb2 HP); lia]).
Qed.

Lemma inv_bank P c0 c s' : inv P c0 c → (∃ b, s' = (CtxChain c) <| Bank := b |>) →
  (∀ d, module_balance s' d = module_balance (CtxChain c) d) → inv P c0 (c <| CtxChain := s' |>).
Proof.
  intros Hi [b ->] Hd. destruct (proj1 Hi) as [W1 W2 W3 W4 W5]. apply (inv_next P c0 c); try done.
  intros d. cbn. rewrite Hd. apply kept_refl.
Qed.

Lemma wp_IncrementalInterestPayment P c0 c payment : (P → outside c0) → is_uint payment → inv P c0 c →
  wp (IncrementalInterestPayment payment) (λ a c', is_uint a ∧ inv P c0 c') (inv P c0) c.
Proof.
  intros HP Hpay Hi. unfold IncrementalInterestPayment. wp_steps.
  apply wp_lift; [|done]. intros pay1 H1.
  assert (is_uint pay1) as Hpay1.
  { pose proof (cw_mtp _ (proj1 Hi)) as [?????]. case_test; inv_ok; mtp_uints; done. }
  clear H1. wp_steps.
  apply wp_reads; [apply reads_onChain, reads_CLPSwap| |done].
  intros pc (_ & Hpc & _)%onChain_CLPSwap. wp_steps.
  pose proof (cw_mtp _ (proj1 Hi)) as [_ Wcust _ _ _]. pose proof Hi as Hi1. mtp_step Hi1.
  apply (wp_mono _ (λ r c', inv P c0 c' ∧ is_uint r.1 ∧ is_uint r.2) _ (inv P c0)); [| |done].
  { case_test; wp_steps; [|done].
    apply wp_reads; [apply reads_onChain, reads_CLPSwap| |done].
    intros cc (_ & Hcc & _)%onChain_CLPSwap. wp_steps. mtp_step Hi1. done. }
  intros [ip ipc] c1 (Hi2 & Hip & Hipc). cbn in Hip, Hipc.
  pose proof (inv_ident P c0 c c1 Hi Hi2) as Hid. clear Hi1. wp_steps.
  mtp_step Hi2. mtp_step Hi2. mtp_step Hi2.
  match type of Hi2 with inv _ _ ?x => remember x as c2 eqn:Ec2 in Hi2 |- * end.
  clear - L HP Hi Hi2 Hip Hipc. injection (inv_ident P c0 c c2 Hi Hi2) as _ _ Hcu. rewrite <- Hcu.
  apply wp_reads; [apply reads_onChain; unfold GetIncrementalInterestPaymentFundAddress; reads_auto| |done].
  intros fund Hf. apply onChain_fund in Hf. wp_steps. apply wp_onChain.
  eapply wp_mono; [apply (wp_TakeFundPayment P)| |].
  { intros HPp. destruct (outside_step _ _ _ (proj2 Hi2) (HP HPp)) as (_ & Ho). by apply Ho. }
  2: { intros s' [Hb Hd]. by apply inv_bank. }
  intros t s' [Ht Hpaid]. wp_steps.
  apply wp_lift; [|intros e He; by apply u_sub_no_err in He]. intros actual [-> Hact]%u_sub_Ok; [|done..].
  wp_steps. pose proof (cw_pool _ (proj1 Hi2)) as Wp.
  pose proof (inv_interest P c0 c2 s' t ipc) as Hin.
  apply (wp_mono _ (λ _ c', inv P c0 c') _ (inv P c0)); [| |done].
  { case_test; wp_steps; (apply wp_pool_sub; [unfold pool_wf, pool_uints in *; tauto|done|intros ?]);
      wp_steps; (apply wp_pool_add; [unfold pool_wf, pool_uints in *; cbn; tauto|done|intros ?]);
      (refine (Hin _ Hi2 Ht Hipc Hact Hpaid eq_refl _)); cbn in *; pool_wf_tac. }
  intros _ c3 Hi3. wp_steps. eapply wp_mono; [apply (wp_SetMTP P c0 c3 Hi3)| |done].
  intros _ c4 (Hi4 & _). wp_steps. eapply wp_mono; [apply (wp_savePool P c0 c4 Hi4)| |done].
  intros _ c5 (Hi5 & _). wp_steps. done.
Qed.

Lemma wp_HandleInterestPayment P c0 c payment : (P → outside c0) → is_uint payment → inv P c0 c →
  wp (HandleInterestPayment payment) (λ _ c', inv P c0 c') (inv P c0) c.
Proof.
  intros HP Hpay Hi. unfold HandleInterestPayment. wp_steps. case_test; wp_steps.
  - eapply wp_mono; [by apply (wp_IncrementalInterestPayment P c0)|intros a c' [_ ?]; by wp_steps|].
    intros c' ? e. by wp_steps.
  - mtp_step Hi. done.
Qed.

Lemma wp_record_block_interest P c0 c x : inv P c0 c →
  wp (record_block_interest x) (λ _ c', inv P c0 c') (inv P c0) c.
Proof.
  intros Hi. pose proof (cw_pool _ (proj1 Hi)). unfold record_block_interest. wp_steps.
  case_test; (apply wp_updPool; [|done]); intros p Hp; inv_ok; by apply inv_pool.
Qed.

Lemma wp_refresh_health P c0 c : inv P c0 c →
  wp refresh_health (λ _ c', inv P c0 c' ∧ CtxPool c' = CtxPool c) (inv P c0) c.
Proof.
  intros Hi. unfold refresh_health. wp_steps.
  apply wp_reads; [apply reads_onChain, reads_UpdateMTPHealth|intros h _|intros e]; wp_steps.
  - mtp_step Hi. done.
  - mtp_step Hi. done.
Qed.

Lemma CalcMTPInterestLiabilities_uint m r ep el x : mtp_wf m →
  CalcMTPInterestLiabilities m r ep el = Ok x → is_uint x.
Proof.
  intros _ H. unfold CalcMTPInterestLiabilities in H. inv_ok.
  match goal with H : u_of_big _ = Ok _ |- _ => apply u_of_big_Ok in H as [-> ?] end.
  match goal with |- is_uint (if ?b then _ else _) => destruct b end; [|done]. unfold is_uint, uint_max. lia.
Qed.

Lemma wp_pay_prorated_interest P c0 c : (P → outside c0) → inv P c0 c →
  wp pay_prorated_interest (λ _ c', inv P c0 c') (inv P c0) c.
Proof.
  intros HP Hi. unfold pay_prorated_interest. wp_steps. case_test; wp_steps; [|done].
  apply wp_lift; [|done].
  intros x ?%CalcMTPInterestLiabilities_uint; [|apply (cw_mtp _ (proj1 Hi))]. wp_steps.
  eapply wp_mono; [by apply (wp_HandleInterestPayment P c0)| |done]. intros final c1 Hi1. wp_steps.
  eapply wp_mono; [by apply (wp_record_block_interest P c0)| |done]. intros [] c2 Hi2. wp_steps.
  eapply wp_mono; [by apply (wp_refresh_health P c0)| |done]. by intros _ c3 [? _].
Qed.
End Interest.

(** ** Closing a position *)
Section Close.
Context {sdk : SDK} {L : SDKLaws sdk}.

Lemma settle_Ok have l u r : is_uint have → is_uint l → is_uint u → settle have l u = Ok r →
  is_uint r.1.1 ∧ r.1.1 ≤ have.
Proof.
  unfold settle. intros Hh Hl Hu H. inv_ok. repeat case_test; inv_ok; mtp_uints; cbn;
    unfold is_uint, uint_max in *; lia.
Qed.

Lemma wp_DestroyMTP P c0 c a id : inv P c0 c →
  wp (onChain (DestroyMTP a id))
    (λ _ c', inv P c0 c' ∧ CtxPool c' = CtxPool c) (λ _, True) c.
Proof.
  intros Hi. apply wp_onChain. unfold DestroyMTP. wp_steps.
  apply wp_reads; [unfold GetMTP; reads_auto|intros m _|done]. wp_steps.
  unfold margin_modify. wp_steps. split; [|done].
  refine (inv_margin P c0 c _ Hi _ _); [done|].
  cbn. intros k m' [_ Hk]%lookup_delete_Some. by apply (cw_margin _ (proj1 Hi) k).
Qed.

(** What was recovered leaves the pool on the side of the collateral. *)
Lemma inv_return P c0 c s' ret l unsettled p' : inv P c0 c →
  paid_out P (CollateralAsset (CtxMtp c)) ret (CtxChain c) s' →
  let native := is_native (CollateralAsset (CtxMtp c)) in
  p' = (if native then (CtxPool c) <| NativeAssetBalance := NativeAssetBalance (CtxPool c) - ret |>
                          <| NativeLiabilities := l |> <| UnsettledNativeLiabilities := unsettled |>
        else (CtxPool c) <| ExternalAssetBalance := ExternalAssetBalance (CtxPool c) - ret |>
               <| ExternalLiabilities := l |> <| UnsettledExternalLiabilities := unsettled |>) →
  pool_wf p' → inv P c0 (c <| CtxChain := s' |> <| CtxPool := p' |>).
Proof.
  intros Hi [[b ->] Hb] native -> Wp'.
  destruct (mtp_denoms c (proj1 Hi)) as (Hd & _ & _). fold native in Hd.
  pose proof (cw_mtp _ (proj1 Hi)). apply (inv_next P c0 c); try done; [by destruct native..|].
  intros d. specialize (Hb d). cbn in *. rewrite Hd in Hb. destruct Hb as [Hb1 Hb2].
  unfold kept, only, pool_claim, side_denom in *.
  destruct native; cbv iota in *; destruct (String.eqb NativeSymbol d);
    cbn in *; repeat case_test; (split; [lia|intros HP; specialize (Hb2 HP); lia]).
Qed.

Lemma wp_Repay P c0 c repay take : (P → outside c0) → inv P c0 c → is_uint repay →
  repay < side_balance (is_native (CollateralAsset (CtxMtp c))) (CtxPool c) →
  wp (Repay repay take) (λ _ c', inv P c0 c' ∧ saved c') (λ _, True) c.
Proof.
  intros HP Hi Hr Hlt. unfold Repay. wp_steps.
  eapply wp_mono; [by apply (wp_refresh_health P c0)| |done]. intros [] c1 [Hi1 Hp1]. wp_steps.
  pose proof (inv_ident P c0 c c1 Hi Hi1) as Hid. rewrite <- Hp1 in Hlt.
  pose proof (cw_mtp _ (proj1 Hi)) as [Wl _ Wu _ _]. pose proof (cw_pool _ (proj1 Hi1)) as Wp.
  apply wp_lift; [|done]. intros [[ret debtP] debtI] Hs.
  apply settle_Ok in Hs as [Hret Hle]; [|done..]. cbn in Hret, Hle. wp_steps. apply wp_onChain. unfold wp at 1.
  destruct (pay_return _ _ _ _) as [[[]|e|] s'] eqn:E; [|done|done].
  assert (paid_out P (CollateralAsset (CtxMtp c1)) ret (CtxChain c1) s') as Hpaid.
  { injection Hid as Hown Hcoll _. rewrite Hcoll. eapply pay_return_Ok; [|done|exact E].
    intros HPp. destruct (outside_step _ _ _ (proj2 Hi1) (HP HPp)) as (Ho2 & _).
    split; [apply (cw_mtp _ (proj1 Hi))|done]. }
  injection Hid as _ Hcoll _. rewrite <- Hcoll in Hlt |- *. wp_steps.
  apply (wp_mono _ (λ _ c', inv P c0 c') _ (λ _, True)); [| |done].
  { case_test; cbn [side_balance] in Hlt; wp_steps;
      (apply wp_pool_sub; [unfold pool_wf, pool_uints in *; cbn; tauto|done|intros ?]); wp_steps;
      (apply wp_pool_sub; [unfold pool_wf, pool_uints in *; cbn; tauto|done|intros ?]); wp_steps;
      (apply wp_updPool; [|done]); intros p Hp; inv_ok.
    all: refine (inv_return P c0 c1 s' ret _ _ _ Hi1 Hpaid _ _); cbn zeta; rewrite ?Heqb;
      [reflexivity|cbn in *; pool_wf_tac]. }
  intros [] c2 Hi2. wp_steps.
  eapply wp_mono; [by apply (wp_DestroyMTP P c0)| |done]. intros [] c3 [Hi3 _].
  eapply wp_mono; [by apply (wp_savePool P c0)| |done]. by intros [] c4 (? & ? & _).
Qed.

Lemma wp_close_out P c0 c take : (P → outside c0) → inv P c0 c →
  wp (close_out take) (λ _ c', inv P c0 c' ∧ saved c') (λ _, True) c.
Proof.
  intros HP Hi. unfold close_out. wp_steps.
  eapply wp_mono; [by apply (wp_TakeOutCustody P c0)| |done]. intros [] c1 (Hi1 & _ & Hm). wp_steps.
  apply wp_reads; [apply reads_onChain, reads_CLPSwap| |done].
  intros y (_ & Hy & Hlt)%onChain_CLPSwap. wp_steps. rewrite <- Hm in Hlt.
  eapply wp_mono; [by apply (wp_Repay P c0)| |done]. intros [] c2 H2. by wp_steps.
Qed.

Lemma wp_close_with_interest P c0 take : (P → outside c0) → ctx_wf c0 →
  wp (pay_prorated_interest;; close_out take) (λ _ c', inv P c0 c' ∧ saved c') (λ _, True) c0.
Proof.
  intros HP W. wp_steps. eapply wp_mono; [apply (wp_pay_prorated_interest P c0 c0)| |done]; [done|by apply inv_refl|].
  intros [] c1 Hi1. by apply wp_close_out.
Qed.

Lemma wp_ForceCloseLong P c0 admin take : (P → outside c0) → ctx_wf c0 →
  wp (ForceCloseLong admin take) (λ _ c', inv P c0 c' ∧ saved c') (λ _, True) c0.
Proof.
  intros HP W. unfold ForceCloseLong. wp_steps.
  eapply wp_mono; [apply (wp_pay_prorated_interest P c0 c0)| |done]; [done|by apply inv_refl|].
  intros [] c1 Hi1. wp_steps. case_test; [by wp_steps|]. by apply wp_close_out.
Qed.
End Close.

(** ** Messages *)
Section Messages.
Context {sdk : SDK} {L : SDKLaws sdk}.

Lemma pool_units_same (s s' : chain) p p' sym :
  Pools s !! pool_key sym = Some p → Pools s' !! pool_key sym = Some p' →
  PoolUnits p' = PoolUnits p → delete (pool_key sym) (Pools s') = delete (pool_key sym) (Pools s) →
  ∀ sym', pool_units_of s' sym' = pool_units_of s sym'.
Proof.
  intros Hp Hp' Hu Hd sym'. unfold pool_units_of.
  destruct (decide (pool_key sym = pool_key sym')) as [<-|Hne]; [by rewrite Hp, Hp', Hu|].
  by rewrite <- (lookup_delete_ne (Pools s') _ _ Hne), Hd, lookup_delete_ne.
Qed.

(** What a message with a position leaves: the store well formed, the coins
    beyond all claims kept, and everything else of the clp module as it was. *)
Record settled (P : Prop) (s s' : chain) : Prop := {
  se_wf : clp_wf s';
  se_margin : margin_wf s';
  se_surplus d : kept P (surplus s d) (surplus s' d);
  se_gap sym : unit_gap s' sym = unit_gap s sym;
  se_outer : outer s' = outer s
}.

Lemma inv_settled P c0 c : saved c0 → inv P c0 c → saved c → settled P (CtxChain c0) (CtxChain c).
Proof.
  intros S0 [W Hs] S.
  assert (ctx_key c = ctx_key c0) as Hk by (unfold ctx_key; by rewrite (sp_asset _ _ _ Hs)).
  split; [apply W|apply W| | |apply Hs].
  - intros d. rewrite !saved_surplus by done. apply Hs.
  - intros sym. unfold unit_gap, lp_total. pose proof (sp_outer _ _ _ Hs) as [= -> _ _]. f_equal.
    unfold saved in S. rewrite Hk in S.
    by apply (pool_units_same _ _ _ _ _ S0 S); [apply (sp_units _ _ _ Hs)|apply (sp_rest _ _ _ Hs)].
Qed.

Lemma settled_refl P s : clp_wf s → margin_wf s → settled P s s.
Proof. intros. split; done. Qed.

Lemma withPointers_Ok {A} m p (f : M mctx A) s a m' p' s' Q E :
  wp f Q E (mkCtx sdk s m p) → withPointers m p f s = (Ok (a, m', p'), s') → Q a (mkCtx sdk s' m' p').
Proof.
  unfold wp, withPointers. destruct (f _) as [[b| |] c]; cbn; [|by intros ? [=]..].
  intros H [= <- <- <- <-]. by destruct c.
Qed.

Lemma found_ctx s m p : clp_wf s → margin_wf s → mtp_wf m →
  Pools s !! pool_key (pool_sym m) = Some p → ctx_wf (mkCtx sdk s m p) ∧ saved (mkCtx sdk s m p) ∧ s = s.
Proof.
  intros Hwf Hm Hmw Hp. destruct (wf_pool _ Hwf _ _ Hp) as [Hk%pool_key_inj Wp].
  split_and!; [by split|by unfold saved, ctx_key; cbn; rewrite <- Hk|done].
Qed.

(** A stored position with its pool. *)
Lemma stored_ctx s m p s' : clp_wf s → margin_wf s → mtp_wf m →
  pool_of_mtp m s = (Ok p, s') → ctx_wf (mkCtx sdk s m p) ∧ saved (mkCtx sdk s m p) ∧ s' = s.
Proof.
  intros Hwf Hm Hmw H. unfold pool_of_mtp in H. fold (pool_sym m) in H. inv_read. by apply found_ctx.
Qed.

Lemma GetMTP_Ok a id s m s' : GetMTP a id s = (Ok m, s') →
  s' = s ∧ MTPs (MarginState s) !! GetMTPKey a id = Some m.
Proof. unfold GetMTP. intros H. inv_ok. case_match; inv_ok. done. Qed.

Lemma closes_settled {A} (f : M mctx A) P s m p r s' : clp_wf s → margin_wf s → mtp_wf m →
  (∀ c0, (P → outside c0) → ctx_wf c0 → wp f (λ _ c', inv P c0 c' ∧ saved c') (λ _, True) c0) →
  (P → funds_outside s) → pool_of_mtp m s = (Ok p, s) →
  withPointers m p f s = (Ok r, s') → settled P s s'.
Proof.
  intros Hwf Hmw Hm Hf HP Hp H. apply stored_ctx in Hp as (W & S0 & _); [|done..].
  destruct r as [[a m'] p'].
  destruct (withPointers_Ok _ _ _ _ _ _ _ _ _ _ (Hf (mkCtx sdk s m p) HP W) H) as [Hi Hs].
  exact (inv_settled P _ _ S0 Hi Hs).
Qed.

Lemma reads_Ok {S A} (m : M S A) s a s' : reads m → m s = (Ok a, s') → s' = s.
Proof. intros H E. specialize (H s). by rewrite E in H. Qed.

Lemma reads_pool_of_mtp m : reads (pool_of_mtp m).
Proof. unfold pool_of_mtp, GetPool. reads_auto. Qed.

Lemma msg_Close_settled msg s s' : clp_wf s → margin_wf s →
  msg_Close msg s = (Ok (), s') → settled (funds_outside s) s s'.
Proof.
  intros Hwf Hm H. unfold msg_Close, CloseLong in H. inv_ok. apply GetMTP_Ok in E as [-> Hk].
  case_test; inv_ok. apply GetMTP_Ok in E0 as [-> Hk'].
  pose proof (reads_Ok _ _ _ _ (reads_pool_of_mtp _) E1) as ->.
  destruct v3 as [[repaid m'] p']. inv_ok.
  eapply (closes_settled (pay_prorated_interest;; close_out false)); [done|done|by eapply Hm| |done|exact E1|exact E2].
  intros c0 ? ?. by apply wp_close_with_interest.
Qed.

Lemma require_admin_Ok t a e s u s' : require_admin t a e s = (Ok u, s') → s' = s.
Proof. apply reads_Ok. unfold require_admin. reads_auto. Qed.

Lemma msg_AdminClose_settled msg s s' : clp_wf s → margin_wf s →
  msg_AdminClose msg s = (Ok (), s') → settled (funds_outside s) s s'.
Proof.
  intros Hwf Hm H. unfold msg_AdminClose in H. inv_ok. apply require_admin_Ok in E as ->.
  apply GetMTP_Ok in E0 as [-> Hk]. case_test; inv_ok.
  match goal with E : pool_of_mtp _ _ = _ |- _ =>
    pose proof (reads_Ok _ _ _ _ (reads_pool_of_mtp _) E) as -> end.
  eapply (closes_settled (ForceCloseLong true (MsgAdminClose.TakeMarginFund msg)));
    [done|done|by eapply Hm| |done|eassumption|eassumption].
  intros c0 ? ?. by apply wp_ForceCloseLong.
Qed.

(** The assets of an opening message: one of them is fury. *)
Definition open_paired (msg : MsgOpen.t) : Prop :=
  is_native (MsgOpen.CollateralAsset msg) = true ∨ is_native (MsgOpen.BorrowAsset msg) = true.

Lemma wp_open P c0 amount custody eta : ctx_wf c0 → CustodyAmount (CtxMtp c0) = 0 →
  is_uint amount → is_uint custody →
  custody < side_balance (is_native (CustodyAsset (CtxMtp c0))) (CtxPool c0) →
  wp (Borrow (CollateralAsset (CtxMtp c0)) amount custody eta;;
      UpdatePoolHealth;;
      mtp ← gets CtxMtp;
      TakeInCustody mtp)
    (λ _ c', inv P c0 c' ∧ saved c') (λ _, True) c0.
Proof.
  intros W H0 Ha Hc Hlt. wp_steps.
  eapply wp_mono; [apply (wp_Borrow P c0)| |done]; [by apply inv_refl|apply (cw_mtp _ W)|done..|].
  intros [] c1 (Hi1 & _ & Hcust & Hside). wp_steps.
  eapply wp_mono; [by apply (wp_UpdatePoolHealth P c0)| |done].
  intros [] c2 (Hi2 & _ & Hm2 & Hs2). wp_steps.
  eapply wp_mono; [apply (wp_TakeInCustody P c0 c2 Hi2)|by intros [] c3 (? & ? & _)|done].
  pose proof (inv_ident P c0 c0 c1 (inv_refl P c0 W) Hi1) as [= _ _ Hcu].
  by rewrite Hm2, Hcust, Hcu, Hs2, Hside.
Qed.

Lemma CheckMinLiabilities_Ok x eta p a s u s' : CheckMinLiabilities x eta p a s = (Ok u, s') → s' = s.
Proof. apply reads_Ok. unfold CheckMinLiabilities. pose proof reads_CLPSwap. reads_auto. Qed.

Lemma NewMTP_wf msg leverage : is_outside (MsgOpen.Signer msg) → open_paired msg →
  mtp_wf (NewMTP (MsgOpen.Signer msg) (MsgOpen.CollateralAsset msg) (MsgOpen.BorrowAsset msg)
            (MsgOpen.Position msg) leverage).
Proof. intros Ho Hp. split; cbn; try done; unfold is_uint, uint_max; lia. Qed.

Lemma OpenLong_settled msg s m s' : clp_wf s → margin_wf s → is_outside (MsgOpen.Signer msg) →
  is_uint (MsgOpen.CollateralAmount msg) → open_paired msg →
  OpenLong msg s = (Ok m, s') → settled True s s'.
Proof.
  intros Hwf Hm Ho Ha Hp H. unfold OpenLong in H. inv_ok. case_test; inv_ok.
  match type of H with context [withPointers (NewMTP _ _ _ _ ?l)] =>
    pose proof (NewMTP_wf msg l Ho Hp) as Wm; set (mtp := NewMTP _ _ _ _ l) in Wm, H end.
  inv_read. destruct (found_ctx s mtp v) as (W & S0 & _); [done..|].
  do 2 (case_test; inv_ok).
  match goal with H : CheckMinLiabilities _ _ _ _ _ = _ |- _ => apply CheckMinLiabilities_Ok in H as -> end.
  match goal with H : CLPSwap _ _ _ _ = _ |- _ => apply CLPSwap_Ok in H as (-> & Hc & Hlt) end.
  case_test; inv_ok.
  match goal with v : (() * MTP * Pool)%type |- _ => destruct v as [[u m'] p'] end. inv_ok.
  match goal with H : withPointers _ _ _ _ = _ |- _ =>
    destruct (withPointers_Ok _ _ _ _ _ _ _ _ _ _
      (wp_open True (mkCtx sdk s mtp v) _ _ _ W eq_refl Ha Hc Hlt) H) as [Hi Hs] end.
  match goal with H : UpdateMTPHealth _ _ _ = _ |- _ => apply reads_Ok in H as ->; [|apply reads_UpdateMTPHealth] end.
  case_test; inv_ok. exact (inv_settled True _ _ S0 Hi Hs).
Qed.

Lemma msg_Open_settled msg s s' : clp_wf s → margin_wf s → is_outside (MsgOpen.Signer msg) →
  is_uint (MsgOpen.CollateralAmount msg) → open_paired msg →
  msg_Open msg s = (Ok (), s') → settled True s s'.
Proof.
  intros Hwf Hm Ho Ha Hp H. unfold msg_Open in H. inv_ok. repeat (case_test; inv_read).
  all: by eapply OpenLong_settled.
Qed.
End Messages.
