(* ===== verification/MarginPositions.v ===== *)
(** * The positions behind the custody and the liabilities of a pool

    The custody of a pool is at least that of its positions and its liabilities
    are theirs, side by side.  The handlers of the margin messages keep it so;
    what one does to the position and the pool behind its pointers is the
    relation [backs], kept also where the payment of interest fails half way and
    the error is swallowed. *)
From S2P Require Import Prelude Wp Sdk ClpTypes ClpCalc ClpCalcProps Admin TokenRegistry.
From S2P Require Import MarginTypes Chain Ledger ClpKeeper ClpExec ClpMsg ClpState Margin MarginBooks.

(** ** Amounts by side *)
Definition pool_custody (native : bool) (p : Pool) : Z := if native then NativeCustody p else ExternalCustody p.
Definition pool_debt (native : bool) (p : Pool) : Z := if native then NativeLiabilities p else ExternalLiabilities p.

Definition custody_of (native : bool) (m : MTP) : Z :=
  if Bool.eqb (is_native (CustodyAsset m)) native then CustodyAmount m else 0.
Definition debt_of (native : bool) (m : MTP) : Z :=
  if Bool.eqb (is_native (CollateralAsset m)) native then Liabilities m else 0.

Definition mtp_name (m : MTP) : string * Z * string * string :=
  (MtpAddress m, MtpId m, CollateralAsset m, CustodyAsset m).
Definition mtp_key (m : MTP) : string := GetMTPKey (MtpAddress m) (MtpId m).

Section Backs.
Context {sdk : SDK} {L : SDKLaws sdk}.

Definition positions (c : mctx) : gmap string MTP := MTPs (MarginState (CtxChain c)).

(** What the pool holds in custody beyond the position. *)
Definition gap (native : bool) (c : mctx) : Z := pool_custody native (CtxPool c) - custody_of native (CtxMtp c).

(** From [c0] to [c] the other positions and the debts stay, and the custody of the
    position never loses more than that of the pool. *)
Record backs (c0 c : mctx) : Prop := {
  bk_others : delete (mtp_key (CtxMtp c0)) (positions c) = delete (mtp_key (CtxMtp c0)) (positions c0);
  bk_name : mtp_name (CtxMtp c) = mtp_name (CtxMtp c0);
  bk_owed : Liabilities (CtxMtp c) = Liabilities (CtxMtp c0);
  bk_debt native : pool_debt native (CtxPool c) = pool_debt native (CtxPool c0);
  bk_gap native : gap native c0 ≤ gap native c;
  bk_count : GetMTPCount (CtxChain c) = GetMTPCount (CtxChain c0)
}.

Lemma backs_refl c : backs c c.
Proof. by split. Qed.

Lemma backs_next c0 c c' : backs c0 c → MarginState (CtxChain c') = MarginState (CtxChain c) →
  mtp_name (CtxMtp c') = mtp_name (CtxMtp c) → Liabilities (CtxMtp c') = Liabilities (CtxMtp c) →
  (∀ native, pool_debt native (CtxPool c') = pool_debt native (CtxPool c)) →
  (∀ native, gap native c ≤ gap native c') → backs c0 c'.
Proof.
  intros [H1 H2 H3 H4 H5 H6] HM Hn Hl Hd Hg. split.
  - unfold positions. by rewrite HM.
  - congruence.
  - congruence.
  - intros native. by rewrite Hd.
  - intros native. specialize (H5 native). specialize (Hg native). lia.
  - unfold GetMTPCount in *. by rewrite HM.
Qed.

Lemma backs_mtp c0 c m : backs c0 c → mtp_name m = mtp_name (CtxMtp c) → Liabilities m = Liabilities (CtxMtp c) →
  CustodyAmount m = CustodyAmount (CtxMtp c) → backs c0 (c <| CtxMtp := m |>).
Proof.
  intros Hb Hn Hl Hc. apply (backs_next c0 c); try done. intros native. unfold gap, custody_of. cbn.
  injection Hn as _ _ _ ->. by rewrite Hc.
Qed.

Lemma backs_pool c0 c p : backs c0 c → (∀ native, pool_debt native p = pool_debt native (CtxPool c)) →
  (∀ native, pool_custody native p = pool_custody native (CtxPool c)) → backs c0 (c <| CtxPool := p |>).
Proof. intros Hb Hd Hc. apply (backs_next c0 c); try done. intros native. unfold gap. cbn. by rewrite Hc. Qed.

Lemma backs_chain c0 c s : backs c0 c → MarginState s = MarginState (CtxChain c) → backs c0 (c <| CtxChain := s |>).
Proof. intros Hb Hm. by apply (backs_next c0 c). Qed.

(** A step on the chain that leaves the margin store alone. *)
Lemma wp_chain_frame {A} (m : M chain A) c0 c : frames MarginState m → backs c0 c →
  wp (onChain m) (λ _ c', backs c0 c' ∧ CtxMtp c' = CtxMtp c ∧ CtxPool c' = CtxPool c)
     (λ c', backs c0 c' ∧ CtxMtp c' = CtxMtp c ∧ CtxPool c' = CtxPool c) c.
Proof.
  intros Hf Hb. specialize (Hf (CtxChain c)). apply wp_onChain. unfold wp. destruct (m (CtxChain c)) as [[a|e|] s'];
    cbn in Hf; [split; [by apply backs_chain|done]..|done].
Qed.

Lemma frames_bank {A} (m : M bank A) : frames MarginState (onBank m).
Proof. intros s. unfold onBank. by destruct (m (Bank s)). Qed.

Lemma frames_TakeFundPayment x a pct fund : frames MarginState (TakeFundPayment x a pct fund).
Proof. unfold TakeFundPayment. pose proof @frames_bank. frames_auto. Qed.

Lemma wp_SetMTP_backs c0 c : MtpId (CtxMtp c0) ≠ 0 → backs c0 c → wp SetMTP (λ _, backs c0) (backs c0) c.
Proof.
  intros Hid Hb. pose proof (bk_name _ _ Hb) as [= Ha Hi _ _]. unfold SetMTP. wp_steps.
  rewrite Hi. case_test; bool_prop; [done|]. wp_steps. apply wp_lift; [intros _ _|done]. wp_steps.
  unfold margin_modify. apply wp_onChain. wp_steps. destruct Hb as [H1 H2 H3 H4 H5 H6]. split; try done.
  unfold positions in *. cbn. unfold mtp_key. rewrite Ha, Hi. by rewrite delete_insert_eq.
Qed.

Lemma wp_savePool_backs c0 c : backs c0 c →
  wp savePool (λ _ c', backs c0 c') (backs c0) c.
Proof.
  intros Hb. unfold savePool. wp_steps. eapply wp_mono; [apply wp_chain_frame; [|exact Hb]| |].
  - unfold SetPool. frames_auto.
  - by intros ? ? [? _].
  - by intros ? [? _].
Qed.

(** One assignment to a field of the position that none of the amounts reads. *)
Lemma wp_field c0 c f (Q : () → mctx → Prop) E : backs c0 c →
  (∀ m, f (CtxMtp c) = Ok m → mtp_name m = mtp_name (CtxMtp c) ∧ Liabilities m = Liabilities (CtxMtp c)
                               ∧ CustodyAmount m = CustodyAmount (CtxMtp c)) →
  (∀ m, f (CtxMtp c) = Ok m → backs c0 (c <| CtxMtp := m |>) → CustodyAmount m = CustodyAmount (CtxMtp c) →
        CustodyAsset m = CustodyAsset (CtxMtp c) → Q () (c <| CtxMtp := m |>)) →
  (backs c0 c → E c) → wp (updMtp f) Q E c.
Proof.
  intros Hb Hf HQ HE. apply wp_updMtp; [|auto]. intros m Hm. destruct (Hf m Hm) as (Hn & Hl & Hc).
  apply HQ; [done|by apply backs_mtp|done|by injection Hn].
Qed.

(** The custody a payment of interest takes off the position and off the pool. *)
Definition paid_custody (native : bool) (x y : Z) (p : Pool) : Pool :=
  if native then p <| NativeCustody := NativeCustody p - x |> <| NativeAssetBalance := y |>
  else p <| ExternalCustody := ExternalCustody p - x |> <| ExternalAssetBalance := y |>.

Lemma backs_interest c0 c m s x y : backs c0 c → mtp_name m = mtp_name (CtxMtp c) →
  Liabilities m = Liabilities (CtxMtp c) → CustodyAmount m = CustodyAmount (CtxMtp c) - x →
  MarginState s = MarginState (CtxChain c) → 0 ≤ x →
  backs c0 (c <| CtxMtp := m |> <| CtxChain := s |>)
  ∧ backs c0 (c <| CtxMtp := m |> <| CtxChain := s |>
                <| CtxPool := paid_custody (is_native (CustodyAsset (CtxMtp c))) x y (CtxPool c) |>).
Proof.
  intros Hb Hn Hl Hc HM Hx. pose proof Hn as [= _ _ _ Hcu].
  split; apply (backs_next c0 c); try done; unfold gap, custody_of, paid_custody; cbn; intros native; rewrite ?Hcu, ?Hc.
  - destruct (Bool.eqb _ _); lia.
  - by destruct (is_native _), native.
  - destruct (is_native (CustodyAsset (CtxMtp c))), native; cbn; lia.
Qed.

Lemma wp_IncrementalInterestPayment_backs c0 c payment : ctx_wf c → MtpId (CtxMtp c0) ≠ 0 → backs c0 c →
  wp (IncrementalInterestPayment payment) (λ _, backs c0) (backs c0) c.
Proof.
  intros W Hid Hb. pose proof (mw_custody _ (cw_mtp _ W)) as Hcu. pose proof (cw_pool _ W) as Wp.
  unfold IncrementalInterestPayment. wp_steps. apply wp_lift; [intros pay1 _|done]. wp_steps.
  apply wp_reads; [apply reads_onChain, reads_CLPSwap| |done].
  intros pc (_ & Hpc & _)%onChain_CLPSwap. wp_steps.
  apply (wp_field c0 c); [done|by intros m [= <-]| |done]. intros m1 Hm1 Hb1 Hc1 Ha1. wp_steps.
  set (c1 := c <| CtxMtp := m1 |>) in *.
  apply (wp_mono _ (λ r c', backs c0 c' ∧ CtxPool c' = CtxPool c ∧ CustodyAmount (CtxMtp c') = CustodyAmount (CtxMtp c)
                            ∧ CustodyAsset (CtxMtp c') = CustodyAsset (CtxMtp c) ∧ is_uint r.2) _ (backs c0)); [| |done].
  { case_test; wp_steps; [|done].
    apply wp_reads; [apply reads_onChain, reads_CLPSwap|intros cc _|done]. wp_steps.
    apply (wp_field c0 c1); [done|intros m Hm; by inv_ok| |done]. intros m2 Hm2 Hb2 Hc2 Ha2. wp_steps.
    split_and!; [exact Hb2|done|cbn in *; congruence|cbn in *; congruence|exact Hcu]. }
  intros [ip ipc] c2 (Hb2 & Hp2 & Hcu2 & Has2 & Hipc). cbn in Hipc. rewrite <- Hcu2 in Hcu. rewrite <- Hp2 in Wp. rewrite <- Has2.
  clear - Hid Hb2 Hcu Wp Hipc L. wp_steps.
  apply (wp_field c0 c2); [done|intros m Hm; by inv_ok| |done]. intros m3 _ Hb3 Hc3 Ha3. wp_steps.
  set (c3 := c2 <| CtxMtp := m3 |>) in *.
  apply (wp_field c0 c3); [done|intros m Hm; by inv_ok| |done]. intros m4 _ Hb4 Hc4 Ha4. wp_steps.
  set (c4 := c3 <| CtxMtp := m4 |>) in *.
  assert (CustodyAsset (CtxMtp c4) = CustodyAsset (CtxMtp c2)) as Has by (cbn in *; congruence).
  assert (CustodyAmount (CtxMtp c4) = CustodyAmount (CtxMtp c2)) as Hca by (cbn in *; congruence).
  assert (CtxPool c4 = CtxPool c2) as Hp by done.
  clearbody c4. clear c3 Hb3 Hc3 Ha3 Hc4 Ha4. rewrite <- Hca in Hcu. rewrite <- Hp in Wp. rewrite <- Has.
  apply wp_updMtp; [|done]. intros m5 Hm5. inv_ok.
  match goal with E : u_sub _ _ = Ok _ |- _ => apply u_sub_Ok in E as [-> _]; [|done..] end. wp_steps.
  set (m5 := _ <| CustodyAmount := _ |>).
  assert (∀ s, MarginState s = MarginState (CtxChain c4) →
    backs c0 (c4 <| CtxMtp := m5 |> <| CtxChain := s |>)) as Hfail.
  { intros s Hs. apply (backs_interest c0 c4 m5 s ipc 0); try done. apply Hipc. }
  apply wp_reads; [apply reads_onChain; unfold GetIncrementalInterestPaymentFundAddress; reads_auto|intros fund _|exact (Hfail _ eq_refl)].
  wp_steps. apply wp_onChain.
  eapply wp_mono; [apply (wp_frames MarginState), frames_TakeFundPayment| |intros s' Hs; exact (Hfail s' Hs)].
  intros t s' Hs. wp_steps. apply wp_lift; [intros actual _|intros e _; exact (Hfail s' Hs)]. wp_steps.
  assert (∀ y, backs c0 (c4 <| CtxMtp := m5 |> <| CtxChain := s' |>
     <| CtxPool := paid_custody (is_native (CustodyAsset (CtxMtp c4))) ipc y (CtxPool c4) |>)) as Hpaid.
  { intros y. apply (backs_interest c0 c4 m5 s' ipc y); try done. apply Hipc. }
  apply (wp_mono _ (λ _ c', backs c0 c') _ (backs c0)); [| |done].
  { unfold paid_custody in Hpaid. case_test; wp_steps; (apply wp_pool_sub; [unfold pool_wf, pool_uints in *; tauto|done|intros _]);
      wp_steps; (apply wp_updPool; [intros p Hpe; inv_ok; apply Hpaid|intros e _]).
    - exact (Hpaid (NativeAssetBalance (CtxPool c4))).
    - exact (Hpaid (ExternalAssetBalance (CtxPool c4))). }
  intros ? c5 Hb5. wp_steps. eapply wp_mono; [by apply wp_SetMTP_backs| |done]. intros ? c6 Hb6. wp_steps.
  eapply wp_mono; [exact (wp_savePool_backs c0 c6 Hb6)| |done]. intros ? c7 Hb7. by wp_steps.
Qed.

Lemma wp_HandleInterestPayment_backs c0 c payment : ctx_wf c → MtpId (CtxMtp c0) ≠ 0 → backs c0 c →
  wp (HandleInterestPayment payment) (λ _, backs c0) (backs c0) c.
Proof.
  intros W Hid Hb. unfold HandleInterestPayment. wp_steps. case_test; wp_steps.
  - eapply wp_mono; [by apply wp_IncrementalInterestPayment_backs|intros a c' ?; by wp_steps|].
    intros c' ? e. by wp_steps.
  - apply (wp_field c0 c); [done|intros m Hm; by inv_ok|intros; by wp_steps|done].
Qed.

Lemma wp_record_block_interest_backs c0 c x : backs c0 c →
  wp (record_block_interest x) (λ _, backs c0) (backs c0) c.
Proof.
  intros Hb. unfold record_block_interest. wp_steps.
  case_test; (apply wp_updPool; [|done]); intros p Hp; inv_ok; apply backs_pool; try done; by intros [].
Qed.

Lemma wp_refresh_health_backs c0 c : backs c0 c →
  wp refresh_health (λ _ c', backs c0 c' ∧ CtxPool c' = CtxPool c ∧ CtxChain c' = CtxChain c
                             ∧ CustodyAmount (CtxMtp c') = CustodyAmount (CtxMtp c)) (backs c0) c.
Proof.
  intros Hb. unfold refresh_health. wp_steps.
  apply wp_reads; [apply reads_onChain, reads_UpdateMTPHealth|intros h _|intros e]; wp_steps;
    (apply (wp_field c0 c); [done|intros m Hm; by inv_ok|intros m Hm Hb' Hc' _; wp_steps; first [exact Hb'|split_and!; [exact Hb'|done|done|exact Hc']]|done]).
Qed.

Lemma wp_pay_prorated_interest_backs c : ctx_wf c → MtpId (CtxMtp c) ≠ 0 →
  wp pay_prorated_interest (λ _, backs c) (λ _, True) c.
Proof.
  intros W Hid. unfold pay_prorated_interest. wp_steps. case_test; wp_steps; [|apply backs_refl].
  apply wp_lift; [intros x _|done]. wp_steps.
  eapply wp_mono; [apply wp_HandleInterestPayment_backs; [done|done|apply backs_refl]| |done]. intros final c1 H1. wp_steps.
  eapply wp_mono; [exact (wp_record_block_interest_backs c c1 final H1)| |done]. intros [] c2 H2. wp_steps.
  eapply wp_mono; [exact (wp_refresh_health_backs c c2 H2)| |done]. by intros [] c3 [? _].
Qed.

(** ** Closing *)

(** The custody of the position has left the custody of the pool. *)
Record taken (c0 c : mctx) : Prop := {
  tk_others : delete (mtp_key (CtxMtp c0)) (positions c) = delete (mtp_key (CtxMtp c0)) (positions c0);
  tk_name : mtp_name (CtxMtp c) = mtp_name (CtxMtp c0);
  tk_owed : Liabilities (CtxMtp c) = Liabilities (CtxMtp c0);
  tk_debt native : pool_debt native (CtxPool c) = pool_debt native (CtxPool c0);
  tk_custody native : gap native c0 ≤ pool_custody native (CtxPool c);
  tk_count : GetMTPCount (CtxChain c) = GetMTPCount (CtxChain c0)
}.

(** The position is gone, and the pool has lost its debt and no more than its custody. *)
Record closed (c0 c : mctx) : Prop := {
  cl_positions : positions c = delete (mtp_key (CtxMtp c0)) (positions c0);
  cl_debt native : pool_debt native (CtxPool c) = pool_debt native (CtxPool c0) - debt_of native (CtxMtp c0);
  cl_custody native : gap native c0 ≤ pool_custody native (CtxPool c);
  cl_count : GetMTPCount (CtxChain c) = GetMTPCount (CtxChain c0)
}.

Lemma wp_save_frame (I : mctx → Prop) c :
  (∀ s, MarginState s = MarginState (CtxChain c) → I (c <| CtxChain := s |>)) →
  wp savePool (λ _, I) (λ _, True) c.
Proof.
  intros HI. unfold savePool. wp_steps. apply wp_onChain.
  eapply wp_mono; [apply (wp_frames MarginState); unfold SetPool; frames_auto|intros ? s Hs; by apply HI|done].
Qed.

Lemma wp_TakeOutCustody_taken c0 c : ctx_wf c → backs c0 c →
  wp (TakeOutCustody (CtxMtp c)) (λ _, taken c0) (λ _, True) c.
Proof.
  intros W [H1 H2 H3 H4 H5 H6]. pose proof (mw_custody _ (cw_mtp _ W)) as Hcu. pose proof (cw_pool _ W) as Wp.
  unfold TakeOutCustody. wp_steps.
  apply (wp_mono _ (λ _ c', taken c0 c') _ (λ _, True)); [| |done].
  - case_test; wp_steps; (apply wp_pool_sub; [unfold pool_wf, pool_uints in *; tauto|done|intros _]); wp_steps;
      (apply wp_updPool; [intros p Hp; inv_ok|done]); split; try done; intros native;
      specialize (H4 native); specialize (H5 native); unfold gap, custody_of, pool_debt, pool_custody in *; cbn in *;
      rewrite Heqb in H5; destruct native; cbn in *; lia.
  - intros [] c1 K. apply wp_save_frame. intros s Hs. destruct K as [K1 K2 K3 K4 K5 K6].
    split; try done; unfold positions, GetMTPCount in *; cbn; by rewrite Hs.
Qed.

Lemma taken_next c0 c c' : taken c0 c → MarginState (CtxChain c') = MarginState (CtxChain c) →
  mtp_name (CtxMtp c') = mtp_name (CtxMtp c) → Liabilities (CtxMtp c') = Liabilities (CtxMtp c) →
  CtxPool c' = CtxPool c → taken c0 c'.
Proof.
  intros [H1 H2 H3 H4 H5 H6] HM Hn Hl Hp. unfold GetMTPCount in *.
  split; unfold GetMTPCount; [unfold positions; by rewrite HM|congruence|congruence|intros native; by rewrite Hp..|by rewrite HM].
Qed.

Lemma frames_pay_return m ret take : frames MarginState (pay_return m ret take).
Proof.
  unfold pay_return, GetForceCloseFundAddress. pose proof @frames_bank. pose proof frames_TakeFundPayment. frames_auto.
Qed.

(** The pool with one debt reduced. *)
Definition repaid (native : bool) (x y z : Z) (p : Pool) : Pool :=
  if native then p <| NativeAssetBalance := y |> <| NativeLiabilities := NativeLiabilities p - x |>
                   <| UnsettledNativeLiabilities := z |>
  else p <| ExternalAssetBalance := y |> <| ExternalLiabilities := ExternalLiabilities p - x |>
         <| UnsettledExternalLiabilities := z |>.

Lemma repaid_debt native x y z p side :
  pool_debt side (repaid native x y z p) = pool_debt side p - if Bool.eqb native side then x else 0.
Proof. destruct native, side; cbn; lia. Qed.
Lemma repaid_custody native x y z p side : pool_custody side (repaid native x y z p) = pool_custody side p.
Proof. by destruct native, side. Qed.

Lemma wp_DestroyMTP_closed c0 c y z : taken c0 c →
  wp (onChain (DestroyMTP (MtpAddress (CtxMtp c0)) (MtpId (CtxMtp c0))))
    (λ _, closed c0) (λ _, True)
    (c <| CtxPool := repaid (is_native (CollateralAsset (CtxMtp c0))) (Liabilities (CtxMtp c0)) y z (CtxPool c) |>).
Proof.
  intros [H1 H2 H3 H4 H5 H6]. apply wp_onChain. unfold DestroyMTP. wp_steps.
  apply wp_reads; [unfold GetMTP; reads_auto|intros m _|done]. wp_steps. unfold margin_modify. wp_steps.
  split; unfold positions in *; cbn.
  - exact H1.
  - intros native. by rewrite repaid_debt, H4.
  - intros native. by rewrite repaid_custody.
  - exact H6.
Qed.

Lemma wp_Repay_closed c0 c repay take : mtp_wf (CtxMtp c0) → pool_wf (CtxPool c0) → taken c0 c →
  wp (Repay repay take) (λ _, closed c0) (λ _, True) c.
Proof.
  intros Wm Wp T. pose proof (mw_liabilities _ Wm) as Wl.
  assert (∀ native, is_uint (pool_debt native (CtxPool c))) as Hdebt.
  { intros native. rewrite (tk_debt _ _ T). unfold pool_wf, pool_uints in Wp. destruct native; cbn; tauto. }
  pose proof (tk_name _ _ T) as [= Ha Hi Hcol Hcus]. rewrite <- (tk_owed _ _ T) in Wl.
  unfold Repay. wp_steps.
  apply (wp_mono _ (λ _ c', taken c0 c' ∧ CtxPool c' = CtxPool c) _ (λ _, True)); [| |done].
  { unfold refresh_health. wp_steps.
    apply wp_reads; [apply reads_onChain, reads_UpdateMTPHealth|intros h _|done]; wp_steps.
    apply wp_updMtp; [intros m [= <-]|done]. split; [by apply (taken_next c0 c)|done]. }
  intros [] c1 [T1 Hp1]. wp_steps. apply wp_lift; [|done]. intros [[ret debtP] debtI] _. wp_steps. apply wp_onChain.
  eapply wp_mono; [apply (wp_frames MarginState), frames_pay_return| |done]. intros ? s Hs. wp_steps.
  set (c2 := c1 <| CtxChain := s |>).
  assert (taken c0 c2) as T2 by by apply (taken_next c0 c1).
  rewrite Ha, Hi, Hcol, (tk_owed _ _ T). rewrite (tk_owed _ _ T) in Wl. rewrite <- Hp1 in Hdebt.
  pose proof (Hdebt true) as Hn. pose proof (Hdebt false) as He. cbn in Hn, He.
  apply (wp_mono _ (λ _ c', ∃ y z, c' = c2 <| CtxPool :=
    repaid (is_native (CollateralAsset (CtxMtp c0))) (Liabilities (CtxMtp c0)) y z (CtxPool c2) |>) _ (λ _, True)); [| |done].
  { case_test; wp_steps; (apply wp_updPool; [intros p Hp; inv_ok|done]); wp_steps;
      (apply wp_pool_sub; [done|done|intros _]); wp_steps; (apply wp_updPool; [intros p Hp; inv_ok|done]);
      do 2 eexists; reflexivity. }
  intros [] c3 (y & z & ->). wp_steps. eapply wp_mono; [by apply wp_DestroyMTP_closed| |done].
  intros ? c4 [K1 K2 K3 K4]. apply wp_save_frame. intros s' Hs'. unfold GetMTPCount in *.
  split; try done; unfold positions, GetMTPCount; cbn; by rewrite Hs'.
Qed.

Lemma wp_close_out_closed c0 c take : mtp_wf (CtxMtp c0) → pool_wf (CtxPool c0) → ctx_wf c → backs c0 c →
  wp (close_out take) (λ _, closed c0) (λ _, True) c.
Proof.
  intros Wm Wp W Hb. unfold close_out. wp_steps.
  eapply wp_mono; [by apply wp_TakeOutCustody_taken| |done]. intros [] c1 T. wp_steps.
  apply wp_reads; [apply reads_onChain, reads_CLPSwap|intros y _|done]. wp_steps.
  eapply wp_mono; [exact (wp_Repay_closed c0 c1 y take Wm Wp T)| |done]. intros ? c2 K. by wp_steps.
Qed.

(** Paying the interest due, and what follows on success. *)
Lemma wp_interest_then {A} c0 (k : M mctx A) : ctx_wf c0 → MtpId (CtxMtp c0) ≠ 0 →
  (∀ c, ctx_wf c → backs c0 c → wp k (λ _, closed c0) (λ _, True) c) →
  wp (pay_prorated_interest;; k) (λ _, closed c0) (λ _, True) c0.
Proof.
  intros W Hid Hk. wp_steps.
  eapply wp_mono; [apply wp_and; [by apply wp_pay_prorated_interest_backs|]| |done].
  { apply (wp_pay_prorated_interest False c0 c0); [done|by apply inv_refl]. }
  intros [] c1 [Hb [W1 _]]. by apply Hk.
Qed.

Lemma wp_CloseLong_closed c0 take : ctx_wf c0 → MtpId (CtxMtp c0) ≠ 0 →
  wp (pay_prorated_interest;; close_out take) (λ _, closed c0) (λ _, True) c0.
Proof.
  intros W Hid. apply wp_interest_then; [done|done|]. intros c W1 Hb. by apply wp_close_out_closed; [apply W|apply W|..].
Qed.

Lemma wp_ForceCloseLong_closed c0 admin take : ctx_wf c0 → MtpId (CtxMtp c0) ≠ 0 →
  wp (ForceCloseLong admin take) (λ _, closed c0) (λ _, True) c0.
Proof.
  intros W Hid. unfold ForceCloseLong. wp_step. wp_step. apply wp_interest_then; [done|done|].
  intros c W1 Hb. wp_steps. case_test; [by wp_steps|]. by apply wp_close_out_closed; [apply W|apply W|..].
Qed.

(** ** Opening *)

(** The position is stored under a new identifier and the pool has its debt; its
    custody is still in the balance of the pool. *)
Record borrowed (c0 c : mctx) : Prop := {
  br_name : mtp_name (CtxMtp c) = (MtpAddress (CtxMtp c0), u64 (GetMTPCount (CtxChain c0) + 1),
              CollateralAsset (CtxMtp c0), CustodyAsset (CtxMtp c0));
  br_positions : positions c = <[mtp_key (CtxMtp c) := CtxMtp c]> (positions c0);
  br_count : GetMTPCount (CtxChain c) = u64 (GetMTPCount (CtxChain c0) + 1);
  br_debt native : pool_debt native (CtxPool c) = pool_debt native (CtxPool c0) + debt_of native (CtxMtp c);
  br_custody native : pool_custody native (CtxPool c) = pool_custody native (CtxPool c0);
  br_uint : is_uint (CustodyAmount (CtxMtp c))
}.

Lemma borrowed_next c0 c c' : borrowed c0 c → MarginState (CtxChain c') = MarginState (CtxChain c) →
  CtxMtp c' = CtxMtp c → (∀ native, pool_debt native (CtxPool c') = pool_debt native (CtxPool c)) →
  (∀ native, pool_custody native (CtxPool c') = pool_custody native (CtxPool c)) → borrowed c0 c'.
Proof.
  intros [H1 H2 H3 H4 H5 H6] HM Hm Hd Hc. unfold positions, GetMTPCount in *.
  split; unfold positions, GetMTPCount; rewrite ?Hm, ?HM; auto; intros native; by rewrite ?Hd, ?Hc.
Qed.

(** The pool with one debt and balance raised. *)
Definition lent (native : bool) (x y : Z) (p : Pool) : Pool :=
  if native then p <| NativeAssetBalance := y |> <| NativeLiabilities := NativeLiabilities p + x |>
  else p <| ExternalAssetBalance := y |> <| ExternalLiabilities := ExternalLiabilities p + x |>.

Lemma wp_stored c0 c y : MtpId (CtxMtp c) = 0 → MtpAddress (CtxMtp c) = MtpAddress (CtxMtp c0) →
  CollateralAsset (CtxMtp c) = CollateralAsset (CtxMtp c0) → CustodyAsset (CtxMtp c) = CustodyAsset (CtxMtp c0) →
  MarginState (CtxChain c) = MarginState (CtxChain c0) → is_uint (CustodyAmount (CtxMtp c)) →
  CtxPool c = lent (is_native (CollateralAsset (CtxMtp c0))) (Liabilities (CtxMtp c)) y (CtxPool c0) →
  wp (savePool;; SetMTP) (λ _, borrowed c0) (λ _, True) c.
Proof.
  intros Hid Ha Hcol Hcus HM Hu Hp. unfold savePool. wp_steps. apply wp_onChain.
  eapply wp_mono; [apply (wp_frames MarginState); unfold SetPool; frames_auto| |done].
  intros ? s Hs. unfold SetMTP. wp_steps. cbn [CtxMtp]. cbn. rewrite Hid. cbn [Z.eqb].
  wp_steps. apply wp_updMtp; [intros m [= <-]|done]. unfold margin_modify. wp_steps. apply wp_onChain. wp_steps.
  apply wp_onChain. wp_steps. apply wp_lift; [intros _ _|done]. wp_steps. apply wp_onChain. wp_steps.
  split; unfold positions, GetMTPCount, mtp_name, mtp_key, debt_of; cbn; rewrite ?Hs, ?HM, ?Ha, ?Hcol, ?Hcus; try done.
  - intros native. rewrite Hp. unfold lent, is_native. destruct (String.eqb _ _), native; cbn; lia.
  - intros native. rewrite Hp. unfold lent. by destruct (is_native _), native.
Qed.

Lemma wp_Borrow_borrowed c0 amount custody eta : ctx_wf c0 → MtpId (CtxMtp c0) = 0 → is_uint custody →
  wp (Borrow (CollateralAsset (CtxMtp c0)) amount custody eta) (λ _, borrowed c0) (λ _, True) c0.
Proof.
  intros W Hid Hc. pose proof (cw_mtp _ W) as [Wl Wc _ _ _]. pose proof (cw_pool _ W) as Wp.
  unfold Borrow. wp_steps.
  apply wp_lift; [intros addr _|done]. wp_steps. apply wp_lift; [intros i _|done]. wp_steps.
  apply wp_lift; [intros coin _|done]. wp_steps. case_test; [by wp_steps|]. wp_steps.
  apply wp_lift; [intros ld _|done]. wp_steps.
  apply wp_updMtp; [intros m1 H1|done]. inv_ok. wp_steps.
  apply wp_updMtp; [intros m2 H2|done]. cbn in H2. inv_ok. wp_steps.
  apply wp_updMtp; [intros m3 H3|done]. cbn in H3. inv_ok. wp_steps.
  apply wp_updMtp; [intros m4 H4|done]. cbn in H4. inv_ok. wp_steps. mtp_uints.
  apply wp_reads; [apply reads_onChain, reads_UpdateMTPHealth|intros h _|done]. wp_steps.
  apply wp_updMtp; [intros m5 H5|done]. inv_ok. wp_steps.
  apply wp_lift; [intros cs _|done]. wp_steps. apply wp_onChain.
  eapply wp_mono; [apply (wp_frames MarginState), frames_bank| |done]. intros ? s Hs. wp_steps.
  match goal with |- wp _ _ _ ?x =>
    assert (MtpId (CtxMtp x) = 0 ∧ MtpAddress (CtxMtp x) = MtpAddress (CtxMtp c0)
      ∧ CollateralAsset (CtxMtp x) = CollateralAsset (CtxMtp c0) ∧ CustodyAsset (CtxMtp x) = CustodyAsset (CtxMtp c0)
      ∧ MarginState (CtxChain x) = MarginState (CtxChain c0) ∧ is_uint (CustodyAmount (CtxMtp x))
      ∧ is_uint (Liabilities (CtxMtp x)) ∧ CtxPool x = CtxPool c0) as (K1 & K2 & K3 & K4 & K5 & K6 & K7 & K8) by done;
    remember x as c1 eqn:Ec1 end.
  clear - L Wp K1 K2 K3 K4 K5 K6 K7 K8. rewrite K3.
  apply (wp_mono _ (λ _ c', ∃ y, c' = c1 <| CtxPool :=
    lent (is_native (CollateralAsset (CtxMtp c0))) (Liabilities (CtxMtp c1)) y (CtxPool c0) |>) _ (λ _, True)); [| |done].
  { rewrite <- K8 in Wp |- *. case_test; wp_steps; (apply wp_updPool; [intros p Hp; inv_ok|done]); wp_steps;
      (apply wp_pool_add; [unfold pool_wf, pool_uints in *; cbn; tauto|done|intros _]); eexists; reflexivity. }
  intros [] c2 [y ->]. by apply (wp_stored c0 _ y).
Qed.

(** The position and the pool after it was opened. *)
Record opened (c0 c : mctx) : Prop := {
  op_name : mtp_name (CtxMtp c) = (MtpAddress (CtxMtp c0), u64 (GetMTPCount (CtxChain c0) + 1),
              CollateralAsset (CtxMtp c0), CustodyAsset (CtxMtp c0));
  op_positions : positions c = <[mtp_key (CtxMtp c) := CtxMtp c]> (positions c0);
  op_count : GetMTPCount (CtxChain c) = u64 (GetMTPCount (CtxChain c0) + 1);
  op_debt native : pool_debt native (CtxPool c) = pool_debt native (CtxPool c0) + debt_of native (CtxMtp c);
  op_custody native : pool_custody native (CtxPool c) = pool_custody native (CtxPool c0) + custody_of native (CtxMtp c)
}.

Lemma wp_TakeInCustody_opened c0 c : pool_wf (CtxPool c0) → borrowed c0 c →
  wp (TakeInCustody (CtxMtp c)) (λ _, opened c0) (λ _, True) c.
Proof.
  intros Wp [H1 H2 H3 H4 H5 H6].
  assert (∀ native, is_uint (pool_custody native (CtxPool c))) as Hcus.
  { intros native. rewrite H5. unfold pool_wf, pool_uints in Wp. destruct native; cbn; tauto. }
  pose proof (Hcus true) as Hn. pose proof (Hcus false) as He. cbn in Hn, He.
  unfold TakeInCustody. wp_steps. apply (wp_mono _ (λ _ c', opened c0 c') _ (λ _, True)); [| |done].
  - case_test; wp_steps; (apply wp_updPool; [intros p Hp; inv_ok|done]); wp_steps;
      (apply wp_pool_add; [done|done|intros _]); split; try done; intros native;
      specialize (H4 native); specialize (H5 native); unfold custody_of, pool_debt, pool_custody in *; cbn in *;
      rewrite ?Heqb; destruct native; cbn in *; lia.
  - intros [] c1 [K1 K2 K3 K4 K5]. apply wp_save_frame. intros s Hs.
    split; try done; unfold positions, GetMTPCount in *; cbn; by rewrite Hs.
Qed.

Lemma wp_opened c0 amount custody eta : ctx_wf c0 → MtpId (CtxMtp c0) = 0 → is_uint custody →
  wp (Borrow (CollateralAsset (CtxMtp c0)) amount custody eta;;
      UpdatePoolHealth;;
      mtp ← gets CtxMtp;
      TakeInCustody mtp) (λ _, opened c0) (λ _, True) c0.
Proof.
  intros W Hid Hc. wp_steps. eapply wp_mono; [by apply wp_Borrow_borrowed| |done]. intros [] c1 B. wp_steps.
  apply (wp_mono _ (λ _, borrowed c0) _ (λ _, True)); [| |done].
  - unfold UpdatePoolHealth. wp_steps. apply wp_updPool; [intros p Hp; inv_ok|done]. apply wp_save_frame.
    intros s Hs. apply (borrowed_next c0 c1); try done; by intros [].
  - intros [] c2 B2. wp_steps. apply wp_TakeInCustody_opened; [apply W|done].
Qed.
End Backs.

(** ** The store *)
Section Store.
Context {sdk : SDK} {L : SDKLaws sdk}.
Implicit Types s : chain.

(** An amount summed over the positions in a pool. *)
Definition position_sum (g : MTP → Z) (sym : string) s : Z :=
  msum (λ m, if String.eqb (pool_sym m) sym then g m else 0) (MTPs (MarginState s)).

(** Positions are stored under identifiers the counter has given out, each has its
    pool, and a pool has exactly the debts and at least the custody of its
    positions. *)
Record positions_backed s : Prop := {
  pb_count : 0 ≤ GetMTPCount s < 2 ^ 64;
  pb_ids k m : MTPs (MarginState s) !! k = Some m → k = mtp_key m ∧ 1 ≤ MtpId m ≤ GetMTPCount s;
  pb_pool k m : MTPs (MarginState s) !! k = Some m → is_Some (Pools s !! pool_key (pool_sym m));
  pb_debt sym p native : Pools s !! pool_key sym = Some p →
    position_sum (debt_of native) sym s = pool_debt native p;
  pb_custody sym p native : Pools s !! pool_key sym = Some p →
    position_sum (custody_of native) sym s ≤ pool_custody native p
}.

(** A new identifier gives a new key. *)
Lemma fresh_key s a : positions_backed s → GetMTPCount s + 1 < 2 ^ 64 →
  MTPs (MarginState s) !! GetMTPKey a (GetMTPCount s + 1) = None.
Proof.
  intros B Hc. destruct (MTPs (MarginState s) !! _) as [m|] eqn:E; [|done]. exfalso.
  pose proof (pb_count _ B). destruct (pb_ids _ B _ _ E) as [Hk Hid].
  apply GetMTPKey_inj in Hk as [_ Hk]; lia.
Qed.

(** A pool of the new state is the one the method worked on, or is as it was. *)
Lemma touched_pool P c0 c sym p : saved c0 → saved c → ctx_wf c0 → step P c0 c →
  Pools (CtxChain c) !! pool_key sym = Some p →
  (pool_sym (CtxMtp c0) = sym ∧ p = CtxPool c ∧ Pools (CtxChain c0) !! pool_key sym = Some (CtxPool c0))
  ∨ (pool_sym (CtxMtp c0) ≠ sym ∧ Pools (CtxChain c0) !! pool_key sym = Some p).
Proof.
  intros S0 S W0 Hst Hp. rewrite <- (cw_sym _ W0).
  assert (ctx_key c = ctx_key c0) as Hkey by (unfold ctx_key; by rewrite (sp_asset _ _ _ Hst)).
  unfold saved in *. rewrite Hkey in S.
  destruct (decide (Symbol (ExternalAsset (CtxPool c0)) = sym)) as [<-|Hne].
  - left. unfold ctx_key in *. rewrite S in Hp. injection Hp as <-. done.
  - right. split; [done|]. assert (ctx_key c0 ≠ pool_key sym) as Hk by (by intros ?%pool_key_inj).
    rewrite <- (lookup_delete_ne _ _ _ Hk), <- (sp_rest _ _ _ Hst). by rewrite lookup_delete_ne.
Qed.

Lemma pool_stays P c0 c k : saved c → step P c0 c → is_Some (Pools (CtxChain c0) !! k) → is_Some (Pools (CtxChain c) !! k).
Proof.
  intros S Hst Hk. unfold saved, ctx_key in S. rewrite (sp_asset _ _ _ Hst) in S.
  destruct (decide (ctx_key c0 = k)) as [<-|Hne]; [by eexists|].
  by rewrite <- (lookup_delete_ne _ _ _ Hne), (sp_rest _ _ _ Hst), lookup_delete_ne.
Qed.

Lemma closed_backed P c0 c : saved c0 → saved c → inv P c0 c → ctx_wf c0 → closed c0 c →
  positions c0 !! mtp_key (CtxMtp c0) = Some (CtxMtp c0) →
  positions_backed (CtxChain c0) →
  positions_backed (CtxChain c) ∧ GetMTPCount (CtxChain c) ≤ GetMTPCount (CtxChain c0) + 1.
Proof.
  intros S0 S [W Hst] W0 [K1 K2 K3 K4] Hm B. split; [|rewrite K4; lia].
  assert (∀ g sym, position_sum g sym (CtxChain c) = position_sum g sym (CtxChain c0)
    - if String.eqb (pool_sym (CtxMtp c0)) sym then g (CtxMtp c0) else 0) as Hsum.
  { intros g sym. unfold position_sum, positions in *. rewrite K1. by rewrite (msum_delete _ _ _ _ Hm). }
  pose proof (touched_pool P c0 c) as Hpool.
  split.
  - rewrite K4. apply B.
  - intros k m Hk. unfold positions in *. rewrite K1 in Hk. apply lookup_delete_Some in Hk as [_ Hk].
    rewrite K4. by apply B.
  - intros k m Hk. unfold positions in *. rewrite K1 in Hk. apply lookup_delete_Some in Hk as [_ Hk].
    eapply pool_stays; [done|exact Hst|]. by eapply B.
  - intros sym p native Hp. rewrite Hsum. destruct (Hpool _ _ S0 S W0 Hst Hp) as [(<- & -> & Hp0)|[Hne Hp0]].
    + by rewrite String.eqb_refl, K2, (pb_debt _ B _ _ native Hp0).
    + apply String.eqb_neq in Hne. rewrite Hne, (pb_debt _ B _ _ native Hp0). lia.
  - intros sym p native Hp. rewrite Hsum. destruct (Hpool _ _ S0 S W0 Hst Hp) as [(<- & -> & Hp0)|[Hne Hp0]].
    + rewrite String.eqb_refl. pose proof (pb_custody _ B _ _ native Hp0). specialize (K3 native). unfold gap in K3. lia.
    + apply String.eqb_neq in Hne. rewrite Hne. pose proof (pb_custody _ B _ _ native Hp0). lia.
Qed.

Lemma opened_backed P c0 c : saved c0 → saved c → inv P c0 c → ctx_wf c0 → opened c0 c →
  GetMTPCount (CtxChain c0) + 1 < 2 ^ 64 →
  positions_backed (CtxChain c0) →
  positions_backed (CtxChain c) ∧ GetMTPCount (CtxChain c) ≤ GetMTPCount (CtxChain c0) + 1.
Proof.
  intros S0 S [W Hst] W0 [K1 K2 K3 K4 K5] Hc B. pose proof (pb_count _ B) as Hc0.
  assert (u64 (GetMTPCount (CtxChain c0) + 1) = GetMTPCount (CtxChain c0) + 1) as Hu
    by (unfold u64; apply Z.mod_small; lia).
  rewrite Hu in K1, K3. split; [|rewrite K3; lia]. pose proof K1 as [= Ha Hid Hcol Hcus].
  assert (mtp_key (CtxMtp c) = GetMTPKey (MtpAddress (CtxMtp c0)) (GetMTPCount (CtxChain c0) + 1)) as Hkey
    by (unfold mtp_key; by rewrite Ha, Hid).
  assert (pool_sym (CtxMtp c) = pool_sym (CtxMtp c0)) as Hps by (unfold pool_sym; by rewrite Hcol, Hcus).
  assert (∀ g sym, position_sum g sym (CtxChain c) = position_sum g sym (CtxChain c0)
    + if String.eqb (pool_sym (CtxMtp c0)) sym then g (CtxMtp c) else 0) as Hsum.
  { intros g sym. unfold position_sum, positions in *. rewrite K2, msum_insert_new, Hps; [lia|].
    rewrite Hkey. by apply fresh_key. }
  pose proof (touched_pool P c0 c) as Hpool. split.
  - rewrite K3. lia.
  - intros k m Hk. unfold positions in *. rewrite K2 in Hk. rewrite K3.
    apply lookup_insert_Some in Hk as [[<- <-]|[_ Hk]]; [split; [done|lia]|].
    destruct (pb_ids _ B _ _ Hk) as [-> ?]. split; [done|lia].
  - intros k m Hk. unfold positions in *. rewrite K2 in Hk. eapply pool_stays; [done|exact Hst|].
    apply lookup_insert_Some in Hk as [[_ <-]|[_ Hk]]; [|by eapply B].
    rewrite Hps, <- (cw_sym _ W0). by eexists.
  - intros sym p native Hp. rewrite Hsum. destruct (Hpool _ _ S0 S W0 Hst Hp) as [(<- & -> & Hp0)|[Hne Hp0]].
    + by rewrite String.eqb_refl, K4, (pb_debt _ B _ _ native Hp0).
    + apply String.eqb_neq in Hne. rewrite Hne, (pb_debt _ B _ _ native Hp0). lia.
  - intros sym p native Hp. rewrite Hsum. destruct (Hpool _ _ S0 S W0 Hst Hp) as [(<- & -> & Hp0)|[Hne Hp0]].
    + rewrite String.eqb_refl, K5. pose proof (pb_custody _ B _ _ native Hp0). lia.
    + apply String.eqb_neq in Hne. rewrite Hne. pose proof (pb_custody _ B _ _ native Hp0). lia.
Qed.

(** ** Messages *)

Lemma closes_backed {A} (f : M mctx A) s a id m p r s' : clp_wf s → margin_wf s → positions_backed s →
  MTPs (MarginState s) !! GetMTPKey a id = Some m →
  (∀ c0, ctx_wf c0 → wp f (λ _ c', inv False c0 c' ∧ saved c') (λ _, True) c0) →
  (∀ c0, ctx_wf c0 → MtpId (CtxMtp c0) ≠ 0 → wp f (λ _, closed c0) (λ _, True) c0) →
  pool_of_mtp m s = (Ok p, s) → withPointers m p f s = (Ok r, s') → positions_backed s' ∧ GetMTPCount s' ≤ GetMTPCount s + 1.
Proof.
  intros Hwf Hmw B Hm Hf Hcl Hp H. apply stored_ctx in Hp as (W & S0 & _); [|done|done|by eapply Hmw].
  destruct (pb_ids _ B _ _ Hm) as [Hk Hid]. destruct r as [[x m'] p'].
  assert (MtpId (CtxMtp (mkCtx sdk s m p)) ≠ 0) as Hnz by (cbn; lia).
  destruct (withPointers_Ok _ _ _ _ _ _ _ _ _ _ (wp_and _ _ _ _ _ _ (Hf (mkCtx sdk s m p) W) (Hcl _ W Hnz)) H)
    as [[Hi Hs] Hc].
  apply (closed_backed False (mkCtx sdk s m p) _ S0 Hs Hi W Hc); [|done].
  unfold positions. cbn. by rewrite <- Hk.
Qed.

Lemma msg_Close_backed msg s s' : clp_wf s → margin_wf s → positions_backed s →
  msg_Close msg s = (Ok (), s') → positions_backed s' ∧ GetMTPCount s' ≤ GetMTPCount s + 1.
Proof.
  intros Hwf Hm B H. unfold msg_Close, CloseLong in H. inv_ok. apply GetMTP_Ok in E as [-> Hk].
  case_test; inv_ok. apply GetMTP_Ok in E0 as [-> Hk'].
  pose proof (reads_Ok _ _ _ _ (reads_pool_of_mtp _) E1) as ->.
  destruct v3 as [[repaid m'] p']. inv_ok.
  eapply (closes_backed (pay_prorated_interest;; close_out false)); [done..|exact Hk'| | |exact E1|exact E2].
  - intros c0 ?. by apply wp_close_with_interest.
  - intros c0 ? ?. by apply wp_CloseLong_closed.
Qed.

Lemma msg_AdminClose_backed msg s s' : clp_wf s → margin_wf s → positions_backed s →
  msg_AdminClose msg s = (Ok (), s') → positions_backed s' ∧ GetMTPCount s' ≤ GetMTPCount s + 1.
Proof.
  intros Hwf Hm B H. unfold msg_AdminClose in H. inv_ok. apply require_admin_Ok in E as ->.
  apply GetMTP_Ok in E0 as [-> Hk]. case_test; inv_ok.
  match goal with E : pool_of_mtp _ _ = _ |- _ =>
    pose proof (reads_Ok _ _ _ _ (reads_pool_of_mtp _) E) as -> end.
  eapply (closes_backed (ForceCloseLong true (MsgAdminClose.TakeMarginFund msg)));
    [done..|exact Hk| | |eassumption|eassumption].
  - intros c0 ?. by apply wp_ForceCloseLong.
  - intros c0 ? ?. by apply wp_ForceCloseLong_closed.
Qed.

Lemma OpenLong_backed msg s m s' : clp_wf s → margin_wf s → is_outside (MsgOpen.Signer msg) →
  is_uint (MsgOpen.CollateralAmount msg) → open_paired msg → positions_backed s → GetMTPCount s + 1 < 2 ^ 64 →
  OpenLong msg s = (Ok m, s') → positions_backed s' ∧ GetMTPCount s' ≤ GetMTPCount s + 1.
Proof.
  intros Hwf Hm Ho Ha Hp B Hcount H. unfold OpenLong in H. inv_ok. case_test; inv_ok.
  match type of H with context [withPointers (NewMTP _ _ _ _ ?l)] =>
    pose proof (NewMTP_wf msg l Ho Hp) as Wm; set (mtp := NewMTP _ _ _ _ l) in Wm, H end.
  inv_read. destruct (found_ctx s mtp v) as (W & S0 & _); [done..|].
  do 2 (case_test; inv_ok).
  match goal with H : CheckMinLiabilities _ _ _ _ _ = _ |- _ => apply CheckMinLiabilities_Ok in H as -> end.
  match goal with H : CLPSwap _ _ _ _ = _ |- _ => apply CLPSwap_Ok in H as (-> & Hc & Hlt) end.
  case_test; inv_ok.
  match goal with v : (() * MTP * Pool)%type |- _ => destruct v as [[u m'] p'] end. inv_ok.
  match goal with H : withPointers _ _ _ _ = _ |- _ =>
    destruct (withPointers_Ok _ _ _ _ _ _ _ _ _ _ (wp_and _ _ _ _ _ _
      (wp_open False (mkCtx sdk s mtp v) _ _ _ W eq_refl Ha Hc Hlt)
      (wp_opened (mkCtx sdk s mtp v) _ _ _ W eq_refl Hc)) H) as [[Hi Hs] Hop] end.
  match goal with H : UpdateMTPHealth _ _ _ = _ |- _ => apply reads_Ok in H as ->; [|apply reads_UpdateMTPHealth] end.
  case_test; inv_ok. exact (opened_backed False _ _ S0 Hs Hi W Hop Hcount B).
Qed.

Lemma msg_Open_backed msg s s' : clp_wf s → margin_wf s → is_outside (MsgOpen.Signer msg) →
  is_uint (MsgOpen.CollateralAmount msg) → open_paired msg → positions_backed s → GetMTPCount s + 1 < 2 ^ 64 →
  msg_Open msg s = (Ok (), s') → positions_backed s' ∧ GetMTPCount s' ≤ GetMTPCount s + 1.
Proof.
  intros Hwf Hm Ho Ha Hp B Hcount H. unfold msg_Open in H. inv_ok. repeat (case_test; inv_read).
  all: by eapply OpenLong_backed.
Qed.

(** What the invariant reads. *)
Lemma backed_same s s' : Pools s' = Pools s → MTPs (MarginState s') = MTPs (MarginState s) →
  MTPCount (MarginState s') = MTPCount (MarginState s) → positions_backed s → positions_backed s'.
Proof.
  intros HP HM HC [B1 B2 B5 B3 B4]. unfold GetMTPCount in *.
  split; unfold GetMTPCount, position_sum in *; rewrite ?HP, ?HM, ?HC; done.
Qed.
End Store.
