(* ===== verification/MarginBlock.v ===== *)
(** * The books across the block processing of margin

    BeginBlocker walks through all positions of all pools.  Whatever happens to a
    position stays: errors are logged, a panic is recovered, and what was written
    before remains in the store, with the pool as the pointer has it.  The books
    are therefore kept through every end of every method ([wpe]).

    What may be missing from the module account is what the two funds were paid:
    the coins are counted for the module account together with a list [F] of
    accounts that holds the funds, or none when they take no share. *)
From S2P Require Import Prelude Wp Sdk ClpTypes ClpCalc ClpCalcProps Admin TokenRegistry.
From S2P Require Import MarginTypes Chain Ledger ClpKeeper ClpExec ClpMsg ClpBlock ClpState ClpInvariants.
From S2P Require Import ClpDistribution Margin MarginBooks.

(** ** Coins of the module and the funds *)
Section Reserve.
Context {sdk : SDK} {L : SDKLaws sdk} (F : list string).
Hypothesis module_apart : clp_module_address ∉ F.

Definition reserve (s : chain) (d : string) : Z :=
  module_balance s d + zsum (λ a, bank_balance (Bank s) a d) F.

(** Only the bank changes, and the reserve shrinks by at most [x]. *)
Definition pays (denom : string) (x : Z) (s s' : chain) : Prop :=
  (∃ b, s' = s <| Bank := b |>) ∧ ∀ d, reserve s d - only denom x d ≤ reserve s' d.

Lemma pays_nothing denom s : pays denom 0 s s.
Proof. split; [exists (Bank s); by destruct s|]. intros d. unfold only. case_test; lia. Qed.

Lemma pays_trans denom x y s1 s2 s3 : pays denom x s1 s2 → pays denom y s2 s3 → pays denom (x + y) s1 s3.
Proof.
  intros [[b1 ->] H1] [[b2 ->] H2]. split; [by exists b2|]. intros d. specialize (H1 d). specialize (H2 d).
  unfold only in *. case_test; lia.
Qed.

Lemma pays_same denom s s' : (∃ b, s' = s <| Bank := b |>) →
  (∀ a d, bank_balance (Bank s') a d = bank_balance (Bank s) a d) → pays denom 0 s s'.
Proof.
  intros Hb H. split; [done|]. intros d. unfold reserve, module_balance.
  rewrite H, (zsum_ext (λ a, bank_balance (Bank s') a d) (λ a, bank_balance (Bank s) a d)) by done.
  unfold only. case_test; lia.
Qed.

Lemma fund_gains to x d : 0 ≤ x d → ∀ s s' : chain,
  (∀ a, a ∈ F → bank_balance (Bank s') a d
                = bank_balance (Bank s) a d + (if String.eqb a to then x d else 0)) →
  zsum (λ a, bank_balance (Bank s) a d) F + (if bool_decide (to ∈ F) then x d else 0)
  ≤ zsum (λ a, bank_balance (Bank s') a d) F.
Proof using L.
  intros Hx s s'. clear module_apart. induction F as [|a G IH]; intros H;
    [rewrite bool_decide_eq_false_2 by set_solver; cbn; lia|].
  pose proof (H a ltac:(by left)) as Ha. specialize (IH ltac:(intros b Hb; apply H; by right)).
  cbn [zsum]. revert Ha. destruct (String.eqb_spec a to) as [->|Hne]; intros Ha.
  - rewrite bool_decide_eq_true_2 by (by left). case_bool_decide; lia.
  - rewrite (bool_decide_ext (to ∈ a :: G) (to ∈ G)) by set_solver. lia.
Qed.

(** A payment of one coin, whether it succeeds or not. *)
Lemma wpe_send to cs denom x s : (length cs ≤ 1)%nat → 0 ≤ x →
  (∀ d, amount_of cs d = only denom x d) →
  wpe (onBank (bank_send_mod_to_acc ModuleName to cs))
    (λ _ s', pays denom (if bool_decide (to ∈ F) then 0 else x) s s') (λ s', pays denom 0 s s') s.
Proof using All.
  intros Hlen Hx Ha. unfold wpe, onBank.
  destruct (bank_send_mod_to_acc ModuleName to cs (Bank s)) as [r b] eqn:E.
  assert (r ≠ Ok () → pays denom 0 s (s <| Bank := b |>)) as Hf.
  { intros Hr. apply pays_same; [by exists b|]. by apply (send_single_fails _ _ _ _ _ _ Hlen E). }
  destruct r as [[]|e|]; [|by apply Hf..]. clear Hf. apply send_mod_to_acc_val in E.
  fold clp_module_address in E. split; [by exists b|]. intros d.
  assert (0 ≤ amount_of cs d) as Hpos by (rewrite Ha; unfold only; case_test; lia).
  pose proof (E clp_module_address d) as Hm. rewrite String.eqb_refl in Hm.
  pose proof (fund_gains to (amount_of cs) d Hpos s (s <| Bank := b |>)) as Hg.
  assert (∀ a, a ∈ F → bank_balance b a d
            = bank_balance (Bank s) a d + (if String.eqb a to then amount_of cs d else 0)) as HF.
  { intros a Hin. rewrite (E a d). destruct (String.eqb_spec a clp_module_address) as [->|]; [done|lia]. }
  specialize (Hg HF). cbn in Hg. unfold reserve, module_balance. cbn. rewrite Ha in *.
  case_bool_decide; unfold only in *; destruct (String.eqb denom d), (String.eqb clp_module_address to); lia.
Qed.
End Reserve.

(** ** The books of a pool behind its pointer *)
Section Steps.
Context {sdk : SDK} {L : SDKLaws sdk} (F : list string).

Definition fledger (c : mctx) (d : string) : Z :=
  reserve F (CtxChain c) d - msum (pool_claim d) (delete (ctx_key c) (Pools (CtxChain c)))
  - pool_claim d (CtxPool c).

Record pool_ctx (c : mctx) : Prop := {
  pc_chain : clp_wf (CtxChain c);
  pc_margin : margin_wf (CtxChain c);
  pc_pool : pool_wf (CtxPool c);
  pc_valid : AssetValidate (ExternalAsset (CtxPool c)) = Ok true
}.

Record pstep (c0 c : mctx) : Prop := {
  ps_wf : pool_ctx c;
  ps_ledger d : fledger c0 d ≤ fledger c d;
  ps_rest : delete (ctx_key c0) (Pools (CtxChain c)) = delete (ctx_key c0) (Pools (CtxChain c0));
  ps_asset : ExternalAsset (CtxPool c) = ExternalAsset (CtxPool c0);
  ps_units : PoolUnits (CtxPool c) = PoolUnits (CtxPool c0);
  ps_outer : outer (CtxChain c) = outer (CtxChain c0)
}.

(** The same with a position of the pool behind the other pointer. *)
Record bstep (m0 : MTP) (c0 c : mctx) : Prop := {
  bs_step : pstep c0 c;
  bs_mtp : mtp_wf (CtxMtp c);
  bs_ident : ident (CtxMtp c) = ident m0;
  bs_sym : Symbol (ExternalAsset (CtxPool c0)) = pool_sym m0
}.

Lemma pstep_refl c : pool_ctx c → pstep c c.
Proof. intros H. split; done. Qed.

Lemma pstep_trans c0 c1 c2 : pstep c0 c1 → pstep c1 c2 → pstep c0 c2.
Proof.
  intros [W1 A1 A2 A3 A4 A5] [W2 B1 B2 B3 B4 B5].
  assert (ctx_key c1 = ctx_key c0) as Hk by (unfold ctx_key; by rewrite A3).
  rewrite Hk in B2. split; [done| |by rewrite B2, A2|by rewrite B3, A3|by rewrite B4, A4|by rewrite B5, A5].
  intros d. specialize (A1 d). specialize (B1 d). lia.
Qed.

Lemma pstep_next c0 c c' : pstep c0 c → margin_wf (CtxChain c') → pool_wf (CtxPool c') →
  ExternalAsset (CtxPool c') = ExternalAsset (CtxPool c) →
  PoolUnits (CtxPool c') = PoolUnits (CtxPool c) →
  Pools (CtxChain c') = Pools (CtxChain c) → outer (CtxChain c') = outer (CtxChain c) →
  (∀ d, reserve F (CtxChain c) d - pool_claim d (CtxPool c)
        ≤ reserve F (CtxChain c') d - pool_claim d (CtxPool c')) → pstep c0 c'.
Proof.
  intros Hs Hm Hp Ha Hu HP Ho Hd. apply (pstep_trans c0 c c' Hs). destruct Hs as [[W1 _ _ W4] _ _ _ _ _].
  split; [split|..]; [|done|done|by rewrite Ha| |by rewrite HP|done..].
  - destruct W1 as [H1 H2 H3]. injection Ho as HL _ _. by split; rewrite ?HP, ?HL.
  - intros d. specialize (Hd d). unfold fledger, ctx_key. rewrite HP, Ha. lia.
Qed.

Lemma bstep_ctx m0 c0 c : bstep m0 c0 c → ctx_wf c.
Proof.
  intros [[[W1 W2 W3 _] _ _ Ha _ _] Hm Hid Hs]. split; try done.
  rewrite Ha, Hs. unfold pool_sym. by injection Hid as _ -> ->.
Qed.

(** An assignment to the position, to the pool, a payment. *)
Lemma bstep_mtp m0 c0 c m : bstep m0 c0 c → mtp_wf m → ident m = ident (CtxMtp c) →
  bstep m0 c0 (c <| CtxMtp := m |>).
Proof.
  intros [H Hm Hid Hs] Hw Hi. split; [|done|by rewrite <- Hid|done]. pose proof (ps_wf _ _ H) as [? ? ? ?].
  apply (pstep_next c0 c); try done.
Qed.

Lemma bstep_pool m0 c0 c p : bstep m0 c0 c → pool_wf p → ExternalAsset p = ExternalAsset (CtxPool c) →
  PoolUnits p = PoolUnits (CtxPool c) → (∀ d, pool_claim d p ≤ pool_claim d (CtxPool c)) →
  bstep m0 c0 (c <| CtxPool := p |>).
Proof.
  intros [H Hm Hid Hs] Hp Ha Hu Hd. split; [|done..]. pose proof (ps_wf _ _ H) as [? ? ? ?].
  apply (pstep_next c0 c); try done. intros d. cbn. specialize (Hd d). lia.
Qed.

Lemma bstep_gains m0 c0 c s' denom : bstep m0 c0 c → pays F denom 0 (CtxChain c) s' →
  bstep m0 c0 (c <| CtxChain := s' |>).
Proof.
  intros [H Hm Hid Hs] [[b ->] Hd]. split; [|done..]. pose proof (ps_wf _ _ H) as [? ? ? ?].
  apply (pstep_next c0 c); try done. intros d. specialize (Hd d). cbn in *.
  unfold only in Hd. destruct (String.eqb denom d); lia.
Qed.

Lemma bstep_margin m0 c0 c ms : bstep m0 c0 c → Params ms = Params (MarginState (CtxChain c)) →
  (∀ k m, MTPs ms !! k = Some m → mtp_wf m) →
  bstep m0 c0 (c <| CtxChain := (CtxChain c) <| MarginState := ms |> |>).
Proof.
  intros [H Hm Hid Hs] HP HM. split; [|done..]. pose proof (ps_wf _ _ H) as [? ? ? ?].
  apply (pstep_next c0 c); try done. unfold outer. cbn. by rewrite HP.
Qed.

(** *** Rules *)
Lemma wpe_onChain {A} (m : M chain A) (Q : A → mctx → Prop) E c :
  wpe m (λ a s', Q a (c <| CtxChain := s' |>)) (λ s', E (c <| CtxChain := s' |>)) (CtxChain c) →
  wpe (onChain m) Q E c.
Proof. unfold wpe, onChain. destruct (m (CtxChain c)) as [[]]; done. Qed.

Lemma wpe_updPool f (Q : () → mctx → Prop) E c :
  (∀ p, f (CtxPool c) = Ok p → Q () (c <| CtxPool := p |>)) → E c → wpe (updPool f) Q E c.
Proof. intros HQ HE. unfold updPool. wpe_steps. apply wpe_lift; [|done]. intros p Hp. wpe_steps. by apply HQ. Qed.

Lemma wpe_updMtp m0 c0 c f (Q : () → mctx → Prop) : bstep m0 c0 c →
  (∀ m, f (CtxMtp c) = Ok m → mtp_wf m ∧ ident m = ident (CtxMtp c)) →
  (∀ m, f (CtxMtp c) = Ok m → bstep m0 c0 (c <| CtxMtp := m |>) → Q () (c <| CtxMtp := m |>)) →
  wpe (updMtp f) Q (bstep m0 c0) c.
Proof.
  intros Hb Hm HQ. unfold updMtp. wpe_steps. apply wpe_lift; [|done]. intros m H. wpe_steps.
  apply HQ; [done|]. by apply bstep_mtp; [|apply Hm..].
Qed.

Lemma wpe_pool_sub (g : Pool → Z) (h : Z → Pool → Pool) x (Q : () → mctx → Prop) E c :
  is_uint (g (CtxPool c)) → is_uint x → E c →
  (is_uint (g (CtxPool c) - x) → Q () (c <| CtxPool := h (g (CtxPool c) - x) (CtxPool c) |>)) →
  wpe (updPool (λ p, y ← u_sub (g p) x; Ok (h y p))) Q E c.
Proof.
  intros Hg Hx HE HQ. apply wpe_updPool; [|done]. intros p Hp. inv_ok.
  apply u_sub_Ok in E0 as [-> ?]; auto.
Qed.

Lemma wpe_pool_add (g : Pool → Z) (h : Z → Pool → Pool) x (Q : () → mctx → Prop) E c :
  is_uint (g (CtxPool c)) → is_uint x → E c →
  (is_uint (g (CtxPool c) + x) → Q () (c <| CtxPool := h (g (CtxPool c) + x) (CtxPool c) |>)) →
  wpe (updPool (λ p, y ← u_add (g p) x; Ok (h y p))) Q E c.
Proof.
  intros Hg Hx HE HQ. apply wpe_updPool; [|done]. intros p Hp. inv_ok.
  apply u_add_Ok in E0 as [-> ?]; auto.
Qed.

(** A subtraction that cannot fail. *)
Lemma wpe_pool_take (g : Pool → Z) (h : Z → Pool → Pool) x (Q : () → mctx → Prop) E c :
  is_uint (g (CtxPool c)) → is_uint x → x ≤ g (CtxPool c) →
  Q () (c <| CtxPool := h (g (CtxPool c) - x) (CtxPool c) |>) →
  wpe (updPool (λ p, y ← u_sub (g p) x; Ok (h y p))) Q E c.
Proof.
  intros Hg Hx Hle HQ. unfold wpe, updPool, gets, lift, modify, mbind, M_bind. by rewrite u_sub_in.
Qed.

(** The pool has a valid asset, so that it can be saved. *)
Lemma wpe_savePool c0 c (E : mctx → Prop) : pstep c0 c →
  wpe savePool (λ _ c', pstep c0 c' ∧ saved c' ∧ CtxPool c' = CtxPool c ∧ CtxMtp c' = CtxMtp c) E c.
Proof.
  intros H. pose proof (ps_wf _ _ H) as [W1 W2 W3 W4]. unfold savePool. wpe_steps. apply wpe_onChain.
  unfold wpe, SetPool, PoolValidate, mbind, M_bind, lift. rewrite W4. cbn [negb]. unfold modify.
  split; [|split; [unfold saved; cbn; by rewrite lookup_insert_eq|done]].
  apply (pstep_trans c0 c _ H). split; cbn; try done.
  - split; cbn; [|done..]. by apply put_pool_wf.
  - intros d. unfold fledger, ctx_key. cbn. rewrite delete_insert_eq. done.
  - unfold ctx_key. by rewrite delete_insert_eq.
Qed.

Lemma wpe_savePool_b m0 c0 c (E : mctx → Prop) : bstep m0 c0 c →
  wpe savePool (λ _ c', bstep m0 c0 c' ∧ CtxPool c' = CtxPool c ∧ CtxMtp c' = CtxMtp c) E c.
Proof.
  intros [H Hm Hid Hs]. eapply wpe_mono; [by apply wpe_savePool| |done].
  intros _ c' (H' & _ & Hp & HM). split; [|done]. by split; rewrite ?HM.
Qed.
End Steps.

(** One assignment to the position of a context with [Hb : bstep m0 c0 c]. *)
Ltac bmtp_step Hb :=
  match type of Hb with bstep ?F ?m0 ?c0 ?c =>
    let Hb' := fresh "Hb" in
    pose proof (bs_mtp _ _ _ _ Hb) as [? ? ? ? ?];
    apply (wpe_updMtp F m0 c0 c);
      [exact Hb
      |intros; inv_ok; mtp_uints; by split
      |intros ? ? Hb'; inv_ok; cbn in Hb'; mtp_uints; clear Hb; rename Hb' into Hb; wpe_steps]
  end.

(** ** Interest *)
Section Interest.
Context {sdk : SDK} {L : SDKLaws sdk} (F : list string) (module_apart : clp_module_address ∉ F).

(** The funds take no share, or their accounts are in [F]. *)
Definition fund_in (percentage : Z) (address : string) : Prop :=
  percentage = 0 ∨ ∀ a, acc_from_bech32 address = Ok a → a ∈ F.
Definition funds_in (s : chain) : Prop :=
  let p := GetParams s in
  fund_in (MarginParams.ForceCloseFundPercentage p) (MarginParams.ForceCloseFundAddress p)
  ∧ fund_in (MarginParams.IncrementalInterestPaymentFundPercentage p)
            (MarginParams.IncrementalInterestPaymentFundAddress p).

Lemma funds_in_outer s s' : outer s' = outer s → funds_in s → funds_in s'.
Proof using. unfold funds_in, GetParams. by intros [= _ _ ->]. Qed.

Lemma funds_in_step m0 c0 c : bstep F m0 c0 c → funds_in (CtxChain c0) → funds_in (CtxChain c).
Proof using. intros [H _ _ _]. apply funds_in_outer, (ps_outer _ _ _ H). Qed.

Lemma one_coin_amount d x cs : new_coins [(d, x)] = Ok cs → ∀ e, amount_of cs e = only d x e.
Proof using L. intros H e. rewrite (new_coins_val _ _ H). unfold amount_of, only. cbn. lia. Qed.

Lemma wpe_TakeFundPayment ret asset pct fund s : pct = 0 ∨ fund ∈ F →
  wpe (TakeFundPayment ret asset pct fund)
    (λ t s', is_uint t ∧ pays F asset 0 s s') (λ s', pays F asset 0 s s') s.
Proof using All.
  intros Hf. unfold TakeFundPayment. wpe_steps.
  apply wpe_lift; [intros t1 H1|apply pays_nothing]. wpe_steps.
  apply wpe_lift; [intros t2 ->%d_trunc_val|apply pays_nothing]. wpe_steps.
  apply wpe_lift; [intros t [-> Hu]%u_of_big_Ok|apply pays_nothing]. wpe_steps.
  case_test; bool_prop; wpe_steps; [split; [done|apply pays_nothing]|].
  destruct Hf as [->|Hf].
  { apply d_mul_val in H1. rewrite Z.mul_0_l in H1. apply (nearest_exact 0) in H1 as ->. done. }
  apply wpe_lift; [intros i ->%i_of_big_val|apply pays_nothing]. wpe_steps.
  apply wpe_lift; [intros c [-> [? ?]]%new_coin_Ok|apply pays_nothing]. wpe_steps.
  apply wpe_lift; [intros cs Hcs|apply pays_nothing].
  eapply wpe_mono; [eapply (wpe_send F module_apart); [by eapply new_coins_length|done|by apply one_coin_amount]| |done].
  rewrite bool_decide_eq_true_2 by done. intros [] s' Hs. by wpe_steps.
Qed.

Lemma wpe_SetMTP m0 c0 c : bstep F m0 c0 c →
  wpe SetMTP (λ _ c', bstep F m0 c0 c' ∧ CtxPool c' = CtxPool c) (bstep F m0 c0) c.
Proof using.
  intros Hb. unfold SetMTP. wpe_steps.
  apply (wpe_mono _ (λ _ c', bstep F m0 c0 c' ∧ CtxPool c' = CtxPool c) _ (bstep F m0 c0)); [|clear Hb|done].
  - case_test; wpe_steps; [|done]. pose proof (bs_mtp _ _ _ _ Hb) as [? ? ? ? ?].
    apply (wpe_updMtp F m0 c0 c); [done|intros m [= <-]; by split|].
    intros m [= <-] Hb1. unfold margin_modify. wpe_steps. apply wpe_onChain. wpe_steps. apply wpe_onChain. wpe_steps.
    split; [|done]. pose proof (pc_margin _ (ps_wf _ _ _ (bs_step _ _ _ _ Hb))) as HM.
    apply (bstep_margin F m0 c0 (_ <| CtxChain := _ |>)); [|done|done]. by apply bstep_margin.
  - intros _ c' [Hb Hp]. wpe_steps. apply wpe_lift; [intros _ _|done]. wpe_steps.
    apply wpe_onChain. unfold margin_modify. wpe_steps. split; [|done].
    apply bstep_margin; [done|done|]. cbn. intros k m [[<- <-]|[_ Hk]]%lookup_insert_Some.
    + apply (bs_mtp _ _ _ _ Hb).
    + by apply (pc_margin _ (ps_wf _ _ _ (bs_step _ _ _ _ Hb)) k).
Qed.

(** The custody that pays the interest goes to the balance, but for the fund's
    share. *)
Lemma wpe_pay_custody m0 c0 c paid actual : bstep F m0 c0 c → is_uint paid → is_uint actual → actual ≤ paid →
  wpe (if is_native (CustodyAsset m0) then
         updPool (λ p, x ← u_sub (NativeCustody p) paid; Ok (p <| NativeCustody := x |>));;
         updPool (λ p, x ← u_add (NativeAssetBalance p) actual; Ok (p <| NativeAssetBalance := x |>))
       else
         updPool (λ p, x ← u_sub (ExternalCustody p) paid; Ok (p <| ExternalCustody := x |>));;
         updPool (λ p, x ← u_add (ExternalAssetBalance p) actual; Ok (p <| ExternalAssetBalance := x |>)))
    (λ _, bstep F m0 c0) (bstep F m0 c0) c.
Proof using L.
  intros Hb Hp Ha Hle. pose proof (pc_pool _ (ps_wf _ _ _ (bs_step _ _ _ _ Hb))) as Wp.
  case_test; wpe_steps; (apply wpe_pool_sub; [unfold pool_wf, pool_uints in *; tauto|done|done|intros ?]);
    wpe_steps;
    (apply wpe_pool_add; [unfold pool_wf, pool_uints in *; cbn; tauto|done| |intros ?]);
    (refine (bstep_pool F m0 c0 c _ Hb _ _ _ _); [pool_wf_tac|done|done|]); intros d; unfold pool_claim; cbn;
    destruct (String.eqb NativeSymbol d); repeat case_test; unfold is_uint in *; lia.
Qed.

Lemma wpe_IncrementalInterestPayment m0 c0 c payment : funds_in (CtxChain c0) → is_uint payment →
  bstep F m0 c0 c →
  wpe (IncrementalInterestPayment payment) (λ a c', is_uint a ∧ bstep F m0 c0 c') (bstep F m0 c0) c.
Proof using All.
  intros Hf Hpay Hb. unfold IncrementalInterestPayment. wpe_steps.
  apply wpe_lift; [|done]. intros pay1 H1.
  assert (is_uint pay1) as Hpay1.
  { pose proof (bs_mtp _ _ _ _ Hb) as [?????]. case_test; inv_ok; mtp_uints; done. }
  clear H1. wpe_steps. pose proof (bs_ident _ _ _ _ Hb) as [= _ _ Hcu].
  apply wpe_reads; [apply reads_onChain, reads_CLPSwap| |done].
  intros pc (_ & Hpc & _)%onChain_CLPSwap. wpe_steps. rewrite Hcu.
  pose proof (bs_mtp _ _ _ _ Hb) as [_ Wcust _ _ _]. bmtp_step Hb.
  apply (wpe_mono _ (λ r c', bstep F m0 c0 c' ∧ is_uint r.1 ∧ is_uint r.2) _ (bstep F m0 c0)); [| |done].
  { case_test; wpe_steps; [|done].
    apply wpe_reads; [apply reads_onChain, reads_CLPSwap| |done].
    intros cc (_ & Hcc & _)%onChain_CLPSwap. wpe_steps. bmtp_step Hb. done. }
  clear - L module_apart Hf Hcu. intros [ip ipc] c1 (Hb & Hip & Hipc). cbn in Hip, Hipc. wpe_steps.
  bmtp_step Hb. bmtp_step Hb. bmtp_step Hb.
  match type of Hb with bstep _ _ _ ?x => remember x as c2 eqn:Ec2 in Hb |- * end. clear Ec2.
  pose proof (funds_in_step _ _ _ Hb Hf) as [_ Hfund].
  apply wpe_reads; [apply reads_onChain; unfold GetIncrementalInterestPaymentFundAddress; reads_auto| |done].
  intros fund Hfa. apply onChain_fund in Hfa. wpe_steps. apply wpe_onChain.
  eapply wpe_mono; [apply wpe_TakeFundPayment| |].
  { destruct Hfund as [?|Hfund]; [by left|right; by apply Hfund]. }
  2: { intros s' Hs. by eapply bstep_gains. }
  intros t s' [Ht Hs]. apply (bstep_gains F m0 c0 c2) in Hs as Hb2; [|done]. wpe_steps.
  apply wpe_lift; [|done]. intros actual [-> Hact]%u_sub_Ok; [|done..]. wpe_steps.
  eapply wpe_mono; [apply (wpe_pay_custody m0 c0); [exact Hb2|exact Hipc|exact Hact|unfold is_uint in *; lia]| |done].
  intros [] c3 Hb3. wpe_steps. eapply wpe_mono; [apply (wpe_SetMTP m0 c0 c3 Hb3)| |done].
  intros [] c4 [Hb4 _]. wpe_steps. eapply wpe_mono; [apply (wpe_savePool_b F m0 c0 c4 _ Hb4)| |done].
  intros [] c5 (Hb5 & _). by wpe_steps.
Qed.

Lemma wpe_HandleInterestPayment m0 c0 c payment : funds_in (CtxChain c0) → is_uint payment →
  bstep F m0 c0 c →
  wpe (HandleInterestPayment payment) (λ _, bstep F m0 c0) (bstep F m0 c0) c.
Proof using All.
  intros Hf Hpay Hb. unfold HandleInterestPayment. wpe_steps. case_test; wpe_steps.
  - eapply wpe_mono; [by apply (wpe_IncrementalInterestPayment m0 c0)|intros a c' [_ ?]; by wpe_steps|].
    intros c' ?. split; [|done]. intros e. by wpe_steps.
  - bmtp_step Hb. done.
Qed.

Lemma wpe_record_block_interest m0 c0 c x : bstep F m0 c0 c →
  wpe (record_block_interest x) (λ _, bstep F m0 c0) (bstep F m0 c0) c.
Proof using.
  intros Hb. pose proof (pc_pool _ (ps_wf _ _ _ (bs_step _ _ _ _ Hb))). unfold record_block_interest.
  wpe_steps. case_test; (apply wpe_updPool; [|done]); intros p Hp; inv_ok; by apply bstep_pool.
Qed.

Lemma wpe_refresh_health m0 c0 c : bstep F m0 c0 c →
  wpe refresh_health (λ _ c', bstep F m0 c0 c' ∧ CtxPool c' = CtxPool c) (bstep F m0 c0) c.
Proof using L.
  intros Hb. unfold refresh_health. wpe_steps.
  apply wpe_reads; [apply reads_onChain, reads_UpdateMTPHealth|intros h _|split; [intros e|done]]; wpe_steps.
  - bmtp_step Hb. done.
  - bmtp_step Hb. done.
Qed.

Lemma wpe_pay_prorated_interest m0 c0 c : funds_in (CtxChain c0) → bstep F m0 c0 c →
  wpe pay_prorated_interest (λ _, bstep F m0 c0) (bstep F m0 c0) c.
Proof using All.
  intros Hf Hb. unfold pay_prorated_interest. wpe_steps. case_test; wpe_steps; [|done].
  apply wpe_lift; [|done].
  intros x ?%CalcMTPInterestLiabilities_uint; [|apply (bs_mtp _ _ _ _ Hb)]. wpe_steps.
  eapply wpe_mono; [by apply (wpe_HandleInterestPayment m0 c0)| |done]. intros final c1 Hb1. wpe_steps.
  eapply wpe_mono; [by apply (wpe_record_block_interest m0 c0)| |done]. intros [] c2 Hb2. wpe_steps.
  eapply wpe_mono; [by apply (wpe_refresh_health m0 c0)| |done]. by intros _ c3 [? _].
Qed.
End Interest.

(** ** Closing a position *)
Section Close.
Context {sdk : SDK} {L : SDKLaws sdk} (F : list string) (module_apart : clp_module_address ∉ F).

Lemma wpe_TakeOutCustody m0 c0 c : bstep F m0 c0 c →
  wpe (TakeOutCustody (CtxMtp c)) (λ _ c', bstep F m0 c0 c' ∧ CtxMtp c' = CtxMtp c) (bstep F m0 c0) c.
Proof using L.
  intros Hb. pose proof (pc_pool _ (ps_wf _ _ _ (bs_step _ _ _ _ Hb))) as Wp.
  pose proof (bs_mtp _ _ _ _ Hb) as [Wl Wc Wu _ _]. unfold TakeOutCustody. wpe_steps.
  apply (wpe_mono _ (λ _ c', bstep F m0 c0 c' ∧ CtxMtp c' = CtxMtp c) _ (bstep F m0 c0)); [| |done].
  - case_test; wpe_steps; (apply wpe_pool_sub; [unfold pool_wf, pool_uints in *; tauto|done|done|intros ?]);
      wpe_steps;
      (apply wpe_pool_add; [unfold pool_wf, pool_uints in *; cbn; tauto|done| |intros ?; split; [|done]]);
      (refine (bstep_pool F m0 c0 c _ Hb _ _ _ _); [pool_wf_tac|done|done|]); intros d; unfold pool_claim; cbn;
      destruct (String.eqb NativeSymbol d); repeat case_test; unfold is_uint in *; lia.
  - intros [] c1 [Hb1 Hm]. eapply wpe_mono; [by apply (wpe_savePool_b F m0 c0)| |done].
    intros [] c2 (Hb2 & _ & Hm2). by rewrite Hm2.
Qed.

(** What the owner and the fund get leaves the account of the module; a payment
    that fails leaves the owner's part there. *)
Lemma wpe_pay_return m ret take s : funds_in F s → is_uint ret →
  wpe (pay_return m ret take) (λ _ s', pays F (CollateralAsset m) ret s s')
    (λ s', pays F (CollateralAsset m) 0 s s') s.
Proof using All.
  intros [Hf _] Hr. unfold pay_return. case_test; bool_prop; wpe_steps; [subst; apply pays_nothing|].
  apply (wpe_mono _ (λ v s', is_uint v ∧ v ≤ ret ∧ pays F (CollateralAsset m) 0 s s') _
           (λ s', pays F (CollateralAsset m) 0 s s')); [| |done].
  { destruct take; wpe_steps; [|split_and!; [done|lia|apply pays_nothing]].
    apply wpe_reads; [unfold GetForceCloseFundAddress; reads_auto| |apply pays_nothing].
    intros fund Hfa. unfold GetForceCloseFundAddress in Hfa. inv_ok. apply must_Ok in Hfa. wpe_steps.
    eapply wpe_mono; [apply (wpe_TakeFundPayment F module_apart)| |done].
    - destruct Hf as [?|Hf]; [by left|right; by apply Hf].
    - intros t s' [Ht Hs]. wpe_steps. apply wpe_lift; [|done].
      intros v [-> Hv]%u_sub_Ok; [|done..]. unfold is_uint in *. split_and!; [lia..|done]. }
  intros v s' (Hv & Hle & Hs). case_test; bool_prop; wpe_steps.
  { subst. replace ret with (0 + ret) by lia. eapply pays_trans; [exact Hs|].
    split; [exists (Bank s'); by destruct s'|]. intros d. unfold only, is_uint in *. case_test; lia. }
  apply wpe_lift; [intros i ->%i_of_big_val|done]. wpe_steps.
  apply wpe_lift; [intros c [-> [? ?]]%new_coin_Ok|done]. wpe_steps.
  apply wpe_lift; [intros cs Hcs|done]. wpe_steps.
  apply wpe_lift; [intros addr _|done].
  eapply wpe_mono; [eapply (wpe_send F module_apart _ _ (CollateralAsset m) v);
    [by eapply coins_add_length|apply Hv|]| |].
  - intros d. rewrite (coins_add_val _ _ _ Hcs d). unfold amount_of, only. cbn. lia.
  - intros [] s2 H2. destruct (pays_trans _ _ _ _ _ _ _ Hs H2) as [H1 H3]. split; [done|].
    intros d. specialize (H3 d). unfold only, is_uint in *. case_bool_decide; case_test; lia.
  - intros s2 H2. by apply (pays_trans _ _ 0 0 s s' s2).
Qed.

Lemma wpe_DestroyMTP m0 c0 c a id : bstep F m0 c0 c →
  wpe (onChain (DestroyMTP a id)) (λ _, bstep F m0 c0) (bstep F m0 c0) c.
Proof using.
  intros Hb. apply wpe_onChain. unfold DestroyMTP. wpe_steps.
  assert (bstep F m0 c0 (c <| CtxChain := CtxChain c |>)) as Hc by by destruct c.
  apply wpe_reads; [unfold GetMTP; reads_auto|intros m _|done]. wpe_steps.
  unfold margin_modify. wpe_steps. refine (bstep_margin F m0 c0 c _ Hb _ _); [done|].
  cbn. intros k m' [_ Hk]%lookup_delete_Some. by apply (pc_margin _ (ps_wf _ _ _ (bs_step _ _ _ _ Hb)) k).
Qed.

(** What was recovered leaves the balance of the pool. *)
Lemma bstep_return m0 c0 c s' ret : bstep F m0 c0 c → is_uint ret →
  let native := is_native (CollateralAsset (CtxMtp c)) in
  ret < side_balance native (CtxPool c) →
  pays F (CollateralAsset (CtxMtp c)) ret (CtxChain c) s' →
  bstep F m0 c0 (c <| CtxChain := s' |> <| CtxPool :=
    if native then (CtxPool c) <| NativeAssetBalance := NativeAssetBalance (CtxPool c) - ret |>
    else (CtxPool c) <| ExternalAssetBalance := ExternalAssetBalance (CtxPool c) - ret |> |>).
Proof using.
  intros Hb Hr native Hlt [[b ->] Hd].
  destruct (mtp_denoms c (bstep_ctx _ _ _ _ Hb)) as (Hden & _ & _). fold native in Hden.
  destruct Hb as [H Hm Hid Hs]. split; [|done..]. pose proof (ps_wf _ _ _ H) as [? ? Wp ?].
  apply (pstep_next F c0 c); try done; [|by destruct native..|].
  - subst native. cbn. destruct (is_native _); cbn [side_balance] in Hlt; pool_wf_tac.
  - intros d. specialize (Hd d). rewrite Hden in Hd. set (r := reserve F (_ <| Bank := b |>) d) in Hd.
    match goal with |- context [if native then ?x else ?y] => set (p := if native then x else y) end.
    enough (reserve F (CtxChain c) d - pool_claim d (CtxPool c) ≤ r - pool_claim d p) by done.
    subst p. clearbody r native. unfold only, pool_claim, side_denom in *.
    destruct native; cbv iota in *; destruct (String.eqb NativeSymbol d); cbn in *; repeat case_test; lia.
Qed.

Lemma wpe_Repay m0 c0 c repay take : funds_in F (CtxChain c0) → bstep F m0 c0 c → is_uint repay →
  repay < side_balance (is_native (CollateralAsset (CtxMtp c))) (CtxPool c) →
  wpe (Repay repay take) (λ _, bstep F m0 c0) (bstep F m0 c0) c.
Proof using All.
  intros Hf Hb Hr Hlt. unfold Repay. wpe_steps.
  eapply wpe_mono; [by apply (wpe_refresh_health F m0 c0)| |done]. intros [] c1 [Hb1 Hp1]. wpe_steps.
  pose proof (bs_ident _ _ _ _ Hb) as Hid. rewrite <- (bs_ident _ _ _ _ Hb1) in Hid.
  injection Hid as _ Hcoll _. rewrite <- Hp1, Hcoll in Hlt. rewrite Hcoll.
  pose proof (bs_mtp _ _ _ _ Hb) as [Wl _ Wu _ _].
  pose proof (pc_pool _ (ps_wf _ _ _ (bs_step _ _ _ _ Hb1))) as Wp.
  apply wpe_lift; [|done]. intros [[ret debtP] debtI] Hs.
  apply settle_Ok in Hs as [Hret Hle]; [|done..]. cbn in Hret, Hle. wpe_steps. apply wpe_onChain.
  eapply wpe_mono; [apply wpe_pay_return; [by eapply funds_in_step|done]| |].
  2: { intros s' Hs. by eapply bstep_gains. }
  intros [] s' Hs. rewrite Hcoll in Hs.
  pose proof (bstep_return m0 c0 c1 s' ret Hb1 Hret ltac:(lia) Hs) as Hb2. wpe_steps.
  apply (wpe_mono _ (λ _, bstep F m0 c0) _ (bstep F m0 c0)); [| |done].
  { revert Hlt Hb2. case_test; cbn [side_balance]; intros Hlt Hb2; wpe_steps;
      (apply wpe_pool_take; [unfold pool_wf, pool_uints in *; cbn; tauto|done|cbn; lia|]); wpe_steps;
      pose proof (pc_pool _ (ps_wf _ _ _ (bs_step _ _ _ _ Hb2))) as Wp2;
      (apply wpe_pool_sub; [unfold pool_wf, pool_uints in *; cbn in *; tauto|done|exact Hb2|intros ?]); wpe_steps.

    all: match type of Hb2 with bstep _ _ _ ?x => set (c2 := x) in Hb2, Wp2 end.
    all: apply wpe_updPool; [intros p Hp; inv_ok|].
    all: refine (bstep_pool F m0 c0 c2 _ Hb2 _ _ _ _); [cbn in *; pool_wf_tac|done|done|done]. }
  intros [] c2 Hb3. wpe_steps.
  eapply wpe_mono; [by apply (wpe_DestroyMTP m0 c0)| |done]. intros [] c3 Hb4.
  eapply wpe_mono; [by apply (wpe_savePool_b F m0 c0)| |done]. by intros [] c4 [? _].
Qed.

Lemma wpe_close_out m0 c0 c take : funds_in F (CtxChain c0) → bstep F m0 c0 c →
  wpe (close_out take) (λ _, bstep F m0 c0) (bstep F m0 c0) c.
Proof using All.
  intros Hf Hb. unfold close_out. wpe_steps.
  eapply wpe_mono; [by apply (wpe_TakeOutCustody m0 c0)| |done]. intros [] c1 (Hb1 & Hm). wpe_steps.
  apply wpe_reads; [apply reads_onChain, reads_CLPSwap| |done].
  intros y (_ & Hy & Hlt)%onChain_CLPSwap. wpe_steps. rewrite <- Hm in Hlt.
  eapply wpe_mono; [by apply (wpe_Repay m0 c0)| |done]. intros [] c2 H2. by wpe_steps.
Qed.

Lemma wpe_ForceCloseLong m0 c0 c admin take : funds_in F (CtxChain c0) → bstep F m0 c0 c →
  wpe (ForceCloseLong admin take) (λ _, bstep F m0 c0) (bstep F m0 c0) c.
Proof using All.
  intros Hf Hb. unfold ForceCloseLong. wpe_steps.
  eapply wpe_mono; [by apply (wpe_pay_prorated_interest F module_apart m0 c0)| |done].
  intros [] c1 Hb1. wpe_steps. case_test; [by wpe_steps|]. by apply wpe_close_out.
Qed.
End Close.

(** ** Blocks *)
Section Block.
Context {sdk : SDK} {L : SDKLaws sdk} (F : list string) (module_apart : clp_module_address ∉ F).

Lemma wpe_process_mtp m0 c0 c : funds_in F (CtxChain c0) → bstep F m0 c0 c →
  wpe process_mtp (λ _, bstep F m0 c0) (bstep F m0 c0) c.
Proof using All.
  intros Hf Hb. unfold process_mtp. wpe_steps.
  apply wpe_reads; [apply reads_onChain, reads_UpdateMTPHealth|intros h _|split; [intros e; by wpe_steps|done]].
  wpe_steps. pose proof (bs_mtp _ _ _ _ Hb) as [? ? ? ? ?].
  apply (wpe_updMtp F m0 c0 c); [done|intros m [= <-]; by split|]. clear Hb. intros m [= <-] Hb.
  wpe_steps. apply wpe_lift; [|done].
  intros x ?%CalcMTPInterestLiabilities_uint; [|apply (bs_mtp _ _ _ _ Hb)]. wpe_steps.
  eapply wpe_mono; [by apply (wpe_HandleInterestPayment F module_apart m0 c0)| |done].
  intros final c1 Hb1. wpe_steps.
  eapply wpe_mono; [by apply (wpe_record_block_interest F m0 c0)| |done]. intros [] c2 Hb2. wpe_steps.
  eapply wpe_mono; [by apply (wpe_SetMTP F m0 c0)| |intros c3 Hb3; split; [intros e|done]];
    [intros [] c3 [Hb3 _]|]; wpe_steps;
    (eapply wpe_mono; [by apply (wpe_ForceCloseLong F module_apart m0 c0)| |];
      [intros ? c4 ?|intros c4 ?; split; [intros ?|done]]; by wpe_steps).
Qed.

(** A position of the pool, taken from a listing. *)
Lemma wpe_BeginBlockerProcessMTP m c0 c : funds_in F (CtxChain c0) → pstep F c0 c → mtp_wf m →
  Symbol (ExternalAsset (CtxPool c)) = pool_sym m →
  wpe (BeginBlockerProcessMTP m) (λ _, pstep F c0) (pstep F c0) c.
Proof using All.
  intros Hf Hs Hm Hsym. unfold BeginBlockerProcessMTP. wpe_steps.
  set (c1 := c <| CtxMtp := m |>).
  assert (bstep F m c1 c1) as Hb.
  { split; [|done..]. apply pstep_refl. by destruct (ps_wf _ _ _ Hs). }
  assert (pstep F c0 c1) as Hs1.
  { destruct Hs as [[? ? ? ?] ? ? ? ? ?]. split; done. }
  eapply wpe_mono; [apply (wpe_process_mtp m c1 c1); [|done]| |].
  - by apply (funds_in_outer F (CtxChain c0)); [apply (ps_outer _ _ _ Hs)|].
  - intros [] c2 [H2 _ _ _]. by eapply pstep_trans.
  - intros c2 [H2 _ _ _]. by eapply pstep_trans.
Qed.

(** ** The walk over the pools *)

(** The store after a pool was processed: only its own entry changed, and what
    the module and the funds hold beyond all claims did not shrink. *)
Record pools_step (k : string) (s s' : chain) : Prop := {
  pl_wf : clp_wf s';
  pl_margin : margin_wf s';
  pl_ledger d : reserve F s d - claims s d ≤ reserve F s' d - claims s' d;
  pl_rest : delete k (Pools s') = delete k (Pools s);
  pl_units sym : pool_units_of s' sym = pool_units_of s sym;
  pl_outer : outer s' = outer s
}.

Lemma fledger_saved c d : saved c → reserve F (CtxChain c) d - claims (CtxChain c) d = fledger F c d.
Proof using. intros Hs. unfold fledger, claims. rewrite (msum_delete _ _ _ _ Hs). lia. Qed.

(** Saving the pool of a context that started from the stored one. *)
Lemma saved_pools_step s p c : Pools s !! pool_key (Symbol (ExternalAsset p)) = Some p →
  ∀ m p0, pstep F (mkCtx sdk s m p0) c → ExternalAsset p0 = ExternalAsset p → PoolUnits p0 = PoolUnits p →
  (∀ d, pool_claim d p0 = pool_claim d p) →
  pools_step (pool_key (Symbol (ExternalAsset p))) s (put_pool (CtxChain c) (CtxPool c)).
Proof using L.
  intros Hp m p0 Hs Ha Hu Hc. pose proof (ps_wf _ _ _ Hs) as [W1 W2 W3 W4].
  destruct Hs as [_ Hl Hr Has Hun Ho]. cbn in Has, Hun, Ho. unfold ctx_key in Hr. cbn in Hr. rewrite Ha in Has, Hr.
  assert (ctx_key c = pool_key (Symbol (ExternalAsset p))) as Hk by (unfold ctx_key; by rewrite Has).
  split; [by apply put_pool_wf|done| | | |done].
  - intros d. specialize (Hl d). unfold fledger, ctx_key in Hl. cbn in Hl. rewrite Ha, Hc in Hl.
    rewrite (msum_delete _ _ _ _ Hp) in Hl.
    pose proof (msum_delete (pool_claim d) (Pools (put_pool (CtxChain c) (CtxPool c)))
                  (ctx_key c) (CtxPool c) (lookup_insert_eq _ _ _)) as Hd.
    unfold put_pool in Hd. cbn in Hd. rewrite delete_insert_eq in Hd.
    unfold claims, reserve, module_balance in *. cbn in *. lia.
  - cbn. rewrite Has. by rewrite delete_insert_eq.
  - intros sym. rewrite put_pool_units, Has. case_test; bool_prop.
    + subst. unfold pool_units_of. rewrite Hp. congruence.
    + unfold pool_units_of. assert (pool_key (Symbol (ExternalAsset p)) ≠ pool_key sym) as Hne.
      { intros He%pool_key_inj. done. }
      by rewrite <- (lookup_delete_ne (Pools (CtxChain c)) _ _ Hne), Hr, lookup_delete_ne.
Qed.

Lemma wp_withPointers {A} m p (f : M mctx A) Q E s :
  wp f (λ a c, Q (a, CtxMtp c, CtxPool c) (CtxChain c)) (λ c, E (CtxChain c)) (mkCtx sdk s m p) →
  wp (withPointers m p f) Q E s.
Proof using. unfold wp, withPointers. by destruct (f _) as [[]]. Qed.

Lemma reads_InterestRateComputation p : reads (InterestRateComputation p).
Proof using.
  unfold InterestRateComputation, GetSQFromBlocks, GetSQFromQueue, GetRemovalQueue. reads_auto.
Qed.

(** Under [wpe] a method that returns no error gives a result or panics. *)
Lemma wp_wpe {S A} (m : M S A) Q E s : wpe m Q E s → (∀ e s', m s ≠ (Err e, s')) → wp m Q (λ _, False) s.
Proof using. unfold wp, wpe. destruct (m s) as [[a|e|] s']; [done| |done]. intros _ H. by destruct (H e s'). Qed.

(** Code that returns no error. *)
Definition no_error {S A} (m : M S A) : Prop := ∀ s e s', m s ≠ (Err e, s').

Lemma no_error_bind {S A B} (m : M S A) (k : A → M S B) : no_error m → (∀ a, no_error (k a)) → no_error (m ≫= k).
Proof using.
  intros Hm Hk s e s'. unfold mbind, M_bind. destruct (m s) as [[a|e1|] s1] eqn:E; [apply Hk| |done].
  by destruct (Hm _ _ _ E).
Qed.
Lemma no_error_forM {S A} (l : list A) (body : A → M S ()) : (∀ x, no_error (body x)) → no_error (forM l body).
Proof using. intros H. induction l as [|x l IH]; [by intros s e s'|]. by apply no_error_bind. Qed.
Lemma no_error_onChain {A} (m : M chain A) : no_error m → no_error (onChain m).
Proof using. intros H c e c'. unfold onChain. destruct (m (CtxChain c)) as [r s] eqn:E. intros [= -> _]. by destruct (H _ _ _ E). Qed.

(** A position that names an asset other than fury is in the pool of that asset. *)
Lemma pool_sym_asset m sym : paired m → is_native sym = false →
  String.eqb (CustodyAsset m) sym || String.eqb (CollateralAsset m) sym = true → pool_sym m = sym.
Proof using.
  unfold paired, pool_sym. intros Hp Hn [Ha|Ha]%orb_prop; apply String.eqb_eq in Ha as <-;
    destruct (is_native (CollateralAsset m)) eqn:E; try done; destruct Hp; congruence.
Qed.

Definition walk_pool (sym : string) : M mctx () :=
  try UpdatePoolHealth;;
  p ← gets CtxPool;
  onChain (TrackSQBeginBlock p);;
  mtps ← onChain (GetMTPsForPool sym);
  forM mtps BeginBlockerProcessMTP.

Lemma no_error_walk sym : no_error (walk_pool sym).
Proof using.
  assert (∀ S A (m : M S A), no_error (try m)) as Ht.
  { intros S A m s e s'. unfold try. by destruct (m s) as [[]]. }
  assert (∀ S A (f : S → A), no_error (gets f)) as Hg by by intros.
  assert (∀ p, no_error (TrackSQBeginBlock p)) as Hsq.
  { intros p s e s'. unfold TrackSQBeginBlock, SetSQBeginBlock, margin_modify, mbind, M_bind, gets, lift, modify.
    destruct (Health p); cbn; by repeat case_match. }
  unfold walk_pool. repeat first [apply Ht|apply Hg|apply Hsq|apply no_error_onChain|apply no_error_bind; [|intros]].
  apply no_error_forM. intros m c e c'. unfold BeginBlockerProcessMTP, recovering. done.
Qed.

Lemma wpe_walk_pool m c0 : funds_in F (CtxChain c0) → pool_ctx c0 →
  wpe (walk_pool (Symbol (ExternalAsset (CtxPool c0)))) (λ _, pstep F c0) (λ _, True) (c0 <| CtxMtp := m |>).
Proof using All.
  intros Hf W. unfold walk_pool. set (c1 := c0 <| CtxMtp := m |>).
  assert (pstep F c0 c1) as H1 by (destruct W; split; done).
  apply (wpe_logged _ _ (pstep F c0)).
  { unfold UpdatePoolHealth. wpe_steps. apply wpe_updPool; [intros p Hp; inv_ok|done].
    pose proof (ps_wf _ _ _ H1) as [? ? ? ?].
    eapply wpe_mono; [apply (wpe_savePool F c0 _ (pstep F c0))| |done].
    - by apply (pstep_next F c0 c1).
    - by intros _ c2 [? _]. }
  intros c2 H2. split; [done|]. wpe_steps. apply wpe_onChain.
  eapply wpe_mono with (Q := λ _ s', pstep F c0 (c2 <| CtxChain := s' |>)) (E := λ _, True); [| |done].
  { unfold TrackSQBeginBlock, SetSQBeginBlock, margin_modify. wpe_steps. apply wpe_lift; [intros h _|done].
    pose proof (ps_wf _ _ _ H2) as [? ? ? ?].
    repeat (case_test; wpe_steps); (destruct c2; exact H2) || by apply (pstep_next F c0 c2). }
  intros [] s2 H3. wpe_steps. apply wpe_onChain. unfold GetMTPsForPool. wpe_steps.
  eapply wpe_mono; [apply (wpe_forM _ _ (pstep F c0) (pstep F c0))|done|done]; [|by destruct c2].
  intros mtp c4 Hin H4. apply kv_filtered_paginate_elem in Hin as [Ha [k Hk]%listing_elem].
  pose proof (ps_wf _ _ _ H3) as [_ Wm _ _]. apply Wm in Hk. apply wpe_BeginBlockerProcessMTP; [done..|].
  rewrite (ps_asset _ _ _ H4). pose proof (pc_pool _ W) as (_ & _ & _ & Hn & _).
  symmetry. apply pool_sym_asset; [apply (mw_paired _ Hk)|exact Hn|exact Ha].
Qed.

Lemma process_pool_step p s : funds_in F s → clp_wf s → margin_wf s →
  Pools s !! pool_key (Symbol (ExternalAsset p)) = Some p →
  wp (process_pool p) (λ _ s', pools_step (pool_key (Symbol (ExternalAsset p))) s s') (λ _, False) s.
Proof using All.
  intros Hf Hwf Hm Hp. destruct (wf_pool _ Hwf _ _ Hp) as [_ Wp]. pose proof (wf_valid _ Hwf _ _ Hp) as Hv.
  set (key := pool_key _).
  assert (∀ p0 c, ExternalAsset p0 = ExternalAsset p → PoolUnits p0 = PoolUnits p →
    (∀ d, pool_claim d p0 = pool_claim d p) → ∀ m, pstep F (mkCtx sdk s m p0) c →
    wp (try (SetPool (CtxPool c));; mret ()) (λ _ s', pools_step key s s') (λ _, False) (CtxChain c)) as Hsave.
  { intros p0 c Ha Hu Hc m Hs. pose proof (ps_wf _ _ _ Hs) as [_ _ _ Hvc].
    unfold wp, try, SetPool, PoolValidate, mbind, M_bind, lift. rewrite Hvc. cbn [negb]. unfold modify.
    by eapply (saved_pools_step s p c Hp m p0). }
  unfold process_pool. wp_steps. set (p1 := p <| BlockInterestExternal := 0 |> <| BlockInterestNative := 0 |>).
  case_test.
  2: { apply (Hsave p1 (mkCtx sdk s (NewMTP "" "" "" 0 0) p1) eq_refl eq_refl (λ d, eq_refl) (NewMTP "" "" "" 0 0)).
       apply pstep_refl. by split. }
  wp_steps. apply wp_reads; [apply reads_InterestRateComputation|intros rate _|intros e; by wp_steps].
  set (p2 := p1 <| InterestRate := rate |> <| LastHeightInterestRateComputed := BlockHeight s |>).
  set (m := NewMTP "" "" "" 0 0). set (c0 := mkCtx sdk s m p2).
  assert (pool_ctx c0) as W by (by split). apply wp_bind, wp_withPointers.
  apply wp_mono with (Q := λ _, pstep F c0) (E := λ _, False); [| |done].
  { apply wp_wpe with (E := λ _, True); [|apply (no_error_walk (Symbol (ExternalAsset p2)))].
    apply (wpe_walk_pool m c0); done. }
  intros [] c Hs. cbv beta iota. exact (Hsave p2 c eq_refl eq_refl (λ d, eq_refl) m Hs).
Qed.

(** What BeginBlocker keeps: the stores stay well formed, the units of the pools
    and the providers stay, and what the module and the funds hold beyond all
    claims does not shrink. *)
Record margin_kept (s s' : chain) : Prop := {
  mk_wf : clp_wf s';
  mk_margin : margin_wf s';
  mk_ledger d : reserve F s d - claims s d ≤ reserve F s' d - claims s' d;
  mk_units sym : pool_units_of s' sym = pool_units_of s sym;
  mk_outer : outer s' = outer s
}.

Lemma process_pools_kept pools : ∀ s, funds_in F s → clp_wf s → margin_wf s →
  NoDup ((λ p, Symbol (ExternalAsset p)) <$> pools) →
  (∀ p, p ∈ pools → Pools s !! pool_key (Symbol (ExternalAsset p)) = Some p) →
  wp (forM pools process_pool) (λ _ s', margin_kept s s') (λ _, False) s.
Proof using All.
  induction pools as [|p pools IH]; intros s Hf Hwf Hm Hnd Hp; [by split|].
  apply NoDup_cons in Hnd as [Hnin Hnd]. cbn. apply wp_bind.
  eapply wp_mono; [apply process_pool_step; [done..|apply Hp; by left]| |done].
  intros [] s1 [W1 M1 L1 R1 U1 O1].
  eapply wp_mono; [apply (IH s1)| |done]; [by apply (funds_in_outer F s)|done..| |].
  - intros q Hq. assert (pool_key (Symbol (ExternalAsset p)) ≠ pool_key (Symbol (ExternalAsset q))) as Hne.
    { intros He%pool_key_inj. apply Hnin. rewrite He. by apply (list_elem_of_fmap_2 (λ p, Symbol (ExternalAsset p))). }
    rewrite <- (lookup_delete_ne (Pools s1) _ _ Hne), R1, lookup_delete_ne by done. apply Hp. by right.
  - intros [] s2 [W2 M2 L2 U2 O2]. split; [done..| |intros sym; by rewrite U2|by rewrite O2].
    intros d. specialize (L1 d). specialize (L2 d). lia.
Qed.

Lemma BeginBlocker_kept s : funds_in F s → clp_wf s → margin_wf s →
  wp Margin.BeginBlocker (λ _ s', margin_kept s s') (λ _, False) s.
Proof using All.
  intros Hf Hwf Hm. unfold Margin.BeginBlocker. wp_steps. case_test; [|by split].
  unfold GetPools. wp_steps. apply process_pools_kept; [done..|by apply listing_symbols|].
  intros p. by apply listing_pools.
Qed.
End Block.
