(* ===== verification/MarginSystem.v ===== *)
(** * Margin and clp as one state machine

    The messages of x/margin/types/msgs.go with their stateless checks, the
    handlers of the message server, and runs in which they alternate with the
    messages of the clp module: both write the pools and the account of the clp
    module. *)
From S2P Require Import Prelude Wp Sdk Reference ClpTypes ClpCalc ClpCalcProps Admin.
From S2P Require Import TokenRegistry MarginTypes Chain Ledger ClpKeeper ClpExec ClpMsg ClpState.
From S2P Require Import ClpSystem Margin MarginBooks.

(** ** msgs.go *)
Inductive margin_msg :=
| OpenMsg (m : MsgOpen.t)
| CloseMsg (m : MsgClose.t)
| ForceCloseMsg (signer mtpAddress : string) (id : Z)
| UpdateParamsMsg (signer : string) (params : MarginParams.t)
| UpdatePoolsMsg (signer : string) (pools closedPools : list string)
| UpdateFuryCollateralMsg (signer : string) (enabled : bool)
| WhitelistMsg (signer whitelistedAddress : string)
| DewhitelistMsg (signer whitelistedAddress : string)
| AdminCloseMsg (m : MsgAdminClose.t)
| AdminCloseAllMsg (signer : string) (takeMarginFund : bool).

Section Validate.
Context {sdk : SDK}.

Definition margin_Validate (asset : string) : res bool :=
  if negb (VerifyRange (Z.of_nat (String.length (trim_space asset))) 0 MaxSymbolLength)
  then Ok false
  else coin ← new_coin asset 1; Ok (valid_denom coin.1 && (0 <=? coin.2)).

Definition IsValidPosition (position : Position_t) : bool :=
  (position =? Position_LONG) || (position =? Position_SHORT).

(** An unset leverage is read as 0 and refused with the same error. *)
Definition MsgOpen_ValidateBasic (m : MsgOpen.t) : res () :=
  check_signer (MsgOpen.Signer m);;
  v ← margin_Validate (MsgOpen.CollateralAsset m);
  ensure v (EClp ErrInValidAsset);;
  v ← margin_Validate (MsgOpen.BorrowAsset m);
  ensure v (EClp ErrInValidAsset);;
  ensure (negb (MsgOpen.CollateralAmount m =? 0)) (EClp ErrInValidAmount);;
  ensure (NewDec 1 <=? MsgOpen.Leverage m) (EClp ErrInValidAmount);;
  ensure (IsValidPosition (MsgOpen.Position m)) (EMargin ErrInvalidPosition).

Definition MsgClose_ValidateBasic (m : MsgClose.t) : res () :=
  check_signer (MsgClose.Signer m);;
  ensure (negb (MsgClose.Id m =? 0)) (EMargin ErrMTPDoesNotExist).

Definition MsgForceClose_ValidateBasic (signer mtpAddress : string) (id : Z) : res () :=
  check_signer signer;;
  check_signer mtpAddress;;
  ensure (negb (id =? 0)) (EMargin ErrMTPDoesNotExist).

Definition MsgWhitelist_ValidateBasic (signer whitelistedAddress : string) : res () :=
  check_signer signer;;
  acc_from_bech32 whitelistedAddress;;
  Ok ().

Definition margin_ValidateBasic (m : margin_msg) : res () :=
  match m with
  | OpenMsg m => MsgOpen_ValidateBasic m
  | CloseMsg m => MsgClose_ValidateBasic m
  | ForceCloseMsg signer mtpAddress id => MsgForceClose_ValidateBasic signer mtpAddress id
  | UpdateParamsMsg signer _ | UpdatePoolsMsg signer _ _ | UpdateFuryCollateralMsg signer _
  | AdminCloseAllMsg signer _ => check_signer signer
  | WhitelistMsg signer a | DewhitelistMsg signer a => MsgWhitelist_ValidateBasic signer a
  | AdminCloseMsg m => check_signer (MsgAdminClose.Signer m)
  end.

(** The methods of the message server. *)
Definition MarginServer (m : margin_msg) : M chain () :=
  match m with
  | OpenMsg m => msg_Open m
  | CloseMsg m => msg_Close m
  | ForceCloseMsg signer mtpAddress id => msg_ForceClose signer mtpAddress id
  | UpdateParamsMsg signer params => msg_UpdateParams signer params
  | UpdatePoolsMsg signer pools closed => msg_UpdatePools signer pools closed
  | UpdateFuryCollateralMsg signer enabled => msg_UpdateFuryCollateral signer enabled
  | WhitelistMsg signer a => msg_Whitelist signer a
  | DewhitelistMsg signer a => msg_Dewhitelist signer a
  | AdminCloseMsg m => msg_AdminClose m
  | AdminCloseAllMsg signer take => msg_AdminCloseAll signer take
  end.

(** ** Transactions of both modules *)
Inductive dex_msg :=
| Clp (m : clp_msg)
| Margin (m : margin_msg).

Definition margin_tx (m : margin_msg) (s : chain) : chain :=
  match margin_ValidateBasic m with Ok _ => deliver (MarginServer m) s | _ => s end.

Definition dex_tx (m : dex_msg) (s : chain) : chain :=
  match m with Clp m => tx m s | Margin m => margin_tx m s end.

Definition dex_run (ms : list dex_msg) (s : chain) : chain := foldl (λ s m, dex_tx m s) s ms.

(** Amounts are [sdk.Uint]s, signers ordinary accounts, and a position is opened
    between fury and the asset of a pool (which the code does not check). *)
Definition margin_decoded (m : margin_msg) : Prop :=
  match m with
  | OpenMsg m => account_signer (MsgOpen.Signer m) ∧ is_uint (MsgOpen.CollateralAmount m)
                 ∧ open_paired m
  | _ => True
  end.
Definition dex_decoded (m : dex_msg) : Prop :=
  match m with Clp m => decoded m | Margin m => margin_decoded m end.
End Validate.

(** ** The clp module does not touch the positions *)
Section Frame.
Context {sdk : SDK} {mk : MarginKeeper}.

Lemma frames_onBank {A} (m : M bank A) : frames MarginState (onBank m).
Proof. intros s. unfold onBank. by destruct (m (Bank s)). Qed.
Hint Resolve frames_onBank : reads.

(** Unfolds a step that reads or writes the clp store. *)
Ltac frames_clp :=
  unfold SetPool, GetPool, SetLiquidityProvider, GetLiquidityProvider, DestroyLiquidityProvider,
    GetSwapFeeRate, GetSwapFeeParams, registry_entry, require_permission, require_admin, ExistsPool,
    ValidateAddress, GetClpWhiteList, GetLiquidityProvidersForAssetPaginated, IsInsidePmtpWindow,
    SetPmtpEpoch, SetPmtpInterPolicyRate, SetLiquidityProtectionCurrentFuryLiquidityThreshold,
    GetRemovalQueue, SetRemovalQueue, set_request in *; frames_auto.

Lemma frames_price : frames MarginState GetNativePrice.
Proof. unfold GetNativePrice. frames_clp. Qed.
Lemma frames_protect a b c : frames MarginState (MustUpdateLiquidityProtectionThreshold a b c).
Proof. unfold MustUpdateLiquidityProtectionThreshold. frames_clp. Qed.
Lemma frames_blocked a b : frames MarginState (IsBlockedByLiquidityProtection a b).
Proof. unfold IsBlockedByLiquidityProtection. frames_clp. Qed.
Lemma frames_prune lp a b : frames MarginState (PruneUnlockRecords lp a b).
Proof. unfold PruneUnlockRecords. frames_clp. Qed.
Lemma frames_unlocked lp a b : frames MarginState (UseUnlockedLiquidity lp a b).
Proof. unfold UseUnlockedLiquidity. frames_clp. Qed.
Lemma frames_queued lp : frames MarginState (GetRemovalQueueUnitsForLP lp).
Proof. unfold GetRemovalQueueUnitsForLP. frames_clp. Qed.
Lemma frames_RemoveLiquidity a b c d e f g : frames MarginState (RemoveLiquidity a b c d e f g).
Proof. unfold RemoveLiquidity. frames_clp. Qed.
Hint Resolve frames_price frames_protect frames_blocked frames_prune frames_unlocked frames_queued
  frames_RemoveLiquidity : reads.
Lemma frames_gate a b c d e f g h : frames MarginState (health_gate a b c d e f g h).
Proof. unfold health_gate, QueueRemoval. frames_clp. Qed.
Lemma frames_queue m u : frames MarginState (ProcessRemovalQueue m u).
Proof.
  unfold ProcessRemovalQueue, process_request, ProcessRemoveLiquidityMsg, SetProcessedRemovalRequest,
    DequeueRemovalRequest. frames_clp.
Qed.
Lemma frames_refund sym p lps : ∀ acc, frames MarginState (refund_lps sym p acc lps).
Proof.
  induction lps as [|lp lps IH]; intros acc; cbn; [done|].
  apply frames_bind; [|done]. unfold refund_lp, RemoveLiquidityProvider. frames_clp.
Qed.
Hint Resolve frames_gate frames_queue frames_refund : reads.

(** Whatever a clp message does, and however it ends, the margin store is left
    alone. *)
Lemma frames_NewHandler m : frames MarginState (NewHandler m).
Proof.
  destruct m; cbn [NewHandler];
  unfold msg_CreatePool, msg_DecommissionPool, msg_AddLiquidity, msg_RemoveLiquidity,
    msg_RemoveLiquidityUnits, msg_Swap, msg_ModifyPmtpRates, msg_UpdatePmtpParams,
    msg_CancelUnlockLiquidity, msg_UnlockLiquidity, msg_UpdateRewardsParams, msg_AddRewardPeriod,
    msg_UpdateLiquidityProtectionParams, msg_ModifyLiquidityProtectionRates,
    msg_AddProviderDistributionPeriod, msg_UpdateSwapFeeParams, msg_SetSymmetryThreshold;
  unfold CreatePool, AddLiquidity, CreateLiquidityProvider, add_checks, swap_price, swap_first_leg,
    swap_update_threshold, InitiateSwap, FinalizeSwap, DecommissionPool, DestroyPool; frames_clp.
Qed.
End Frame.

(** ** The invariant of both modules *)
Section Invariant.
Context {sdk : SDK} {L : SDKLaws sdk}.

(** The parameters a message writes keep the funds away from the module account. *)
Definition funds_kept (m : margin_msg) : Prop :=
  match m with
  | UpdateParamsMsg _ p => is_outside (MarginParams.ForceCloseFundAddress p)
                           ∧ is_outside (MarginParams.IncrementalInterestPaymentFundAddress p)
  | _ => True
  end.

(** What the parameters say about the funds, before and after a message. *)
Definition fund_params (p : MarginParams.t) : Z * string * (Z * string) :=
  (MarginParams.ForceCloseFundPercentage p, MarginParams.ForceCloseFundAddress p,
   (MarginParams.IncrementalInterestPaymentFundPercentage p,
    MarginParams.IncrementalInterestPaymentFundAddress p)).
Definition funds_after (m : margin_msg) (p : MarginParams.t) : Z * string * (Z * string) :=
  match m with
  | UpdateParamsMsg _ p' => fund_params p'
  | AdminCloseAllMsg _ false => fund_params (p <| MarginParams.ForceCloseFundPercentage := 0 |>)
  | _ => fund_params p
  end.

Lemma funds_after_outside m s s' : fund_params (GetParams s') = funds_after m (GetParams s) →
  funds_kept m → funds_outside s → funds_outside s'.
Proof.
  unfold funds_outside. intros Hf Hk Hs.
  destruct m as [| | | | | | | | |x []]; cbn in Hf, Hk; injection Hf as _ HA _ HB; by rewrite HA, HB.
Qed.

Definition is_trade (m : margin_msg) : bool :=
  match m with
  | OpenMsg _ | CloseMsg _ | ForceCloseMsg _ _ _ | AdminCloseMsg _ => true
  | _ => false
  end.

Lemma account_outside signer : account_signer signer → is_outside signer.
Proof. intros (addr & Ha & _ & Hne) a H. congruence. Qed.

(** Messages of administrators that close no position write the parameters and
    the whitelist only. *)
Lemma admin_settled m s s' : is_trade m = false → clp_wf s → margin_wf s →
  MarginServer m s = (Ok (), s') →
  clp_wf s' ∧ margin_wf s' ∧ (∀ d, surplus s' d = surplus s d)
  ∧ (∀ sym, unit_gap s' sym = unit_gap s sym) ∧ RemovalRequests s' = RemovalRequests s
  ∧ fund_params (GetParams s') = funds_after m (GetParams s).
Proof.
  intros Ht Hwf Hm H.
  assert (∃ ms, s' = s <| MarginState := ms |> ∧ MTPs ms = MTPs (MarginState s)
    ∧ fund_params (GetParams s') = funds_after m (GetParams s)) as (ms & -> & HM & Hf).
  { destruct m; try discriminate Ht; cbn in H;
      unfold msg_UpdateParams, msg_UpdatePools, msg_UpdateFuryCollateral, msg_Whitelist, msg_Dewhitelist,
        msg_AdminCloseAll, SetParams, WhitelistAddress, DewhitelistAddress, margin_modify in H;
      inv_ok; apply require_admin_Ok in E as ->; inv_ok; eexists; (split; [reflexivity|]); (split; [done|]);
      unfold GetParams; cbn; try done; by destruct takeMarginFund. }
  split_and!; [|by unfold margin_wf; cbn; rewrite HM|done..]. by split; apply Hwf.
Qed.

Record dex_inv (s : chain) : Prop := {
  di_clp : clp_inv s;
  di_margin : margin_wf s
}.

(** What a successful message with a position does, whatever the message. *)
Lemma trade_settled m s s' : is_trade m = true → clp_wf s → margin_wf s → margin_decoded m →
  MarginServer m s = (Ok (), s') → settled (funds_outside s) s s'.
Proof.
  intros Ht Hwf Hm Hd H. destruct m; try discriminate Ht; cbn in H.
  - destruct Hd as (Ha%account_outside & Hu & Hp).
    destruct (msg_Open_settled _ _ _ Hwf Hm Ha Hu Hp H) as [W1 W2 S G O].
    split; try done. intros d. destruct (S d) as [Hle Heq]. split; [done|by intros _; apply Heq].
  - by eapply msg_Close_settled.
  - by eapply msg_AdminClose_settled.
  - by eapply msg_AdminClose_settled.
Qed.

Lemma margin_tx_books m s : dex_inv s → margin_decoded m →
  dex_inv (margin_tx m s) ∧ (∀ d, surplus s d ≤ surplus (margin_tx m s) d)
  ∧ (funds_outside s → ∀ d, surplus (margin_tx m s) d = surplus s d)
  ∧ (∀ sym, unit_gap (margin_tx m s) sym = unit_gap s sym)
  ∧ (funds_kept m → funds_outside s → funds_outside (margin_tx m s)).
Proof.
  intros Hi Hd. unfold margin_tx. destruct (margin_ValidateBasic m); [|done..].
  unfold deliver. destruct (MarginServer m s) as [[[]| |] s'] eqn:H; [|done..].
  destruct Hi as [[Hwf Hq Hs] Hm]. destruct (is_trade m) eqn:Ht.
  - apply trade_settled in H as [W1 W2 S G O]; [|done..].
    split_and!; [|apply S|intros Hf d; by apply S|done|].
    + split; [|done]. split; [done|by pose proof O as [= _ -> _]|]. intros d. specialize (S d) as [? _].
      specialize (Hs d). lia.
    + intros _. unfold funds_outside, GetParams. by pose proof O as [= _ _ ->].
  - apply admin_settled in H as (W1 & W2 & S & G & R & F); [|done..].
    pose proof (funds_after_outside _ _ _ F) as F'.
    split_and!; [|intros d; by rewrite S|done..]. split; [|done]. split; [done|by rewrite R|].
    intros d. by rewrite S.
Qed.

Lemma clp_tx_margin m (s : chain) : MarginState (tx m s) = MarginState s.
Proof.
  unfold tx, deliver. destruct (ValidateBasic m); [|done..].
  pose proof (frames_NewHandler m s) as Hf. by destruct (NewHandler m s) as [[]].
Qed.

Lemma dex_tx_inv m s : dex_inv s → dex_decoded m → dex_inv (dex_tx m s).
Proof.
  destruct m as [m|m]; intros Hi Hd; cbn.
  - destruct Hi as [Hi Hm]. split; [by apply tx_books|]. unfold margin_wf. by rewrite clp_tx_margin.
  - by apply margin_tx_books.
Qed.

Lemma dex_run_inv ms : ∀ s, dex_inv s → Forall dex_decoded ms → dex_inv (dex_run ms s).
Proof.
  induction ms as [|m ms IH]; intros s Hi Hd; [done|]. inversion Hd; subst. cbn.
  apply IH; [|done]. by apply dex_tx_inv.
Qed.

(** Messages that neither delete a pool nor make the module account a fund. *)
Definition calm (m : dex_msg) : Prop :=
  match m with Clp m => is_decommission m = false | Margin m => funds_kept m end.

Lemma dex_tx_balanced m s : dex_inv s → units_match s → funds_outside s → dex_decoded m → calm m →
  (∀ d, surplus (dex_tx m s) d = surplus s d) ∧ units_match (dex_tx m s) ∧ funds_outside (dex_tx m s).
Proof.
  destruct m as [m|m]; intros Hi Hu Hf Hd Hc; cbn in *.
  - destruct (tx_books m s (di_clp _ Hi) Hd) as (_ & S & U). split_and!; [by apply S|by apply U|].
    unfold funds_outside, GetParams. by rewrite clp_tx_margin.
  - destruct (margin_tx_books m s Hi Hd) as (_ & _ & S & G & F). split_and!; [by apply S| |by apply F].
    intros sym. by rewrite G.
Qed.

Lemma dex_run_balanced ms : ∀ s, dex_inv s → units_match s → funds_outside s →
  Forall dex_decoded ms → Forall calm ms →
  (∀ d, surplus (dex_run ms s) d = surplus s d) ∧ units_match (dex_run ms s).
Proof.
  induction ms as [|m ms IH]; intros s Hi Hu Hf Hd Hc; [done|]. inversion Hd; inversion Hc; subst. cbn.
  destruct (dex_tx_balanced m s) as (S & U & F); [done..|].
  destruct (IH (dex_tx m s)) as [S' U']; [by apply dex_tx_inv|done..|].
  split; [|done]. intros d. by rewrite S', S.
Qed.
End Invariant.
