(* ===== verification/Demo.v ===== *)
(** * A small concrete chain

    A chain over the reference SDK with one pool of fury against "cusdc", one
    against "ceth", their provider, a trader and an administrator, on which the
    handlers are evaluated in witnesses and examples. *)
From S2P Require Import Prelude Sdk Reference ClpTypes ClpCalc ClpCalcProps Admin.
From S2P Require Import TokenRegistry MarginTypes Chain ClpKeeper ClpExec ClpMsg ClpState.
From S2P Require Import Margin Oracle BridgeTypes DispensationTypes.

Definition demo_entry (denom : string) (decimals : Z) : RegistryEntry :=
  mkRegistryEntry decimals denom denom "" "" "" "" "" "" "" "" "" [Permission_CLP] denom "" "".

Definition usdc : Asset := mkAsset "cusdc".
Definition ceth : Asset := mkAsset "ceth".

(** The margin module sets the health of the pools it is enabled for in every block. *)
Definition pool_usdc : Pool := NewPool usdc 5000000 1000000 1000.
Definition pool_eth : Pool := (NewPool ceth 3000000 90000 700) <| Health := Some P18 |>.
Definition lp_usdc : LiquidityProvider := mkLiquidityProvider usdc 1000 "alice" [].
Definition lp_eth : LiquidityProvider := mkLiquidityProvider ceth 700 "alice" [].

Definition demo_bank : ref_bank := <[("bob", "fury") := 10 ^ 20]> (
  <[("bob", "cusdc") := 10 ^ 20]> (<[("bob", "ceth") := 10 ^ 20]> (
  <[("bob", "cdash") := 10 ^ 20]> (
  <[("module/clp", "fury") := 8000000]> (<[("module/clp", "cusdc") := 1000000]> (
  <[("module/clp", "ceth") := 90000]> ∅)))))).

Definition demo_admins : AdminStore :=
  SetAdminAccount (mkAdminAccount AdminType_CLPDEX "root")
    (SetAdminAccount (mkAdminAccount AdminType_PMTPREWARDS "root")
      (SetAdminAccount (mkAdminAccount AdminType_MARGIN "root")
        (SetAdminAccount (mkAdminAccount AdminType_ADMIN "root") (mkAdminStore ∅ None)))).

Definition demo_margin : MarginStore :=
  mkMarginStore ∅ None None (Some (DefaultGenesis <| MarginParams.Pools := ["ceth"] |>)) ∅ ∅.

Definition demo_pools : gmap string Pool :=
  <[pool_key "ceth" := pool_eth]> {[pool_key "cusdc" := pool_usdc]}.
Definition demo_lps : gmap string LiquidityProvider :=
  <[lp_key lp_eth := lp_eth]> {[lp_key lp_usdc := lp_usdc]}.

Definition demo_chain : @chain ref_sdk := {|
  BlockHeight := 100;
  BlockTime := "now";
  Pools := demo_pools;
  LiquidityProviders := demo_lps;
  ClpWhiteList := Some ["root"];
  RateParams := mkPmtpRateParams 0 0 0;
  Epoch := mkPmtpEpoch 0 0;
  PolicyParams := mkPmtpParams 0 1 0 0;
  RewardsParams := mkRewardParams 0 518400 [] "";
  SymmetryThreshold := None;
  ProtectionParams := mkLiquidityProtectionParams 1000000000000 "cusdc" 14400 true;
  CurrentFuryLiquidityThreshold := 1000000000000;
  DistributionPeriods := [];
  BlockDistributionAccu := None;
  SwapFees := None;
  RemovalRequests := ∅;
  RemovalQueues := ∅;
  MinCreatePoolThreshold := 100;
  EnableRemovalQueue := true;
  TokenRegistry := Some <$> [demo_entry "fury" 18; demo_entry "cusdc" 6; demo_entry "ceth" 18;
                             demo_entry "cdash" 18];
  AdminState := demo_admins;
  MarginState := demo_margin;
  OracleState := mkOracleStore (Some ["ann"; "bert"]) (Some "root") ∅;
  BridgeState := mkBridgeStore None None ∅ None;
  DispensationState := mkDispensationStore ∅ ∅ ∅ ∅ ∅ (Some ("fury", 0));
  Bank := demo_bank
|}.

Lemma demo_wf : clp_wf demo_chain.
Proof.
  split; intros k x Hk; cbn in Hk; unfold demo_pools, demo_lps in Hk.
  - apply lookup_insert_Some in Hk as [[<- <-]|[_ [<- <-]%lookup_singleton_Some]];
      (split; [reflexivity|]); unfold pool_wf, pool_deep, pool_uints, is_uint;
      split_and!; (reflexivity || (vm_compute; intro H; discriminate H)).
  - apply lookup_insert_Some in Hk as [[<- <-]|[_ [<- <-]%lookup_singleton_Some]];
      (split; [reflexivity|]); unfold lp_wf, is_uint;
      split_and!; (reflexivity || (vm_compute; intro H; discriminate H)).
  - by apply lookup_insert_Some in Hk as [[<- <-]|[_ [<- <-]%lookup_singleton_Some]].
Qed.

(** A run that succeeds. *)
Definition succeeds {S A} (m : M S A) (s : S) : bool := is_ok (m s).1.

Lemma succeeds_Ok {S} (m : M S ()) s : succeeds m s = true → m s = (Ok (), (m s).2).
Proof. unfold succeeds. destruct (m s) as [[[]| |] s']; done. Qed.
