(* ===== verification/OracleClaims.v ===== *)
(** * Theorems about the oracle

    Votes are counted once, a prophecy succeeds only with seven tenths of the
    whitelisted power behind its final claim, and the outcome does not depend on
    the iteration order of Go maps as long as every voter is still whitelisted. *)
From S2P Require Import Prelude Sdk Reference Float64 Oracle OracleProps.

(** ** A voter set for witnesses: four validators, Go maps in both orders *)
Definition go_asc : GoMap := {| map_range := λ A m, map_to_list m |}.
Definition go_desc : GoMap := {| map_range := λ A m, reverse (map_to_list m) |}.
#[export] Instance go_asc_laws : GoMapLaws go_asc.
Proof. by split. Qed.
#[export] Instance go_desc_laws : GoMapLaws go_desc.
Proof. split. intros A m. apply reverse_Permutation. Qed.

Definition demo_validators : list Validator :=
  [mkValidator "dave" true 100; mkValidator "ann" true 7; mkValidator "bert" true 7;
   mkValidator "cleo" true 3].
Definition demo_staking : StakingKeeper := mkStakingKeeper
  (λ a, snd <$> list_find (λ v, OperatorAddress v = a) demo_validators) demo_validators.
Definition demo_oracle (whitelist : list string) : OracleStore :=
  mkOracleStore (Some whitelist) (Some "root") ∅.

Lemma demo_staking_wf : @staking_wf ref_sdk demo_staking.
Proof.
  split.
  - intros v Hv. cbn in Hv. repeat (apply elem_of_cons in Hv as [->|Hv]; [cbn; lia|]).
    by apply not_elem_of_nil in Hv.
  - vm_compute. done.
  - refine (bool_decide_unpack _ _). by vm_compute.
  - intros v Hv. cut (OperatorAddress v ≠ "" ∧ canonical (OperatorAddress v)); [naive_solver|].
    repeat (apply elem_of_cons in Hv as [->|Hv]; [done|]).
    by apply not_elem_of_nil in Hv.
Qed.

Lemma demo_oracle_wf wl : @oracle_wf ref_sdk (demo_oracle wl).
Proof. intros id p H. cbn in H. by rewrite lookup_empty in H. Qed.

(** ** Each validator votes once *)

(** C18.  An accepted claim is one vote: it comes from a whitelisted, bonded
    validator that had not voted on this prophecy, which was still pending; the
    stored prophecy has exactly this vote more, no other prophecy changes, and
    the store stays well formed (the two maps of a prophecy agree, no validator
    is counted twice, a successful prophecy has a final claim with votes). *)
Theorem ProcessClaim_one_vote {sdk : SDK} {L : SDKLaws sdk} {go : GoMap} {G : GoMapLaws go}
    sk claim st status st' :
  staking_wf sk → oracle_wf st →
  ProcessClaim DefaultConsensusNeeded sk claim st = (Ok status, st') →
  oracle_wf st'
  ∧ (∀ id, id ≠ ClaimId claim → Prophecies st' !! id = Prophecies st !! id)
  ∧ ∃ a p', val_string a = ClaimValidatorAddress claim ∧ checkActiveValidator sk a = true
      ∧ (∃ wl, GetOracleWhiteList st = Ok wl ∧ a ∈ wl)
      ∧ Prophecies st' !! ClaimId claim = Some p' ∧ status = ProphecyStatus p'
      ∧ (let old := default (NewProphecy (ClaimId claim)) (Prophecies st !! ClaimId claim) in
         Text (ProphecyStatus old) = STATUS_TEXT_PENDING
         ∧ ValidatorClaims old !! val_string a = None
         ∧ ValidatorClaims p' = <[val_string a := ClaimContent claim]> (ValidatorClaims old)
         ∧ ∀ c, default [] (ClaimValidators p' !! c)
                = default [] (ClaimValidators old !! c)
                  ++ (if decide (c = ClaimContent claim) then [a] else [])).
Proof.
  intros Hsk Hst H. split; [by eapply ProcessClaim_wf|].
  apply ProcessClaim_vote in H as (a & p & p' & Hv).
  destruct (vote_new_wf _ _ _ _ _ _ _ _ Hsk Hst Hv) as [Hid _].
  destruct (vote_old_wf _ _ _ _ _ _ _ _ _ Hst Hv) as [_ Hwf].
  pose proof (vote_first _ _ _ _ _ _ _ _ _ Hwf Hv) as Hnew.
  destruct (processCompletion_data _ _ _ _ _ (vt_new _ _ _ _ _ _ _ _ _ Hv)) as (_ & Hcv & Hvc).
  destruct Hv as [Hwl [Hva _] Hact _ _ Hold Hpend _ Hn -> ->]. subst p. split.
  - intros id Hne. cbn. by rewrite lookup_insert_ne by congruence.
  - exists a, p'. cbn zeta. rewrite Hcv, Hvc. cbn. rewrite <- Hid at 1. rewrite lookup_insert_eq.
    split_and!; try done.
    + destruct (GetOracleWhiteList st) as [wl| |] eqn:E; [eauto| |];
        exfalso; unfold processCompletion in Hn; by rewrite E in Hn.
    + intros c. rewrite lookup_insert. case_decide; case_decide; simplify_eq; [done|].
      by rewrite app_nil_r.
Qed.

Lemma ProcessClaim_one_vote_witness : ∃ st',
  ProcessClaim (sdk := ref_sdk) (go := go_asc) DefaultConsensusNeeded demo_staking
    (NewClaim "1" "ann" "x") (demo_oracle ["ann"; "bert"; "cleo"; "dave"])
  = (Ok (mkStatus STATUS_TEXT_PENDING ""), st')
  ∧ oracle_wf st'.
Proof.
  eexists. split; [vm_compute; reflexivity|].
  eapply (ProcessClaim_one_vote (sdk := ref_sdk) (go := go_asc) demo_staking
    (NewClaim "1" "ann" "x") (demo_oracle ["ann"; "bert"; "cleo"; "dave"])).
  - apply demo_staking_wf.
  - apply demo_oracle_wf.
  - vm_compute. reflexivity.
Defined.

(** ** Consensus *)

(** C7.  Whenever a claim makes a prophecy succeed, the bonded validators that
    voted for the final claim hold at least seven tenths of the bonded power of
    the whitelist, although the code compares rounded float64 ratios; no other
    claim has more power, and a prophecy that is not pending accepts no vote. *)
Theorem ProcessClaim_consensus {sdk : SDK} {L : SDKLaws sdk} {go : GoMap} {G : GoMapLaws go}
    sk claim st status st' :
  staking_wf sk → oracle_wf st →
  ProcessClaim DefaultConsensusNeeded sk claim st = (Ok status, st') →
  (∀ p, Prophecies st !! ClaimId claim = Some p → Text (ProphecyStatus p) = STATUS_TEXT_PENDING)
  ∧ (Text status = STATUS_TEXT_SUCCESS →
     ∃ wl p' vs, GetOracleWhiteList st = Ok wl
       ∧ Prophecies st' !! ClaimId claim = Some p'
       ∧ ClaimValidators p' !! FinalClaim status = Some vs
       ∧ 7 * power_of sk wl ≤ 10 * power_of sk vs
       ∧ ∀ c ws, ClaimValidators p' !! c = Some ws → power_of sk ws ≤ power_of sk vs).
Proof.
  intros Hsk Hst (a & p & p' & Hv)%ProcessClaim_vote. split.
  { intros q Hq. pose proof (vt_pending _ _ _ _ _ _ _ _ _ Hv) as Hp.
    by rewrite (vt_old _ _ _ _ _ _ _ _ _ Hv), Hq in Hp. }
  rewrite (vt_status _ _ _ _ _ _ _ _ _ Hv), (vt_state _ _ _ _ _ _ _ _ _ Hv). intros Ht.
  destruct (vote_new_wf _ _ _ _ _ _ _ _ Hsk Hst Hv) as [Hid _].
  destruct (processCompletion_data _ _ _ _ _ (vt_new _ _ _ _ _ _ _ _ _ Hv)) as (_ & Hcv & _).
  destruct (processCompletion_spec _ _ _ _ Hsk (vote_added_wf _ _ _ _ _ _ _ _ _ Hst Hv)
    (AddClaim_nonempty _ _ _) (vt_pending _ _ _ _ _ _ _ _ _ Hv) (vt_new _ _ _ _ _ _ _ _ _ Hv))
    as (wl & Hwl & [[_ (vs & Hvs & H7 & _ & Hmax)]|[Ht'|Hsame]]).
  - exists wl, p', vs. rewrite Hcv. cbn. rewrite <- Hid, lookup_insert_eq. done.
  - by rewrite Ht' in Ht.
  - pose proof (vt_pending _ _ _ _ _ _ _ _ _ Hv) as Hp. rewrite Hsame in Ht. cbn in Ht.
    by rewrite Hp in Ht.
Qed.

Lemma ProcessClaim_consensus_witness : ∃ st',
  ProcessClaim (sdk := ref_sdk) (go := go_asc) DefaultConsensusNeeded demo_staking
    (NewClaim "1" "ann" "x") (demo_oracle ["ann"; "cleo"])
  = (Ok (mkStatus STATUS_TEXT_SUCCESS "x"), st')
  ∧ ∃ wl p' vs, GetOracleWhiteList (demo_oracle ["ann"; "cleo"]) = Ok wl
       ∧ Prophecies st' !! ClaimId (NewClaim "1" "ann" "x") = Some p'
       ∧ ClaimValidators p' !! "x" = Some vs
       ∧ 7 * power_of demo_staking wl ≤ 10 * power_of demo_staking vs
       ∧ ∀ c ws, ClaimValidators p' !! c = Some ws → power_of demo_staking ws ≤ power_of demo_staking vs.
Proof.
  eexists. split; [vm_compute; reflexivity|].
  eapply (ProcessClaim_consensus (sdk := ref_sdk) (go := go_asc) demo_staking
    (NewClaim "1" "ann" "x") (demo_oracle ["ann"; "cleo"]) (mkStatus STATUS_TEXT_SUCCESS "x")).
  - apply demo_staking_wf.
  - apply demo_oracle_wf.
  - vm_compute. reflexivity.
  - reflexivity.
Defined.

(** ** Independence of the iteration order *)
Section Determinism.
Context {sdk : SDK} {L : SDKLaws sdk}.
Context (go1 go2 : GoMap) {G1 : GoMapLaws go1} {G2 : GoMapLaws go2}.

(** Two different claims cannot both hold seven tenths of the whitelisted
    power when their voters are whitelisted. *)
Lemma majority_unique sk wl p c1 c2 vs1 vs2 : staking_wf sk → prophecy_wf p →
  (∀ c vs v, ClaimValidators p !! c = Some vs → v ∈ vs → v ∈ wl) →
  ClaimValidators p !! c1 = Some vs1 → ClaimValidators p !! c2 = Some vs2 → c1 ≠ c2 →
  power_of sk vs1 + power_of sk vs2 ≤ power_of sk wl.
Proof.
  intros Hsk Hwf Hw H1 H2 Hne.
  transitivity (power_of sk (vs1 ++ vs2)).
  - apply Z.eq_le_incl. symmetry. apply weight_disjoint.
    + intros s. rewrite fmap_app. apply elem_of_app.
    + intros s (a & -> & Ha)%list_elem_of_fmap (b & He & Hb)%list_elem_of_fmap.
      destruct (pw_voter p Hwf _ _ _ H1 Ha) as [_ Hca].
      destruct (pw_voter p Hwf _ _ _ H2 Hb) as [_ Hcb]. rewrite He in Hca. congruence.
  - apply (weight_mono _ (sw_power sk Hsk)). intros v _ Hv.
    apply list_elem_of_fmap in Hv as (a & -> & Ha). apply list_elem_of_fmap_2.
    apply elem_of_app in Ha as [Ha|Ha]; [by eapply (Hw c1)|by eapply (Hw c2)].
Qed.

Lemma processCompletion_deterministic sk st p :
  staking_wf sk → prophecy_wf p → ClaimValidators p ≠ ∅ →
  (∀ wl, GetOracleWhiteList st = Ok wl →
     ∀ c vs v, ClaimValidators p !! c = Some vs → v ∈ vs → v ∈ wl) →
  processCompletion (go := go1) DefaultConsensusNeeded sk st p
  = processCompletion (go := go2) DefaultConsensusNeeded sk st p.
Proof.
  intros Hsk Hwf Hne Hw. unfold processCompletion.
  destruct (GetOracleWhiteList st) as [wl| |] eqn:Ewl; [|done|done]. cbn [mbind res_bind].
  specialize (Hw wl eq_refl). pose proof (GetOracleWhiteList_canonical st wl Ewl) as Hwl.
  destruct (FindHighestClaim_spec (go := go1) sk wl p Hsk Hwf Hwl)
    as (t1 & -> & Htot1 & Hmax1 & Hw1 & _).
  destruct (FindHighestClaim_spec (go := go2) sk wl p Hsk Hwf Hwl)
    as (t2 & -> & Htot2 & Hmax2 & Hw2 & _).
  destruct (Hw1 Hne) as (vs1 & Hvs1 & Hp1). destruct (Hw2 Hne) as (vs2 & Hvs2 & Hp2).
  assert (highestClaimPower t1 = highestClaimPower t2) as Hhp.
  { pose proof (Hmax1 _ _ Hvs2). pose proof (Hmax2 _ _ Hvs1). lia. }
  cbn [mbind res_bind]. rewrite Htot1, Htot2, Hhp. f_equal.
  destruct (f64_leb _ _) eqn:Ec; [|done].
  rewrite <- Hp2 in Ec. apply consensus_test in Ec as [H7 Hpos]; try by apply power_of_bounds.
  destruct (decide (highestClaim t1 = highestClaim t2)) as [->|Hne']; [done|exfalso].
  pose proof (majority_unique sk wl p _ _ _ _ Hsk Hwf Hw Hvs1 Hvs2 Hne').
  pose proof (power_of_bounds sk vs1 Hsk). lia.
Qed.

(** The voters of a prophecy are still in the whitelist. *)
Definition voters_whitelisted (st : OracleStore) (id : string) : Prop :=
  ∀ p wl, Prophecies st !! id = Some p → GetOracleWhiteList st = Ok wl →
    ∀ c vs v, ClaimValidators p !! c = Some vs → v ∈ vs → v ∈ wl.

Lemma AddClaim_voters a content p c vs v : ClaimValidators (AddClaim a content p) !! c = Some vs →
  v ∈ vs → v = a ∨ ∃ ws, ClaimValidators p !! c = Some ws ∧ v ∈ ws.
Proof.
  cbn. rewrite lookup_insert_Some. intros [[<- <-]|[_ H]] Hin; [|eauto].
  apply elem_of_app in Hin as [Hin|Hin%list_elem_of_singleton]; [right|by left].
  destruct (ClaimValidators p !! content); [eauto|]. by apply not_elem_of_nil in Hin.
Qed.
End Determinism.

(** C19.  Every validator computes the same outcome: if the earlier voters of
    the prophecy are still whitelisted, processing a claim gives the same result
    and the same store whatever order Go iterates the claims of a prophecy in. *)
Theorem ProcessClaim_deterministic {sdk : SDK} {L : SDKLaws sdk} (go1 go2 : GoMap)
    {G1 : GoMapLaws go1} {G2 : GoMapLaws go2} sk claim st :
  staking_wf sk → oracle_wf st → voters_whitelisted st (ClaimId claim) →
  ProcessClaim (go := go1) DefaultConsensusNeeded sk claim st
  = ProcessClaim (go := go2) DefaultConsensusNeeded sk claim st.
Proof.
  intros Hsk Hst Hw.
  destruct (ProcessClaim (go := go1) DefaultConsensusNeeded sk claim st) as [r s] eqn:E.
  rewrite <- E. unfold ProcessClaim, gets, lift, mbind, M_bind. cbn [id].
  destruct (EnsureAddressIsInWhitelist _ _) as [[]| |] eqn:Een; [|done|done].
  destruct (val_from_bech32 _) as [a| |] eqn:Ea; [|done|done].
  repeat match goal with |- context [ensure ?b ?e] =>
    destruct (ensure b e) as [[]| |] eqn:?; [|done|done] end.
  inv_ok. bool_prop.
  apply EnsureAddress_Ok in Een as (wl & b & Hwl & Hb & He & Hcan).
  assert (b = a) as -> by (unfold canonical in Hcan; congruence).
  rewrite (processCompletion_deterministic go1 go2); [done|done| |apply AddClaim_nonempty|].
  - set (p := default _ _) in *.
    assert (prophecy_wf p) as Hp.
    { unfold p, GetProphecy. destruct (Prophecies st !! _) eqn:Eq; [by eapply Hst|apply NewProphecy_wf]. }
    apply AddClaim_wf; try done. rewrite He.
    destruct (ValidatorClaims p !! _) as [x|] eqn:Ex; [|done]. cbn in *. subst x.
    destruct (pw_claim p Hp _ _ Ex) as (vs & w & Hvs & _). by destruct (pw_voters p Hp _ _ Hvs).
  - intros wl' Hwl' c vs v Hvs Hin. rewrite Hwl in Hwl'. injection Hwl' as <-.
    apply (AddClaim_voters _ _ _ _ _ _ Hvs) in Hin as [->|(ws & Hws & Hin)]; [done|].
    unfold GetProphecy in Hws. destruct (Prophecies st !! _) as [q|] eqn:Eq; cbn in Hws.
    + by eapply Hw.
    + by rewrite lookup_empty in Hws.
Qed.

Definition demo_voted : OracleStore :=
  (ProcessClaim (sdk := ref_sdk) (go := go_asc) DefaultConsensusNeeded demo_staking
     (NewClaim "1" "ann" "x") (demo_oracle ["ann"; "bert"; "cleo"; "dave"])).2.

Lemma demo_voted_wf : @oracle_wf ref_sdk demo_voted.
Proof.
  eapply (ProcessClaim_wf (sdk := ref_sdk) (go := go_asc) demo_staking
    (NewClaim "1" "ann" "x") (demo_oracle ["ann"; "bert"; "cleo"; "dave"])
    (mkStatus STATUS_TEXT_PENDING "")); [apply demo_staking_wf|apply demo_oracle_wf|].
  vm_compute. reflexivity.
Qed.

Lemma ProcessClaim_deterministic_witness :
  ProcessClaim (sdk := ref_sdk) (go := go_asc) DefaultConsensusNeeded demo_staking
    (NewClaim "1" "bert" "y") demo_voted
  = ProcessClaim (sdk := ref_sdk) (go := go_desc) DefaultConsensusNeeded demo_staking
    (NewClaim "1" "bert" "y") demo_voted.
Proof.
  apply (ProcessClaim_deterministic (sdk := ref_sdk) go_asc go_desc).
  - apply demo_staking_wf.
  - apply demo_voted_wf.
  - intros p wl Hp Hwl c vs v Hc Hv.
    assert (Prophecies demo_voted !! "1" = Some (AddClaim "ann" "x" (NewProphecy "1"))) as He
      by (vm_compute; reflexivity).
    cbn [ClaimId NewClaim] in Hp. rewrite He in Hp. injection Hp as <-.
    vm_compute in Hwl. injection Hwl as <-.
    destruct (AddClaim_voters _ _ _ _ _ _ Hc Hv) as [->|(ws & Hws & _)]; [by left|].
    cbn in Hws. by rewrite lookup_empty in Hws.
Defined.

(** ** When a voter leaves the whitelist *)

(** Two votes, two removals from the whitelist by the administrator, a third
    vote.  The voter that was removed still counts. *)
Definition demo_history {go : GoMap} : M OracleStore Status :=
  ProcessClaim (sdk := ref_sdk) DefaultConsensusNeeded demo_staking (NewClaim "1" "ann" "x");;
  ProcessClaim (sdk := ref_sdk) DefaultConsensusNeeded demo_staking (NewClaim "1" "bert" "y");;
  ProcessUpdateWhiteListValidator (sdk := ref_sdk) "root" "dave" "remove";;
  ProcessUpdateWhiteListValidator (sdk := ref_sdk) "root" "ann" "remove";;
  ProcessClaim (sdk := ref_sdk) DefaultConsensusNeeded demo_staking (NewClaim "1" "cleo" "z").

(** The hypothesis of [ProcessClaim_deterministic] is needed: after a removal
    from the whitelist two claims can hold seven tenths of the whitelisted power
    each, and the final claim is the one Go happens to visit first. *)
Theorem ProcessClaim_order_dependent :
  (demo_history (go := go_asc) (demo_oracle ["ann"; "bert"; "cleo"; "dave"])).1
  = Ok (mkStatus STATUS_TEXT_SUCCESS "y")
  ∧ (demo_history (go := go_desc) (demo_oracle ["ann"; "bert"; "cleo"; "dave"])).1
  = Ok (mkStatus STATUS_TEXT_SUCCESS "x").
Proof. split; vm_compute; reflexivity. Qed.
