(* ===== verification/ClpSwapClaims.v ===== *)
(** * What a swap guarantees *)
From S2P Require Import Prelude Sdk Reference ClpTypes ClpCalc ClpCalcProps Admin.
From S2P Require Import TokenRegistry MarginTypes Chain ClpKeeper ClpExec ClpMsg ClpState.
From S2P Require Import ClpSwapProps Margin Demo.

(** C9.  A successful MsgSwap, on any of its three routes, keeps the store well
    formed and changes neither ledger: for every denomination the module account
    gains and loses exactly what the pools record, and no units appear or
    disappear. *)
Theorem msg_Swap_conserves {sdk : SDK} {L : SDKLaws sdk} {mk : MarginKeeper}
    (msg : MsgSwap.t) (s s' : chain) addr :
  clp_wf s → is_uint (MsgSwap.SentAmount msg) →
  acc_from_bech32 (MsgSwap.Signer msg) = Ok addr → addr ≠ clp_module_address →
  msg_Swap msg s = (Ok (), s') →
  clp_wf s' ∧ (∀ d, surplus s' d = surplus s d) ∧ (∀ sym, unit_gap s' sym = unit_gap s sym).
Proof.
  intros Hwf Hx Ha Hne H. apply msg_Swap_Ok in H as (a & y & b1 & Ha' & Hsw); [|done..].
  assert (a = addr) as -> by congruence. split; [apply Hsw|]. split.
  - intros d. by eapply swapped_surplus.
  - intros sym. unfold unit_gap, lp_total. by rewrite (sw_lps _ _ _ _ _ _ Hsw), (sw_units _ _ _ _ _ _ Hsw).
Qed.

Definition demo_swap : MsgSwap.t := MsgSwap.mk "bob" usdc ceth 20000 1.
Definition after_demo_swap : @chain ref_sdk := (msg_Swap demo_swap demo_chain).2.

Lemma msg_Swap_conserves_witness :
  clp_wf after_demo_swap ∧ (∀ d, surplus after_demo_swap d = surplus demo_chain d)
  ∧ (∀ sym, unit_gap after_demo_swap sym = unit_gap demo_chain sym).
Proof.
  apply (msg_Swap_conserves (sdk := ref_sdk) demo_swap demo_chain after_demo_swap "bob");
    [apply demo_wf|split; vm_compute; intro H; discriminate H|reflexivity|discriminate
    |unfold after_demo_swap; apply succeeds_Ok; vm_compute; reflexivity].
Defined.

(** C15.  The trader of a successful MsgSwap pays exactly the amount sent and
    receives at least the minimum it asked for; its other balances do not
    change. *)
Theorem msg_Swap_slippage {sdk : SDK} {L : SDKLaws sdk} {mk : MarginKeeper}
    (msg : MsgSwap.t) (s s' : chain) addr :
  clp_wf s → is_uint (MsgSwap.SentAmount msg) →
  acc_from_bech32 (MsgSwap.Signer msg) = Ok addr → addr ≠ clp_module_address →
  MsgSwap_ValidateBasic msg = Ok () →
  msg_Swap msg s = (Ok (), s') →
  let sent := Symbol (MsgSwap.SentAsset msg) in
  let received := Symbol (MsgSwap.ReceivedAsset msg) in
  bank_balance (Bank s') addr sent = bank_balance (Bank s) addr sent - MsgSwap.SentAmount msg
  ∧ bank_balance (Bank s) addr received + MsgSwap.MinReceivingAmount msg
    ≤ bank_balance (Bank s') addr received
  ∧ ∀ d, d ≠ sent → d ≠ received → bank_balance (Bank s') addr d = bank_balance (Bank s) addr d.
Proof.
  intros Hwf Hx Ha Hne Hv H sent received.
  apply msg_Swap_Ok in H as (a & y & b1 & Ha' & Hsw); [|done..].
  assert (a = addr) as -> by congruence. unfold MsgSwap_ValidateBasic in Hv. inv_ok. bool_prop.
  assert (sent ≠ received) as Hsr.
  { intros He. apply not_true_iff_false in E2. by apply E2, AssetEquals_spec. }
  pose proof (sw_min _ _ _ _ _ _ Hsw). pose proof (String.eqb_neq sent received) as [_ Hs].
  pose proof (String.eqb_neq received sent) as [_ Hs'].
  split_and!; [| |intros d Hd1 Hd2];
    rewrite (swapped_trader _ _ _ _ _ _ _ Hne Hsw), !amount_of_one; cbn [fst snd];
    fold sent received.
  - rewrite String.eqb_refl, Hs' by done. lia.
  - rewrite String.eqb_refl, Hs by done. lia.
  - apply not_eq_sym, String.eqb_neq in Hd1, Hd2. rewrite Hd1, Hd2. lia.
Qed.

Lemma msg_Swap_slippage_witness :
  let s := demo_chain in let s' := after_demo_swap in
  ref_balance (Bank s') "bob" "cusdc" = ref_balance (Bank s) "bob" "cusdc" - 20000
  ∧ ref_balance (Bank s) "bob" "ceth" + 1 ≤ ref_balance (Bank s') "bob" "ceth"
  ∧ ∀ d, d ≠ "cusdc" → d ≠ "ceth" → ref_balance (Bank s') "bob" d = ref_balance (Bank s) "bob" d.
Proof.
  apply (msg_Swap_slippage (sdk := ref_sdk) demo_swap demo_chain after_demo_swap "bob");
    [apply demo_wf|split; vm_compute; intro H; discriminate H|reflexivity|discriminate
    |vm_compute; reflexivity|unfold after_demo_swap; apply succeeds_Ok; vm_compute; reflexivity].
Defined.
