(* ===== verification/ClpClaims.v ===== *)
(** * What the liquidity messages and the module as a whole guarantee *)
From S2P Require Import Prelude Sdk Reference ClpTypes ClpCalc ClpCalcProps Admin.
From S2P Require Import TokenRegistry MarginTypes Chain ClpKeeper ClpExec ClpMsg ClpState.
From S2P Require Import ClpSwapProps ClpLiquidityProps ClpRemoveProps ClpDecommission.
From S2P Require Import ClpSystem ClpInvariants Margin Demo.

(** ** The demonstration chain is a state of the invariant *)

Lemma demo_surplus d : surplus demo_chain d = 0.
Proof.
  unfold surplus, claims, module_balance. cbn [Pools Bank demo_chain].
  unfold demo_pools. rewrite msum_insert, lookup_singleton_ne by discriminate.
  rewrite <- insert_empty, msum_insert, lookup_empty, msum_empty.
  unfold pool_claim. cbn -[String.eqb demo_bank ref_balance].
  destruct (String.eqb_spec "fury" d) as [<-|H1]; [vm_compute; reflexivity|].
  destruct (String.eqb_spec "cusdc" d) as [<-|H2]; [vm_compute; reflexivity|].
  destruct (String.eqb_spec "ceth" d) as [<-|H3]; [vm_compute; reflexivity|].
  change NativeSymbol with "fury". rewrite (proj2 (String.eqb_neq "fury" d) H1).
  change ("module/" ++ ModuleName)%string with "module/clp".
  unfold ref_balance, demo_bank. rewrite !lookup_insert_ne by congruence. reflexivity.
Qed.

Lemma demo_units : units_match demo_chain.
Proof.
  intros sym. unfold unit_gap, lp_total, pool_units_of. cbn [Pools LiquidityProviders demo_chain].
  unfold demo_lps. rewrite msum_insert, lookup_singleton_ne by discriminate.
  rewrite <- insert_empty, msum_insert, lookup_empty, msum_empty. unfold lp_units_of. cbn -[String.eqb].
  destruct (String.eqb_spec "ceth" sym) as [<-|H1]; [vm_compute; reflexivity|].
  destruct (String.eqb_spec "cusdc" sym) as [<-|H2]; [vm_compute; reflexivity|].
  unfold demo_pools. rewrite lookup_insert_ne, lookup_singleton_ne
    by (intros H%pool_key_inj; done). done.
Qed.

Lemma demo_inv : clp_inv demo_chain.
Proof. split; [apply demo_wf|reflexivity|]. intros d. rewrite demo_surplus. lia. Qed.

Lemma account_bob : account_signer (sdk := ref_sdk) "bob".
Proof. exists "bob". split_and!; [reflexivity..|discriminate]. Qed.

(** Closes side conditions on concrete amounts. *)
Ltac concrete := vm_compute; split; intro; discriminate.

(** ** Messages that move liquidity *)

(** A successful MsgCreatePool keeps the store well formed and both ledgers
    balanced: the module account receives exactly what the new pool claims, and
    the units of the new pool are the units of its provider. *)
Theorem msg_CreatePool_conserves {sdk : SDK} {L : SDKLaws sdk} {mk : MarginKeeper}
    (msg : MsgCreatePool.t) (s s' : chain) :
  clp_inv s → units_match s → decoded (CreatePoolMsg msg) →
  MsgCreatePool_ValidateBasic msg = Ok () →
  msg_CreatePool msg s = (Ok (), s') →
  clp_wf s' ∧ (∀ d, surplus s' d = surplus s d) ∧ units_match s'.
Proof.
  intros [Hwf _ _] Hm ((addr & Ha & _ & Hne) & He & Hn) Hv H.
  apply (msg_CreatePool_books _ _ _ _ addr) in H as [W S G]; [|done..].
  split_and!; [done|done|]. intros sym. by rewrite G.
Qed.

Definition cdash : Asset := mkAsset "cdash".
Definition demo_create : MsgCreatePool.t := MsgCreatePool.mk "bob" cdash (10 ^ 18) 4000000.
Definition after_create : @chain ref_sdk := (msg_CreatePool demo_create demo_chain).2.

Lemma msg_CreatePool_conserves_witness :
  clp_wf after_create ∧ (∀ d, surplus after_create d = surplus demo_chain d)
  ∧ units_match after_create.
Proof.
  apply (msg_CreatePool_conserves (sdk := ref_sdk) demo_create demo_chain after_create);
    [apply demo_inv|apply demo_units|split_and!; [apply account_bob|concrete|concrete]
    |vm_compute; reflexivity|unfold after_create; apply succeeds_Ok; vm_compute; reflexivity].
Defined.

(** A successful MsgAddLiquidity, symmetric or not, keeps the store well
    formed and changes neither ledger: what the provider deposits is what the
    pool's claim grows by, and the units it is issued are the units the pool
    grows by. *)
Theorem msg_AddLiquidity_conserves {sdk : SDK} {L : SDKLaws sdk} {mk : MarginKeeper}
    (msg : MsgAddLiquidity.t) (s s' : chain) :
  clp_inv s → decoded (AddLiquidityMsg msg) →
  msg_AddLiquidity msg s = (Ok (), s') →
  clp_wf s' ∧ (∀ d, surplus s' d = surplus s d) ∧ (∀ sym, unit_gap s' sym = unit_gap s sym).
Proof.
  intros [Hwf Hq _] ((addr & Ha & Hc & Hne) & He & Hn) H.
  by apply (msg_AddLiquidity_books _ _ _ _ addr) in H as [[W S G] _].
Qed.

Definition demo_add : MsgAddLiquidity.t := MsgAddLiquidity.mk "bob" usdc 60000 9000.
Definition after_add : @chain ref_sdk := (msg_AddLiquidity demo_add demo_chain).2.

Lemma msg_AddLiquidity_conserves_witness :
  clp_wf after_add ∧ (∀ d, surplus after_add d = surplus demo_chain d)
  ∧ (∀ sym, unit_gap after_add sym = unit_gap demo_chain sym).
Proof.
  apply (msg_AddLiquidity_conserves (sdk := ref_sdk) demo_add demo_chain after_add);
    [apply demo_inv|split_and!; [apply account_bob|concrete|concrete]
    |unfold after_add; apply succeeds_Ok; vm_compute; reflexivity].
Defined.

Lemma account_alice : account_signer (sdk := ref_sdk) "alice".
Proof. exists "alice". split_and!; [reflexivity..|discriminate]. Qed.

(** C10.  A successful MsgRemoveLiquidityUnits keeps the store well formed and
    changes neither ledger, on every route through the unlock records and the
    margin health gate, whether the provider keeps units or is deleted. *)
Theorem msg_RemoveLiquidityUnits_conserves {sdk : SDK} {L : SDKLaws sdk} {mk : MarginKeeper}
    (msg : MsgRemoveLiquidityUnits.t) (s s' : chain) :
  clp_inv s → decoded (RemoveLiquidityUnitsMsg msg) →
  msg_RemoveLiquidityUnits msg s = (Ok (), s') →
  clp_wf s' ∧ (∀ d, surplus s' d = surplus s d) ∧ (∀ sym, unit_gap s' sym = unit_gap s sym).
Proof.
  intros [Hwf Hq _] (addr & Ha & _ & Hne) H.
  by apply (msg_RemoveLiquidityUnits_books _ _ _ _ addr) in H as [W S G].
Qed.

Definition demo_remove : MsgRemoveLiquidityUnits.t := MsgRemoveLiquidityUnits.mk "alice" usdc 250.
Definition after_remove : @chain ref_sdk := (msg_RemoveLiquidityUnits demo_remove demo_chain).2.

Lemma msg_RemoveLiquidityUnits_conserves_witness :
  clp_wf after_remove ∧ (∀ d, surplus after_remove d = surplus demo_chain d)
  ∧ (∀ sym, unit_gap after_remove sym = unit_gap demo_chain sym).
Proof.
  apply (msg_RemoveLiquidityUnits_conserves (sdk := ref_sdk) demo_remove demo_chain after_remove);
    [apply demo_inv|apply account_alice
    |unfold after_remove; apply succeeds_Ok; vm_compute; reflexivity].
Defined.

(** The same for MsgRemoveLiquidity, which withdraws a share in basis
    points. *)
Theorem msg_RemoveLiquidity_conserves {sdk : SDK} {L : SDKLaws sdk} {mk : MarginKeeper}
    (msg : MsgRemoveLiquidity.t) (s s' : chain) :
  clp_inv s → decoded (RemoveLiquidityMsg msg) →
  msg_RemoveLiquidity msg s = (Ok (), s') →
  clp_wf s' ∧ (∀ d, surplus s' d = surplus s d) ∧ (∀ sym, unit_gap s' sym = unit_gap s sym).
Proof.
  intros [Hwf Hq _] (addr & Ha & _ & Hne) H.
  by apply (msg_RemoveLiquidity_books _ _ _ _ addr) in H as [W S G].
Qed.

Definition demo_remove_w : MsgRemoveLiquidity.t := MsgRemoveLiquidity.mk "alice" ceth 2500 0.
Definition after_remove_w : @chain ref_sdk := (msg_RemoveLiquidity demo_remove_w demo_chain).2.

Lemma msg_RemoveLiquidity_conserves_witness :
  clp_wf after_remove_w ∧ (∀ d, surplus after_remove_w d = surplus demo_chain d)
  ∧ (∀ sym, unit_gap after_remove_w sym = unit_gap demo_chain sym).
Proof.
  apply (msg_RemoveLiquidity_conserves (sdk := ref_sdk) demo_remove_w demo_chain after_remove_w);
    [apply demo_inv|apply account_alice
    |unfold after_remove_w; apply succeeds_Ok; vm_compute; reflexivity].
Defined.

(** C11.  A successful MsgDecommissionPool deletes exactly that pool, only when
    its fury balance is below the threshold, and never pays out more than the
    pool claims: the surplus of the module account does not shrink in any
    denomination. *)
Theorem msg_DecommissionPool_solvent {sdk : SDK} {L : SDKLaws sdk} {mk : MarginKeeper}
    (msg : MsgDecommissionPool.t) (s s' : chain) :
  clp_inv s → msg_DecommissionPool msg s = (Ok (), s') →
  (∃ p, Pools s !! pool_key (MsgDecommissionPool.Symbol msg) = Some p
        ∧ NativeAssetBalance p < PoolThrehold)
  ∧ Pools s' = delete (pool_key (MsgDecommissionPool.Symbol msg)) (Pools s)
  ∧ clp_wf s' ∧ ∀ d, surplus s d ≤ surplus s' d.
Proof.
  intros [Hwf _ _] H. pose proof H as H'.
  apply msg_DecommissionPool_Ok in H' as (p & n & e & s1 & Hp & Hlt & _); [|done].
  apply msg_DecommissionPool_surplus in H as (W & _ & HP & S); [|done]. split_and!; eauto.
Qed.

Definition demo_decommission : MsgDecommissionPool.t := MsgDecommissionPool.mk "root" "cusdc".
Definition after_decommission : @chain ref_sdk := (msg_DecommissionPool demo_decommission demo_chain).2.

Lemma msg_DecommissionPool_solvent_witness :
  (∃ p, Pools demo_chain !! pool_key "cusdc" = Some p ∧ NativeAssetBalance p < PoolThrehold)
  ∧ Pools after_decommission = delete (pool_key "cusdc") (Pools demo_chain)
  ∧ clp_wf after_decommission ∧ ∀ d, surplus demo_chain d ≤ surplus after_decommission d.
Proof.
  apply (msg_DecommissionPool_solvent (sdk := ref_sdk) demo_decommission demo_chain after_decommission);
    [apply demo_inv|unfold after_decommission; apply succeeds_Ok; vm_compute; reflexivity].
Defined.

(** ** Sequences of messages *)

Section Runs.
Context {sdk : SDK} {L : SDKLaws sdk} {mk : MarginKeeper}.

Lemma run_inv (ms : list clp_msg) : ∀ s : chain, clp_inv s → Forall decoded ms → clp_inv (run ms s).
Proof.
  induction ms as [|m ms IH]; intros s Hi Hd; [done|]. inversion Hd; subst. cbn.
  apply IH; [|done]. by apply tx_books.
Qed.

Lemma run_balanced (ms : list clp_msg) : ∀ s : chain, clp_inv s → units_match s →
  Forall decoded ms → forallb (λ m, negb (is_decommission m)) ms = true →
  (∀ d, surplus (run ms s) d = surplus s d) ∧ units_match (run ms s).
Proof.
  induction ms as [|m ms IH]; intros s Hi Hm Hd Hn; [done|]. cbn in Hn. bool_prop.
  inversion Hd; subst. cbn. destruct (tx_books m s) as (Hi' & Hs' & Hm'); [done..|].
  destruct (IH (tx m s)) as [Hs Hu]; auto. split; [|done]. intros d. rewrite Hs. by apply Hs'.
Qed.
End Runs.

(** Whatever sequence of clp messages is delivered, failing ones included,
    from a state where the module account covers the claims of its pools, it
    covers them afterwards, in every denomination; the store stays well formed
    (every pool with depth on both sides) and no removal request is left in the
    queue. *)
Theorem run_solvent {sdk : SDK} {L : SDKLaws sdk} {mk : MarginKeeper}
    (ms : list clp_msg) (s : chain) :
  clp_inv s → Forall decoded ms →
  (∀ d, claims (run ms s) d ≤ module_balance (run ms s) d)
  ∧ clp_wf (run ms s) ∧ RemovalRequests (run ms s) = ∅.
Proof.
  intros Hi Hd. destruct (run_inv ms s Hi Hd) as [W Q S]. split_and!; [|done|done].
  intros d. specialize (S d). unfold surplus in S. lia.
Qed.

Definition demo_run : list (@clp_msg ref_sdk) :=
  [ SwapMsg (MsgSwap.mk "bob" usdc ceth 20000 1);
    CreatePoolMsg demo_create;
    AddLiquidityMsg demo_add;
    UnlockLiquidityMsg (MsgUnlock.mk "alice" usdc 10);
    RemoveLiquidityUnitsMsg demo_remove;
    ModifyLiquidityProtectionRatesMsg "bob" 5;
    DecommissionPoolMsg demo_decommission ].

Lemma demo_run_decoded : Forall decoded demo_run.
Proof.
  unfold demo_run. repeat apply Forall_cons_2; try apply Forall_nil_2; cbn;
    split_and?; try apply account_bob; try apply account_alice; try exact I; concrete.
Qed.

Lemma run_solvent_witness :
  (∀ d, claims (run demo_run demo_chain) d ≤ module_balance (run demo_run demo_chain) d)
  ∧ clp_wf (run demo_run demo_chain) ∧ RemovalRequests (run demo_run demo_chain) = ∅.
Proof.
  apply (run_solvent (sdk := ref_sdk) demo_run demo_chain); [apply demo_inv|apply demo_run_decoded].
Defined.

(** As long as no pool is decommissioned, the units of every pool stay the
    sum of the units of its providers, whatever messages are delivered. *)
Theorem run_units_match {sdk : SDK} {L : SDKLaws sdk} {mk : MarginKeeper}
    (ms : list clp_msg) (s : chain) :
  clp_inv s → units_match s → Forall decoded ms →
  forallb (λ m, negb (is_decommission m)) ms = true →
  ∀ sym, lp_total (run ms s) sym = pool_units_of (run ms s) sym.
Proof.
  intros Hi Hm Hd Hn sym. destruct (run_balanced ms s Hi Hm Hd Hn) as [_ H].
  specialize (H sym). unfold unit_gap in H. lia.
Qed.

Lemma run_units_match_witness :
  lp_total (run (take 6 demo_run) demo_chain) "cusdc"
  = pool_units_of (run (take 6 demo_run) demo_chain) "cusdc".
Proof.
  apply (run_units_match (sdk := ref_sdk) (take 6 demo_run) demo_chain);
    [apply demo_inv|apply demo_units|apply Forall_take, demo_run_decoded|reflexivity].
Defined.

(** From a balanced state, after any sequence of messages that
    decommissions no pool, none of the three invariant checks of the module
    reports a mismatch (nor panics): the module account holds exactly the
    balances and custody of the pools, and the units add up.  The bank reports
    amounts an [sdk.Uint] can hold, and there are fewer providers than a page of
    the store can list. *)
Theorem run_invariants_hold {sdk : SDK} {L : SDKLaws sdk} {mk : MarginKeeper}
    (ms : list clp_msg) (s : chain) :
  clp_inv s → (∀ d, surplus s d = 0) → units_match s → Forall decoded ms →
  forallb (λ m, negb (is_decommission m)) ms = true →
  let s' := run ms s in
  (∀ d, is_uint (module_balance s' d)) →
  Z.of_nat (length (kv_iterate (LiquidityProviders s'))) < MaxUint64 →
  BalanceModuleAccountCheck s' = (Ok false, s')
  ∧ (∀ sym, SingleExternalBalanceModuleAccountCheck sym s' = (Ok false, s'))
  ∧ UnitsCheck s' = (Ok false, s').
Proof.
  intros Hi Hs Hm Hd Hn s' Hu Hlen. destruct (run_inv ms s Hi Hd) as [W _ _]. fold s' in W.
  destruct (run_balanced ms s Hi Hm Hd Hn) as [Hs' Hm']. fold s' in Hs', Hm'.
  assert (∀ d, surplus s' d = 0) as H0 by (intros d; by rewrite Hs').
  split_and!; [by apply native_check_ok|intros sym; by apply single_check_ok|by apply units_check_ok].
Qed.

(** Every balance of a concrete bank is a [Uint]. *)
Lemma bank_bounded (b : ref_bank) :
  forallb (λ kx, (0 <=? kx.2) && (kx.2 <=? uint_max)) (map_to_list b) = true →
  ∀ a d, is_uint (ref_balance b a d).
Proof.
  intros H a d. unfold ref_balance. destruct (b !! (a, d)) as [x|] eqn:Hx; cbn.
  - rewrite forallb_forall in H. specialize (H ((a, d), x)). cbn in H. unfold is_uint.
    apply elem_of_map_to_list, list_elem_of_In in Hx. specialize (H Hx). bool_prop. lia.
  - split; vm_compute; intro; discriminate.
Qed.

Definition demo_after : @chain ref_sdk := run (take 6 demo_run) demo_chain.

Lemma run_invariants_hold_witness :
  BalanceModuleAccountCheck demo_after = (Ok false, demo_after)
  ∧ (∀ sym, SingleExternalBalanceModuleAccountCheck sym demo_after = (Ok false, demo_after))
  ∧ UnitsCheck demo_after = (Ok false, demo_after).
Proof.
  apply (run_invariants_hold (sdk := ref_sdk) (take 6 demo_run) demo_chain);
    [apply demo_inv|apply demo_surplus|apply demo_units|apply Forall_take, demo_run_decoded
    |reflexivity| |vm_compute; reflexivity].
  intros d. apply bank_bounded. vm_compute. reflexivity.
Defined.

(** AddLiquidity looks a provider up under the text of the signer and creates one
    under the canonical form of the address.  Bech32 may be written in capitals: when
    bob, who has units, adds liquidity as BOB, his units are overwritten by those he
    gains, and the check of the units reports it.  Written in the canonical form the
    same message keeps the units in order. *)
Definition shouted_add : MsgAddLiquidity.t := MsgAddLiquidity.mk "BOB" usdc 60000 9000.

Example upper_case_signer_overwrites :
  let shouted := run [AddLiquidityMsg demo_add; AddLiquidityMsg shouted_add] demo_chain in
  let plain := run [AddLiquidityMsg demo_add; AddLiquidityMsg demo_add] demo_chain in
  (UnitsCheck shouted).1 = Ok true ∧ lp_total shouted "cusdc" < pool_units_of shouted "cusdc"
  ∧ (UnitsCheck plain).1 = Ok false ∧ lp_total plain "cusdc" = pool_units_of plain "cusdc".
Proof. split_and!; vm_compute; reflexivity. Qed.
