(* ===== verification/ClpBlockClaims.v ===== *)
(** * What block processing guarantees *)
From S2P Require Import Prelude Sdk Reference ClpTypes ClpCalc ClpCalcProps Admin.
From S2P Require Import TokenRegistry MarginTypes Chain ClpKeeper ClpExec ClpMsg ClpBlock.
From S2P Require Import ClpState Margin Demo.

(** ** The liquidity protection threshold *)

(** At the start of a block an active protection raises the current
    threshold by its share of the epoch and never beyond the maximum; it halts
    the chain (a panic in BeginBlocker) exactly when the epoch length is zero or
    the current threshold is already above the maximum. *)
Theorem replenish_threshold_spec {sdk : SDK} {L : SDKLaws sdk} (s : chain) :
  let max := MaxFuryLiquidityThreshold (ProtectionParams s) in
  let len := EpochLength (ProtectionParams s) in
  let cur := CurrentFuryLiquidityThreshold s in
  is_uint max → is_uint cur → 0 ≤ len < 2 ^ 64 → IsActive (ProtectionParams s) = true →
  (replenish_threshold s).1
  = (if (len =? 0) || (max <? cur) then Panic else Ok ())
  ∧ ((len =? 0) || (max <? cur) = false →
     (replenish_threshold s).2
     = s <| CurrentFuryLiquidityThreshold := Z.min max (cur + max / len) |>).
Proof.
  intros max len cur Hmax Hcur Hlen Hact.
  assert (replenish_threshold s =
    match u_quo max len with
    | Ok r => match u_sub max cur with
              | Ok room => match (if room <? r then Ok max else u_add cur r) with
                           | Ok c => (Ok (), s <| CurrentFuryLiquidityThreshold := c |>)
                           | Err e => (Err e, s) | Panic => (Panic, s) end
              | Err e => (Err e, s) | Panic => (Panic, s) end
    | Err e => (Err e, s) | Panic => (Panic, s) end) as ->.
  { unfold replenish_threshold, SetLiquidityProtectionCurrentFuryLiquidityThreshold, modify, gets,
      lift, mbind, M_bind. rewrite Hact. done. }
  destruct (Z.eqb_spec len 0) as [->|Hne]; cbn [orb]; [rewrite u_quo_zero; done|].
  rewrite u_quo_law; [|done|unfold is_uint, uint_max; lia|done].
  assert (0 ≤ max / len ≤ max) as Hq.
  { unfold is_uint in *. split; [apply Z.div_pos; lia|]. apply Z.div_le_upper_bound; nia. }
  rewrite u_sub_law by done. unfold uint_checked.
  destruct (Z.ltb_spec max cur) as [Hlt|Hge]; unfold is_uint in *.
  - rewrite (proj2 (Z.leb_gt 0 (max - cur))) by lia. done.
  - rewrite (proj2 (Z.leb_le 0 (max - cur))), (proj2 (Z.leb_le (max - cur) uint_max)) by lia.
    cbn [andb]. destruct (Z.ltb_spec (max - cur) (max / len)) as [Hr|Hr].
    + rewrite Z.min_l by lia. done.
    + rewrite u_add_in by (unfold is_uint; lia). rewrite Z.min_r by lia. done.
Qed.

Definition tired_chain : @chain ref_sdk :=
  demo_chain <| CurrentFuryLiquidityThreshold := 999999999999 |>.

Lemma replenish_threshold_spec_witness :
  (replenish_threshold tired_chain).1 = Ok ()
  ∧ (false = false → (replenish_threshold tired_chain).2
       = tired_chain <| CurrentFuryLiquidityThreshold :=
           Z.min 1000000000000 (999999999999 + 1000000000000 / 14400) |>).
Proof.
  apply (replenish_threshold_spec (sdk := ref_sdk) tired_chain);
    [vm_compute; split; intro; discriminate..|vm_compute; split; [intro; discriminate|reflexivity]|reflexivity].
Defined.

(** The administrator's message ModifyLiquidityProtectionRates accepts any
    value; one above the maximum makes the next BeginBlocker panic, whatever
    else happens at that block. *)
Theorem ModifyLiquidityProtectionRates_halts {sdk : SDK} {L : SDKLaws sdk}
    signer (x : Z) (s s' : chain) (height : Z) :
  is_uint (MaxFuryLiquidityThreshold (ProtectionParams s)) →
  is_uint x → 0 < EpochLength (ProtectionParams s) < 2 ^ 64 →
  IsActive (ProtectionParams s) = true →
  MaxFuryLiquidityThreshold (ProtectionParams s) < x →
  msg_ModifyLiquidityProtectionRates signer x s = (Ok (), s') →
  (ClpBlock.BeginBlocker (s' <| BlockHeight := height |>)).1 = Panic.
Proof.
  intros Hm Hx Hl Ha Hlt H.
  unfold msg_ModifyLiquidityProtectionRates, SetLiquidityProtectionCurrentFuryLiquidityThreshold in H.
  inv_ok. apply (keeps_require_admin id) in E. unfold id in E. subst.
  unfold ClpBlock.BeginBlocker, replenish_threshold, gets, lift, mbind, M_bind. cbn. rewrite Ha. cbn.
  rewrite u_quo_law; [|done|unfold is_uint, uint_max; lia|lia]. rewrite u_sub_law by done.
  unfold uint_checked. by rewrite (proj2 (Z.leb_gt 0 _)) by lia.
Qed.

Definition go_ref : GoMap := {| map_range := λ A m, map_to_list m |}.
#[export] Instance go_ref_laws : GoMapLaws go_ref.
Proof. split. intros A m. reflexivity. Qed.

Definition raised_chain : @chain ref_sdk :=
  (msg_ModifyLiquidityProtectionRates "root" 1000000000001 demo_chain).2.

Lemma ModifyLiquidityProtectionRates_halts_witness :
  (ClpBlock.BeginBlocker (raised_chain <| BlockHeight := 101 |>)).1 = Panic.
Proof.
  apply (ModifyLiquidityProtectionRates_halts (sdk := ref_sdk) "root" 1000000000001 demo_chain
           raised_chain 101);
    [vm_compute; split; intro; discriminate..|vm_compute; split; [reflexivity|reflexivity]
    |reflexivity|vm_compute; reflexivity
    |unfold raised_chain; apply succeeds_Ok; vm_compute; reflexivity].
Defined.

Section Value.
Context {sdk : SDK} {L : SDKLaws sdk}.

Lemma nearest_mono a b ra rb : a < b → nearest a ra → nearest b rb → ra ≤ rb.
Proof. unfold nearest. pose proof P18_pos. intros. nia. Qed.

Lemma nearest_mult a r : nearest (a * P18) r → r = a.
Proof. unfold nearest. pose proof P18_pos. intros. nia. Qed.

(** The value of an amount: the price times the amount, rounded. *)
Lemma CalcFuryValue_inv x price v : CalcFuryValue x price = Ok v →
  d_mul price (d_of_big x) = Ok (price * x) ∧ d_round (price * x) = Ok v ∧ is_uint v.
Proof.
  unfold CalcFuryValue. intros H. inv_ok. apply u_of_big_Ok in H as [-> ?].
  pose proof (d_mul_val _ _ _ E) as Hn. rewrite d_of_big_law in Hn.
  replace (price * (x * P18)) with (price * x * P18) in Hn by ring.
  apply nearest_mult in Hn. subst. done.
Qed.

Lemma CalcFuryValue_mono x y price vx vy : 0 ≤ price → x ≤ y →
  CalcFuryValue x price = Ok vx → CalcFuryValue y price = Ok vy → vx ≤ vy.
Proof.
  intros Hp Hxy (_ & Hx & _)%CalcFuryValue_inv (_ & Hy & _)%CalcFuryValue_inv.
  destruct (Z.eq_dec (price * x) (price * y)) as [Heq|Hne].
  - rewrite Heq in Hx. assert (vx = vy) by congruence. lia.
  - eapply nearest_mono; [|by eapply d_round_val|by eapply d_round_val]. nia.
Qed.

Lemma CalcFuryValue_total x price : 0 ≤ price → 0 ≤ x → price * x < (2 ^ 255 - 1) * P18 →
  ∃ v, CalcFuryValue x price = Ok v.
Proof.
  intros Hp Hx Hb. pose proof P18_pos. assert (0 ≤ price * x) by nia. unfold CalcFuryValue.
  destruct (d_mul_total price (d_of_big x)) as [m Hm].
  { rewrite d_of_big_law. unfold dec_max, P18 in *. lia. }
  pose proof (d_mul_val _ _ _ Hm) as Hn. rewrite d_of_big_law in Hn.
  replace (price * (x * P18)) with (price * x * P18) in Hn by ring. apply nearest_mult in Hn as ->.
  rewrite Hm. cbn. destruct (d_round_total (price * x)) as [v Hv]; [lia|]. rewrite Hv. cbn.
  pose proof (d_round_val _ _ Hv) as Hr. exists v. rewrite u_of_big_law, uint_checked_in; [done|].
  assert (0 ≤ v) by (eapply nearest_nonneg; [|done]; lia).
  assert (v ≤ 2 ^ 255 - 1) by (eapply nearest_le; [done|lia]). unfold is_uint, uint_max. lia.
Qed.

Lemma CalculateDiscountedSentAmount_le sent fee d : is_uint sent → 0 ≤ fee ≤ P18 →
  CalculateDiscountedSentAmount sent fee = Ok d → 0 ≤ d ≤ sent.
Proof.
  intros Hs Hf HD. unfold CalculateDiscountedSentAmount in HD. inv_ok.
  pose proof (d_mul_val _ _ _ E) as Hm. pose proof (d_round_val _ _ E0) as Hr.
  rewrite d_of_big_law in Hm. replace (sent * P18 * fee) with (sent * fee * P18) in Hm by ring.
  apply nearest_mult in Hm as ->. unfold is_uint in Hs.
  assert (0 ≤ v0) by (eapply nearest_nonneg; [|done]; nia).
  assert (v0 ≤ sent) by (eapply nearest_le; [done|nia]).
  apply u_sub_Ok in HD as [-> ?]; [lia|done|unfold is_uint; lia].
Qed.
End Value.

(** C30.  A sale of fury that the liquidity protection lets through never makes
    its bookkeeping panic: the discounted amount is worth at most the checked
    one, and the threshold goes down by exactly that value. *)
Theorem protected_sale_no_panic {sdk : SDK} {L : SDKLaws sdk} (s : chain) sent fee price d :
  IsActive (ProtectionParams s) = true → is_uint (CurrentFuryLiquidityThreshold s) →
  is_uint sent → 0 ≤ fee ≤ P18 → 0 ≤ price → price * sent < (2 ^ 255 - 1) * P18 →
  IsBlockedByLiquidityProtection sent price s = (Ok false, s) →
  CalculateDiscountedSentAmount sent fee = Ok d →
  ∃ v, CalcFuryValue d price = Ok v ∧ 0 ≤ v ≤ CurrentFuryLiquidityThreshold s
    ∧ MustUpdateLiquidityProtectionThreshold true d price s
      = (Ok (), s <| CurrentFuryLiquidityThreshold := CurrentFuryLiquidityThreshold s - v |>).
Proof.
  intros Ha Hc Hs Hf Hp Hb HB HD.
  unfold IsBlockedByLiquidityProtection in HB. inv_ok.
  match goal with H : false = _ |- _ => symmetry in H end. bool_prop.
  assert (0 ≤ d ≤ sent) as Hd by by eapply CalculateDiscountedSentAmount_le.
  destruct (CalcFuryValue_total d price) as [w Hw]; [done|lia|nia|].
  pose proof (CalcFuryValue_mono _ _ _ _ _ Hp (proj2 Hd) Hw E) as Hle.
  pose proof (CalcFuryValue_inv _ _ _ Hw) as (_ & _ & Hwu). unfold is_uint in *.
  exists w. split_and!; [done|lia|lia|].
  unfold MustUpdateLiquidityProtectionThreshold, SetLiquidityProtectionCurrentFuryLiquidityThreshold,
    gets, lift, modify, mbind, M_bind. rewrite Ha, Hw. cbn.
  rewrite (proj2 (Z.ltb_ge _ w)) by lia. rewrite u_sub_law by (unfold is_uint; lia).
  rewrite uint_checked_in by (unfold is_uint; lia). done.
Qed.

Definition demo_price : Z := 2 * P18.

Lemma protected_sale_no_panic_witness :
  ∃ v, CalcFuryValue 997 demo_price = Ok v ∧ 0 ≤ v ≤ CurrentFuryLiquidityThreshold demo_chain
    ∧ MustUpdateLiquidityProtectionThreshold true 997 demo_price demo_chain
      = (Ok (), demo_chain <| CurrentFuryLiquidityThreshold :=
                   CurrentFuryLiquidityThreshold demo_chain - v |>).
Proof.
  apply (protected_sale_no_panic (sdk := ref_sdk) demo_chain 1000 (3 * 10 ^ 15) demo_price 997).
  - reflexivity.
  - vm_compute; split; intro; discriminate.
  - vm_compute; split; intro; discriminate.
  - vm_compute; split; intro; discriminate.
  - vm_compute; intro; discriminate.
  - vm_compute; reflexivity.
  - unfold IsBlockedByLiquidityProtection, mbind, M_bind, lift, gets. vm_compute (CalcFuryValue _ _). reflexivity.
  - vm_compute; reflexivity.
Defined.
