(* ===== verification/ClpPolicyClaims.v ===== *)
(** * A policy period from its first block to its last

    The counters BeginBlocker keeps while a policy of the price (pmtp) runs, and
    the rate the period ends with. *)
From S2P Require Import Prelude Sdk Reference ClpTypes ClpCalc ClpCalcProps Admin.
From S2P Require Import TokenRegistry MarginTypes Chain ClpKeeper ClpExec ClpMsg ClpBlock.
From S2P Require Import ClpState Margin Demo.

(** The counters after [k] blocks of a policy of [E] epochs of [L] blocks. *)
Definition counters (E L k : Z) : PmtpEpoch := mkPmtpEpoch (E - k / L) (L - k mod L).

(** The parameters describe a policy of [E] epochs of [L] blocks (what
    ValidateBasic asks for), at heights an int64 holds. *)
Record policy_ok (p : PmtpParams) (E L : Z) : Prop := {
  po_len : PmtpPeriodEpochLength p = L;
  po_pos : 0 < L ∧ 0 < E;
  po_blocks : PmtpPeriodEndBlock p - PmtpPeriodStartBlock p + 1 = E * L;
  po_range : 0 ≤ PmtpPeriodStartBlock p ∧ PmtpPeriodEndBlock p < 2 ^ 62
}.

Lemma counters_next E L k : 0 < L → 0 ≤ k →
  (L - k mod L = 1 → (E - k / L - 1, L) = (E - (k + 1) / L, L - (k + 1) mod L))
  ∧ (L - k mod L ≠ 1 → (E - k / L, L - k mod L - 1) = (E - (k + 1) / L, L - (k + 1) mod L)).
Proof.
  intros HL Hk. pose proof (Z.mod_pos_bound k L HL). pose proof (Z.div_mod k L).
  split; intros Hm.
  - assert ((k + 1) / L = k / L + 1) as -> by (symmetry; apply (Z.div_unique _ _ _ 0); lia).
    assert ((k + 1) mod L = 0) as -> by (symmetry; apply (Z.mod_unique _ _ (k / L + 1)); lia).
    f_equal; lia.
  - assert ((k + 1) / L = k / L) as ->
      by (symmetry; apply (Z.div_unique _ _ _ (k mod L + 1)); lia).
    assert ((k + 1) mod L = k mod L + 1) as ->
      by (symmetry; apply (Z.mod_unique _ _ (k / L)); lia).
    f_equal; lia.
Qed.

Lemma counters_range E L k : 0 < L → 0 < E → 0 ≤ k < E * L → 0 < E - k / L ≤ E ∧ 0 < L - k mod L ≤ L.
Proof.
  intros HL HE Hk. pose proof (Z.mod_pos_bound k L HL).
  assert (0 ≤ k / L) by (apply Z.div_pos; lia).
  assert (k / L < E) by (apply Z.div_lt_upper_bound; lia). lia.
Qed.

Section Policy.
Context {sdk : SDK} {L : SDKLaws sdk}.
Implicit Types s : chain.

(** The rate of block [k] (from 0) of the policy. *)
Definition policy_rate s (k : Z) (r : Z) : Prop :=
  ∃ p, d_pow (P18 + PmtpPeriodBlockRate (RateParams s)) (k + 1) = Ok p
       ∧ r = p - P18 + PmtpInterPolicyRate (RateParams s).

Lemma PolicyCalculations_Ok s r s' k : BlockHeight s = PmtpPeriodStartBlock (PolicyParams s) + k →
  0 ≤ k < 2 ^ 62 →
  PolicyCalculations s = (Ok r, s') →
  policy_rate s k r
  ∧ s' = s <| RateParams := (RateParams s) <| PmtpCurrentRunningRate := r |> |>.
Proof.
  intros Hh Hk H. unfold PolicyCalculations, SetPmtpCurrentRunningRate in H. inv_ok.
  apply d_add_val in E2, E5. apply d_sub_val in E4. subst. split; [|done].
  rewrite Hh in E3. replace (PmtpPeriodStartBlock (PolicyParams s) + k
    - PmtpPeriodStartBlock (PolicyParams s)) with k in E3 by lia.
  rewrite !i64_id, u64_id in E3 by (rewrite ?i64_id; lia).
  unfold NewDec in *. rewrite d_of_big_law in *. exists v3. split; [|lia].
  by replace (P18 + PmtpPeriodBlockRate (RateParams s))
    with (1 * P18 + PmtpPeriodBlockRate (RateParams s)) by lia.
Qed.

(** One block of the policy. *)
Record policy_block (E len k : Z) (s s' : chain) (r : Z) : Prop := {
  pb_rate : policy_rate s k r;
  pb_running : PmtpCurrentRunningRate (RateParams s') = r;
  pb_block_rate : PmtpPeriodBlockRate (RateParams s') = PmtpPeriodBlockRate (RateParams s);
  pb_params : PolicyParams s' = PolicyParams s;
  pb_height : BlockHeight s' = BlockHeight s;
  pb_inside : k + 1 < E * len → Epoch s' = counters E len (k + 1)
              ∧ PmtpInterPolicyRate (RateParams s') = PmtpInterPolicyRate (RateParams s);
  pb_last : k + 1 = E * len → Epoch s' = mkPmtpEpoch 0 0
            ∧ PmtpInterPolicyRate (RateParams s') = r
}.

Lemma manage_policy_Ok s r s' E len k : policy_ok (PolicyParams s) E len →
  Epoch s = counters E len k → BlockHeight s = PmtpPeriodStartBlock (PolicyParams s) + k →
  0 ≤ k < E * len → manage_policy s = (Ok r, s') → policy_block E len k s s' r.
Proof.
  intros [Hlen [HL HE] Hblocks [Hr1 Hr2]] Hep Hh Hk H.
  destruct (counters_range E len k HL HE Hk) as [HE' HL'].
  destruct (counters_next E len k HL (proj1 Hk)) as [Hnext1 Hnext2].
  assert (E * len < 2 ^ 62 + 1 ∧ E ≤ E * len ∧ len ≤ E * len) as (? & ? & ?) by nia.
  set (q := k / len) in *. set (m := k mod len) in *.
  unfold manage_policy in H. inv_ok. set (len := PmtpPeriodEpochLength (PolicyParams s)) in *.
  rewrite Hep in E4. cbn [EpochCounter counters] in E4. fold q in E4.
  rewrite (proj2 (Z.gtb_lt (E - q) 0)) in E4 by lia.
  rewrite (proj2 (Z.geb_ge _ _)), (proj2 (Z.leb_le _ _)) in E4 by lia. cbn [andb] in E4. inv_ok.
  match goal with H : PolicyCalculations _ = _ |- _ =>
    apply (PolicyCalculations_Ok _ _ _ k) in H as [Hrate ->]; [|done|lia] end.
  unfold DecrementPmtpBlockCounter, DecrementPmtpEpochCounter, SetPmtpBlockCounter, SetPmtpEpoch,
    SetPmtpInterPolicyRate in *. inv_ok. cbn in E6. rewrite Hep in E6. cbn in E6.
  fold len q m in E6. rewrite i64_id in E6 by lia.
  destruct (Z.eq_dec (k + 1) (E * len)) as [Hlast|Hinside].
  - rewrite (proj2 (Z.ltb_ge (BlockHeight s) _)), andb_false_r in E6 by lia.
    rewrite (proj2 (Z.eqb_eq (BlockHeight s) _)) in E7 by lia. cbn [andb] in E6. inv_ok.
    split; try done. intros; lia.
  - rewrite (proj2 (Z.eqb_neq (BlockHeight s) _)) in E7 by lia.
    rewrite (proj2 (Z.ltb_lt (BlockHeight s) _)), (proj2 (Z.geb_ge (BlockHeight s) _)) in E6 by lia.
    rewrite !andb_true_r in E6. inv_ok.
    destruct (Z.eqb_spec (len - m - 1) 0) as [Hm|Hm]; inv_ok.
    + split; try done. intros _. split; [|done]. cbn.
      rewrite i64_id by (fold q; lia). fold q. unfold counters. specialize (Hnext1 ltac:(lia)). injection Hnext1 as Hn1 Hn2.
      apply (f_equal2 mkPmtpEpoch Hn1 Hn2).
    + split; try done. intros _. split; [|done]. cbn. fold q. unfold counters.
      specialize (Hnext2 ltac:(lia)). injection Hnext2 as Hn1 Hn2.
      apply (f_equal2 mkPmtpEpoch Hn1 Hn2).
Qed.

Lemma PolicyStart_Ok s u s' E len : policy_ok (PolicyParams s) E len →
  PolicyStart s = (Ok u, s') →
  Epoch s' = counters E len 0 ∧ PolicyParams s' = PolicyParams s ∧ BlockHeight s' = BlockHeight s
  ∧ PmtpInterPolicyRate (RateParams s') = PmtpInterPolicyRate (RateParams s)
  ∧ f_block_rate (P18 + PmtpPeriodGovernanceRate (PolicyParams s)) E (E * len)
    = Ok (PmtpPeriodBlockRate (RateParams s')).
Proof.
  intros [Hlen [HL HE] Hblocks [Hr1 Hr2]] H. unfold PolicyStart, SetPmtpBlockRate, SetPmtpEpoch in H.
  assert (E * len < 2 ^ 62 + 1 ∧ E ≤ E * len) as (? & ?) by nia.
  assert (i64 (i64 (PmtpPeriodEndBlock (PolicyParams s) - PmtpPeriodStartBlock (PolicyParams s)) + 1)
          = E * len) as Hnb by (rewrite !i64_id; rewrite ?i64_id; lia).
  unfold i64_quo in H. inv_ok. rewrite Hnb in *.
  set (len := PmtpPeriodEpochLength (PolicyParams s)) in *.
  case_test; inv_ok. rewrite Z.quot_mul, i64_id in * by lia. split_and!; try done; cbn.
  - unfold counters. rewrite Z.div_0_l, Z.mod_0_l by lia. f_equal; lia.
  - match goal with H : d_add _ _ = Ok _ |- _ => apply d_add_val in H; unfold NewDec in H;
      rewrite d_of_big_law in H end. subst. unfold must in *.
    replace (P18 + _) with (1 * P18 + PmtpPeriodGovernanceRate (PolicyParams s)) by lia.
    by case_match; inv_ok.
Qed.

(** ** The whole period *)

(** BeginBlocker's part of [n] consecutive blocks from height [h]. *)
Fixpoint policy_blocks (n : nat) (h : Z) : M chain () :=
  match n with
  | O => mret ()
  | S n' => modify (λ s, s <| BlockHeight := h |>);; start_policy;; manage_policy;;
            policy_blocks n' (h + 1)
  end.

Lemma start_policy_skip s u s' : BlockHeight s ≠ PmtpPeriodStartBlock (PolicyParams s) →
  start_policy s = (Ok u, s') → s' = s.
Proof.
  intros Hne H. unfold start_policy in H. inv_ok.
  rewrite (proj2 (Z.eqb_neq _ _) Hne) in H. cbn [andb] in H. by inv_ok.
Qed.

(** From the second block on. *)
Lemma policy_blocks_rest n : ∀ s s' u E len k, policy_ok (PolicyParams s) E len →
  Epoch s = counters E len k → 1 ≤ k → k + Z.of_nat n = E * len → (0 < n)%nat →
  policy_blocks n (PmtpPeriodStartBlock (PolicyParams s) + k) s = (Ok u, s') →
  ∃ r, policy_rate s (E * len - 1) r ∧ PmtpCurrentRunningRate (RateParams s') = r
    ∧ PmtpInterPolicyRate (RateParams s') = r ∧ Epoch s' = mkPmtpEpoch 0 0
    ∧ PolicyParams s' = PolicyParams s.
Proof.
  induction n as [|n IH]; intros s s' u E len k Hok Hep Hk Hn Hpos H; [lia|].
  cbn [policy_blocks] in H. inv_ok.
  match goal with H : start_policy _ = _ |- _ => apply start_policy_skip in H; [|cbn; lia] end. subst.
  match goal with H : manage_policy _ = _ |- _ =>
    apply (manage_policy_Ok _ _ _ E len k) in H as [Hrate Hrun Hbr Hpar Hhe Hin Hla]; [|done|done|done|lia] end.
  cbn in Hpar, Hin, Hla, Hbr.
  destruct n as [|n].
  - destruct Hla as [Hla1 Hla2]; [lia|]. cbn [policy_blocks] in H. inv_ok.
    eexists. split_and!; [|reflexivity|exact Hla2|exact Hla1|exact Hpar].
    replace (E * len - 1) with k by lia. exact Hrate.
  - destruct Hin as [Hin1 Hin2]; [lia|].
    replace (PmtpPeriodStartBlock (PolicyParams s) + k + 1)
      with (PmtpPeriodStartBlock (PolicyParams s) + (k + 1)) in H by lia.
    rewrite <- Hpar in H. eapply IH in H as (r & Hr & Hrest); [|by rewrite Hpar|done|lia..].
    exists r. rewrite <- Hpar. split; [|by destruct Hrest as (? & ? & ? & ?)].
    destruct Hr as (p & Hp & ->). exists p. by rewrite <- Hbr, <- Hin2.
Qed.
End Policy.

(** C29.  A policy that starts on idle counters and whose blocks are all
    processed runs for exactly its period: the counters come back to zero at the
    last block, and the inter-policy rate it leaves is the running rate of that
    block, (1 + block rate) to the number of blocks of the period, minus one,
    plus the inter-policy rate before the policy; the block rate is the one
    PolicyStart derives from the governance rate. *)
Theorem policy_period {sdk : SDK} {L : SDKLaws sdk} (s s' : chain) E len :
  policy_ok (PolicyParams s) E len → 1 < E * len → Epoch s = mkPmtpEpoch 0 0 →
  policy_blocks (Z.to_nat (E * len)) (PmtpPeriodStartBlock (PolicyParams s)) s = (Ok (), s') →
  ∃ blockRate p,
    f_block_rate (P18 + PmtpPeriodGovernanceRate (PolicyParams s)) E (E * len) = Ok blockRate
    ∧ d_pow (P18 + blockRate) (E * len) = Ok p
    ∧ PmtpCurrentRunningRate (RateParams s') = p - P18 + PmtpInterPolicyRate (RateParams s)
    ∧ PmtpInterPolicyRate (RateParams s') = PmtpCurrentRunningRate (RateParams s')
    ∧ Epoch s' = mkPmtpEpoch 0 0.
Proof.
  intros Hok H1 Hep H. destruct (Z.to_nat (E * len)) as [|n] eqn:Hn; [lia|].
  cbn [policy_blocks] in H. inv_ok.
  match goal with H : start_policy _ = _ |- _ => unfold start_policy in H end. inv_ok.
  match goal with H : (if _ then PolicyStart else _) _ = _ |- _ =>
    cbn in H; rewrite Hep in H; cbn in H; rewrite Z.eqb_refl in H; cbn in H;
    eapply PolicyStart_Ok in H as (Hc & Hpar & Hhe & Hint & Hf); [|done] end.
  cbn in Hpar, Hhe, Hint, Hf.
  match goal with H : manage_policy _ = _ |- _ =>
    apply (manage_policy_Ok _ _ _ E len 0) in H as [Hrate Hrun Hbr Hpar' Hhe' Hin Hla];
      [|by rewrite Hpar|done|rewrite Hpar, Hhe; lia|lia] end.
  destruct Hin as [Hin1 Hin2]; [lia|].
  assert (PolicyParams s2 = PolicyParams s) as Hp2 by congruence. rewrite <- Hp2 in H.
  eapply policy_blocks_rest in H as (r & (p & Hp & Hr) & Hrun' & Hint' & Hep' & _);
    [|by rewrite Hp2|exact Hin1|lia..].
  exists (PmtpPeriodBlockRate (RateParams s2)), p. replace (E * len - 1 + 1) with (E * len) in Hp by lia.
  split_and!; [by rewrite Hbr|done|congruence|congruence|done].
Qed.

(** A policy of two epochs of three blocks from block 200. *)
Definition policy_chain : @chain ref_sdk :=
  demo_chain <| PolicyParams := mkPmtpParams (10 ^ 17) 3 200 205 |>.
Definition policy_done : @chain ref_sdk := (policy_blocks (Z.to_nat (2 * 3)) 200 policy_chain).2.

Lemma policy_period_witness :
  ∃ blockRate p,
    f_block_rate (P18 + 10 ^ 17) 2 (2 * 3) = Ok blockRate
    ∧ d_pow (P18 + blockRate) (2 * 3) = Ok p
    ∧ PmtpCurrentRunningRate (RateParams policy_done) = p - P18 + 0
    ∧ PmtpInterPolicyRate (RateParams policy_done) = PmtpCurrentRunningRate (RateParams policy_done)
    ∧ Epoch policy_done = mkPmtpEpoch 0 0.
Proof.
  apply (policy_period (sdk := ref_sdk) policy_chain policy_done 2 3);
    [split; vm_compute; split; (reflexivity || intro; discriminate)|reflexivity|reflexivity|].
  unfold policy_done. apply succeeds_Ok. vm_compute. reflexivity.
Defined.
