(* ===== verification/ClpDistributionClaims.v ===== *)
(** * What rewards and provider distributions guarantee *)
From S2P Require Import Prelude Sdk Reference ClpTypes ClpCalc ClpCalcProps Admin.
From S2P Require Import TokenRegistry MarginTypes Chain ClpKeeper ClpExec ClpMsg ClpBlock.
From S2P Require Import ClpState ClpSwapProps ClpLiquidityProps ClpRemoveProps ClpDecommission.
From S2P Require Import ClpSystem ClpInvariants ClpDistribution Margin Demo ClpClaims.

Section Policy.
Context {sdk : SDK} {L : SDKLaws sdk} {go : GoMap} {G : GoMapLaws go}.
Implicit Types s : chain.

Lemma range_sum {A} (f : A → Z) (m : gmap string A) : zsum (λ e, f e.2) (map_range m) = msum f m.
Proof.
  rewrite msum_list. transitivity (zsum (λ e : string * A, f e.2) (map_to_list m)).
  - apply zsum_perm, map_range_law.
  - induction (map_to_list m) as [|[k x] l IH]; cbn; [done|lia].
Qed.

Lemma collected_empty s half : collected s half ∅ ∅ ∅.
Proof.
  split; [apply shares_ok_empty|reflexivity|]. intros sym p x H. by rewrite lookup_empty in H.
Qed.

Definition rates_ok s : Prop :=
  ∀ p, p ∈ DistributionPeriods s → 0 ≤ DistributionPeriodBlockRate p ≤ P18.

(** Rates of at most one half per block. *)
Definition half_rates s : Prop := ∀ p, p ∈ DistributionPeriods s → 2 * DistributionPeriodBlockRate p ≤ P18.

Lemma doProviderDistribution_Ok s pf m pm s' : clp_wf s → units_match s →
  Z.of_nat (length (kv_iterate (LiquidityProviders s))) < MaxUint64 → rates_ok s →
  doProviderDistribution s = (Ok (pf, m, pm), s') → s' = s ∧ collected s (half_rates s) pf m pm.
Proof.
  intros Hwf Hm Hlen Hr H. unfold doProviderDistribution in H. inv_ok.
  destruct (FindProviderDistributionPeriod _ _) as [period|] eqn:Ep; inv_ok.
  2: { simplify_eq. split; [done|apply collected_empty]. }
  apply List.find_some in Ep as [Hin%list_elem_of_In _].
  unfold GetPools, CollectProviderDistributions, GetAllLiquidityProvidersPartitions,
    GetAllLiquidityProviders in *. inv_ok. split; [done|].
  eapply collect_pools_Ok in H; [done|by apply Hr|by intros Hh; apply Hh| |by apply listing_symbols|apply collected_empty].
  intros p Hp%listing_pools; [|done]. split_and!; try done.
  - by apply (wf_pool s Hwf) in Hp as [_ (([? _] & _) & _)].
  - intros arr lp Ha Hlp. by eapply partition_units.
Qed.

Lemma TransferProviderDistribution_Ok s half pf m pm u s' : clp_wf s → collected s half pf m pm →
  TransferProviderDistribution pf m pm s = (Ok u, s') →
  LiquidityProviders s' = LiquidityProviders s ∧ ∀ d, surplus s d ≤ surplus s' d.
Proof.
  intros Hwf [[Ht Hu Hs] Hsum Hp] H. unfold TransferProviderDistribution in H. inv_ok.
  unfold TransferProviderDistributionGeneric in E.
  apply pay_providers_Ok in E as [P1 L1 M1 B1]; [| |done|].
  - apply debit_pools_Ok in H as (HB & HL & HC).
    + split; [congruence|]. intros d. specialize (B1 d). specialize (HC d). unfold surplus.
      rewrite HC, (range_sum snd). unfold module_balance at 2. rewrite HB.
      change (zsum snd (map_range m)) with (zsum (λ e : string * Z, id e.2) (map_range m)) in B1.
      rewrite (range_sum id), <- Hsum in B1.
      replace (msum snd pf - (msum snd pf - msum snd v)) with (msum snd v) in B1 by lia.
      change (bank_balance (Bank s0) clp_module_address d) with (module_balance s0 d).
      unfold claims at 2. rewrite P1. unfold claims. lia.
    + intros [k [p x']] Hin. rewrite map_range_law in Hin. apply elem_of_map_to_list in Hin.
      cbn [fst snd]. apply M1 in Hin as (x & Hx & Hux & Hle). apply Hp in Hx as (-> & Hpk & _ & Hxn & _).
      rewrite P1. pose proof (wf_pool s Hwf _ _ Hpk) as [_ ((? & _) & _)].
      split_and!; [done|done|done|lia|done|by eapply (wf_valid s Hwf)].
    + rewrite (Permutation_map fst (map_range_law v)). apply NoDup_fst_map_to_list.
  - intros [a x] Hin. rewrite map_range_law in Hin. apply elem_of_map_to_list in Hin. cbn [fst snd].
    split; [by eapply Hu|]. rewrite <- Ht. by rewrite Hin.
  - intros k p x Hk. apply Hp in Hk as (_ & _ & ? & _). done.
Qed.
End Policy.

(** A provider distribution run at the end of a block never pays out of
    the module account more than it takes off the pools' books, whatever order
    the maps are visited in and whichever payments fail: the surplus does not
    shrink in any denomination and the providers keep their units. *)
Theorem ProviderDistribution_solvent {sdk : SDK} {L : SDKLaws sdk} {go : GoMap} {G : GoMapLaws go}
    (s s' : chain) :
  clp_wf s → units_match s →
  Z.of_nat (length (kv_iterate (LiquidityProviders s))) < MaxUint64 → rates_ok s →
  ProviderDistributionPolicyRun s = (Ok (), s') →
  LiquidityProviders s' = LiquidityProviders s ∧ ∀ d, surplus s d ≤ surplus s' d.
Proof.
  intros Hwf Hm Hlen Hr H. unfold ProviderDistributionPolicyRun in H. inv_ok. open_pairs.
  apply doProviderDistribution_Ok in E as [-> Hc]; [|done..].
  by eapply TransferProviderDistribution_Ok.
Qed.

Definition lppd_chain : @chain ref_sdk :=
  demo_chain <| DistributionPeriods := [mkProviderDistributionPeriod (3 * 10 ^ 15) 90 200 5] |>.
Definition go_list : GoMap := {| map_range := λ A m, map_to_list m |}.
#[export] Instance go_list_laws : GoMapLaws go_list.
Proof. split. intros A m. reflexivity. Qed.
Definition after_lppd : @chain ref_sdk := (ProviderDistributionPolicyRun (go := go_list) lppd_chain).2.

Lemma ProviderDistribution_solvent_witness :
  LiquidityProviders after_lppd = LiquidityProviders lppd_chain
  ∧ ∀ d, surplus lppd_chain d ≤ surplus after_lppd d.
Proof.
  apply (ProviderDistribution_solvent (sdk := ref_sdk) (go := go_list) lppd_chain after_lppd).
  - apply (clp_wf_ext demo_chain); [reflexivity..|apply demo_wf].
  - exact demo_units.
  - vm_compute. reflexivity.
  - intros p Hp%list_elem_of_singleton. subst p. vm_compute. split; intro; discriminate.
  - unfold after_lppd. apply succeeds_Ok. vm_compute. reflexivity.
Defined.

(** The providers really are paid: alice's fury grows by what the pools give. *)
Example lppd_pays :
  (ref_balance (Bank after_lppd) "alice" "fury",
   NativeAssetBalance <$> Pools after_lppd !! pool_key "cusdc",
   NativeAssetBalance <$> Pools after_lppd !! pool_key "ceth")
  = (24000, Some 4985000, Some 2991000).
Proof. vm_compute. reflexivity. Qed.

(** ** The arithmetic of the two policies *)

Section Tuples.
Context {sdk : SDK} {L : SDKLaws sdk}.

Lemma calcPoolDistribution_uint m b t x r : calcPoolDistribution m b t x = Ok r → is_uint r.
Proof. unfold calcPoolDistribution. intros H. inv_ok. by apply u_of_big_Ok in H as [-> ?]. Qed.

Lemma collect_tuples_Ok D depth period pools : ∀ rest minted tuples total,
  is_uint rest → is_uint minted → is_uint (rest + minted) →
  collect_tuples D depth period rest minted pools = Ok (tuples, total) →
  total = minted + zsum snd tuples ∧ total ≤ minted + rest
  ∧ ∀ e, e ∈ tuples → e.1 ∈ pools ∧ 0 < e.2.
Proof.
  induction pools as [|p pools IH]; intros rest minted tuples total Hr Hm Hs H; cbn [collect_tuples] in H.
  { inv_ok. simplify_eq. cbn. unfold is_uint in *. split_and!; [lia|lia|by intros e ?%not_elem_of_nil]. }
  case_test; inv_ok.
  { simplify_eq. cbn. unfold is_uint in *. split_and!; [lia|lia|by intros e ?%not_elem_of_nil]. }
  apply calcPoolDistribution_uint in E0 as Hv0.
  case_test; inv_ok.
  { apply IH in H as (-> & Hle & Hin); [|done..]. split_and!; [done|done|].
    intros e He. destruct (Hin e He). split; [by right|done]. }
  bool_prop. set (x := if v0 >? rest then rest else v0) in *.
  assert (0 < x ≤ rest) as Hx.
  { unfold x, is_uint in *. destruct (Z.gtb_spec v0 rest); lia. }
  apply u_add_Ok in E1 as [-> ?]; [|done|unfold is_uint in *; lia].
  apply u_sub_Ok in E2 as [-> ?]; [|done|unfold is_uint in *; lia].
  open_pairs. inv_ok. simplify_eq.
  match goal with H : collect_tuples _ _ _ _ _ _ = Ok _ |- _ =>
    apply IH in H as (-> & Hle & Hin) end; [|done|done|by replace (rest - x + (minted + x)) with (rest + minted) by lia].
  cbn [zsum]. split_and!; [cbn; lia|lia|]. intros e [->|He]%elem_of_cons; [split; [left|cbn; lia]|].
  destruct (Hin e He). split; [by right|done].
Qed.
End Tuples.

(** The rewards of a block never exceed the block's distribution: the coins
    minted are exactly the sum of the rewards of the pools, each of them
    positive, and at most the amount to distribute. *)
Theorem CollectPoolRewardTuples_bounded {sdk : SDK} {L : SDKLaws sdk} pools D depth period tuples minted :
  is_uint D → CollectPoolRewardTuples pools D depth period = Ok (tuples, minted) →
  minted = zsum snd tuples ∧ 0 ≤ minted ≤ D ∧ ∀ e, e ∈ tuples → e.1 ∈ pools ∧ 0 < e.2.
Proof.
  intros HD H. unfold CollectPoolRewardTuples in H.
  apply collect_tuples_Ok in H as (-> & Hle & Hin); [|done|apply is_uint_0|by rewrite Z.add_0_r].
  split_and!; [done| |lia|done].
  assert (0 ≤ zsum snd tuples); [|lia]. apply zsum_nonneg. intros e He. destruct (Hin e He). lia.
Qed.

Definition demo_period : RewardPeriod :=
  mkRewardPeriod "p1" 1 1000 (Some 1000000) [mkPoolMultiplier "ceth" (Some (15 * 10 ^ 17))]
    (Some P18) false 1.
Definition demo_tuples : list (Pool * Z) * Z :=
  match CollectPoolRewardTuples (sdk := ref_sdk) [pool_usdc; pool_eth] 1001 (9500000 * P18) demo_period with
  | Ok r => r | _ => ([], 0) end.

Lemma CollectPoolRewardTuples_bounded_witness :
  demo_tuples.2 = zsum snd demo_tuples.1 ∧ 0 ≤ demo_tuples.2 ≤ 1001
  ∧ ∀ e, e ∈ demo_tuples.1 → e.1 ∈ [pool_usdc; pool_eth] ∧ 0 < e.2.
Proof.
  apply (CollectPoolRewardTuples_bounded (sdk := ref_sdk) [pool_usdc; pool_eth] 1001 (9500000 * P18)
           demo_period); [vm_compute; split; intro; discriminate|vm_compute; reflexivity].
Defined.

(** What CollectProviderDistribution collects from one pool: at most the
    distribution rate times the pool's fury (hence at most the pool's fury), and
    exactly what it adds to the providers' totals, each of which is the sum of
    its shares. *)
Theorem CollectProviderDistribution_exact {sdk : SDK} {L : SDKLaws sdk} p bal rate units lps
    (m : LpFuryMap) (pm : LpPoolMap) T m' pm' :
  0 ≤ bal → 0 ≤ rate ≤ P18 →
  (∀ lp, lp ∈ lps → 0 ≤ LiquidityProviderUnits lp.2 ≤ units) → shares_ok m pm →
  CollectProviderDistribution p (d_of_big bal) rate units lps m pm = Ok (T, m', pm') →
  0 ≤ T ≤ bal ∧ msum id m' = msum id m + T ∧ shares_ok m' pm'.
Proof.
  intros Hb Hr Hin Hok H.
  apply CollectProviderDistribution_Ok in H as ([? _] & ? & _ & ? & ?); [|done..]. done.
Qed.

Definition demo_providers : list (string * LiquidityProvider) :=
  [("alice", lp_usdc <| LiquidityProviderUnits := 667 |>);
   ("bob", lp_usdc <| LiquidityProviderUnits := 333 |>)].
Definition demo_collected : Z * LpFuryMap * LpPoolMap :=
  match CollectProviderDistribution (sdk := ref_sdk) pool_usdc (d_of_big 5000000) (7 * 10 ^ 12) 1000
          demo_providers ∅ ∅ with
  | Ok r => r | _ => (0, ∅, ∅) end.

Lemma CollectProviderDistribution_exact_witness :
  0 ≤ demo_collected.1.1 ≤ 5000000 ∧ msum id demo_collected.1.2 = msum id (∅ : LpFuryMap) + demo_collected.1.1
  ∧ shares_ok demo_collected.1.2 demo_collected.2.
Proof.
  apply (CollectProviderDistribution_exact (sdk := ref_sdk) pool_usdc 5000000 (7 * 10 ^ 12) 1000
           demo_providers ∅ ∅); [lia|vm_compute; split; intro; discriminate| |apply shares_ok_empty
           |vm_compute; reflexivity].
  intros lp Hlp. unfold demo_providers in Hlp. repeat (apply elem_of_cons in Hlp as [->|Hlp]; [cbn; lia|]).
  by apply not_elem_of_nil in Hlp.
Defined.
