(* ===== verification/ClpBlockBooks.v ===== *)
(** * The books across the block processing of clp

    BeginBlocker stores new prices of the pools; EndBlocker pays providers out of
    the pools and mints rewards.  Both leave the stores well formed, the units of
    pools and providers as they were, and what the module account holds beyond the
    claims of the pools no smaller. *)
From S2P Require Import Prelude Wp Sdk ClpTypes ClpCalc ClpCalcProps Admin TokenRegistry.
From S2P Require Import MarginTypes Chain Ledger ClpKeeper ClpExec ClpMsg ClpBlock ClpState ClpLiquidityProps.
From S2P Require Import Reference ClpSwapProps ClpRemoveProps ClpDecommission.
From S2P Require Import ClpInvariants ClpDistribution ClpDistributionClaims.

Section Kept.
Context {sdk : SDK} {L : SDKLaws sdk}.
Implicit Types s : chain.

(** The surplus has grown by [credit] at least. *)
Record book_step (credit : string → Z) (s s' : chain) : Prop := {
  bk_wf : clp_wf s';
  bk_surplus d : surplus s d + credit d ≤ surplus s' d;
  bk_units sym : pool_units_of s' sym = pool_units_of s sym;
  bk_dom k : is_Some (Pools s' !! k) → is_Some (Pools s !! k);
  bk_lps : LiquidityProviders s' = LiquidityProviders s;
  bk_rest : (RemovalRequests s', MarginState s', DispensationState s')
            = (RemovalRequests s, MarginState s, DispensationState s)
}.
Definition block_kept : chain → chain → Prop := book_step (λ _, 0).

Lemma block_kept_refl s : clp_wf s → block_kept s s.
Proof. intros. split; try done. intros d. lia. Qed.

Lemma book_step_trans f g s1 s2 s3 : book_step f s1 s2 → book_step g s2 s3 → book_step (λ d, f d + g d) s1 s3.
Proof.
  intros [W1 S1 U1 D1 L1 R1] [W2 S2 U2 D2 L2 R2].
  split; [done| |intros sym; by rewrite U2|auto|congruence|congruence].
  intros d. specialize (S1 d). specialize (S2 d). lia.
Qed.
Lemma book_step_le f g s s' : (∀ d, g d ≤ f d) → book_step f s s' → book_step g s s'.
Proof. intros Hle [W S U D L' R]. split; try done. intros d. specialize (S d). specialize (Hle d). lia. Qed.
Lemma block_kept_trans s1 s2 s3 : block_kept s1 s2 → block_kept s2 s3 → block_kept s1 s3.
Proof. intros H1 H2. eapply book_step_le; [|exact (book_step_trans _ _ _ _ _ H1 H2)]. intros d. cbv beta. lia. Qed.
Lemma book_step_kept f s1 s2 s3 : book_step f s1 s2 → block_kept s2 s3 → book_step f s1 s3.
Proof. intros H1 H2. eapply book_step_le; [|exact (book_step_trans _ _ _ _ _ H1 H2)]. intros d. cbv beta. lia. Qed.

(** The part of the state the records above read. *)
Definition book_state s :=
  (Pools s, LiquidityProviders s, RemovalRequests s, MarginState s, DispensationState s).

Lemma book_step_state credit s s' : clp_wf s → book_state s' = book_state s →
  (∀ d, module_balance s d + credit d ≤ module_balance s' d) → book_step credit s s'.
Proof.
  intros [H1 H2 H3] [= HP HL HR HM HD] Hb. split.
  - split; rewrite ?HP, ?HL; done.
  - intros d. unfold surplus, claims. rewrite HP. specialize (Hb d). lia.
  - intros sym. unfold pool_units_of. by rewrite HP.
  - by rewrite HP.
  - done.
  - congruence.
Qed.

Lemma block_kept_frame s s' : clp_wf s → book_state s' = book_state s → Bank s' = Bank s → block_kept s s'.
Proof.
  intros Hw Hs Hb. apply book_step_state; [done..|]. intros d. unfold module_balance. rewrite Hb. lia.
Qed.

(** A stored pool is replaced by one with the same asset and units. *)
Lemma book_step_pool credit s p q : clp_wf s → Pools s !! pool_key (Symbol (ExternalAsset q)) = Some q →
  ExternalAsset p = ExternalAsset q → PoolUnits p = PoolUnits q → pool_wf p →
  (∀ d, pool_claim d p + credit d ≤ pool_claim d q) → book_step credit s (put_pool s p).
Proof.
  intros Hw Hq Ha Hu Wp Hd. split; [|..|done|done].
  - apply put_pool_wf; [|done..]. rewrite Ha. by eapply (wf_valid s Hw).
  - intros d. unfold surplus. rewrite (put_pool_claims _ _ q) by by rewrite Ha.
    unfold module_balance. cbn. specialize (Hd d). lia.
  - intros sym. rewrite put_pool_units, Ha, Hu. case_test; [|done]. bool_prop. subst.
    unfold pool_units_of. by rewrite Hq.
  - intros k. cbn. rewrite Ha. destruct (decide (k = pool_key (Symbol (ExternalAsset q)))) as [->|Hne].
    + by rewrite Hq.
    + by rewrite lookup_insert_ne.
Qed.

Lemma SetPool_stored s p q : clp_wf s → Pools s !! pool_key (Symbol (ExternalAsset q)) = Some q →
  ExternalAsset p = ExternalAsset q → SetPool p s = (Ok (), put_pool s p).
Proof.
  intros Hw Hq Ha. unfold SetPool, PoolValidate, mbind, M_bind, lift. rewrite Ha, (wf_valid s Hw _ _ Hq). cbn [negb]. unfold modify, put_pool. by rewrite Ha.
Qed.
End Kept.

(** ** BeginBlocker *)
Section Begin.
Context {sdk : SDK} {L : SDKLaws sdk}.
Implicit Types s : chain.

(** The listed pools are those of the store. *)
Definition listed s (pools : list Pool) : Prop :=
  NoDup ((λ p, Symbol (ExternalAsset p)) <$> pools)
  ∧ ∀ p, p ∈ pools → Pools s !! pool_key (Symbol (ExternalAsset p)) = Some p.

Lemma listed_put s p pools q : listed s (p :: pools) → ExternalAsset q = ExternalAsset p →
  listed (put_pool s q) pools.
Proof.
  intros [[Hni Hnd]%NoDup_cons Hp] Ha. split; [done|]. intros r Hr. cbn.
  rewrite lookup_insert_ne; [apply Hp; by right|]. rewrite Ha. intros He%pool_key_inj. apply Hni.
  rewrite He. by apply (list_elem_of_fmap_2 (λ p, Symbol (ExternalAsset p))).
Qed.
Lemma listed_tail s p pools : listed s (p :: pools) → listed s pools.
Proof. intros [[_ Hnd]%NoDup_cons Hp]. split; [done|]. intros q Hq. apply Hp. by right. Qed.
Lemma listed_store s : clp_wf s → listed s (kv_iterate (Pools s)).*2.
Proof. intros Hw. split; [by apply listing_symbols|]. intros p. by apply listing_pools. Qed.

Lemma update_prices_kept rate p pools s : clp_wf s → listed s (p :: pools) →
  wpe (update_prices rate p) (λ _ s', block_kept s s' ∧ listed s' pools) (block_kept s) s.
Proof.
  intros Hw Hl. pose proof (proj2 Hl p ltac:(by left)) as Hp. pose proof (block_kept_refl s Hw) as Hr.
  unfold update_prices. wpe_steps. apply wpe_reads; [|intros dec _|split; [intros e|done]].
  { unfold GetAssetDecimals. reads_auto. }
  2: { wpe_steps. split; [done|]. by eapply listed_tail. }
  wpe_steps. apply wpe_lift; [|done]. intros n _. wpe_steps. apply wpe_lift; [|done]. intros e _.
  set (p' := p <| SwapPriceNative := Some n |> <| SwapPriceExternal := Some e |>).
  apply wpe_bind. unfold wpe at 1, try. rewrite (SetPool_stored s p' p) by done. wpe_steps.
  split; [|by eapply listed_put]. destruct (wf_pool s Hw _ _ Hp) as [_ Wp]. apply (book_step_pool _ s p' p); try done.
  intros d. unfold pool_claim. cbn. lia.
Qed.

Lemma PolicyRun_kept rate s : clp_wf s → wpe (PolicyRun rate) (λ _, block_kept s) (block_kept s) s.
Proof.
  intros Hw. unfold PolicyRun, GetPools. wpe_steps. pose proof (listed_store s Hw) as Hl.
  generalize dependent (kv_iterate (Pools s)).*2. intros pools. revert s Hw.
  induction pools as [|p pools IH]; intros s Hw Hl; [by apply block_kept_refl|]. cbn. apply wpe_bind.
  eapply wpe_mono; [by apply (update_prices_kept rate p pools)| |done]. intros [] s1 [H1 Hl1].
  eapply wpe_mono; [apply (IH s1 (bk_wf _ _ _ H1) Hl1)|intros [] s2 H2|intros s2 H2]; by eapply block_kept_trans.
Qed.

Lemma BeginBlocker_block_kept s : clp_wf s → wpe ClpBlock.BeginBlocker (λ _, block_kept s) (block_kept s) s.
Proof.
  intros Hw. unfold ClpBlock.BeginBlocker.
  assert (∀ A (m : M chain A), frames (λ s, (book_state s, Bank s)) m →
    ∀ s0, block_kept s s0 → wpe m (λ _, block_kept s) (block_kept s) s0) as Hf.
  { intros A m Hm s0 H0. specialize (Hm s0). unfold wpe.
    assert (block_kept s (m s0).2); [|by destruct (m s0) as [[] ?]].
    eapply block_kept_trans; [exact H0|]. injection Hm as ? HB. apply block_kept_frame; [apply H0| |done].
    unfold book_state. congruence. }
  wpe_steps. eapply wpe_mono; [apply Hf; [|by apply block_kept_refl]| |done].
  { unfold replenish_threshold, SetLiquidityProtectionCurrentFuryLiquidityThreshold. frames_auto. }
  intros [] s1 H1. wpe_steps. eapply wpe_mono; [apply Hf; [|exact H1]| |done].
  { unfold start_policy, PolicyStart, SetPmtpBlockRate, SetPmtpEpoch. frames_auto. }
  intros [] s2 H2. wpe_steps. eapply wpe_mono; [apply Hf; [|exact H2]| |done].
  { unfold manage_policy, PolicyCalculations, SetPmtpCurrentRunningRate, DecrementPmtpBlockCounter,
      DecrementPmtpEpochCounter, SetPmtpBlockCounter, SetPmtpEpoch, SetPmtpInterPolicyRate. frames_auto. }
  intros rate s3 H3. wpe_steps.
  eapply wpe_mono; [apply (PolicyRun_kept rate s3 (bk_wf _ _ _ H3))|intros [] s4 H4|intros s4 H4];
    exact (block_kept_trans _ _ _ H3 H4).
Qed.
End Begin.

(** ** Distributions to providers *)
Section Distribution.
Context {sdk : SDK} {L : SDKLaws sdk} {go : GoMap} {G : GoMapLaws go}.
Implicit Types s : chain.

(** The pools keep fury when they pay. *)
Lemma debit_pools_kept l : ∀ s u s', clp_wf s →
  (∀ e, e ∈ l → e.1 = Symbol (ExternalAsset e.2.1) ∧ Pools s !! pool_key e.1 = Some e.2.1
     ∧ is_uint e.2.2 ∧ e.2.2 < NativeAssetBalance e.2.1) →
  NoDup l.*1 →
  forM l (λ e, try (RemoveFuryFromPool e.2.1 e.2.2);; mret ()) s = (Ok u, s') → block_kept s s'.
Proof.
  induction l as [|[k [p x]] l IH]; intros s u s' Hw Hl Hnd H; cbn [forM] in H.
  - inv_ok. by apply block_kept_refl.
  - rewrite fmap_cons, NoDup_cons in Hnd. destruct Hnd as [Hni Hnd]. cbn [fst] in Hni.
    destruct (Hl (k, (p, x)) ltac:(left)) as (Hk & Hp & Hx & Hlt). cbn [fst snd] in *. subst k.
    destruct (wf_pool s Hw _ _ Hp) as [_ Wp]. pose proof Wp as ((Hn & _) & _).
    apply M_bind_Ok in H as (u1 & s1 & H1 & H).
    set (p' := p <| NativeAssetBalance := NativeAssetBalance p - x |>) in *.
    assert (s1 = put_pool s p') as ->.
    { unfold try, mbind, M_bind in H1.
      rewrite RemoveFuryFromPool_ok in H1 by (done || lia || by eapply (wf_valid s Hw)).
      cbn [fst snd] in H1. by inv_ok. }
    assert (block_kept s (put_pool s p')) as Hs.
    { apply (book_step_pool _ s p' p); try done.
      - unfold pool_wf, pool_uints, pool_deep, is_uint, p' in *. cbn. destruct_and?. split_and?; try done; lia.
      - intros d. unfold p'. rewrite fury_claim, amount_of_one. cbn. case_test; unfold is_uint in *; lia. }
    eapply block_kept_trans; [exact Hs|]. eapply IH; [apply Hs| |done|exact H].
    intros e He. destruct (Hl e ltac:(by right)) as (? & ? & ? & ?). split_and!; try done.
    cbn. rewrite lookup_insert_ne; [done|]. intros Heq%pool_key_inj. apply Hni.
    apply list_elem_of_fmap. exists e. split; [congruence|done].
Qed.

Lemma TransferProviderDistribution_kept s pf m pm u s' : clp_wf s → collected s True pf m pm →
  (∀ k p, Pools s !! k = Some p → 2 ≤ NativeAssetBalance p) →
  TransferProviderDistribution pf m pm s = (Ok u, s') → block_kept s s'.
Proof.
  intros Hw Hc Hrich H. pose proof H as H0.
  apply (TransferProviderDistribution_Ok s True pf m pm u s' Hw Hc) in H0 as [_ Hs].
  destruct Hc as [[Ht Hu Hsh] Hsum Hp].
  unfold TransferProviderDistribution, TransferProviderDistributionGeneric in H. inv_ok.
  rename v into pf1, s0 into s1.
  assert (frames (λ s, (RemovalRequests s, MarginState s, DispensationState s))
            (foldM (pay_provider pm) pf (map_range m))) as Hf.
  { apply frames_foldM. intros pf2 [a x]. unfold pay_provider. frames_auto. intros s2. unfold onBank.
    by destruct (bank_send_mod_to_acc _ _ _ _). }
  specialize (Hf s). rewrite E in Hf. cbn in Hf.
  apply pay_providers_Ok in E as [P1 L1 M1 B1]; [| |done|].
  2: { intros [a x] Hin. rewrite map_range_law in Hin. apply elem_of_map_to_list in Hin. cbn [fst snd].
       split; [by eapply Hu|]. rewrite <- Ht. by rewrite Hin. }
  2: { intros k p x Hk. apply Hp in Hk as (_ & _ & ? & _). done. }
  apply debit_pools_kept in H as [W2 S2 U2 D2 L2 R2].
  - split; [done| | | | |].
    + intros d. specialize (Hs d). lia.
    + intros sym. rewrite U2. unfold pool_units_of. by rewrite P1.
    + intros k Hk. apply D2 in Hk. by rewrite P1 in Hk.
    + congruence.
    + congruence.
  - by apply (clp_wf_ext s).
  - intros [k [p x']] Hin. rewrite map_range_law in Hin. apply elem_of_map_to_list in Hin.
    cbn [fst snd]. apply M1 in Hin as (x & Hx & Hux & Hle). apply Hp in Hx as (-> & Hpk & _ & _ & Hlt).
    rewrite P1. pose proof (Hlt I (Hrich _ _ Hpk)). split_and!; [done|done|done|lia].
  - rewrite (Permutation_map fst (map_range_law pf1)). apply NoDup_fst_map_to_list.
Qed.
End Distribution.

(** ** Payments

    They move fury only, keep the pools of the map, and never end in an error:
    what fails inside is taken back or aborts the block. *)
Section Payments.
Context {sdk : SDK} {L : SDKLaws sdk} {go : GoMap} {G : GoMapLaws go}.
Implicit Types s : chain.

Definition pays_native s s' : Prop :=
  book_state s' = book_state s ∧ ∀ d, d ≠ NativeSymbol → module_balance s d ≤ module_balance s' d.
Definition same_pools (pf pf' : PoolFuryMap) : Prop :=
  ∀ k p x, pf' !! k = Some (p, x) → ∃ y, pf !! k = Some (p, y).

Lemma take_backs_same l : ∀ pf pf', foldR take_back pf l = Ok pf' → same_pools pf pf'.
Proof.
  induction l as [|e l IH]; intros pf pf' H; cbn [foldR] in H; inv_ok; [intros k p x ?; by exists x|].
  intros k p x (y & Hy)%(IH _ _ H). unfold take_back in E.
  destruct (pf !! e.1) as [[q z]|] eqn:Hq; cbn in E; inv_ok.
  apply lookup_insert_Some in Hy as [[<- [= <- <-]]|[_ Hy]]; eauto.
Qed.
Lemma take_backs_no_error l : ∀ pf e, foldR take_back pf l ≠ Err e.
Proof.
  induction l as [|x l IH]; intros pf e H; [done|]. cbn [foldR] in H. unfold take_back in H.
  destruct (pf !! x.1) as [[q z]|]; cbn in H; [|done].
  destruct (u_sub z x.2) eqn:Hs; cbn in H; [by apply IH in H| |done]. by apply u_sub_no_error in Hs.
Qed.

Lemma pay_provider_native pm pf e s :
  wp (pay_provider pm pf e) (λ pf' s', same_pools pf pf' ∧ pays_native s s') (λ _, False) s.
Proof.
  destruct e as [a x]. unfold pay_provider.
  assert (same_pools pf pf ∧ pays_native s s) as Hrefl.
  { split; [by intros k p y ?; exists y|]. split; [done|]. intros; lia. }
  wp_steps. apply wp_lift; [intros addr _|by destruct (acc_from_bech32 a)].
  wp_steps. apply wp_lift; [intros n _|intros e H; by apply i_of_big_no_error in H].
  wp_steps. apply wp_lift; [intros c Hc|intros e; rewrite new_coin_law; by case_match].
  wp_steps. apply wp_lift; [intros cs Hcs|intros e H; by apply new_coins_no_error in H].
  rewrite new_coin_law in Hc. case_match; [|done]. injection Hc as <-.
  assert (∀ s', (onBank (bank_send_mod_to_acc ModuleName addr cs) s).2 = s' → pays_native s s') as Hsend.
  { intros s' <-. unfold onBank.
    destruct (bank_send_mod_to_acc _ _ _ _) as [r b] eqn:Hs. cbn [snd]. split; [done|]. intros d Hd.
    change (bank_balance (Bank s) clp_module_address d ≤ bank_balance b clp_module_address d).
    assert (r = Ok () ∨ r ≠ Ok ()) as [->|Hr] by (destruct r as [[]| |]; by (left + right)).
    - apply send_mod_to_acc_val in Hs. apply (transferred_out _ _ _ _ _ d) in Hs;
        rewrite (new_coins_amount _ _ d Hcs), amount_of_one in *; cbn [fst snd] in *; case_test; bool_prop; try congruence; try lia.
      unfold clp_module_address in *. lia.
    - apply new_coins_length in Hcs.
      rewrite (send_single_fails _ _ _ _ _ _ Hcs Hs Hr clp_module_address d). lia. }
  wp_steps. unfold wp at 1. destruct (onBank _ s) as [[[]| |] s'] eqn:Hs; try done.
  - apply wp_ret. split; [apply Hrefl|by apply Hsend].
  - intros e'. apply wp_lift; [|intros e'' H'; by apply take_backs_no_error in H'].
    intros pf' Hpf. split; [by eapply take_backs_same|by apply Hsend].
Qed.

Lemma payments_native pm pf l s :
  wp (foldM (pay_provider pm) pf l) (λ pf' s', same_pools pf pf' ∧ pays_native s s') (λ _, False) s.
Proof.
  apply (wp_foldM _ (λ pf' s', same_pools pf pf' ∧ pays_native s s')).
  - intros pf1 e s1 _ [H1 [Hb1 Hn1]].
    eapply wp_mono; [apply pay_provider_native| |done]. intros pf2 s2 [H2 [Hb2 Hn2]]. split.
    + intros k p x (y & Hy)%H2. by eapply H1.
    + split; [congruence|]. intros d Hd. specialize (Hn1 d Hd). specialize (Hn2 d Hd). lia.
  - split; [by intros k p y ?; exists y|]. split; [done|]. intros; lia.
Qed.

Lemma TransferProviderDistribution_block_kept s pf m pm : clp_wf s → collected s True pf m pm →
  (∀ k p, Pools s !! k = Some p → 2 ≤ NativeAssetBalance p) →
  wp (TransferProviderDistribution pf m pm) (λ _, block_kept s) (λ _, False) s.
Proof.
  intros Hw Hc Hrich. apply wp_no_error; [|intros [] s'; by apply TransferProviderDistribution_kept].
  unfold TransferProviderDistribution, TransferProviderDistributionGeneric. wp_steps.
  eapply wp_mono; [apply payments_native|intros pf' s' _|done].
  apply (wp_forM _ _ (λ _, True)); [|done]. intros e s1 _ _. wp_steps. unfold wp. by destruct (RemoveFuryFromPool _ _ s1) as [[]].
Qed.
End Payments.

(** ** Depth rewards *)
Section Depth.
Context {sdk : SDK} {L : SDKLaws sdk} {go : GoMap} {G : GoMapLaws go}.
Implicit Types s : chain.

Lemma listed_replace s p q l1 l2 : listed s (l1 ++ p :: l2) → ExternalAsset q = ExternalAsset p →
  listed (put_pool s q) ((l1 ++ [q]) ++ l2).
Proof.
  intros [Hnd Hp] Ha. rewrite fmap_app, fmap_cons in Hnd. split.
  - rewrite !fmap_app, fmap_cons, fmap_nil, Ha, <- app_assoc. exact Hnd.
  - intros r Hr. cbn. apply NoDup_app in Hnd as (_ & Hd1 & [Hd2 _]%NoDup_cons).
    assert (r = q ∨ r ∈ l1 ∨ r ∈ l2) as [->|Hin] by set_solver.
    { by rewrite lookup_insert_eq. }
    rewrite lookup_insert_ne; [apply Hp; set_solver|]. rewrite Ha. intros He%pool_key_inj.
    destruct Hin as [Hin|Hin].
    + apply (Hd1 (Symbol (ExternalAsset r))); [by apply (list_elem_of_fmap_2 (λ p, Symbol (ExternalAsset p)))|].
      rewrite He. left.
    + apply Hd2. rewrite He. by apply (list_elem_of_fmap_2 (λ p, Symbol (ExternalAsset p))).
Qed.

Lemma listed_sublist s l1 l2 : l1 `sublist_of` l2 → listed s l2 → listed s l1.
Proof.
  intros Hs [Hnd Hp]. split.
  - eapply sublist_NoDup; [exact Hnd|apply fmap_sublist, Hs].
  - intros p Hin. apply Hp. by eapply elem_of_sublist.
Qed.

Lemma add_depth_kept period h d l1 p l2 s : clp_wf s → listed s (l1 ++ p :: l2) →
  wp (add_depth period h (d, l1) p) (λ acc s', block_kept s s' ∧ listed s' (acc.2 ++ l2)) (block_kept s) s.
Proof.
  intros Hw Hl. pose proof (block_kept_refl s Hw) as Hr. unfold add_depth.
  wp_steps. apply wp_lift; [intros m _|done]. wp_steps. apply wp_lift; [intros w _|done].
  wp_steps. apply wp_lift; [intros t _|done]. case_match; wp_steps.
  2: { split; [done|]. cbn. by rewrite <- app_assoc. }
  assert (Pools s !! pool_key (Symbol (ExternalAsset p)) = Some p) as Hp by (apply (proj2 Hl); set_solver).
  unfold wp. rewrite (SetPool_stored s _ p) by done. cbn. split; [|by apply (listed_replace s p)].
  destruct (wf_pool s Hw _ _ Hp) as [_ Wp].
  apply (book_step_pool _ s _ p); try done. intros d'. unfold pool_claim. cbn. lia.
Qed.

Lemma calcTotalDepth_kept period h pools s : clp_wf s → listed s pools →
  wp (calcTotalDepth pools period h) (λ acc s', block_kept s s' ∧ listed s' acc.2) (block_kept s) s.
Proof.
  unfold calcTotalDepth. intros Hw. change pools with ([] ++ pools) at 1.
  generalize (@nil Pool) as l1, 0 as d. revert s Hw.
  induction pools as [|p pools IH]; intros s Hw l1 d Hl; cbn [foldM].
  - rewrite app_nil_r in Hl. apply wp_ret. split; [by apply block_kept_refl|done].
  - apply wp_bind. eapply wp_mono; [by apply add_depth_kept| |done]. intros [d1 l2] s1 [H1 Hl1].
    eapply wp_mono; [apply (IH s1 (bk_wf _ _ _ H1) l2 d1 Hl1)|intros acc s2 [H2 Hl2]|intros s2 H2].
    + split; [|done]. exact (block_kept_trans _ _ _ H1 H2).
    + exact (block_kept_trans _ _ _ H1 H2).
Qed.

Lemma collect_tuples_sublist D depth period pools : ∀ rest minted tuples total,
  collect_tuples D depth period rest minted pools = Ok (tuples, total) → tuples.*1 `sublist_of` pools.
Proof.
  induction pools as [|p pools IH]; intros rest minted tuples total H; cbn [collect_tuples] in H.
  { inv_ok. simplify_eq. constructor. }
  case_test; inv_ok; [simplify_eq; apply sublist_nil_l|].
  case_test; inv_ok; [apply sublist_cons; by eapply IH|].
  open_pairs. inv_ok. simplify_eq. cbn. apply sublist_skip. by eapply IH.
Qed.

(** A pool takes its reward: the claims grow by it. *)
Lemma addRewardsToPool_step p x l s : clp_wf s → listed s (p :: l) → is_uint x →
  wp (addRewardsToPool p x)
     (λ _ s', book_step (λ d, - amount_of [(NativeSymbol, x)] d) s s' ∧ listed s' l) (λ _, False) s.
Proof.
  intros Hw Hl Hx. pose proof (proj2 Hl p ltac:(by left)) as Hp.
  destruct (wf_pool s Hw _ _ Hp) as [_ Wp]. pose proof Wp as ((Hn & Huints) & Hrest).
  unfold addRewardsToPool. wp_steps. apply wp_lift; [intros n Hadd|intros e H; by apply u_add_no_error in H].
  apply u_add_Ok in Hadd as [-> Hn']; [|done..].
  wp_steps. apply wp_lift; [intros r Hr%u_add_range|intros e H; by apply u_add_no_error in H].
  wp_steps. unfold wp at 1. rewrite (SetPool_stored s _ p) by done. apply wp_ret.
  split; [|by eapply listed_put]. apply (book_step_pool _ s _ p); try done.
  - unfold pool_wf, pool_uints, pool_deep in *. cbn. unfold is_uint in *. destruct_and?. split_and?; try done; lia.
  - intros d. rewrite amount_of_one. unfold pool_claim. cbn [fst snd]. generalize NativeSymbol as k. intros k.
    cbn. destruct (String.eqb k d); lia.
Qed.

Lemma zero_amount d : amount_of [(NativeSymbol, 0)] d = 0.
Proof. rewrite amount_of_one. cbn. by case_match. Qed.

Lemma add_rewards_kept s0 tuples : ∀ s, clp_wf s → listed s tuples.*1 → (∀ e, e ∈ tuples → is_uint e.2) →
  book_step (λ d, amount_of [(NativeSymbol, zsum snd tuples)] d) s0 s →
  wp (forM tuples (λ e, addRewardsToPool e.1 e.2)) (λ _, block_kept s0) (block_kept s0) s.
Proof.
  induction tuples as [|e tuples IH]; intros s Hw Hl Hu H0; cbn [forM].
  - apply wp_ret. eapply book_step_le; [|exact H0]. intros d. cbn [zsum]. by rewrite zero_amount.
  - apply wp_bind. eapply wp_mono; [apply (addRewardsToPool_step e.1 e.2 tuples.*1 s Hw Hl)| |done].
    { apply Hu. left. }
    intros [] s1 [H1 Hl1]. apply IH; [apply H1|done|intros f Hf; apply Hu; by right|].
    eapply book_step_le; [|exact (book_step_trans _ _ _ _ _ H0 H1)]. intros d. cbn [zsum].
    rewrite native_amount_add. lia.
Qed.
End Depth.

(** ** The end of a block *)
Section EndOfBlock.
Context {sdk : SDK} {L : SDKLaws sdk} {go : GoMap} {G : GoMapLaws go}.
Implicit Types s : chain.

(** The listing of providers is complete and every pool has a provider. *)
Definition provided s : Prop :=
  Z.of_nat (length (kv_iterate (LiquidityProviders s))) < MaxUint64
  ∧ ∀ k, is_Some (Pools s !! k) →
      ∃ kl lp, LiquidityProviders s !! kl = Some lp ∧ k = pool_key (Symbol (LPAsset lp)).

(** The conditions under which the pools can pay: no more than half of a pool's
    fury is distributed at once, and every pool has some fury and a provider. *)
Record payable s : Prop := {
  py_rates p : p ∈ DistributionPeriods s → 0 ≤ DistributionPeriodBlockRate p ∧ 2 * DistributionPeriodBlockRate p ≤ P18;
  py_fury k p : Pools s !! k = Some p → 2 ≤ NativeAssetBalance p;
  py_provided : provided s
}.

Lemma partition_some lps lp : lp ∈ lps → is_Some (partitionLPsbyAsset lps !! Symbol (LPAsset lp)).
Proof.
  unfold partitionLPsbyAsset. induction lps as [|l lps IH] using rev_ind; [by intros ?%not_elem_of_nil|].
  intros Hin. rewrite foldl_app. cbn [foldl]. set (mp := foldl _ ∅ lps) in *.
  assert (∀ arr, is_Some (<[Symbol (LPAsset l) := arr]> mp !! Symbol (LPAsset lp))) as Hgen.
  { intros arr. destruct (decide (Symbol (LPAsset l) = Symbol (LPAsset lp))) as [->|Hne].
    - rewrite lookup_insert_eq. eauto.
    - rewrite lookup_insert_ne by done. apply IH. set_solver. }
  destruct (mp !! Symbol (LPAsset l)); apply Hgen.
Qed.

(** The maps of a distribution name pools as they are stored. *)
Definition stored_map s (pf : PoolFuryMap) : Prop :=
  ∀ k p x, pf !! k = Some (p, x) → k = Symbol (ExternalAsset p) ∧ Pools s !! pool_key k = Some p.

Lemma reward_providers_reads parts tuples s : (∀ e, e ∈ tuples →
    Pools s !! pool_key (Symbol (ExternalAsset e.1)) = Some e.1
    ∧ is_Some (parts !! Symbol (ExternalAsset e.1))) →
  wp (foldM (reward_providers parts) (∅, ∅, ∅) tuples)
     (λ maps s', s' = s ∧ stored_map s maps.1.1) (λ s', s' = s) s.
Proof.
  intros Ht. apply (wp_foldM _ (λ maps s', s' = s ∧ stored_map s maps.1.1)).
  2: { split; [done|]. intros k p x. cbn. by rewrite lookup_empty. }
  intros [[pf m] pm] [p x] s1 He [-> Hpf]. cbn in Hpf. unfold reward_providers.
  destruct (Ht _ He) as [Hp [lps Hlps]]. cbn [fst snd] in *. rewrite Hlps.
  wp_steps. apply wp_lift; [intros valid _|done]. apply wp_lift; [intros [[pf' m'] pm'] H|done].
  split; [done|]. unfold CollectRewards in H. inv_ok. open_pairs. inv_ok. simplify_eq.
  intros k q y. cbn. rewrite lookup_insert_Some. intros [[<- [= <- <-]]|[_ ?]]; [done|by eapply Hpf].
Qed.

Lemma record_rewards_kept l : ∀ s, clp_wf s →
  (∀ e, e ∈ l → e.1 = Symbol (ExternalAsset e.2.1) ∧ Pools s !! pool_key e.1 = Some e.2.1) →
  NoDup l.*1 → wp (forM l record_reward) (λ _ s', block_kept s s' ∧ Bank s' = Bank s) (λ _, False) s.
Proof.
  induction l as [|[k [p x]] l IH]; intros s Hw Hl Hnd; cbn [forM].
  { apply wp_ret. split; [by apply block_kept_refl|done]. }
  rewrite fmap_cons, NoDup_cons in Hnd. destruct Hnd as [Hni Hnd]. cbn [fst] in Hni.
  destruct (Hl (k, (p, x)) ltac:(left)) as [Hk Hp]. cbn [fst snd] in *. subst k.
  assert (∀ s1, block_kept s s1 → Bank s1 = Bank s →
    (∀ sym, sym ≠ Symbol (ExternalAsset p) → Pools s1 !! pool_key sym = Pools s !! pool_key sym) →
    wp (forM l record_reward) (λ _ s', block_kept s s' ∧ Bank s' = Bank s) (λ _, False) s1) as Hgo.
  { intros s1 H1 HB HP. eapply wp_mono; [apply IH; [apply H1| |done]| |done].
    - intros e He. destruct (Hl e ltac:(by right)) as [He1 He2]. split; [done|]. rewrite HP; [done|].
      intros Heq. apply Hni, list_elem_of_fmap. by exists e.
    - intros [] s2 [H2 HB2]. split; [exact (block_kept_trans _ _ _ H1 H2)|congruence]. }
  apply wp_bind. unfold record_reward at 1. cbn [snd]. case_match.
  { apply wp_ret, Hgo; [by apply block_kept_refl|done..]. }
  wp_steps. apply wp_lift; [intros d Hd%u_add_range|intros e He; by apply u_add_no_error in He].
  wp_steps. unfold wp at 1. rewrite (SetPool_stored s _ p) by done. apply wp_ret, Hgo; [|done|].
  - destruct (wf_pool s Hw _ _ Hp) as [_ Wp]. apply (book_step_pool _ s _ p); try done.
    intros d'. unfold pool_claim. cbn. lia.
  - intros sym Hne. cbn. rewrite lookup_insert_ne; [done|]. intros Heq%pool_key_inj. by apply Hne.
Qed.

Lemma provided_partitions s p : provided s → Pools s !! pool_key (Symbol (ExternalAsset p)) = Some p →
  is_Some (partitionLPsbyAsset (kv_filtered_paginate (MaxUint64 - 1) (λ _, true)
    (kv_iterate (LiquidityProviders s))) !! Symbol (ExternalAsset p)).
Proof.
  intros [Hlen Hall] Hp. destruct (Hall _ (ex_intro _ _ Hp)) as (kl & lp & Hlp & ->%pool_key_inj).
  apply partition_some. rewrite kv_filtered_paginate_law by (unfold MaxUint64 in *; lia).
  apply list_elem_of_filter. split; [done|]. apply list_elem_of_fmap. exists (kl, lp). split; [done|].
  rewrite kv_iterate_law. by apply elem_of_map_to_list.
Qed.

(** Burning takes fury of the module account, or nothing. *)
Lemma BurnFury_step s x : clp_wf s →
  wp (BurnFury x) (λ _, book_step (λ d, - amount_of [(NativeSymbol, x)] d) s) (block_kept s) s.
Proof.
  intros Hw. unfold BurnFury. pose proof (block_kept_refl s Hw) as Hr.
  wp_steps. apply wp_lift; [intros c Hc|done]. wp_steps. apply wp_lift; [intros cs Hcs|done].
  rewrite new_coin_law in Hc. case_match; [|done]. injection Hc as <-.
  unfold wp, onBank. destruct (bank_burn ModuleName cs (Bank s)) as [r b] eqn:Hb.
  destruct r as [[]| |]; [| |done]; apply book_step_state; try done; intros d;
    change (module_balance (s <| Bank := b |>) d) with (bank_balance b clp_module_address d); unfold module_balance.
  - rewrite (burn_val _ _ _ _ Hb), (new_coins_amount _ _ d Hcs). unfold clp_module_address.
    rewrite String.eqb_refl. lia.
  - rewrite (burn_single_fails _ _ _ _ _ (new_coins_length _ _ Hcs) Hb) by done. lia.
Qed.

(** What the module account holds of fury beyond [s0], and nothing of the rest. *)
Definition fury_credit s0 s (d : string) : Z :=
  amount_of [(NativeSymbol, module_balance s NativeSymbol - module_balance s0 NativeSymbol)] d.

Lemma distribute_rewards_kept s0 s tuples minted : clp_wf s0 → book_state s = book_state s0 →
  (∀ d, module_balance s0 d ≤ module_balance s d) → listed s tuples.*1 → provided s →
  wp (distribute_rewards tuples minted (NativeSymbol, module_balance s0 NativeSymbol))
     (λ _, block_kept s0) (block_kept s0) s.
Proof.
  intros Hw0 Hs Hb Hl Hp. assert (block_kept s0 s) as H0.
  { apply book_step_state; [done..|]. intros d. specialize (Hb d). lia. }
  unfold distribute_rewards, GetAllLiquidityProvidersPartitions, GetAllLiquidityProviders, TransferRewards,
    TransferProviderDistributionGeneric.
  wp_steps. eapply wp_mono; [apply reward_providers_reads| |by intros s' ->].
  { intros e He. assert (e.1 ∈ tuples.*1) as He1 by (apply list_elem_of_fmap; by exists e).
    apply Hl in He1 as Hst. split; [done|]. by apply provided_partitions. }
  intros [[pf m] pm] s1 [-> Hpf]. cbn in Hpf. wp_steps. apply wp_lift; [intros sum _|done].
  wp_steps. eapply wp_mono; [apply payments_native| |done]. intros pf2 s2 [Hsame [Hs2 Hb2]].
  wp_steps. assert (book_step (fury_credit s0 s2) s0 s2) as H2.
  { apply book_step_state; [done|congruence|]. intros d. unfold fury_credit. rewrite amount_of_one. cbn [fst snd].
    case_test; bool_prop; subst; [lia|]. specialize (Hb d). specialize (Hb2 d ltac:(done)). lia. }
  eapply wp_mono; [apply (record_rewards_kept _ s2 (bk_wf _ _ _ H2))| |done].
  { intros [k [p x]] Hin. rewrite map_range_law in Hin. apply elem_of_map_to_list in Hin.
    apply Hsame in Hin as [y Hy]. cbn [fst snd]. injection Hs2 as HP _ _ _ _. rewrite HP. by eapply Hpf. }
  { rewrite (Permutation_map fst (map_range_law pf2)). apply NoDup_fst_map_to_list. }
  intros [] s3 [H3 HB3]. pose proof (book_step_kept _ _ _ _ H2 H3) as H03.
  unfold GetModuleFury. wp_steps. apply wp_lift; [intros diff Hd|intros e He; by apply coin_sub_no_error in He].
  apply coin_sub_val in Hd as (_ & -> & Hle). cbn [fst snd] in *.
  change (bank_balance (Bank s3) clp_module_address NativeSymbol) with (module_balance s3 NativeSymbol) in *.
  assert (module_balance s3 = module_balance s2) as HB by (unfold module_balance; by rewrite HB3).
  rewrite HB in *.
  assert (∀ s', block_kept s0 s' → wp (minted ← lift (i_of_big minted);
    lift (i_sub minted (module_balance s2 NativeSymbol - module_balance s0 NativeSymbol));; mret ())
    (λ _, block_kept s0) (block_kept s0) s') as Hend.
  { intros s' H'. wp_steps. apply wp_lift; [intros n _|done]. wp_steps. by apply wp_lift. }
  assert (block_kept s0 s3) as H03'.
  { eapply book_step_le; [|exact H03]. intros d. unfold fury_credit. rewrite amount_of_one. cbn [fst snd]. case_test; lia. }
  apply wp_bind. case_match; [|by apply wp_ret, Hend]. apply wp_bind, wp_try.
  eapply wp_mono; [apply (BurnFury_step s3 _ (bk_wf _ _ _ H03))|intros [] s4 H4|intros s4 H4 _]; apply wp_ret, Hend.
  - eapply book_step_le; [|exact (book_step_trans _ _ _ _ _ H03 H4)]. intros d. unfold fury_credit. cbv beta. lia.
  - exact (block_kept_trans _ _ _ H03' H4).
Qed.

(** Minting grows the module account, or leaves it alone. *)
Lemma mint_step s n cs : new_coins [(NativeSymbol, n)] = Ok cs →
  wp (onBank (bank_mint ModuleName cs))
    (λ _ s', book_state s' = book_state s
       ∧ ∀ d, module_balance s' d = module_balance s d + amount_of [(NativeSymbol, n)] d)
    (λ s', book_state s' = book_state s ∧ ∀ d, module_balance s' d = module_balance s d) s.
Proof.
  intros Hcs. unfold wp, onBank. destruct (bank_mint ModuleName cs (Bank s)) as [r b] eqn:Hb.
  destruct r as [[]| |]; [| |done]; (split; [done|]); intros d;
    change (module_balance (s <| Bank := b |>) d) with (bank_balance b clp_module_address d); unfold module_balance.
  - rewrite (mint_val _ _ _ _ Hb), (new_coins_amount _ _ d Hcs). unfold clp_module_address.
    by rewrite String.eqb_refl.
  - by rewrite (mint_one_err _ _ _ _ _ _ Hcs Hb).
Qed.

Lemma book_provided s s' : book_state s' = book_state s → provided s → provided s'.
Proof. intros [= HP HL _ _ _]. unfold provided. by rewrite HP, HL. Qed.
Lemma kept_provided s s' : block_kept s s' → provided s → provided s'.
Proof. intros H [Hl Hp]. unfold provided. rewrite (bk_lps _ _ _ H). split; [done|]. intros k Hk%(bk_dom _ _ _ H). by apply Hp. Qed.

Lemma DistributeDepthRewards_kept D period pools s : clp_wf s → listed s pools → provided s → is_uint D →
  wp (DistributeDepthRewards D period pools) (λ _, block_kept s) (block_kept s) s.
Proof.
  intros Hw Hl Hp HD. unfold DistributeDepthRewards. wp_steps.
  assert (∀ s1, block_kept s s1 → listed s1 pools → wp (if D =? 0 then mret () else
    '(totalDepth, pools) ← calcTotalDepth pools period (u64 (BlockHeight s));
    if totalDepth <=? 0 then mret () else
    '(tuples, coinsToMint) ← lift (CollectPoolRewardTuples pools D totalDepth period);
    moduleBalancePreMinting ← GetModuleFury;
    amount ← lift (i_of_big coinsToMint);
    coin ← lift (new_coin NativeSymbol amount);
    rewardCoins ← lift (new_coins [coin]);
    onBank (bank_mint ModuleName rewardCoins);;
    if RewardPeriodDistribute period
    then distribute_rewards tuples coinsToMint moduleBalancePreMinting
    else forM tuples (λ e, addRewardsToPool e.1 e.2);; lift (i_of_big coinsToMint);; mret ())
    (λ _, block_kept s) (block_kept s) s1) as Hgo.
  2: { destruct (u64 (BlockHeight s) =? RewardPeriodStartBlock period); do 3 try wp_step; apply Hgo; [|done|by apply block_kept_refl|done]. by apply block_kept_frame. }
  intros s1 H1 Hl1. case_match; [by apply wp_ret|].
  assert (∀ s2, block_kept s1 s2 → block_kept s s2) as Hk by (intros s2 H2; exact (block_kept_trans _ _ _ H1 H2)).
  wp_steps. eapply wp_mono; [apply (calcTotalDepth_kept _ _ _ s1 (bk_wf _ _ _ H1) Hl1)| |exact Hk].
  intros [depth pools2] s2 [H2%Hk Hl2]. case_match; [by apply wp_ret|]. cbn [snd] in Hl2.
  wp_steps. apply wp_lift; [intros [tuples minted] Ht|done].
  pose proof (collect_tuples_sublist _ _ _ _ _ _ _ _ Ht) as Hsub.
  apply CollectPoolRewardTuples_bounded in Ht as (-> & Hmin & Hin); [|done].
  unfold GetModuleFury. wp_steps. apply wp_lift; [intros n ->%i_of_big_val|done].
  wp_steps. apply wp_lift; [intros c Hc|done]. wp_steps. apply wp_lift; [intros cs Hcs|done].
  rewrite new_coin_law in Hc. case_match; [|done]. injection Hc as <-.
  pose proof (bk_wf _ _ _ H2) as Hw2. assert (∀ s3, block_kept s2 s3 → block_kept s s3) as Hk2.
  { intros s3 Hs3. exact (block_kept_trans _ _ _ H2 Hs3). }
  assert (listed s2 tuples.*1) as Hlt by (by eapply listed_sublist).
  wp_steps. eapply wp_mono; [by apply mint_step| |].
  2: { intros s3 [Hs3 Hb3]. apply Hk2, book_step_state; [done..|]. intros d. rewrite Hb3. lia. }
  intros [] s3 [Hs3 Hb3].
  assert (listed s3 tuples.*1) as Hlt3.
  { injection Hs3 as HP _ _ _ _. unfold listed. by rewrite HP. }
  case_match.
  - eapply wp_mono; [apply (distribute_rewards_kept s2)|intros [] s4|intros s4]; [done|done| |done| |auto..].
    + intros d. rewrite Hb3, amount_of_one. cbn [fst snd]. case_test; lia.
    + eapply book_provided; [done|]. by eapply kept_provided.
  - assert (∀ e, e ∈ tuples → is_uint e.2) as Hu.
    { intros e He. destruct (Hin e He) as [_ Hpos].
      pose proof (zsum_elem snd tuples e) as Hle. specialize (Hle ltac:(intros f Hf; destruct (Hin f Hf); lia) He).
      unfold is_uint in *. lia. }
    apply wp_bind. eapply wp_mono; [apply (add_rewards_kept s2)| |].
    + injection Hs3 as HP HL _ _ _. by apply (clp_wf_ext s2).
    + done.
    + done.
    + apply book_step_state; [done..|]. intros d. rewrite Hb3. lia.
    + intros [] s4 Hs4. wp_steps. apply wp_lift; [intros n _; apply wp_ret|intros _ _]; auto.
    + auto.
Qed.

Lemma ProviderDistribution_block_kept s : clp_wf s → units_match s → payable s →
  wp ProviderDistributionPolicyRun (λ _, block_kept s) (block_kept s) s.
Proof.
  intros Hw Hm [Hr Hf [Hlen _]]. unfold ProviderDistributionPolicyRun. wp_steps.
  apply wp_reads; [unfold doProviderDistribution, GetPools, CollectProviderDistributions,
    GetAllLiquidityProvidersPartitions, GetAllLiquidityProviders; reads_auto| |by apply block_kept_refl].
  intros [[pf m] pm] H. apply doProviderDistribution_Ok in H as [_ [H1 H2 H3]]; [|done..|].
  2: { intros p Hp. destruct (Hr p Hp). pose proof P18_pos. lia. }
  eapply wp_mono; [apply TransferProviderDistribution_block_kept; [done| |done]|done|done].
  split; [done|done|]. intros sym p x Hx. destruct (H3 _ _ _ Hx) as (? & ? & ? & ? & Hlt). split_and!; try done.
  intros _. apply Hlt. intros q Hq. by apply Hr.
Qed.

Lemma EndBlocker_kept s : clp_wf s → units_match s → payable s →
  wp ClpBlock.EndBlocker (λ _, block_kept s) (block_kept s) s.
Proof.
  intros Hw Hm Hp. pose proof (block_kept_refl s Hw) as Hr. unfold ClpBlock.EndBlocker, IsDistributionBlock.
  assert (reads IsDistributionBlock) as Hdb by (unfold IsDistributionBlock; reads_auto).
  apply wp_bind, wp_reads; [done| |done]. intros b _. apply wp_bind.
  apply (wp_mono _ (λ _, block_kept s) _ (block_kept s) _); [|intros [] s1 H1|done].
  { destruct b; [by apply ProviderDistribution_block_kept|by apply wp_ret]. }
  unfold GetPools, GetBlockDistributionAccu. wp_steps. case_match; [|by apply wp_ret].
  wp_steps. apply wp_lift; [intros a _|done]. case_match; [by apply wp_ret|].
  wp_steps. apply wp_lift; [intros d _|done]. wp_steps. apply wp_lift; [intros c _|done]. wp_steps.
  apply wp_lift; [intros D HD%u_add_range|done].
  assert (∀ s2 x, block_kept s s2 → wp (SetBlockDistributionAccu x) (λ _, block_kept s) (block_kept s) s2) as Hset.
  { intros s2 x H2. apply wp_modify. apply (block_kept_trans _ _ _ H2), block_kept_frame; [apply H2|done..]. }
  destruct d; [|by apply Hset]. wp_steps.
  assert (∀ s2, block_kept s1 s2 → block_kept s s2) as Hk by (intros s2 H2; exact (block_kept_trans _ _ _ H1 H2)).
  pose proof (bk_wf _ _ _ H1) as Hw1.
  eapply wp_mono; [apply DistributeDepthRewards_kept; [done|by apply listed_store| |done]|intros [] s2 H2|intros s2 H2 e]; auto.
  apply (kept_provided _ _ H1), Hp.
Qed.
End EndOfBlock.
