(* ===== verification/ClpUnlockClaims.v ===== *)
(** * What the unlock records guarantee *)
From S2P Require Import Prelude Sdk Reference ClpTypes ClpCalc ClpCalcProps Admin.
From S2P Require Import TokenRegistry MarginTypes Chain ClpKeeper ClpExec ClpMsg ClpState.
From S2P Require Import ClpSwapProps ClpLiquidityProps ClpRemoveProps ClpDecommission.
From S2P Require Import ClpSystem ClpInvariants Margin Demo ClpClaims.

(** A record may be used: it is old enough, or age does not matter. *)
Definition usable (any : bool) (height lockPeriod : Z) (r : LiquidityUnlock) : bool :=
  any || (i64 (RequestHeight r + i64 lockPeriod) <=? height).

Definition usable_units (any : bool) (height lockPeriod : Z) (rs : list LiquidityUnlock) : Z :=
  zsum (λ r, if usable any height lockPeriod r then Units r else 0) rs.

(** A record after the loop: the same request with no more units, and with all
    of them when it may not be used. *)
Definition used_from (any : bool) (height lockPeriod : Z) (r r' : LiquidityUnlock) : Prop :=
  RequestHeight r' = RequestHeight r ∧ 0 ≤ Units r' ≤ Units r
  ∧ (usable any height lockPeriod r = false → r' = r).

Section Use.
Context {sdk : SDK} {L : SDKLaws sdk} {mk : MarginKeeper}.

Lemma used_from_refl any h lp r : is_uint (Units r) → used_from any h lp r r.
Proof. intros [? ?]. split_and!; [done|done|lia|done]. Qed.

Lemma use_records_spec any h lp rs : ∀ left, is_uint left → (∀ r, r ∈ rs → is_uint (Units r)) →
  ∃ rs', use_records any h lp rs left = Ok (rs', Z.max 0 (left - usable_units any h lp rs))
    ∧ Forall2 (used_from any h lp) rs rs'
    ∧ usable_units any h lp rs' = Z.max 0 (usable_units any h lp rs - left).
Proof.
  induction rs as [|r rs IH]; intros left Hl Hu.
  { exists []. cbn. unfold is_uint in Hl. split_and!; [do 2 f_equal; lia|constructor|lia]. }
  assert (is_uint (Units r)) as Hr by (apply Hu; left).
  assert (∀ q, q ∈ rs → is_uint (Units q)) as Hrs by (intros q Hq; apply Hu; by right).
  assert (0 ≤ usable_units any h lp rs) as Hpos.
  { apply zsum_nonneg. intros q Hq. case_test; [|lia]. by destruct (Hrs q Hq). }
  cbn [use_records]. change (any || _) with (usable any h lp r).
  unfold usable_units. cbn [zsum]. fold (usable_units any h lp rs).
  destruct (usable any h lp r) eqn:Hus.
  - destruct (Z.gtb_spec left (Units r)) as [Hgt|Hle]; unfold is_uint in *.
    + rewrite u_sub_law, uint_checked_in by (unfold is_uint; lia). cbn [mbind res_bind].
      destruct (IH (left - Units r)) as (rs' & -> & Hf & Hs); [unfold is_uint; lia|done|].
      cbn [mbind res_bind]. eexists. split; [do 2 f_equal; lia|]. split.
      * constructor; [|done]. split_and!; cbn; try done; try lia. congruence.
      * cbn [zsum]. fold (usable_units any h lp rs').
        change (usable any h lp (r <| Units := 0 |>)) with (usable any h lp r). rewrite Hus. cbn. lia.
    + rewrite u_sub_law, uint_checked_in by (unfold is_uint; lia). cbn [mbind res_bind].
      eexists. split; [do 2 f_equal; lia|]. split.
      * constructor; [split_and!; cbn; try done; try lia; congruence|].
        apply Forall_Forall2_diag, Forall_forall. intros q Hq. apply used_from_refl.
        unfold is_uint. auto.
      * cbn [zsum]. fold (usable_units any h lp rs).
        change (usable any h lp (r <| Units := Units r - left |>)) with (usable any h lp r).
        rewrite Hus. cbn. lia.
  - destruct (IH left) as (rs' & -> & Hf & Hs); [done|done|]. cbn [mbind res_bind].
    eexists. split; [do 2 f_equal; lia|]. split.
    + constructor; [|done]. by apply used_from_refl.
    + cbn [zsum]. fold (usable_units any h lp rs'). rewrite Hus. lia.
Qed.
End Use.

(** C31.  UseUnlockedLiquidity takes exactly the units asked for out of the
    records that have passed the lock period (out of all of them when it is told that
    age does not matter) and leaves the others alone.  When those records hold fewer
    units it fails with ErrBalanceNotAvailable and writes nothing, unless the lock
    period is zero: then it succeeds and uses up the units there are. *)
Theorem UseUnlockedLiquidity_exact {sdk : SDK} {L : SDKLaws sdk} (lp : LiquidityProvider) units any
    (s : chain) :
  let lock := LiquidityRemovalLockPeriod (RewardsParams s) in
  let avail := usable_units any (BlockHeight s) lock (Unlocks lp) in
  is_uint units → (∀ r, r ∈ Unlocks lp → is_uint (Units r)) →
  AssetValidate (LPAsset lp) = Ok true →
  if (units <=? avail) || (lock =? 0)
  then ∃ rs, UseUnlockedLiquidity lp units any s
             = (Ok (lp <| Unlocks := rs |>),
                put_lp s (lp <| Unlocks := filter (λ r, Units r ≠ 0) rs |>))
       ∧ Forall2 (used_from any (BlockHeight s) lock) (Unlocks lp) rs
       ∧ usable_units any (BlockHeight s) lock rs = avail - Z.min units avail
  else UseUnlockedLiquidity lp units any s = (Err (EClp ErrBalanceNotAvailable), s).
Proof.
  intros lock avail Hu Hrs Hv.
  destruct (use_records_spec any (BlockHeight s) lock (Unlocks lp) units Hu Hrs) as (rs & Hr & Hf & Hs).
  assert (UseUnlockedLiquidity lp units any s
    = if negb (lock =? 0) && negb (Z.max 0 (units - avail) =? 0) then (Err (EClp ErrBalanceNotAvailable), s)
      else (Ok (lp <| Unlocks := rs |>), put_lp s (lp <| Unlocks := filter (λ r, Units r ≠ 0) rs |>))) as ->.
  { unfold UseUnlockedLiquidity, gets, lift, mbind, M_bind. cbn. fold lock. rewrite Hr. cbn. fold avail.
    destruct (negb _ && negb _); [done|]. unfold SetLiquidityProvider, LiquidityProviderValidate, lift, mbind, M_bind.
    cbn. rewrite Hv. done. }
  fold avail in Hs. destruct (Z.leb_spec units avail) as [Hle|Hgt]; cbn [orb].
  - rewrite Z.max_l, andb_false_r by lia. exists rs. split_and!; [done|done|]. rewrite Hs. lia.
  - rewrite Z.max_r by lia. rewrite (proj2 (Z.eqb_neq (units - avail) 0)) by lia. cbn [negb andb].
    rewrite andb_true_r. destruct (lock =? 0); [|done]. exists rs. split_and!; [done|done|]. rewrite Hs. lia.
Qed.

Definition locked_lp : LiquidityProvider :=
  lp_usdc <| Unlocks := [mkLiquidityUnlock 10 40; mkLiquidityUnlock 95 30; mkLiquidityUnlock 20 50] |>.
Definition locked_chain : @chain ref_sdk :=
  demo_chain <| RewardsParams := mkRewardParams 50 518400 [] "" |>.

Lemma UseUnlockedLiquidity_exact_witness :
  ∃ rs, UseUnlockedLiquidity locked_lp 60 false locked_chain
        = (Ok (locked_lp <| Unlocks := rs |>),
           put_lp locked_chain (locked_lp <| Unlocks := filter (λ r, Units r ≠ 0) rs |>))
    ∧ Forall2 (used_from false 100 50) (Unlocks locked_lp) rs
    ∧ usable_units false 100 50 rs = 90 - Z.min 60 90.
Proof.
  apply (UseUnlockedLiquidity_exact (sdk := ref_sdk) locked_lp 60 false locked_chain);
    [vm_compute; split; intro; discriminate| |reflexivity].
  intros r Hr. cbn in Hr. repeat (apply elem_of_cons in Hr as [->|Hr]; [vm_compute; split; intro; discriminate|]).
  by apply not_elem_of_nil in Hr.
Defined.

Section Request.
Context {sdk : SDK} {L : SDKLaws sdk} {mk : MarginKeeper}.
Implicit Types s : chain.

(** What [PruneUnlockRecords] keeps. *)
Lemma PruneUnlockRecords_list lp a b s lp' s' : PruneUnlockRecords lp a b s = (Ok lp', s') →
  Unlocks lp' = filter (λ r, expired (BlockHeight s) a b r || (Units r =? 0) = false) (Unlocks lp).
Proof.
  unfold PruneUnlockRecords. intros H. inv_ok. case_test; inv_ok; [done|].
  symmetry. assert (∀ l, existsb (λ r, expired (BlockHeight s) a b r || (Units r =? 0)) l = false →
    filter (λ r, expired (BlockHeight s) a b r || (Units r =? 0) = false) l = l) as Hf; [|by apply Hf].
  induction l as [|r l IH]; [done|]. cbn [existsb]. intros Hx. apply orb_false_iff in Hx as [Hr Hl].
  rewrite filter_cons_True by done. by rewrite IH.
Qed.

Lemma unlock_sum l t : (∀ r, r ∈ l → is_uint (Units r)) → ∀ t0, is_uint t0 →
  foldR (λ t u, u_add t (Units u)) t0 l = Ok t → t = t0 + zsum Units l ∧ is_uint t.
Proof.
  induction l as [|r l IH]; intros Hl t0 Ht H; cbn [foldR] in H.
  - inv_ok. cbn. split; [lia|done].
  - inv_ok. apply u_add_Ok in E as [-> ?]; [|done|apply Hl; left].
    apply IH in H as [-> ?]; [|intros q Hq; apply Hl; by right|done]. cbn. split; [lia|done].
Qed.

Lemma keeps_Prune_height lp a b s lp' s' : PruneUnlockRecords lp a b s = (Ok lp', s') →
  BlockHeight s' = BlockHeight s.
Proof.
  assert (∀ l, keeps BlockHeight (SetLiquidityProvider l)) as Hk
    by (intros l; unfold SetLiquidityProvider; keep_auto).
  revert s lp' s'. change (keeps BlockHeight (PruneUnlockRecords lp a b)).
  unfold PruneUnlockRecords. keep_auto.
Qed.

Lemma zsum_app_units l r : zsum Units (l ++ [r]) = zsum Units l + Units r.
Proof. induction l; cbn; lia. Qed.
End Request.

(** A successful MsgUnlockLiquidity appends one record with the current
    height and the units asked for, after dropping expired and empty ones, and
    the provider never has more units being unlocked than it holds. *)
Theorem msg_UnlockLiquidity_bounded {sdk : SDK} {L : SDKLaws sdk} {mk : MarginKeeper}
    (m : MsgUnlock.t) (s s' : chain) lp :
  clp_wf s → account_signer (MsgUnlock.Signer m) → is_uint (MsgUnlock.Units m) →
  MsgUnlock_ValidateBasic m = Ok () →
  let key := GetLiquidityProviderKey (Symbol (MsgUnlock.ExternalAsset m)) (MsgUnlock.Signer m) in
  LiquidityProviders s !! key = Some lp → (∀ r, r ∈ Unlocks lp → is_uint (Units r)) →
  msg_UnlockLiquidity m s = (Ok (), s') →
  ∃ lp', LiquidityProviders s' !! key = Some lp'
    ∧ LiquidityProviderUnits lp' = LiquidityProviderUnits lp
    ∧ Unlocks lp' = filter (λ r, expired (BlockHeight s) (LiquidityRemovalLockPeriod (RewardsParams s))
                                   (LiquidityRemovalCancelPeriod (RewardsParams s)) r
                                 || (Units r =? 0) = false) (Unlocks lp)
                    ++ [mkLiquidityUnlock (BlockHeight s) (MsgUnlock.Units m)]
    ∧ zsum Units (Unlocks lp') ≤ LiquidityProviderUnits lp'.
Proof.
  intros Hwf (addr & Ha & _) Hu Hv key Hlp Hrs H. unfold MsgUnlock_ValidateBasic, check_asset in Hv.
  inv_ok. unfold msg_UnlockLiquidity in H. inv_read.
  match goal with H : LiquidityProviders s !! _ = Some ?l |- _ =>
    assert (l = lp) as -> by (unfold key in Hlp; congruence) end.
  pose proof Hlp as Hf. apply (found_provider _ _ _ addr) in Hf as (Hsym & Hadr & Hh); [|done..].
  match goal with H : PruneUnlockRecords _ _ _ _ = (Ok ?l, ?t) |- _ => rename l into lp1; rename t into s1;
    apply PruneUnlockRecords_list in H as Hlist; apply keeps_Prune_height in H as Hheight;
    apply PruneUnlockRecords_Ok in H as (R & (Hsa & Hsd & Hsu) & Hh1); [|done..] end.
  case_test; inv_ok. bool_prop.
  match goal with H : foldR _ 0 _ = Ok _ |- _ => apply unlock_sum in H as [-> ?]; [| |apply is_uint_0] end.
  2: { intros r Hr. rewrite Hlist in Hr. apply list_elem_of_filter in Hr as [_ Hr]. by apply Hrs. }
  match goal with H : u_add _ _ = Ok _ |- _ => apply u_add_Ok in H as [-> ?]; [|done..] end.
  apply SetLiquidityProvider_valid in H as ->.
  2: { cbn. rewrite <- Hsa. by rewrite (Asset_eta_eq _ _ Hsym). }
  eexists. split_and!.
  - cbn. unfold key. rewrite <- Hsym, <- Hadr, Hsa, Hsd. apply lookup_insert_eq.
  - done.
  - cbn. by rewrite Hlist, Hheight.
  - cbn. rewrite zsum_app_units. cbn. lia.
Qed.

Definition demo_unlock : MsgUnlock.t := MsgUnlock.mk "alice" usdc 400.
Definition after_unlock : @chain ref_sdk := (msg_UnlockLiquidity demo_unlock demo_chain).2.

Lemma msg_UnlockLiquidity_bounded_witness :
  ∃ lp', LiquidityProviders after_unlock !! GetLiquidityProviderKey "cusdc" "alice" = Some lp'
    ∧ LiquidityProviderUnits lp' = 1000
    ∧ Unlocks lp' = [] ++ [mkLiquidityUnlock 100 400]
    ∧ zsum Units (Unlocks lp') ≤ LiquidityProviderUnits lp'.
Proof.
  apply (msg_UnlockLiquidity_bounded (sdk := ref_sdk) demo_unlock demo_chain after_unlock lp_usdc);
    [apply demo_wf|apply account_alice|vm_compute; split; intro; discriminate|vm_compute; reflexivity
    |vm_compute; reflexivity|intros r Hr; by apply not_elem_of_nil in Hr
    |unfold after_unlock; apply succeeds_Ok; vm_compute; reflexivity].
Defined.
