(* ===== verification/AccessClaims.v ===== *)
(** * Access control, the token registry and the keys of the stores *)
From S2P Require Import Prelude Sdk Reference ClpTypes ClpCalc ClpCalcProps Admin.
From S2P Require Import TokenRegistry MarginTypes Chain ClpKeeper ClpExec ClpMsg ClpState.
From S2P Require Import ClpStaking ClpSystem Margin MarginSystem Demo.

(** ** Administrators *)

(** C38.  A key of the admin store determines the account it holds, so
    AddAccount and RemoveAccount by an ADMIN change the set of administrators by
    exactly that account, and nobody else changes it: any other signer gets an
    error and the store is left alone. *)
Theorem admin_accounts_refine {sdk : SDK} {L : SDKLaws sdk} (st : AdminStore) signer addr
    (a : AdminAccount) :
  admin_wf st → known_type (AdminAccountType a) → acc_from_bech32 signer = Ok addr →
  let allowed := is_admin st AdminType_ADMIN (acc_string addr) in
  (allowed → ∃ st1 st2,
     AddAccount signer a st = (Ok (), st1) ∧ RemoveAccount signer a st = (Ok (), st2)
     ∧ admin_wf st1 ∧ admin_wf st2
     ∧ (∀ t x, is_admin st1 t x ↔ is_admin st t x ∨ mkAdminAccount t x = a)
     ∧ (∀ t x, is_admin st2 t x ↔ is_admin st t x ∧ mkAdminAccount t x ≠ a))
  ∧ (¬ allowed → AddAccount signer a st = (Err (EOther "unauthorised signer"), st)
               ∧ RemoveAccount signer a st = (Err (EOther "unauthorised signer"), st)).
Proof.
  intros Hwf Ha Haddr allowed. split.
  - intros Hok. exists (SetAdminAccount a st), (RemoveAdminAccount a st).
    assert (admin_signer st AdminType_ADMIN signer (EOther "unauthorised signer") = Ok ()) as Hs.
    { unfold admin_signer. rewrite Haddr. cbn.
      by rewrite (proj2 (IsAdminAccount_spec st AdminType_ADMIN addr) Hok). }
    split_and!.
    + unfold AddAccount, gets, lift, modify, mbind, M_bind, id. by rewrite Hs.
    + unfold RemoveAccount, gets, lift, modify, mbind, M_bind, id. by rewrite Hs.
    + by apply SetAdminAccount_wf.
    + by apply RemoveAdminAccount_wf.
    + intros t x. unfold is_admin. cbn. split.
      * intros [k Hk]. apply lookup_insert_Some in Hk as [[_ <-]|[_ Hk]]; [by right|left; eauto].
      * intros [[k Hk]|<-]; [|eexists; apply lookup_insert_eq].
        destruct (decide (k = GetAdminAccountKey a)) as [->|Hne].
        -- apply Hwf in Hk as [Hk Ht]. apply admin_key_inj in Hk as Heq; [|done..].
           subst a. eexists. apply lookup_insert_eq.
        -- exists k. by rewrite lookup_insert_ne.
    + intros t x. unfold is_admin. cbn. split.
      * intros [k Hk]. apply lookup_delete_Some in Hk as [Hne Hk]. split; [eauto|].
        intros <-. apply Hwf in Hk as [-> _]. done.
      * intros [[k Hk] Hne]. exists k. apply lookup_delete_Some. split; [|done].
        intros <-. apply Hwf in Hk as [Hk Ht]. by apply admin_key_inj in Hk as Heq.
  - intros Hno. pose proof (admin_signer_denied st AdminType_ADMIN signer addr
      (EOther "unauthorised signer") Haddr Hno) as Hs.
    split; unfold AddAccount, RemoveAccount, gets, lift, modify, mbind, M_bind, id; by rewrite Hs.
Qed.

Lemma demo_admins_wf : admin_wf demo_admins.
Proof.
  unfold demo_admins. repeat apply SetAdminAccount_wf; try (vm_compute; split; intro; discriminate).
  intros k a Hk. discriminate Hk.
Qed.

Lemma admin_accounts_refine_witness :
  let a := mkAdminAccount AdminType_MARGIN "carol" in
  (is_admin demo_admins AdminType_ADMIN "root" → ∃ st1 st2,
     AddAccount (sdk := ref_sdk) "root" a demo_admins = (Ok (), st1)
     ∧ RemoveAccount (sdk := ref_sdk) "root" a demo_admins = (Ok (), st2)
     ∧ admin_wf st1 ∧ admin_wf st2
     ∧ (∀ t x, is_admin st1 t x ↔ is_admin demo_admins t x ∨ mkAdminAccount t x = a)
     ∧ (∀ t x, is_admin st2 t x ↔ is_admin demo_admins t x ∧ mkAdminAccount t x ≠ a))
  ∧ (¬ is_admin demo_admins AdminType_ADMIN "root" →
       AddAccount (sdk := ref_sdk) "root" a demo_admins = (Err (EOther "unauthorised signer"), demo_admins)
       ∧ RemoveAccount (sdk := ref_sdk) "root" a demo_admins
         = (Err (EOther "unauthorised signer"), demo_admins)).
Proof.
  apply (admin_accounts_refine (sdk := ref_sdk) demo_admins "root" "root");
    [apply demo_admins_wf|vm_compute; split; intro; discriminate|reflexivity].
Defined.

(** The administrator a message of clp needs, and the signer; none for the messages of
    traders and providers, and for MsgDecommissionPool, which the whitelist guards. *)
Definition clp_admin {sdk : SDK} (m : clp_msg) : option (AdminType * string) :=
  match m with
  | CreatePoolMsg _ | DecommissionPoolMsg _ | AddLiquidityMsg _ | RemoveLiquidityMsg _
  | RemoveLiquidityUnitsMsg _ | SwapMsg _ | CancelUnlockMsg _ | UnlockLiquidityMsg _ => None
  | ModifyPmtpRatesMsg m => Some (AdminType_PMTPREWARDS, MsgModifyPmtpRates.Signer m)
  | UpdatePmtpParamsMsg m => Some (AdminType_PMTPREWARDS, MsgUpdatePmtpParams.Signer m)
  | UpdateRewardsParamsMsg signer _ _ | AddRewardPeriodMsg signer _
  | AddProviderDistributionPeriodMsg signer _ | UpdateSwapFeeParamsMsg signer _ =>
      Some (AdminType_PMTPREWARDS, signer)
  | UpdateLiquidityProtectionParamsMsg m =>
      Some (AdminType_CLPDEX, MsgUpdateLiquidityProtectionParams.Signer m)
  | ModifyLiquidityProtectionRatesMsg signer _ | SetSymmetryThresholdMsg signer _ _ =>
      Some (AdminType_CLPDEX, signer)
  end.

(** The signer of a message of margin that needs its administrator: all but those of
    the owners of positions. *)
Definition margin_admin {sdk : SDK} (m : margin_msg) : option string :=
  match m with
  | OpenMsg _ | CloseMsg _ => None
  | ForceCloseMsg signer _ _ | UpdateParamsMsg signer _ | UpdatePoolsMsg signer _ _
  | UpdateFuryCollateralMsg signer _ | WhitelistMsg signer _ | DewhitelistMsg signer _
  | AdminCloseAllMsg signer _ => Some signer
  | AdminCloseMsg m => Some (MsgAdminClose.Signer m)
  end.

(** What a clp message answers to anybody else: one of them checks its periods first. *)
Definition refused {sdk : SDK} (m : clp_msg) : res () :=
  match m with
  | AddProviderDistributionPeriodMsg signer periods =>
      MsgAddProviderDistributionPeriod_ValidateBasic signer periods;; Err not_enough
  | _ => Err not_enough
  end.

Section Guards.
Context {sdk : SDK} {L : SDKLaws sdk}.

Lemma require_admin_denied {A} (s : chain) t signer addr e (k : M chain A) :
  acc_from_bech32 signer = Ok addr → ¬ is_admin (AdminState s) t (acc_string addr) →
  (require_admin t signer e;; k) s = (Err e, s).
Proof.
  intros Ha Hno. unfold require_admin, gets, lift, mbind, M_bind. by rewrite (admin_signer_denied _ _ _ addr).
Qed.

(** C39.  Only an administrator of the right type gets past the guard of the
    administrative messages of the clp and margin modules: all that change parameters,
    rates, periods or thresholds of clp, the one that writes the mint module, and all
    of margin but MsgOpen and MsgClose.  For any other signer they fail and no store
    changes.  MsgDecommissionPool fails for a signer that is not on the whitelist of clp
    and changes nothing. *)
Theorem admin_messages_guarded {mk : MarginKeeper} {mt : MintKeeper} (s : chain) signer addr :
  acc_from_bech32 signer = Ok addr →
  (∀ m t, clp_admin m = Some (t, signer) → ¬ is_admin (AdminState s) t (acc_string addr) →
     NewHandler m s = (refused m, s) ∧ refused m ≠ Ok ())
  ∧ (∀ m ms, MsgUpdateStakingRewardParams.Signer m = signer →
       ¬ is_admin (AdminState s) AdminType_PMTPREWARDS (acc_string addr) →
       msg_UpdateStakingRewardParams m (s, ms) = (Err not_enough, (s, ms)))
  ∧ (∀ m, margin_admin m = Some signer → ¬ is_admin (AdminState s) AdminType_MARGIN (acc_string addr) →
       MarginServer m s = (Err EAdminDenied, s))
  ∧ (∀ m, MsgDecommissionPool.Signer m = signer → ValidateAddress addr s = (Ok false, s) →
       (NewHandler (DecommissionPoolMsg m) s).2 = s ∧ (NewHandler (DecommissionPoolMsg m) s).1 ≠ Ok ()).
Proof.
  intros Ha. split_and!.
  - intros m t Hm Hno. destruct m; try discriminate Hm; injection Hm as <- Hs; cbn [NewHandler refused]; subst;
      try (split; [by apply (require_admin_denied _ _ _ addr)|done]).
    unfold msg_AddProviderDistributionPeriod. unfold mbind at 1 3, M_bind at 1, lift at 1.
    destruct (MsgAddProviderDistributionPeriod_ValidateBasic _ _) as [[]|e|]; [|done..].
    split; [by apply (require_admin_denied _ _ _ addr)|done].
  - intros m ms <- Hno. unfold msg_UpdateStakingRewardParams, gets, lift, mbind, M_bind. cbn [fst snd].
    by rewrite (admin_signer_denied _ _ _ addr).
  - intros m Hm Hno. destruct m; try discriminate Hm; injection Hm as Hs; cbn [MarginServer]; subst;
      by apply (require_admin_denied _ _ _ addr).
  - intros m <- Hv. cbn [NewHandler].
    assert (∃ r, msg_DecommissionPool m s = (r, s) ∧ r ≠ Ok ()) as (r & -> & Hr); [|done].
    unfold msg_DecommissionPool.
    destruct (wrapM (EClp ErrPoolDoesNotExist) (GetPool (MsgDecommissionPool.Symbol m)) s) as [r s1] eqn:E.
    assert (s1 = s) as ->.
    { revert E. unfold wrapM, GetPool, gets, mbind, M_bind. destruct (Pools s !! _); by intros [= <- <-]. }
    unfold mbind at 1, M_bind at 1. rewrite E. destruct r as [pool|e|]; [|by eexists..].
    unfold mbind at 1, M_bind at 1, lift at 1. rewrite Ha. unfold mbind at 1, M_bind at 1. rewrite Hv. by eexists.
Qed.
End Guards.

(** A mint module whose store holds nothing. *)
#[export] Instance demo_mint : MintKeeper := {|
  MintStore := (); minter := (); mint_params := (); AnnualProvisions _ := 0; Inflation _ := 0;
  SetMinter _ st := st; SetMintParams _ st := st; MintParamsValidate _ := Ok ()
|}.

Lemma admin_messages_guarded_witness :
  NewHandler (AddProviderDistributionPeriodMsg "bob" []) demo_chain = (Err not_enough, demo_chain)
  ∧ NewHandler (SetSymmetryThresholdMsg "bob" 1 1) demo_chain = (Err not_enough, demo_chain)
  ∧ MarginServer (DewhitelistMsg "bob" "alice") demo_chain = (Err EAdminDenied, demo_chain)
  ∧ (NewHandler (DecommissionPoolMsg (MsgDecommissionPool.mk "bob" "ceth")) demo_chain).2 = demo_chain.
Proof.
  assert (∀ t, t = AdminType_PMTPREWARDS ∨ t = AdminType_CLPDEX ∨ t = AdminType_MARGIN →
    ¬ is_admin (AdminState demo_chain) t "bob") as Hno.
  { intros t Ht Hin. apply (IsAdminAccount_spec (sdk := ref_sdk)) in Hin.
    destruct Ht as [->|[-> | ->]]; vm_compute in Hin; discriminate Hin. }
  destruct (admin_messages_guarded (sdk := ref_sdk) demo_chain "bob" "bob" eq_refl) as (H1 & _ & H3 & H4).
  split_and!.
  - refine (proj1 (H1 (AddProviderDistributionPeriodMsg "bob" []) AdminType_PMTPREWARDS eq_refl _)). apply Hno. auto.
  - refine (proj1 (H1 (SetSymmetryThresholdMsg "bob" 1 1) AdminType_CLPDEX eq_refl _)). apply Hno. auto.
  - refine (H3 (DewhitelistMsg "bob" "alice") eq_refl _). apply Hno. auto.
  - refine (proj1 (H4 (MsgDecommissionPool.mk "bob" "ceth") eq_refl _)). unfold ValidateAddress, GetClpWhiteList, gets, lift, mbind, M_bind. cbn. reflexivity.
Defined.

(** ** The token registry *)

(** C40.  The registry behaves as a map from denominations to entries: after
    SetToken the entry is found under its denomination and every other
    denomination is as before; after RemoveToken that denomination is not found
    and the others are as before; neither registers a denomination twice. *)
Theorem registry_refines_map (wl : Registry) (e : RegistryEntry) (denom d : string) :
  unique_denoms wl →
  GetEntry (SetToken e wl) d = (if String.eqb (Denom e) d then Ok e else GetEntry wl d)
  ∧ GetEntry (RemoveToken denom wl) d
    = (if String.eqb denom d then Err (EOther "registry entry not found") else GetEntry wl d)
  ∧ unique_denoms (SetToken e wl) ∧ unique_denoms (RemoveToken denom wl).
Proof.
  intros Hu. split_and!.
  - destruct (String.eqb_spec (Denom e) d) as [<-|Hne].
    + apply GetEntry_SetToken_same.
    + by apply GetEntry_SetToken_other, not_eq_sym.
  - apply GetEntry_RemoveToken.
  - by apply SetToken_unique.
  - by apply RemoveToken_unique.
Qed.

Lemma registry_refines_map_witness :
  let wl := [Some (demo_entry "fury" 18); Some (demo_entry "cusdc" 6)] in
  let e := demo_entry "ceth" 18 in
  GetEntry (SetToken e wl) "cusdc" = GetEntry wl "cusdc"
  ∧ GetEntry (RemoveToken "fury" wl) "cusdc" = GetEntry wl "cusdc"
  ∧ unique_denoms (SetToken e wl) ∧ unique_denoms (RemoveToken "fury" wl).
Proof.
  apply (registry_refines_map [Some (demo_entry "fury" 18); Some (demo_entry "cusdc" 6)]
           (demo_entry "ceth" 18) "fury" "cusdc").
  unfold unique_denoms. cbn. apply NoDup_cons. split; [|apply NoDup_singleton].
  intros H%list_elem_of_singleton. discriminate.
Defined.

(** ** Keys of margin positions *)

(** The key of a position determines its owner and its identifier, and the
    eight bytes of a counter are read back as the counter. *)
Theorem margin_keys_roundtrip (a b : string) (x y : Z) :
  0 ≤ x < 2 ^ 64 → 0 ≤ y < 2 ^ 64 →
  (GetMTPKey a x = GetMTPKey b y ↔ a = b ∧ x = y)
  ∧ GetUint64FromBytes (GetUint64Bytes x) = Ok x.
Proof.
  intros Hx Hy. split; [split; [by apply GetMTPKey_inj|by intros [-> ->]]|by apply GetUint64_roundtrip].
Qed.

Lemma margin_keys_roundtrip_witness :
  (GetMTPKey "alice" 258 = GetMTPKey "alice" 513 ↔ "alice" = "alice" ∧ 258 = 513)
  ∧ GetUint64FromBytes (GetUint64Bytes 258) = Ok 258.
Proof. apply (margin_keys_roundtrip "alice" "alice" 258 513); lia. Defined.
