(* ===== verification/MarginClaims.v ===== *)
(** * What the arithmetic of margin positions guarantees *)
From S2P Require Import Prelude Sdk Reference ClpTypes ClpCalc ClpCalcProps Admin.
From S2P Require Import TokenRegistry MarginTypes Chain ClpKeeper ClpExec ClpMsg ClpState.
From S2P Require Import Margin Demo.

(** Settling a position accounts for every unit of the amount recovered:
    principal is paid first, then interest, and only what exceeds both is
    returned to the owner; it succeeds whenever the debt fits a [Uint]. *)
Theorem settle_exact {sdk : SDK} {L : SDKLaws sdk} have liabilities unpaid :
  is_uint have → is_uint liabilities → is_uint unpaid → is_uint (liabilities + unpaid) →
  ∃ ret debtP debtI, settle have liabilities unpaid = Ok (ret, debtP, debtI)
    ∧ have = ret + (liabilities - debtP) + (unpaid - debtI)
    ∧ 0 ≤ ret ≤ have ∧ 0 ≤ debtP ≤ liabilities ∧ 0 ≤ debtI ≤ unpaid
    ∧ (0 < ret → debtP = 0 ∧ debtI = 0) ∧ (0 < debtP → debtI = unpaid).
Proof.
  intros Hh Hl Hu Ho. unfold settle. rewrite u_add_in by done. cbn [mbind res_bind].
  unfold is_uint in *.
  destruct (Z.ltb_spec have liabilities); [|destruct (Z.ltb_spec have (liabilities + unpaid))].
  - rewrite u_sub_law, uint_checked_in by (unfold is_uint; lia). cbn.
    do 3 eexists. split; [done|]. lia.
  - rewrite u_sub_law, uint_checked_in by (unfold is_uint; lia). cbn.
    do 3 eexists. split; [done|]. lia.
  - rewrite u_sub_law, uint_checked_in by (unfold is_uint; lia). cbn.
    rewrite u_sub_law, uint_checked_in by (unfold is_uint; lia). cbn.
    do 3 eexists. split; [done|]. lia.
Qed.

Lemma settle_exact_witness :
  ∃ ret debtP debtI, settle 100 90 25 = Ok (ret, debtP, debtI)
    ∧ 100 = ret + (90 - debtP) + (25 - debtI)
    ∧ 0 ≤ ret ≤ 100 ∧ 0 ≤ debtP ≤ 90 ∧ 0 ≤ debtI ≤ 25
    ∧ (0 < ret → debtP = 0 ∧ debtI = 0) ∧ (0 < debtP → debtI = 25).
Proof.
  apply (settle_exact (sdk := ref_sdk) 100 90 25); vm_compute; split; intro; discriminate.
Defined.

(** ** Interest rates *)
Section Rates.
Context {sdk : SDK} {L : SDKLaws sdk}.

Lemma clamp_rate_range r lo hi : lo ≤ hi → lo ≤ clamp_rate r lo hi ≤ hi.
Proof. intros. unfold clamp_rate. repeat case_test; bool_prop; lia. Qed.

Lemma GetSQFromBlocks_range pool rate s q s' : 0 ≤ rate →
  0 ≤ MarginParams.InterestRateMax (GetParams s) →
  0 ≤ i64 (BlockHeight s - i64 (GetSQBeginBlock s pool)) →
  GetSQFromBlocks pool rate s = (Ok q, s') →
  s' = s ∧ 0 ≤ q ≤ MarginParams.InterestRateMax (GetParams s).
Proof.
  intros Hr Hmax Hb H. unfold GetSQFromBlocks in H. inv_ok. case_test; inv_ok; [split; [done|lia]|].
  split; [done|]. pose proof (f_decay_unit rate _ Hr Hb) as Hd.
  match goal with H : d_sub _ _ = Ok _ |- _ =>
    apply d_sub_val in H; unfold NewDec in H; rewrite d_of_big_law in H; subst end.
  match goal with H : d_mul _ _ = Ok _ |- _ => rename H into Hm; apply d_mul_val in Hm end.
  pose proof P18_pos.
  split; [eapply nearest_nonneg; [|exact Hm]|eapply nearest_le; [exact Hm|]]; nia.
Qed.
End Rates.

(** The interest rate of an enabled pool stays between the minimum and
    twice the maximum of the parameters, however the pool stands: the computed
    rate is clamped and the surcharge for a long queue is at most the maximum. *)
Theorem InterestRateComputation_bounded {sdk : SDK} {L : SDKLaws sdk} (pool : Pool) (s s' : chain) rate :
  let params := GetParams s in
  0 ≤ MarginParams.InterestRateMin params ≤ MarginParams.InterestRateMax params →
  0 ≤ i64 (BlockHeight s - i64 (GetSQBeginBlock s pool)) →
  InterestRateComputation pool s = (Ok rate, s') →
  s' = s ∧ MarginParams.InterestRateMin params ≤ rate ≤ 2 * MarginParams.InterestRateMax params.
Proof.
  intros params Hp Hb H. unfold InterestRateComputation in H. inv_ok.
  match goal with H : GetSQFromBlocks _ (clamp_rate ?r ?lo ?hi) _ = _ |- _ =>
    pose proof (clamp_rate_range r lo hi) as Hc;
    apply GetSQFromBlocks_range in H as [-> Hq]; [|unfold params in *; lia|unfold params in *; lia|done] end.
  match goal with H : d_add _ _ = Ok rate |- _ => apply d_add_val in H as -> end.
  unfold params in *. split; [done|]. lia.
Qed.

Definition rate_of (p : Pool) : Z :=
  match (InterestRateComputation p demo_chain).1 with Ok r => r | _ => 0 end.

Lemma InterestRateComputation_bounded_witness :
  (InterestRateComputation pool_eth demo_chain).2 = demo_chain
  ∧ MarginParams.InterestRateMin (GetParams demo_chain) ≤ rate_of pool_eth
    ≤ 2 * MarginParams.InterestRateMax (GetParams demo_chain).
Proof.
  apply (InterestRateComputation_bounded (sdk := ref_sdk) pool_eth demo_chain
           (InterestRateComputation pool_eth demo_chain).2 (rate_of pool_eth));
    [vm_compute; split; intro; discriminate|vm_compute; intro; discriminate|].
  rewrite (surjective_pairing (InterestRateComputation pool_eth demo_chain)) at 1.
  apply (f_equal (λ r, (r, _))). vm_compute. reflexivity.
Defined.

(** ** A position that cannot be closed *)

(** Bob owes 1000 ceth and 50 ceth of interest against a custody of 100 fury.  One
    BeginBlocker spends the whole custody on interest.  From then on every attempt
    to close swaps nothing, which CLPSwap refuses with [ErrAmountTooLow]: the owner,
    an administrator and BeginBlocker are all turned away, and the liability stays
    on the books of the pool. *)
Definition stranded_mtp : MTP :=
  (NewMTP "bob" "ceth" "fury" Position_LONG (2 * P18)) <| Liabilities := 1000 |>
  <| InterestUnpaidCollateral := 50 |> <| CustodyAmount := 100 |> <| MtpId := 1 |>.
Definition stranded_chain : @chain ref_sdk := demo_chain
  <| Pools := <[pool_key "ceth" := pool_eth <| NativeCustody := 100 |> <| ExternalLiabilities := 1000 |>]> demo_pools |>
  <| MarginState := demo_margin <| MTPs := {[GetMTPKey "bob" 1 := stranded_mtp]} |> |>.
Definition stranded_after : @chain ref_sdk := (Margin.BeginBlocker stranded_chain).2.
Definition stranded_position (s : @chain ref_sdk) :=
  (λ m, (CustodyAmount m, Liabilities m, InterestUnpaidCollateral m)) <$> MTPs (MarginState s) !! GetMTPKey "bob" 1.

Example spent_position_stays :
  stranded_position stranded_after = Some (0, 1000, 202)
  ∧ (msg_Close (MsgClose.mk "bob" 1) stranded_after).1 = Err (EClp ErrAmountTooLow)
  ∧ (msg_AdminClose (MsgAdminClose.mk "root" "bob" 1 true) stranded_after).1 = Err (EClp ErrAmountTooLow)
  ∧ stranded_position (Margin.BeginBlocker stranded_after).2 = Some (0, 1000, 202).
Proof. vm_compute. split_and!; reflexivity. Qed.

(** BeginBlocker takes the custody of a position out of the pool before the swap that
    may refuse to go on, and only logs that refusal: here the pool is left with no
    custody while the position still counts 24, and closing it panics. *)
Definition half_closed_chain : @chain ref_sdk :=
  let m := stranded_mtp <| Liabilities := 3 |> <| InterestUnpaidCollateral := 1 |> <| CustodyAmount := 90 |> in
  demo_chain
  <| Pools := <[pool_key "ceth" := pool_eth <| NativeCustody := 90 |> <| ExternalLiabilities := 3 |>]> demo_pools |>
  <| MarginState := demo_margin <| MTPs := {[GetMTPKey "bob" 1 := m]} |> |>.
Definition half_closed_after : @chain ref_sdk := (Margin.BeginBlocker half_closed_chain).2.

Example custody_taken_out_alone :
  (NativeCustody <$> Pools half_closed_after !! pool_key "ceth") = Some 0
  ∧ stranded_position half_closed_after = Some (24, 3, 0)
  ∧ (msg_Close (MsgClose.mk "bob" 1) half_closed_after).1 = Panic.
Proof. vm_compute. split_and!; reflexivity. Qed.
