(* ===== verification/DexClaims.v ===== *)
(** * What clp and margin guarantee together

    Runs in which the messages of both modules alternate, and what happens when
    a position is opened between two assets neither of which is fury. *)
From S2P Require Import Prelude Sdk Reference ClpTypes ClpCalc ClpCalcProps Admin.
From S2P Require Import TokenRegistry MarginTypes Chain ClpKeeper ClpExec ClpMsg ClpState.
From S2P Require Import ClpSystem ClpInvariants Margin MarginBooks MarginSystem Demo ClpClaims.

(** ** The demonstration chain *)
Lemma demo_dex_inv : dex_inv demo_chain.
Proof. split; [apply demo_inv|]. intros k m H. cbn in H. by rewrite lookup_empty in H. Qed.

Lemma demo_funds : funds_outside demo_chain.
Proof. split; intros a H; vm_compute in H; injection H as <-; discriminate. Qed.

(** Bob borrows fury against 300 ceth, trades are made on the same pool, the
    position is closed; he opens another one that an administrator closes. *)
Definition dex_demo : list (@dex_msg ref_sdk) :=
  [ Margin (OpenMsg (MsgOpen.mk "bob" "ceth" 300 "fury" Position_LONG (2 * P18)));
    Clp (SwapMsg (MsgSwap.mk "bob" ceth usdc 200 1));
    Clp (AddLiquidityMsg demo_add);
    Margin (CloseMsg (MsgClose.mk "bob" 1));
    Margin (OpenMsg (MsgOpen.mk "bob" "fury" 9000 "ceth" Position_LONG (2 * P18)));
    Margin (UpdatePoolsMsg "root" ["ceth"] ["ceth"]);
    Margin (OpenMsg (MsgOpen.mk "bob" "ceth" 300 "fury" Position_LONG (2 * P18)));
    Margin (AdminCloseMsg (MsgAdminClose.mk "root" "bob" 2 true)) ].

Lemma dex_demo_decoded : Forall dex_decoded dex_demo.
Proof.
  unfold dex_demo. repeat apply Forall_cons_2; try apply Forall_nil_2; cbn;
    split_and?; try apply account_bob; try exact I; try concrete; unfold open_paired; cbn; auto.
Qed.

Lemma dex_demo_calm : Forall calm dex_demo.
Proof. unfold dex_demo. repeat apply Forall_cons_2; try apply Forall_nil_2; done. Qed.

(** Open positions after each message of the run: all but the seventh succeed
    (its pool is closed for new positions). *)
Example dex_demo_positions :
  map (λ n, GetOpenMTPCount (dex_run (take n dex_demo) demo_chain)) [1; 4; 5; 7; 8]%nat
  = [1; 0; 1; 1; 0].
Proof. vm_compute. reflexivity. Qed.

(** Whatever sequence of clp and margin messages is delivered, in any order
    and with failing ones among them, the module account covers the balances and
    the custody of all pools in every denomination, every pool has depth on both
    sides, and every stored position is well formed.  A MsgOpen is assumed to
    trade fury against another asset: the handler does not check it. *)
Theorem dex_run_solvent {sdk : SDK} {L : SDKLaws sdk} (ms : list dex_msg) (s : chain) :
  dex_inv s → Forall dex_decoded ms →
  (∀ d, claims (dex_run ms s) d ≤ module_balance (dex_run ms s) d)
  ∧ clp_wf (dex_run ms s) ∧ margin_wf (dex_run ms s).
Proof.
  intros Hi Hd. destruct (dex_run_inv ms s Hi Hd) as [[W _ S] M]. split_and!; [|done|done].
  intros d. specialize (S d). unfold surplus in S. lia.
Qed.

Lemma dex_run_solvent_witness :
  (∀ d, claims (dex_run dex_demo demo_chain) d ≤ module_balance (dex_run dex_demo demo_chain) d)
  ∧ clp_wf (dex_run dex_demo demo_chain) ∧ margin_wf (dex_run dex_demo demo_chain).
Proof.
  apply (dex_run_solvent (sdk := ref_sdk) dex_demo demo_chain); [apply demo_dex_inv|apply dex_demo_decoded].
Defined.

(** C4.  From a balanced state, after any such sequence that decommissions no
    pool and never makes the module account the receiver of margin payments, none
    of the three invariant checks of the clp module reports a mismatch or panics,
    with positions open or not: every coin a position moves is booked in a balance
    or in custody, and no message of the margin module changes pool units.

    Conditions the code does not check.  Messages ([dex_decoded], [calm]): signers
    are ordinary accounts in the spelling of the SDK (after a message signed in
    capitals UnitsCheck reports a mismatch, [upper_case_signer_overwrites]), amounts
    are decoded integers, positions are opened between fury and another asset
    ([unpaired_open_drains]).  The state that is checked: the balances of the module
    fit an sdk.Uint, and there are fewer providers than fit a page. *)
Theorem dex_run_invariants_hold {sdk : SDK} {L : SDKLaws sdk} (ms : list dex_msg) (s : chain) :
  dex_inv s → (∀ d, surplus s d = 0) → units_match s → funds_outside s →
  Forall dex_decoded ms → Forall calm ms →
  let s' := dex_run ms s in
  (∀ d, is_uint (module_balance s' d)) →
  Z.of_nat (length (kv_iterate (LiquidityProviders s'))) < MaxUint64 →
  BalanceModuleAccountCheck s' = (Ok false, s')
  ∧ (∀ sym, SingleExternalBalanceModuleAccountCheck sym s' = (Ok false, s'))
  ∧ UnitsCheck s' = (Ok false, s').
Proof.
  intros Hi Hs Hm Hf Hd Hc s' Hu Hlen. destruct (dex_run_inv ms s Hi Hd) as [[W _ _] _]. fold s' in W.
  destruct (dex_run_balanced ms s Hi Hm Hf Hd Hc) as [Hs' Hm']. fold s' in Hs', Hm'.
  assert (∀ d, surplus s' d = 0) as H0 by (intros d; by rewrite Hs').
  split_and!; [by apply native_check_ok|intros sym; by apply single_check_ok|by apply units_check_ok].
Qed.

(** With bob's second position open. *)
Definition dex_open : @chain ref_sdk := dex_run (take 5 dex_demo) demo_chain.

Lemma dex_run_invariants_hold_witness :
  BalanceModuleAccountCheck dex_open = (Ok false, dex_open)
  ∧ (∀ sym, SingleExternalBalanceModuleAccountCheck sym dex_open = (Ok false, dex_open))
  ∧ UnitsCheck dex_open = (Ok false, dex_open).
Proof.
  apply (dex_run_invariants_hold (sdk := ref_sdk) (take 5 dex_demo) demo_chain);
    [apply demo_dex_inv|apply demo_surplus|apply demo_units|apply demo_funds
    |apply Forall_take, dex_demo_decoded|apply Forall_take, dex_demo_calm| |vm_compute; reflexivity].
  intros d. apply bank_bounded. vm_compute. reflexivity.
Defined.

(** ** Positions without fury *)

(** A pool with more base units of the external asset than of fury. *)
Definition deep_chain : @chain ref_sdk := demo_chain
  <| Pools := <[pool_key "ceth" := (NewPool ceth 1000000 1000000000 700) <| Health := Some P18 |>]> demo_pools |>
  <| Bank := <[("module/clp", "ceth") := 1000000000]> (<[("module/clp", "fury") := 6000000]> demo_bank) |>.

(** The stateless checks and the handler accept an external asset as collateral
    and as borrowed asset at once.  The swaps that price the
    custody and the repayment then take amounts of ceth for amounts of fury: with
    300 ceth of collateral bob opens, closes at once and leaves with 373,033,049
    ceth that belonged to the pool. *)
Example unpaired_open_drains :
  let open := OpenMsg (MsgOpen.mk "bob" "ceth" 300 "ceth" Position_LONG (2 * P18)) in
  let after := dex_run [Margin open; Margin (CloseMsg (MsgClose.mk "bob" 1))] deep_chain in
  bank_balance (Bank after) "bob" "ceth" - bank_balance (Bank deep_chain) "bob" "ceth" = 373033049
  ∧ module_balance after "ceth" = 626966951.
Proof. vm_compute. split; reflexivity. Qed.
