(* ===== verification/PositionClaims.v ===== *)
(** * The positions behind the pools' books

    A pool's liabilities are the debts of the open positions on it and its custody
    covers what the positions own, over whole runs of clp and margin messages. *)
From S2P Require Import Prelude Wp Sdk Reference ClpTypes ClpCalc Admin TokenRegistry MarginTypes Chain.
From S2P Require Import ClpKeeper ClpExec ClpMsg ClpState ClpSystem ClpInvariants Margin MarginBooks MarginSystem.
From S2P Require Import ClpDebts MarginPositions Demo ClpClaims DexClaims.

Section Runs.
Context {sdk : SDK} {L : SDKLaws sdk}.
Implicit Types s : chain.

(** No position refers to a pool that is not there. *)
Lemma position_sum_none g sym s : positions_backed s → Pools s !! pool_key sym = None → position_sum g sym s = 0.
Proof.
  intros B Hn. apply msum_zero. intros k m Hm. destruct (String.eqb_spec (pool_sym m) sym) as [<-|]; [|done].
  destruct (pb_pool _ B _ _ Hm) as [p Hp]. congruence.
Qed.

Lemma margin_part_sides p q native : margin_part p = margin_part q →
  pool_debt native p = pool_debt native q ∧ pool_custody native p = pool_custody native q.
Proof. unfold margin_part. intros [= H1 H2 H3 H4]. by destruct native; cbn. Qed.

Lemma tied_sides s p native : tied s p →
  match Pools s !! pool_key (Symbol (ExternalAsset p)) with
  | Some q => pool_debt native p = pool_debt native q ∧ pool_custody native p = pool_custody native q
  | None => pool_debt native p = 0 ∧ pool_custody native p = 0
  end.
Proof.
  unfold tied. destruct (Pools s !! _) as [q|]; [apply margin_part_sides|].
  unfold margin_part. intros [= H1 H2 H3 H4]. by destruct native; cbn.
Qed.

(** Pools that keep their debts keep their positions backed. *)
Lemma debts_kept_backed s s' : debts_kept s s' → MarginState s' = MarginState s →
  positions_backed s → positions_backed s'.
Proof.
  intros [Ht Hst] HM B.
  assert (∀ sym p native, Pools s' !! pool_key sym = Some p →
    position_sum (debt_of native) sym s = pool_debt native p
    ∧ position_sum (custody_of native) sym s ≤ pool_custody native p) as Hsums.
  { intros sym p native Hp. destruct (Ht _ _ Hp) as [He%pool_key_inj Hti]. subst sym.
    apply (tied_sides _ _ native) in Hti. destruct (Pools s !! _) as [q|] eqn:Hq.
    - destruct Hti as [-> ->]. split; by apply B.
    - destruct Hti as [-> ->]. by rewrite !position_sum_none. }
  split; unfold GetMTPCount, position_sum in *; rewrite ?HM.
  - apply B.
  - intros k m Hm. by apply B.
  - intros k m Hm. destruct (Pools s' !! pool_key (pool_sym m)) as [p|] eqn:E; [eauto|].
    apply Hst in E. destruct (pb_pool _ B _ _ Hm). congruence.
  - intros sym p native Hp. by apply Hsums.
  - intros sym p native Hp. by apply Hsums.
Qed.

Lemma clp_tx_backed m s : clp_wf s → is_decommission m = false → positions_backed s → positions_backed (tx m s).
Proof.
  intros Hwf Hd B. pose proof (clp_tx_margin m s) as HM. unfold tx, deliver in *.
  destruct (ValidateBasic m); [|done..].
  pose proof (kd_NewHandler s m Hd s) as Hk. unfold wp in Hk. destruct (NewHandler m s) as [[r| |] s']; [|done..].
  apply (debts_kept_backed s); [|done|done]. apply Hk, debts_kept_refl. intros k p Hp. by apply Hwf.
Qed.

(** Messages that close no position leave the positions and the counter alone. *)
Lemma admin_backed m s s' : is_trade m = false → positions_backed s → MarginServer m s = (Ok (), s') →
  positions_backed s' ∧ GetMTPCount s' ≤ GetMTPCount s + 1.
Proof.
  intros Ht B H.
  assert (∃ ms, s' = s <| MarginState := ms |> ∧ MTPs ms = MTPs (MarginState s)
    ∧ MTPCount ms = MTPCount (MarginState s)) as (ms & -> & HM & HC).
  { destruct m; try discriminate Ht; cbn in H;
      unfold msg_UpdateParams, msg_UpdatePools, msg_UpdateFuryCollateral, msg_Whitelist, msg_Dewhitelist,
        msg_AdminCloseAll, SetParams, WhitelistAddress, DewhitelistAddress, margin_modify in H;
      inv_ok; apply require_admin_Ok in E as ->; inv_ok; eexists; (split; [reflexivity|]); done. }
  split; [by apply (backed_same s)|]. unfold GetMTPCount. cbn. rewrite HC. lia.
Qed.

Lemma margin_tx_backed m s : dex_inv s → margin_decoded m → positions_backed s → GetMTPCount s + 1 < 2 ^ 64 →
  positions_backed (margin_tx m s) ∧ GetMTPCount (margin_tx m s) ≤ GetMTPCount s + 1.
Proof.
  intros [[Hwf _ _] Hm] Hd B Hc.
  assert (positions_backed s ∧ GetMTPCount s ≤ GetMTPCount s + 1) as Hsame by (split; [done|lia]).
  unfold margin_tx, deliver. destruct (margin_ValidateBasic m); [|done..].
  destruct (MarginServer m s) as [[[]| |] s'] eqn:H; [|done..]. destruct (is_trade m) eqn:Ht.
  - destruct m; try discriminate Ht; cbn in H.
    + destruct Hd as (Ha%account_outside & Hu & Hp). by eapply msg_Open_backed.
    + by eapply msg_Close_backed.
    + by eapply msg_AdminClose_backed.
    + by eapply msg_AdminClose_backed.
  - by eapply admin_backed.
Qed.

(** Messages after which every pool that had positions is still there. *)
Definition pools_stay (m : dex_msg) : Prop :=
  match m with Clp m => is_decommission m = false | Margin _ => True end.

Lemma dex_tx_backed m s : dex_inv s → dex_decoded m → pools_stay m → positions_backed s →
  GetMTPCount s + 1 < 2 ^ 64 → positions_backed (dex_tx m s) ∧ GetMTPCount (dex_tx m s) ≤ GetMTPCount s + 1.
Proof.
  destruct m as [m|m]; intros Hi Hd Hst B Hc; cbn in *; [|by apply margin_tx_backed]. split.
  - apply clp_tx_backed; [apply Hi|done..].
  - unfold GetMTPCount. rewrite clp_tx_margin. lia.
Qed.

(** C5.  Whatever sequence of clp and margin messages is delivered, in any
    order and with failing ones among them, the liabilities of every pool are on
    each side exactly the sum of what the open positions on it owe, and its custody
    is at least the sum of what they own; every position is stored under its own
    identifier, one the counter has given out, and has its pool.  Opening, closing,
    forced closing and the interest paid on the way move both books together, and
    no message of clp changes them, swaps and withdrawals included.

    Conditions the code does not check ([dex_decoded], [pools_stay]): positions are
    opened between fury and another asset ([unpaired_open_drains] shows what happens
    otherwise), signers are ordinary accounts in the spelling of the SDK, amounts are
    decoded integers, no pool is decommissioned, and the counter of positions (64
    bits) does not run over.  The sequence starts in a solvent, well formed state
    ([dex_inv]).  Blocks are not part of it: a forced closing by BeginBlocker may
    take custody off a pool alone ([custody_taken_out_alone]). *)
Theorem dex_run_positions_backed (ms : list dex_msg) (s : chain) :
  dex_inv s → positions_backed s → Forall dex_decoded ms → Forall pools_stay ms →
  GetMTPCount s + Z.of_nat (length ms) < 2 ^ 64 → positions_backed (dex_run ms s).
Proof.
  revert s. induction ms as [|m ms IH]; intros s Hi B Hd Hst Hc; [done|]. cbn [length] in Hc.
  inversion Hd; inversion Hst; subst.
  destruct (dex_tx_backed m s) as [B' Hc']; [done..|lia|]. cbn. apply IH; [by apply dex_tx_inv|done..|lia].
Qed.
End Runs.

(** ** On the demonstration chain *)

Lemma demo_backed : positions_backed demo_chain.
Proof.
  assert (∀ g sym, position_sum g sym demo_chain = 0) as Hz by (intros; apply msum_empty).
  split; try (intros k m H; cbn in H; by rewrite lookup_empty in H); [done|intros sym p native Hp..];
    rewrite Hz; cbn in Hp; unfold demo_pools in Hp;
    apply lookup_insert_Some in Hp as [[_ <-]|[_ [_ <-]%lookup_singleton_Some]]; by destruct native.
Qed.

(** While bob's loan is open the pool owes him fury in custody and books his debt. *)
Example dex_demo_books :
  map (λ n, let s := dex_run (take n dex_demo) demo_chain in
            (position_sum (debt_of false) "ceth" s, position_sum (custody_of true) "ceth" s,
             option_map (λ p, (pool_debt false p, pool_custody true p)) (Pools s !! pool_key "ceth"))) [0; 1; 3; 4]%nat
  = [(0, 0, Some (0, 0)); (300, 19808, Some (300, 19808)); (300, 19808, Some (300, 19808)); (0, 0, Some (0, 0))].
Proof. vm_compute. reflexivity. Qed.

Lemma dex_run_positions_backed_witness : positions_backed (dex_run (take 5 dex_demo) demo_chain).
Proof.
  apply (dex_run_positions_backed (sdk := ref_sdk) (take 5 dex_demo) demo_chain);
    [apply demo_dex_inv|apply demo_backed|apply Forall_take, dex_demo_decoded| |reflexivity].
  unfold dex_demo. cbn [take]. repeat apply Forall_cons_2; try apply Forall_nil_2; done.
Defined.
