(* ===== verification/Genesis.v ===== *)
(** * Genesis and migrations

    The import and export of the stores when a chain is started or restarted
    (x/clp/genesis.go, x/margin/keeper/genesis.go, x/tokenregistry/keeper/genesis.go
    and the genesis functions of x/admin/keeper/keeper.go), and the one-off
    upgrades of the migrations.go files. *)
From S2P Require Import Prelude Wp Sdk ClpTypes ClpCalc ClpCalcProps Admin TokenRegistry MarginTypes.
From S2P Require Import Chain ClpKeeper ClpExec ClpState Margin.

(** ** x/clp *)

Definition GetDefaultRewardParams : RewardParams := mkRewardParams 0 (12 * 60 * 24 * 30) [] "".
Definition GetDefaultPmtpParams : PmtpParams := mkPmtpParams 0 1 0 0.
Definition GetDefaultLiquidityProtectionParams : LiquidityProtectionParams :=
  mkLiquidityProtectionParams 1000000000000 "cusdc" 14400 false.

(** The struct Params of the parameter store of the module. *)
Record ClpParams := mkClpParams {
  ParamMinCreatePoolThreshold : Z;
  ParamEnableRemovalQueue : bool
}.
Definition DefaultClpParams : ClpParams := mkClpParams 100 false.

Record ClpGenesis := mkClpGenesis {
  GenesisParams : ClpParams;
  GenesisWhitelist : list string;
  GenesisPools : list Pool;
  GenesisProviders : list LiquidityProvider
}.

Section ClpGenesis_.
Context {sdk : SDK}.

Definition validateMinCreatePoolThreshold (v : Z) : res () :=
  ensure (negb (v =? 0)) (EOther "min create pool threshold must be positive").

(** [SetParamSet] validates every parameter and panics on an invalid one. *)
Definition SetClpParams (params : ClpParams) : M chain () :=
  lift (must (validateMinCreatePoolThreshold (ParamMinCreatePoolThreshold params)));;
  modify (λ s, s <| MinCreatePoolThreshold := ParamMinCreatePoolThreshold params |>
                 <| EnableRemovalQueue := ParamEnableRemovalQueue params |>).

Definition GetClpParams (s : chain) : ClpParams :=
  mkClpParams (MinCreatePoolThreshold s) (EnableRemovalQueue s).

(** The rates and the policy of a chain that has run none. *)
Definition reset_policies : M chain () :=
  modify (λ s, s <| RewardsParams := GetDefaultRewardParams |>);;
  modify (λ s, s <| RateParams := mkPmtpRateParams 0 0 0 |>);;
  SetPmtpEpoch (mkPmtpEpoch 0 0);;
  modify (λ s, s <| PolicyParams := GetDefaultPmtpParams |>);;
  SetPmtpInterPolicyRate (NewDec 0).

Definition ClpInitGenesis (data : ClpGenesis) : M chain () :=
  SetClpParams (GenesisParams data);;
  reset_policies;;
  lift (match GenesisWhitelist data with [] => Panic | _ => Ok () end);;
  modify (λ s, s <| ProtectionParams := GetDefaultLiquidityProtectionParams |>);;
  modify (λ s, s <| CurrentFuryLiquidityThreshold :=
                   MaxFuryLiquidityThreshold GetDefaultLiquidityProtectionParams |>);;
  wl ← lift (must (foldR (λ wl entry, a ← acc_from_bech32 entry; Ok (wl ++ [a])) []
                         (GenesisWhitelist data)));
  SetClpWhiteList wl;;
  SetClpWhiteList wl;;
  forM (GenesisPools data) (λ pool, mustM (SetPool pool));;
  forM (GenesisProviders data) SetLiquidityProvider.

Definition ClpExportGenesis : M chain ClpGenesis :=
  params ← gets GetClpParams;
  poolList ← gets (λ s, kv_paginate MaxUint64 (kv_iterate (Pools s)));
  liquidityProviders ← gets (λ s, kv_paginate MaxUint64 (kv_iterate (LiquidityProviders s)));
  whiteList ← GetClpWhiteList;
  mret (mkClpGenesis params (acc_string <$> whiteList) poolList liquidityProviders).

Definition ClpValidateGenesis (data : ClpGenesis) : res () :=
  wrap (EClp ErrInvalid)
    (validateMinCreatePoolThreshold (ParamMinCreatePoolThreshold (GenesisParams data)));;
  foldR (λ _ pool, v ← PoolValidate pool; ensure v (EClp ErrInvalid)) () (GenesisPools data);;
  foldR (λ _ lp, v ← LiquidityProviderValidate lp; ensure v (EClp ErrInvalid)) ()
    (GenesisProviders data).

(** *** migrations.go *)

Definition reset_pool_counters (pool : Pool) : Pool :=
  pool <| SwapPriceExternal := Some 0 |> <| SwapPriceNative := Some 0 |>
       <| RewardPeriodNativeDistributed := 0 |>.

Definition ClpMigrateToVer2 : M chain () :=
  reset_policies;;
  pools ← GetPools;
  forM pools (λ pool, mustM (SetPool (reset_pool_counters pool))).

(** The providers whose units MigrateToVer3 takes back. *)
Definition migrated_lps : list (string * Z) :=
  [ ("fury1smknl4uf89ef84kg020ff7ask7l0sxz3s93gva", 49661617604396299845632);
    ("fury1gy2ne7m62uer4h5s4e7xlfq7aeem5zpwx6nu9q", 57436791960686469054464);
    ("fury1uk77p6he26undp9wjjav6ygtu53kswl60cd5va", 54301402049261093257216);
    ("fury1hspkfnzexvn4drk9dlfpg8n0ppw8sxsl00t65a", 55396192200751201648640);
    ("fury1y2rfrgh374gd40gj0yusjasw2paaysahu9qk5j", 138696029054663414251520);
    ("fury1ra9563z5tn2lmqhydt2atrgzftk2d7umyr4vqw", 139123862445111950442496) ].

Definition migrate_lp (symbol : string) (lp : string * Z) : M chain () :=
  r ← try (GetLiquidityProvider symbol lp.1);
  match r with
  | inr _ => mret ()
  | inl l =>
      pool ← mustM (GetPool symbol);
      units ← lift (u_sub (LiquidityProviderUnits l) lp.2);
      SetLiquidityProvider (l <| LiquidityProviderUnits := units |>);;
      poolUnits ← lift (u_sub (PoolUnits pool) lp.2);
      try (SetPool (pool <| PoolUnits := poolUnits |>));;
      mret ()
  end.

Definition ClpMigrateToVer3 : M chain () := forM migrated_lps (migrate_lp "cusdc").

Definition ClpMigrateToVer4 : M chain () := SetClpParams DefaultClpParams.

(** ** x/margin *)

Definition MarginInitGenesis (data : option MarginParams.t) : M chain () :=
  params ← lift (deref data); SetParams params.

(** The parameters the literal of ExportGenesis does not mention have their zero
    values. *)
Definition MarginExportGenesis : M chain MarginParams.t :=
  params ← gets GetParams;
  forceClose ← GetForceCloseFundAddress;
  interest ← GetIncrementalInterestPaymentFundAddress;
  mret (params <| MarginParams.ForceCloseFundAddress := acc_string forceClose |>
               <| MarginParams.IncrementalInterestPaymentFundAddress := acc_string interest |>
               <| MarginParams.ClosedPools := [] |>
               <| MarginParams.IncrementalInterestPaymentEnabled := false |>
               <| MarginParams.WhitelistingEnabled := false |>).

Definition MarginMigrateToVer2 : M chain () :=
  params ← gets GetParams;
  SetParams (params <| MarginParams.FuryCollateralEnabled := false |>).

(** ** x/admin *)

Definition AdminExportGenesis (st : AdminStore) : list AdminAccount := GetAdminAccounts st.

Definition ProdAdminAccounts : list AdminAccount :=
  let a := "fury144w8cpva2xkly74xrms8djg69y3mljzplx3fjt" in
  [ mkAdminAccount AdminType_ADMIN a; mkAdminAccount AdminType_PMTPREWARDS a;
    mkAdminAccount AdminType_CLPDEX a; mkAdminAccount AdminType_TOKENREGISTRY a;
    mkAdminAccount AdminType_ETHBRIDGE a;
    mkAdminAccount AdminType_TOKENREGISTRY "fury1npzemsc4s5gxpv2qt3na97tna03cj2h5xxe3cw";
    mkAdminAccount AdminType_ETHBRIDGE "fury10wgwh7g3jktemd4d8jnswnf0zyk3hsq3uk3tff" ].

Definition InitialAdminAccounts : list AdminAccount :=
  let a := "fury1syavy2npfyt9tcncdtsdzf7kny9lh777yqc2nd" in
  let b := "fury1l7hypmqk2yc334vc6vmdwzp5sdefygj2ad93p5" in
  [ mkAdminAccount AdminType_ADMIN a; mkAdminAccount AdminType_CLPDEX a;
    mkAdminAccount AdminType_CLPDEX b; mkAdminAccount AdminType_PMTPREWARDS a;
    mkAdminAccount AdminType_PMTPREWARDS "fury144w8cpva2xkly74xrms8djg69y3mljzplx3fjt";
    mkAdminAccount AdminType_PMTPREWARDS b; mkAdminAccount AdminType_ETHBRIDGE a;
    mkAdminAccount AdminType_TOKENREGISTRY a ].

Definition InitialMigration (chainID : string) (st : AdminStore) : AdminStore :=
  let accounts := if String.eqb chainID "furynet-1" then ProdAdminAccounts
                  else InitialAdminAccounts in
  foldl (λ st account, SetAdminAccount account st) st accounts.

(** ** x/tokenregistry *)

Definition RegistryInitGenesis (state : option Registry) (st : Registry) : Registry :=
  match state with Some registry => registry | None => st end.

Definition RegistryExportGenesis (st : Registry) : option Registry := Some st.
End ClpGenesis_.
