(* ===== verification/GenesisProps.v ===== *)
(** * Lemmas on genesis and migrations *)
From S2P Require Import Prelude Wp Sdk ClpTypes ClpCalc ClpCalcProps Admin TokenRegistry MarginTypes.
From S2P Require Import Chain ClpKeeper ClpExec ClpMsg ClpState ClpSwapProps ClpLiquidityProps.
From S2P Require Import Margin Genesis.

Section Restore_.
Context {sdk : SDK} {L : SDKLaws sdk}.
Implicit Types s : chain.

(** An address as the SDK prints it. *)
Definition canonical (entry : string) : Prop :=
  ∃ a, acc_from_bech32 entry = Ok a ∧ acc_string a = entry.

(** A store that can be exported: what [SetPool], [SetLiquidityProvider] and
    [SetClpWhiteList] guarantee of their values, a whitelist that is not empty,
    and fewer entries than a page can list. *)
Record exportable (s : chain) : Prop := {
  ex_threshold : MinCreatePoolThreshold s ≠ 0;
  ex_pools k p : Pools s !! k = Some p → PoolValidate p = Ok true;
  ex_lps k lp : LiquidityProviders s !! k = Some lp → LiquidityProviderValidate lp = Ok true;
  ex_whitelist : ∃ wl, ClpWhiteList s = Some wl ∧ wl ≠ [] ∧ Forall canonical wl;
  ex_pages : Z.of_nat (length (kv_iterate (Pools s))) ≤ MaxUint64
             ∧ Z.of_nat (length (kv_iterate (LiquidityProviders s))) ≤ MaxUint64
}.

Lemma parse_whitelist wl : Forall canonical wl → ∀ acc, ∃ l,
  foldR (λ wl entry, a ← acc_from_bech32 entry; Ok (wl ++ [a])) acc wl = Ok (acc ++ l)
  ∧ acc_string <$> l = wl.
Proof.
  induction 1 as [|e wl (a & Ha & He) Hwl IH]; intros acc.
  - exists []. by rewrite app_nil_r.
  - cbn. rewrite Ha. cbn. destruct (IH (acc ++ [a])) as (l & -> & <-).
    exists (a :: l). by rewrite <- app_assoc, <- He.
Qed.

Lemma SetPool_valid p s : PoolValidate p = Ok true →
  SetPool p s = (Ok (), s <| Pools := <[pool_key (Symbol (ExternalAsset p)) := p]> (Pools s) |>).
Proof. unfold SetPool, mbind, M_bind, lift. by intros ->. Qed.

Lemma SetLP_valid lp s : LiquidityProviderValidate lp = Ok true →
  SetLiquidityProvider lp s
  = (Ok (), s <| LiquidityProviders := <[lp_key lp := lp]> (LiquidityProviders s) |>).
Proof. unfold SetLiquidityProvider, mbind, M_bind, lift. by intros ->. Qed.

Definition pkey (p : Pool) : string := pool_key (Symbol (ExternalAsset p)).

Lemma SetPools_valid l : ∀ s, Forall (λ p, PoolValidate p = Ok true) l →
  forM l (λ pool, mustM (SetPool pool)) s
  = (Ok (), s <| Pools := foldl (λ m p, <[pkey p := p]> m) (Pools s) l |>).
Proof.
  induction l as [|p l IH]; intros s Hl; cbn; [by destruct s|].
  apply Forall_cons in Hl as [Hp Hl]. unfold mustM, mbind, M_bind. rewrite SetPool_valid by done.
  rewrite IH by done. done.
Qed.

Lemma SetLPs_valid l : ∀ s, Forall (λ lp, LiquidityProviderValidate lp = Ok true) l →
  forM l SetLiquidityProvider s
  = (Ok (), s <| LiquidityProviders := foldl (λ m lp, <[lp_key lp := lp]> m) (LiquidityProviders s) l |>).
Proof.
  induction l as [|p l IH]; intros s Hl; cbn; [by destruct s|].
  apply Forall_cons in Hl as [Hp Hl]. unfold mbind, M_bind. rewrite SetLP_valid by done.
  rewrite IH by done. done.
Qed.

(** The values listed of a store satisfy what all its values do. *)
Lemma iterate_Forall {A} (m : gmap string A) (P : A → Prop) :
  (∀ k a, m !! k = Some a → P a) → Forall P (kv_iterate m).*2.
Proof.
  intros H. apply Forall_forall. intros a Ha. apply list_elem_of_fmap in Ha as ([k b] & -> & Hin).
  rewrite kv_iterate_law in Hin. by eapply H, elem_of_map_to_list.
Qed.

Lemma ensure_all {A} (f : A → res bool) e l : Forall (λ a, f a = Ok true) l →
  foldR (λ _ a, v ← f a; ensure v e) () l = Ok ().
Proof. induction 1 as [|a l Ha _ IH]; [done|]. cbn. by rewrite Ha. Qed.

(** What an export contains. *)
Definition exported (s : chain) (wl : list string) : ClpGenesis :=
  mkClpGenesis (GetClpParams s) wl (kv_iterate (Pools s)).*2 (kv_iterate (LiquidityProviders s)).*2.

Lemma export_all s : exportable s →
  ∃ wl, ClpWhiteList s = Some wl ∧ wl ≠ [] ∧ Forall canonical wl
        ∧ ClpExportGenesis s = (Ok (exported s wl), s).
Proof.
  intros [Ht Hp Hl (wl & Hw & Hne & Hc) [Hn1 Hn2]]. exists wl. split_and!; [done..|].
  destruct (parse_whitelist wl Hc []) as (l & Hparse & Hstr).
  unfold ClpExportGenesis, GetClpWhiteList, mbind, M_bind, gets, lift. rewrite Hw.
  change (default [] (Some wl)) with wl. unfold mbind in Hparse. rewrite Hparse. cbn. rewrite Hstr. unfold exported. by rewrite !kv_paginate_law by (unfold MaxUint64 in *; lia).
Qed.

Lemma exported_valid s wl : exportable s → ClpValidateGenesis (exported s wl) = Ok ().
Proof.
  intros [Ht Hp Hl _ _]. unfold ClpValidateGenesis, validateMinCreatePoolThreshold. cbn.
  apply Z.eqb_neq in Ht as ->. cbn. rewrite (ensure_all PoolValidate) by apply iterate_Forall, Hp. cbn.
  by apply ensure_all, iterate_Forall, Hl.
Qed.

(** The whole restart of the module computes. *)
Lemma init_exported s s0 wl : clp_wf s → exportable s → wl ≠ [] → Forall canonical wl →
  Pools s0 = ∅ → LiquidityProviders s0 = ∅ →
  ∃ s', ClpInitGenesis (exported s wl) s0 = (Ok (), s')
    ∧ Pools s' = Pools s ∧ LiquidityProviders s' = LiquidityProviders s
    ∧ ClpWhiteList s' = Some wl ∧ GetClpParams s' = GetClpParams s
    ∧ Bank s' = Bank s0 ∧ MarginState s' = MarginState s0 ∧ RemovalRequests s' = RemovalRequests s0
    ∧ RewardsParams s' = GetDefaultRewardParams ∧ PolicyParams s' = GetDefaultPmtpParams
    ∧ ProtectionParams s' = GetDefaultLiquidityProtectionParams
    ∧ RateParams s' = mkPmtpRateParams 0 0 0
    ∧ SymmetryThreshold s' = SymmetryThreshold s0 ∧ SwapFees s' = SwapFees s0
    ∧ DistributionPeriods s' = DistributionPeriods s0.
Proof.
  intros [Hwp Hwl] [Ht Hp Hl _ _] Hne Hc HP HL.
  destruct (parse_whitelist wl Hc []) as (l & Hparse & Hstr). apply Z.eqb_neq in Ht.
  assert (Forall (λ p, PoolValidate p = Ok true) (kv_iterate (Pools s)).*2) as Vp by apply iterate_Forall, Hp.
  assert (Forall (λ lp, LiquidityProviderValidate lp = Ok true) (kv_iterate (LiquidityProviders s)).*2)
    as Vl by apply iterate_Forall, Hl.
  unfold ClpInitGenesis, SetClpParams, validateMinCreatePoolThreshold.
  unfold exported. cbn [GenesisParams GenesisWhitelist GenesisPools GenesisProviders
    ParamMinCreatePoolThreshold GetClpParams].
  rewrite Ht. destruct wl as [|e wl']; [done|]. unfold mbind in Hparse.
  unfold reset_policies, SetPmtpEpoch, SetPmtpInterPolicyRate, SetClpWhiteList, mbind, M_bind, lift, modify.
  cbn [negb ensure must]. rewrite Hparse. cbn [must app].
  rewrite (SetPools_valid _ _ Vp). cbn [fst snd]. rewrite (SetLPs_valid _ _ Vl).
  eexists. split; [reflexivity|]. cbn. rewrite HP, HL, Hstr.
  split_and!; try done.
  - apply restore_map; [|apply kv_iterate_law]. intros k p Hk. by apply Hwp.
  - apply restore_map; [|apply kv_iterate_law]. intros k p Hk. by apply Hwl.
  - unfold NewDec. by rewrite d_of_big_law.
Qed.

(** ** The other modules *)

Lemma admin_restore st st0 : admin_wf st → AdminAccounts st0 = ∅ →
  AdminAccounts (AdminInitGenesis (AdminExportGenesis st) st0) = AdminAccounts st
  ∧ SubmitProposalFee (AdminInitGenesis (AdminExportGenesis st) st0) = SubmitProposalFee st0.
Proof.
  intros Hwf H0. unfold AdminInitGenesis, AdminExportGenesis, GetAdminAccounts.
  assert (∀ l st, foldl (λ st a, SetAdminAccount a st) st l
    = st <| AdminAccounts := foldl (λ m a, <[GetAdminAccountKey a := a]> m) (AdminAccounts st) l |>) as Hf.
  { induction l as [|a l IH]; intros st'; cbn; [by destruct st'|]. by rewrite IH. }
  rewrite Hf. cbn. rewrite H0. split; [|done].
  apply restore_map; [|apply kv_iterate_law]. intros k a Hk. by apply Hwf.
Qed.

Lemma margin_restore s s0 : ∀ params s1 s', MarginExportGenesis s = (Ok params, s1) →
  MarginInitGenesis (Some params) s0 = (Ok (), s') →
  s1 = s ∧ ∃ forceClose interest,
    acc_from_bech32 (MarginParams.ForceCloseFundAddress (GetParams s)) = Ok forceClose
    ∧ acc_from_bech32 (MarginParams.IncrementalInterestPaymentFundAddress (GetParams s)) = Ok interest
    ∧ s' = s0 <| MarginState := (MarginState s0) <| Params := Some params |> |>
    ∧ params = (GetParams s) <| MarginParams.ForceCloseFundAddress := acc_string forceClose |>
        <| MarginParams.IncrementalInterestPaymentFundAddress := acc_string interest |>
        <| MarginParams.ClosedPools := [] |>
        <| MarginParams.IncrementalInterestPaymentEnabled := false |>
        <| MarginParams.WhitelistingEnabled := false |>.
Proof.
  intros params s1 s' H H'. unfold MarginExportGenesis, GetForceCloseFundAddress,
    GetIncrementalInterestPaymentFundAddress in H. inv_ok.
  unfold MarginInitGenesis, SetParams in H'. cbn in H'. inv_ok.
  repeat match goal with H : must ?r = Ok _ |- _ => destruct r eqn:?; [|discriminate H..]; injection H as -> end.
  split; [done|]. eauto 10.
Qed.
End Restore_.

(** ** Migrations keep the books *)
Section Migrate.
Context {sdk : SDK} {L : SDKLaws sdk}.
Implicit Types s : chain.

Lemma books_trans s1 s2 s3 : keeps_books s1 s2 → keeps_books s2 s3 → keeps_books s1 s3.
Proof.
  intros [W1 S1 G1] [W2 S2 G2]. split; [done| |].
  - intros d. by rewrite S2, S1.
  - intros sym. by rewrite G2, G1.
Qed.

Lemma reads_GetLP sym a : reads (GetLiquidityProvider sym a).
Proof. unfold GetLiquidityProvider. reads_auto. Qed.

Lemma SetPool_try p s r s' : try (SetPool p) s = (Ok r, s') →
  (AssetValidate (ExternalAsset p) = Ok true ∧ s' = put_pool s p)
  ∨ (AssetValidate (ExternalAsset p) ≠ Ok true ∧ s' = s).
Proof.
  unfold try, SetPool, PoolValidate, mbind, M_bind, lift.
  destruct (AssetValidate (ExternalAsset p)) as [[]| |]; cbn; intros [= <- <-]; [left|right|right]; done.
Qed.

Lemma migrate_lp_books sym lp s u s' : clp_wf s → no_sep lp.1 = true → is_uint lp.2 →
  migrate_lp sym lp s = (Ok u, s') → keeps_books s s'.
Proof.
  intros Hwf Hn Hu H. unfold migrate_lp in H. inv_ok.
  apply try_Ok in E as [(l & -> & E)|(e & -> & E)].
  2: { inv_ok. pose proof (reads_GetLP sym lp.1 s) as Hr. rewrite E in Hr. cbn in Hr. subst. by split. }
  apply GetLiquidityProvider_Ok in E as [Hl ->]. inv_ok.
  match goal with H : GetPool _ _ = _ |- _ => apply GetPool_Ok in H as [Hp ->] end.
  destruct (wf_lookup_pool _ _ _ Hwf Hp) as [Hps Wp].
  destruct (wf_lookup_lp _ _ _ _ Hwf Hn Hl) as (Hls & Hla & Wl & Hlk).
  match goal with H : u_sub (LiquidityProviderUnits _) _ = _ |- _ =>
    apply u_sub_Ok in H as [-> Hu1]; [|apply Wl|done] end.
  match goal with H : u_sub (PoolUnits _) _ = _ |- _ =>
    apply u_sub_Ok in H as [-> Hu2]; [|unfold pool_wf, pool_uints in Wp; tauto|done] end.
  match goal with H : try (SetPool _) _ = _ |- _ => apply SetPool_try in H; rename H into Hsp end.
  match goal with H : SetLiquidityProvider _ _ = _ |- _ => apply SetLiquidityProvider_Ok in H; rename H into Hsl end.
  assert (LPAsset l = ExternalAsset v) as Ha by (apply Asset_eta_eq; congruence).
  cbn [LPAsset ExternalAsset] in Hsl, Hsp. cbn in Hsl, Hsp. rewrite Ha in Hsl. destruct Hsl as [[V ->]|[V ->]], Hsp as [[V' ->]|[V' ->]]; try congruence; [by split|].
  set (p' := v <| PoolUnits := _ |>) in *. set (l' := l <| LiquidityProviderUnits := _ |>) in *.
  assert (pool_wf p') as Wp' by (unfold pool_wf, pool_uints, pool_deep in *; cbn; tauto).
  assert (lp_wf l') as Wl' by (split; [done|apply Wl]).
  change (keeps_books s (put_pool (put_lp s l') p')).
  apply (books_move _ _ v p'); [done|done|by apply put_pool_wf; [|done|apply put_lp_wf]| |done| |].
  - cbn. by rewrite Hps.
  - intros d. unfold module_balance, pool_claim. cbn. lia.
  - intros sym'. change (lp_total (put_pool _ _) sym') with (lp_total (put_lp s l') sym').
    rewrite put_lp_total. change (lp_key l') with (lp_key l). rewrite Hlk. unfold lp_units_of, p'. cbn.
    rewrite Hps, Hls. case_test; lia.
Qed.

Lemma migrate_lps_books sym l : Forall (λ lp, no_sep lp.1 = true ∧ is_uint lp.2) l →
  ∀ s u s', clp_wf s → forM l (migrate_lp sym) s = (Ok u, s') → keeps_books s s'.
Proof.
  induction 1 as [|lp l [Hn Hu] _ IH]; intros s u s' Hwf H; cbn in H; inv_ok; [by split|].
  apply migrate_lp_books in E; [|done..]. eapply books_trans; [exact E|]. by eapply IH; [apply E|].
Qed.

(** Replacing a stored pool by one with the same claims and units. *)
Lemma put_pool_same s p q : clp_wf s → pool_wf p → Pools s !! pkey p = Some q →
  PoolUnits p = PoolUnits q → (∀ d, pool_claim d p = pool_claim d q) → keeps_books s (put_pool s p).
Proof.
  intros Hwf Wp Hq Hu Hd. destruct (wf_lookup_pool _ _ _ Hwf Hq) as [Hsym%eq_sym%Asset_eta_eq _].
  apply (books_move _ _ q p); [done..| |done|done| |].
  - apply put_pool_wf; [|done..]. rewrite Hsym. by eapply (wf_valid s Hwf).
  - intros d. rewrite Hd. unfold module_balance. cbn. lia.
  - intros sym. rewrite Hu. unfold lp_total. cbn. case_test; lia.
Qed.

Lemma reset_pools_books l : ∀ s u s', clp_wf s → NoDup (pkey <$> l) →
  Forall (λ p, Pools s !! pkey p = Some p) l →
  forM l (λ pool, mustM (SetPool (reset_pool_counters pool))) s = (Ok u, s') → keeps_books s s'.
Proof.
  induction l as [|p l IH]; intros s u s' Hwf Hd Hl H; cbn in H; inv_ok; [by split|].
  apply Forall_cons in Hl as [Hp Hl]. cbn in Hd. apply NoDup_cons in Hd as [Hn Hd].
  apply SetPool_Ok in E as [_ ->]. pose proof (wf_pool _ Hwf _ _ Hp) as [_ Wp].
  assert (keeps_books s (put_pool s (reset_pool_counters p))) as Hk.
  { by apply (put_pool_same _ _ p). }
  eapply books_trans; [exact Hk|]. eapply IH; [apply Hk|done| |exact H].
  apply Forall_forall. intros q Hq. cbn. rewrite Forall_forall in Hl. specialize (Hl q Hq).
  rewrite lookup_insert_ne; [done|]. intros He. apply Hn, list_elem_of_fmap. by exists q.
Qed.

Lemma stored_pools s : clp_wf s →
  NoDup (pkey <$> (kv_iterate (Pools s)).*2) ∧ Forall (λ p, Pools s !! pkey p = Some p) (kv_iterate (Pools s)).*2.
Proof.
  intros Hwf. assert (keyed pkey (Pools s)) as Hk by (intros k p Hp; by apply Hwf). split.
  - rewrite (keyed_keys pkey (Pools s)) by (done || apply kv_iterate_law).
    rewrite kv_iterate_law. apply NoDup_fst_map_to_list.
  - apply iterate_Forall. intros k p Hp. by rewrite <- (Hk _ _ Hp).
Qed.

Lemma reset_policies_ledger s u s' : reset_policies s = (Ok u, s') → same_ledger s s'.
Proof.
  unfold reset_policies, SetPmtpEpoch, SetPmtpInterPolicyRate. intros H. inv_ok. done.
Qed.

Lemma same_ledger_books s s' : clp_wf s → same_ledger s s' → keeps_books s s'.
Proof.
  intros Hwf Hs. split; [by eapply same_ledger_wf|intros d; by apply same_ledger_surplus|].
  intros sym. by apply same_ledger_gap.
Qed.

Lemma migrate2_books s u s' : clp_wf s → ClpMigrateToVer2 s = (Ok u, s') → keeps_books s s'.
Proof.
  intros Hwf H. unfold ClpMigrateToVer2, GetPools in H. inv_ok.
  apply reset_policies_ledger in E. eapply books_trans; [by apply same_ledger_books|].
  assert (clp_wf s0) as Hwf0 by by eapply same_ledger_wf.
  destruct (stored_pools s0 Hwf0) as [Hd Hl]. by eapply reset_pools_books.
Qed.

Lemma migrate3_books s u s' : clp_wf s → ClpMigrateToVer3 s = (Ok u, s') → keeps_books s s'.
Proof.
  intros Hwf. apply migrate_lps_books; [|done].
  repeat apply Forall_cons_2; try apply Forall_nil_2; split; (reflexivity || (vm_compute; split; discriminate)).
Qed.

Lemma migrate4_books s u s' : clp_wf s → ClpMigrateToVer4 s = (Ok u, s') → keeps_books s s'.
Proof.
  intros Hwf H. unfold ClpMigrateToVer4, SetClpParams in H. inv_ok. by apply same_ledger_books.
Qed.
End Migrate.
