(* ===== verification/GenesisClaims.v ===== *)
(** * What survives a restart and an upgrade *)
From S2P Require Import Prelude Sdk Reference ClpTypes ClpCalc ClpCalcProps Admin TokenRegistry MarginTypes.
From S2P Require Import Chain ClpKeeper ClpExec ClpMsg ClpState ClpSwapProps ClpLiquidityProps ClpSystem.
From S2P Require Import Margin MarginBooks MarginSystem Demo ClpClaims DexClaims Genesis GenesisProps.

(** ** The clp module *)

(** C34.  Exporting the clp module and importing the export into empty stores
    computes without an error or a panic, the exported state passes
    ValidateGenesis, and the import restores every pool, every provider and the
    whitelist, so with the balances of the bank restored both ledgers are what they
    were.  Of the parameters of the module it restores only the two that are entries
    of types.Params, the threshold for creating a pool and the switch of the
    removal queue.  The reward, pmtp and protection parameters and the rates are set
    to their defaults, whatever they were; the symmetry threshold, the swap fees and
    the distribution periods stay those of the new chain. *)
Theorem clp_restart {sdk : SDK} {L : SDKLaws sdk} (s s0 : chain) :
  clp_wf s → exportable s → Pools s0 = ∅ → LiquidityProviders s0 = ∅ → Bank s0 = Bank s →
  ∃ data s', ClpExportGenesis s = (Ok data, s) ∧ ClpValidateGenesis data = Ok ()
    ∧ ClpInitGenesis data s0 = (Ok (), s')
    ∧ Pools s' = Pools s ∧ LiquidityProviders s' = LiquidityProviders s
    ∧ ClpWhiteList s' = ClpWhiteList s
    ∧ MinCreatePoolThreshold s' = MinCreatePoolThreshold s ∧ EnableRemovalQueue s' = EnableRemovalQueue s
    ∧ (∀ d, surplus s' d = surplus s d) ∧ (∀ sym, unit_gap s' sym = unit_gap s sym)
    ∧ RewardsParams s' = GetDefaultRewardParams ∧ PolicyParams s' = GetDefaultPmtpParams
    ∧ ProtectionParams s' = GetDefaultLiquidityProtectionParams ∧ RateParams s' = mkPmtpRateParams 0 0 0
    ∧ SymmetryThreshold s' = SymmetryThreshold s0 ∧ SwapFees s' = SwapFees s0
    ∧ DistributionPeriods s' = DistributionPeriods s0.
Proof.
  intros Hwf Hex HP HL HB. destruct (export_all s Hex) as (wl & Hw & Hne & Hc & He).
  destruct (init_exported s s0 wl Hwf Hex Hne Hc HP HL) as (s' & Hi & HP' & HL' & HW & Hg & HB' & _ & _ & Hlost).
  injection Hg as Hmin Hqueue.
  exists (exported s wl), s'.
  split_and!; [done|by apply exported_valid|done|done|done|by rewrite HW|done|done| |
    |by destruct_and! Hlost..].
  - intros d. apply same_ledger_surplus. split_and!; [done..|by rewrite HB'].
  - intros sym. apply same_ledger_gap. split_and!; [done..|by rewrite HB'].
Qed.

(** A chain whose clp and margin stores are empty. *)
Definition emptied {sdk : SDK} (s : chain) : chain :=
  s <| Pools := ∅ |> <| LiquidityProviders := ∅ |> <| ClpWhiteList := None |>
    <| RemovalRequests := ∅ |> <| RemovalQueues := ∅ |>
    <| MarginState := mkMarginStore ∅ None None None ∅ ∅ |>.

Lemma demo_exportable : exportable demo_chain.
Proof.
  split.
  - discriminate.
  - intros k p Hk. cbn in Hk. unfold demo_pools in Hk.
    apply lookup_insert_Some in Hk as [[<- <-]|[_ [<- <-]%lookup_singleton_Some]]; vm_compute; reflexivity.
  - intros k lp Hk. cbn in Hk. unfold demo_lps in Hk.
    apply lookup_insert_Some in Hk as [[<- <-]|[_ [<- <-]%lookup_singleton_Some]]; vm_compute; reflexivity.
  - exists ["root"]. split_and!; [reflexivity|discriminate|]. apply Forall_singleton. by exists "root".
  - split; vm_compute; discriminate.
Qed.

(** The chain that is exported has swap fees and a reward period of its own. *)
Definition tuned_chain : @chain ref_sdk := demo_chain
  <| SwapFees := Some (mkSwapFeeParams (3 * 10 ^ 15) []) |>
  <| RewardsParams := mkRewardParams 100 200 [] "" |>.

Lemma clp_restart_witness :
  ∃ data s', ClpExportGenesis tuned_chain = (Ok data, tuned_chain) ∧ ClpValidateGenesis data = Ok ()
    ∧ ClpInitGenesis data (emptied demo_chain) = (Ok (), s')
    ∧ Pools s' = Pools tuned_chain ∧ LiquidityProviders s' = LiquidityProviders tuned_chain
    ∧ ClpWhiteList s' = ClpWhiteList tuned_chain
    ∧ MinCreatePoolThreshold s' = MinCreatePoolThreshold tuned_chain
    ∧ EnableRemovalQueue s' = EnableRemovalQueue tuned_chain
    ∧ (∀ d, surplus s' d = surplus tuned_chain d) ∧ (∀ sym, unit_gap s' sym = unit_gap tuned_chain sym)
    ∧ RewardsParams s' = GetDefaultRewardParams ∧ PolicyParams s' = GetDefaultPmtpParams
    ∧ ProtectionParams s' = GetDefaultLiquidityProtectionParams ∧ RateParams s' = mkPmtpRateParams 0 0 0
    ∧ SymmetryThreshold s' = SymmetryThreshold demo_chain ∧ SwapFees s' = SwapFees demo_chain
    ∧ DistributionPeriods s' = DistributionPeriods demo_chain.
Proof.
  apply (clp_restart (sdk := ref_sdk) tuned_chain (emptied demo_chain));
    [by destruct demo_wf|by destruct demo_exportable|reflexivity|reflexivity|reflexivity].
Defined.

(** C35.  Every migration of the clp module that completes keeps the store well
    formed and both ledgers: MigrateToVer3, which takes units back from six
    providers, takes exactly the same units off the pool, also when a provider is
    missing. *)
Theorem clp_migrations_keep_books {sdk : SDK} {L : SDKLaws sdk} (m : M chain ()) (s s' : chain) :
  m = ClpMigrateToVer2 ∨ m = ClpMigrateToVer3 ∨ m = ClpMigrateToVer4 →
  clp_wf s → m s = (Ok (), s') →
  clp_wf s' ∧ (∀ d, surplus s' d = surplus s d) ∧ (∀ sym, unit_gap s' sym = unit_gap s sym).
Proof.
  intros Hm Hwf H. assert (keeps_books s s') as [W S G]; [|done].
  destruct Hm as [->|[->| ->]]; [by eapply migrate2_books|by eapply migrate3_books|by eapply migrate4_books].
Qed.

(** The demonstration chain with one of the providers of MigrateToVer3. *)
Definition migrant : LiquidityProvider :=
  mkLiquidityProvider usdc (5 * 10 ^ 22) "fury1smknl4uf89ef84kg020ff7ask7l0sxz3s93gva" [].
Definition before_migration : @chain ref_sdk :=
  put_lp (put_pool demo_chain (pool_usdc <| PoolUnits := 1000 + 5 * 10 ^ 22 |>)) migrant.
Definition after_migration : @chain ref_sdk := (ClpMigrateToVer3 before_migration).2.

Example migrant_units :
  LiquidityProviderUnits <$> (LiquidityProviders after_migration !! lp_key migrant)
  = Some (5 * 10 ^ 22 - 49661617604396299845632).
Proof. vm_compute. reflexivity. Qed.

Lemma clp_migrations_keep_books_witness :
  clp_wf after_migration ∧ (∀ d, surplus after_migration d = surplus before_migration d)
  ∧ (∀ sym, unit_gap after_migration sym = unit_gap before_migration sym).
Proof.
  apply (clp_migrations_keep_books (sdk := ref_sdk) ClpMigrateToVer3 before_migration after_migration).
  - right. left. reflexivity.
  - apply put_lp_wf; [|apply put_pool_wf; [reflexivity| |apply demo_wf]].
    + split; [concrete|reflexivity].
    + unfold pool_wf, pool_deep, pool_uints, is_uint.
      split_and!; (reflexivity || (vm_compute; intro H; discriminate H)).
  - unfold after_migration. apply succeeds_Ok. vm_compute. reflexivity.
Defined.

(** ** The margin module *)

(** Exporting and importing the margin module keeps the parameters but three: the
    closed pools, the switch of incremental interest payments and the whitelisting
    switch are turned off, and all positions, counters and whitelisted addresses
    are gone. *)
Theorem margin_restart {sdk : SDK} {L : SDKLaws sdk} (s s1 s0 s' : chain) params :
  MTPs (MarginState s0) = ∅ →
  MarginExportGenesis s = (Ok params, s1) → MarginInitGenesis (Some params) s0 = (Ok (), s') →
  MTPs (MarginState s') = ∅
  ∧ MarginParams.Pools (GetParams s') = MarginParams.Pools (GetParams s)
  ∧ MarginParams.SafetyFactor (GetParams s') = MarginParams.SafetyFactor (GetParams s)
  ∧ MarginParams.ClosedPools (GetParams s') = []
  ∧ MarginParams.IncrementalInterestPaymentEnabled (GetParams s') = false
  ∧ MarginParams.WhitelistingEnabled (GetParams s') = false.
Proof.
  intros H0 He Hi. destruct (margin_restore s s0 params s1 s' He Hi) as (_ & a & b & _ & _ & -> & ->).
  cbn. by rewrite H0.
Qed.

(** The export and the import of both modules, one after the other. *)
Definition restart {sdk : SDK} : M chain () :=
  clp ← ClpExportGenesis;
  margin ← MarginExportGenesis;
  modify emptied;;
  ClpInitGenesis clp;;
  MarginInitGenesis (Some margin).

(** With a position open, a restart keeps the custody and the liabilities in the
    pool and forgets the position they belong to: nobody can close it any more. *)
Example restart_strands_positions :
  let after := (restart dex_open).2 in
  succeeds restart dex_open = true
  ∧ (size (MTPs (MarginState dex_open)), size (MTPs (MarginState after))) = (1, 0)%nat
  ∧ ((λ p, (ExternalCustody p, NativeLiabilities p)) <$> Pools after !! pool_key "ceth")
    = ((λ p, (ExternalCustody p, NativeLiabilities p)) <$> Pools dex_open !! pool_key "ceth")
  ∧ (succeeds (msg_Close (MsgClose.mk "bob" 2)) after,
     succeeds (msg_Close (MsgClose.mk "bob" 2)) dex_open) = (false, true).
Proof. vm_compute. split_and!; reflexivity. Qed.

(** ** The admin module *)

(** Exporting and importing the admin module restores the accounts; the fee of
    proposals is not exported. *)
Theorem admin_restart {sdk : SDK} {L : SDKLaws sdk} (st st0 : AdminStore) :
  admin_wf st → AdminAccounts st0 = ∅ →
  AdminAccounts (AdminInitGenesis (AdminExportGenesis st) st0) = AdminAccounts st
  ∧ SubmitProposalFee (AdminInitGenesis (AdminExportGenesis st) st0) = SubmitProposalFee st0.
Proof. apply admin_restore. Qed.
