(* ===== verification/Queries.v ===== *)
(** * Queries

    x/clp/keeper/grpc_query.go and x/margin/keeper/grpc_query.go, with the paginated
    listings of the keepers they call, and the query servers of dispensation, admin,
    tokenregistry and ethbridge ([EthProphecy] is in EthBridge.v).  Pagination is the package types/query of the SDK, which is not part of
    the repository: its two functions are the class [Paginator], what is documented of
    them the class [PaginatorLaws].  A request is a pointer, [None] when it is nil. *)
From S2P Require Import Prelude Sdk ClpTypes ClpCalc Admin TokenRegistry MarginTypes Chain.
From S2P Require Import ClpKeeper ClpExec ClpMsg Margin Genesis.
From S2P Require Import DispensationTypes DispensationKeeper BridgeTypes.

(** ** types/query *)
Record PageRequest := mkPageRequest {
  PageKey : option string;
  PageOffset : Z;
  PageLimit : Z;
  CountTotal : bool;
  Reverse : bool
}.
Record PageResponse := mkPageResponse { NextKey : option string; PageTotal : Z }.

(** Both take the entries of a store in the order of its keys.  The callback of
    FilteredPaginate is told whether the entry lies on the page, and says whether it
    counts as a result and whether it was added to the answer. *)
Class Paginator := {
  Paginate {A} : PageRequest → list (string * A) → res (list A * PageResponse);
  FilteredPaginate {A} : PageRequest → (A → bool → bool * bool) → list (string * A) →
    res (list A * PageResponse)
}.

Definition DefaultLimit : Z := 100.
Definition page_size (r : PageRequest) : Z := if PageLimit r =? 0 then DefaultLimit else PageLimit r.

Section Pages.
Context {A : Type}.

(** The entries from a key on. *)
Fixpoint from_key (k : string) (l : list (string * A)) : list (string * A) :=
  match l with
  | [] => []
  | (k', a) :: l' => if String.eqb k k' then l else from_key k l'
  end.
Definition page_entries (r : PageRequest) (l : list (string * A)) : list (string * A) :=
  let l := if Reverse r then reverse l else l in
  match PageKey r with Some k => from_key k l | None => l end.

(** With a key, every entry lies on the page until [limit] results were counted; the
    next key is that of the entry after. *)
Fixpoint scan_key (onResult : A → bool → bool * bool) (limit hits : Z) (l : list (string * A))
    : list A * option string :=
  match l with
  | [] => ([], None)
  | (k, a) :: l =>
      if hits =? limit then ([], Some k) else
      let '(hit, added) := onResult a true in
      let '(xs, next) := scan_key onResult limit (if hit then hits + 1 else hits) l in
      ((if added then [a] else []) ++ xs, next)
  end.

(** With an offset, an entry lies on the page when the results counted before it are
    at least [offset] and fewer than [last]; the next key is that of result
    [last + 1]. *)
Fixpoint scan_offset (onResult : A → bool → bool * bool) (offset last hits : Z)
    (l : list (string * A)) : list A * option string :=
  match l with
  | [] => ([], None)
  | (k, a) :: l =>
      let '(hit, added) := onResult a ((offset <=? hits) && (hits <? last)) in
      let hits := if hit then hits + 1 else hits in
      let here := if added then [a] else [] in
      if hit && (hits =? last + 1) then (here, Some k) else
      let '(xs, next) := scan_offset onResult offset last hits l in (here ++ xs, next)
  end.
End Pages.

Class PaginatorLaws (pg : Paginator) : Prop := {
  paginate_law {A} r (l : list (string * A)) : NoDup l.*1 → 0 ≤ PageOffset r → 0 < page_size r →
    (∀ k, PageKey r = Some k → k ∈ l.*1 ∧ PageOffset r = 0) →
    let rest := drop (Z.to_nat (PageOffset r)) (page_entries r l) in
    ∃ total, Paginate r l = Ok (take (Z.to_nat (page_size r)) rest.*2,
      mkPageResponse (fst <$> rest !! Z.to_nat (page_size r)) total);
  filtered_paginate_key {A} r onResult (l : list (string * A)) k : NoDup l.*1 → 0 < page_size r →
    PageKey r = Some k → k ∈ l.*1 → PageOffset r = 0 →
    let '(xs, next) := scan_key onResult (page_size r) 0 (page_entries r l) in
    ∃ total, FilteredPaginate r onResult l = Ok (xs, mkPageResponse next total);
  filtered_paginate_offset {A} r onResult (l : list (string * A)) : NoDup l.*1 → 0 < page_size r →
    PageKey r = None → 0 ≤ PageOffset r → CountTotal r = false → PageLimit r ≠ 0 →
    let '(xs, next) := scan_offset onResult (PageOffset r) (PageOffset r + page_size r) 0
                         (page_entries r l) in
    ∃ total, FilteredPaginate r onResult l = Ok (xs, mkPageResponse next total);
  paginate_both {A} r (l : list (string * A)) k : PageKey r = Some k → 0 < PageOffset r →
    ∃ e, Paginate r l = Err e
}.

(** ** The listings of the clp and margin keepers by pages *)
Section Keepers.
Context {sdk : SDK} {pg : Paginator}.

Definition GetPoolsPaginated (pagination : PageRequest) : M chain (list Pool * PageResponse) :=
  pools ← gets Pools; lift (Paginate pagination (kv_iterate pools)).

Definition GetAllLiquidityProvidersPaginated (pagination : PageRequest)
    : M chain (list LiquidityProvider * PageResponse) :=
  lps ← gets LiquidityProviders; lift (Paginate pagination (kv_iterate lps)).

Definition LiquidityProvidersForAssetPage (asset : Asset) (pagination : PageRequest)
    : M chain (list LiquidityProvider * PageResponse) :=
  lps ← gets LiquidityProviders;
  lift (FilteredPaginate pagination (λ lp accumulate,
    let hit := AssetEquals (LPAsset lp) asset in (hit, accumulate && hit)) (kv_iterate lps)).

Definition AssetsForLiquidityProviderPage (lpAddress : string) (pagination : PageRequest)
    : M chain (list Asset * PageResponse) :=
  lps ← gets LiquidityProviders;
  '(found, page) ← lift (FilteredPaginate pagination (λ lp accumulate,
    let hit := String.eqb (LiquidityProviderAddress lp) (acc_string lpAddress) in
    (hit, accumulate && hit)) (kv_iterate lps));
  mret (LPAsset <$> found, page).

(** No page given: all of them, [MaxUint64 - 1] at most. *)
Definition or_everything (pagination : option PageRequest) : PageRequest :=
  default (mkPageRequest None 0 (MaxUint64 - 1) false false) pagination.

Definition GetMTPs (pagination : option PageRequest) : M chain (list MTP * PageResponse) :=
  mtps ← gets (λ s, MTPs (MarginState s));
  lift (Paginate (or_everything pagination) (kv_iterate mtps)).

(** An entry counts as a result only when it lies on the page. *)
Definition MTPsForPoolPage (asset : string) (pagination : option PageRequest)
    : M chain (list MTP * PageResponse) :=
  mtps ← gets (λ s, MTPs (MarginState s));
  lift (FilteredPaginate (or_everything pagination) (λ mtp accumulate,
    let found := accumulate && (String.eqb (CustodyAsset mtp) asset || String.eqb (CollateralAsset mtp) asset) in
    (found, found)) (kv_iterate mtps)).

Definition MaxPageLimit : Z := 200.

(** The store of the keys that begin with the address. *)
Definition GetMTPsForAddress (mtpAddress : string) (pagination : option PageRequest)
    : M chain (list MTP * PageResponse) :=
  let pagination := default (mkPageRequest None 0 MaxPageLimit false false) pagination in
  lift (ensure (PageLimit pagination <=? MaxPageLimit) (EOther "page size greater than max"));;
  mtps ← gets (λ s, MTPs (MarginState s));
  lift (Paginate pagination (kv_iterate (filter (λ km, String.prefix (acc_string mtpAddress) km.1 = true) mtps))).

Definition GetWhitelist (pagination : option PageRequest) : M chain (list string * PageResponse) :=
  whitelist ← gets (λ s, Whitelist (MarginState s));
  lift (Paginate (or_everything pagination) (kv_iterate whitelist)).
End Keepers.

(** ** x/clp/keeper/grpc_query.go *)
Record PoolRes := mkPoolRes { ResPool : Pool; ResPoolHeight : Z; ResClpModuleAddress : string }.
Record PoolsRes := mkPoolsRes {
  ResPools : list Pool;
  ResPoolsHeight : Z;
  ResPoolsModuleAddress : string;
  ResPoolsPagination : PageResponse
}.
Record LiquidityProviderRes := mkLiquidityProviderRes {
  ResProvider : LiquidityProvider;
  ResProviderHeight : Z;
  ResNativeAssetBalance : string;
  ResExternalAssetBalance : string
}.
Record LiquidityProviderData := mkLiquidityProviderData {
  DataProvider : LiquidityProvider;
  DataNativeAssetBalance : string;
  DataExternalAssetBalance : string
}.
Record LiquidityProvidersRes := mkLiquidityProvidersRes {
  ResProviders : list LiquidityProvider;
  ResProvidersHeight : Z;
  ResProvidersPagination : PageResponse
}.
Record PoolShareEstimateReq := mkPoolShareEstimateReq {
  EstExternalAsset : option Asset;
  EstNativeAmount : Z;
  EstExternalAmount : Z
}.
Record SwapInfo := mkSwapInfo {
  SwapInfoStatus : SwapStatus;
  SwapInfoFee : Z;
  SwapInfoFeeRate : Z;
  SwapInfoAmount : Z;
  SwapInfoResult : Z
}.
Record PoolShareEstimateRes := mkPoolShareEstimateRes {
  EstPercentage : Z;
  EstNativeAssetAmount : Z;
  EstExternalAssetAmount : Z;
  EstSwapInfo : SwapInfo
}.

Definition empty_request {sdk : SDK} {A} (req : option A) : M chain A :=
  match req with None => fail (EOther "empty request") | Some r => mret r end.

(** A request without a page gets [MaxPageLimit] entries, one for more is refused. *)
Definition page_of {sdk : SDK} (pagination : option PageRequest) : M chain PageRequest :=
  let p := default (mkPageRequest None 0 MaxPageLimit false false) pagination in
  lift (ensure (PageLimit p <=? MaxPageLimit) (EOther "page size greater than max"));;
  mret p.

Definition calculateSwapInfo {sdk : SDK} (swapStatus : SwapStatus) (swapAmount nativeAssetDepth externalAssetDepth
    sellNativeSwapFeeRate buyNativeSwapFeeRate pmtpCurrentRunningRate : Z) : res (Z * Z * Z * SwapStatus) :=
  match swapStatus with
  | NoSwap => Ok (0, 0, 0, NoSwap)
  | SellNative =>
      '(swapResult, liquidityFee) ← CalcSwapResult false nativeAssetDepth swapAmount externalAssetDepth
                                      pmtpCurrentRunningRate sellNativeSwapFeeRate;
      Ok (sellNativeSwapFeeRate, swapResult, liquidityFee, SellNative)
  | BuyNative =>
      '(swapResult, liquidityFee) ← CalcSwapResult true externalAssetDepth swapAmount nativeAssetDepth
                                      pmtpCurrentRunningRate buyNativeSwapFeeRate;
      Ok (buyNativeSwapFeeRate, swapResult, liquidityFee, BuyNative)
  end.

Module Querier.
Section Handlers.
Context {sdk : SDK} {pg : Paginator}.

Definition GetPool (req : option string) : M chain PoolRes :=
  symbol ← empty_request req;
  pool ← wrapM (EOther "validator not found") (ClpKeeper.GetPool symbol);
  height ← gets BlockHeight;
  mret (mkPoolRes pool height (acc_string clp_module_address)).

Definition GetPools (req : option (option PageRequest)) : M chain PoolsRes :=
  pagination ← empty_request req;
  page ← page_of pagination;
  '(pools, pageRes) ← GetPoolsPaginated page;
  height ← gets BlockHeight;
  mret (mkPoolsRes pools height (acc_string clp_module_address) pageRes).

Definition GetLiquidityProvider (req : option (string * string)) : M chain LiquidityProviderRes :=
  '(symbol, lpAddress) ← empty_request req;
  lp ← ClpKeeper.GetLiquidityProvider symbol lpAddress;
  pool ← ClpKeeper.GetPool symbol;
  '(native, external, _, _) ← lift (CalculateAllAssetsForLP pool lp);
  height ← gets BlockHeight;
  mret (mkLiquidityProviderRes lp height (u_str native) (u_str external)).

(** One asset of the loop; a missing pool or provider is passed over. *)
Definition provider_data (lpAddress : string) (acc : list LiquidityProviderData) (asset : Asset)
    : M chain (list LiquidityProviderData) :=
  pool ← try (ClpKeeper.GetPool (Symbol asset));
  match pool with
  | inr _ => mret acc
  | inl pool =>
      lp ← try (ClpKeeper.GetLiquidityProvider (Symbol asset) lpAddress);
      match lp with
      | inr _ => mret acc
      | inl lp =>
          '(native, external, _, _) ← lift (CalculateAllAssetsForLP pool lp);
          mret (acc ++ [mkLiquidityProviderData lp (u_str native) (u_str external)])
      end
  end.

(** Of the page asked for only the size is used. *)
Definition GetLiquidityProviderData (req : option (string * option PageRequest))
    : M chain (list LiquidityProviderData * Z) :=
  '(lpAddress, pagination) ← empty_request req;
  page ← page_of pagination;
  addr ← lift (acc_from_bech32 lpAddress);
  '(assetList, _) ← AssetsForLiquidityProviderPage addr (mkPageRequest None 0 (PageLimit page) false false);
  data ← foldM (provider_data lpAddress) [] assetList;
  height ← gets BlockHeight;
  mret (data, height).

(** The page asked for is checked and then ignored. *)
Definition GetAssetList (req : option (string * option PageRequest)) : M chain (list Asset) :=
  '(lpAddress, pagination) ← empty_request req;
  page_of pagination;;
  addr ← lift (acc_from_bech32 lpAddress);
  '(assetList, _) ← AssetsForLiquidityProviderPage addr (mkPageRequest None 0 MaxPageLimit false false);
  mret assetList.

Definition GetLiquidityProviderList (req : option (string * option PageRequest))
    : M chain LiquidityProvidersRes :=
  '(symbol, pagination) ← empty_request req;
  page ← page_of pagination;
  '(lpList, pageRes) ← LiquidityProvidersForAssetPage (mkAsset symbol) page;
  height ← gets BlockHeight;
  mret (mkLiquidityProvidersRes lpList height pageRes).

Definition GetLiquidityProviders (req : option (option PageRequest)) : M chain LiquidityProvidersRes :=
  pagination ← empty_request req;
  page ← page_of pagination;
  '(lpList, pageRes) ← GetAllLiquidityProvidersPaginated page;
  height ← gets BlockHeight;
  mret (mkLiquidityProvidersRes lpList height pageRes).

Definition GetPmtpParams : M chain (PmtpParams * PmtpRateParams * PmtpEpoch * Z) :=
  gets (λ s, (PolicyParams s, RateParams s, Epoch s, BlockHeight s)).

Definition GetParams : M chain (ClpParams * Z * Z) :=
  params ← gets GetClpParams;
  threshold ← GetSymmetryThreshold;
  ratioThreshold ← GetSymmetryRatio;
  mret (params, threshold, ratioThreshold).

Definition GetRewardParams : M chain RewardParams := gets RewardsParams.
Definition GetLiquidityProtectionParams : M chain (LiquidityProtectionParams * Z * Z) :=
  gets (λ s, (ProtectionParams s, CurrentFuryLiquidityThreshold s, BlockHeight s)).
Definition GetProviderDistributionParams : M chain (list ProviderDistributionPeriod) :=
  gets DistributionPeriods.
Definition GetSwapFeeParams : M chain (Z * list SwapFeeTokenParams) :=
  params ← ClpKeeper.GetSwapFeeParams; mret (DefaultSwapFeeRate params, TokenParams params).

(** A nil request or asset panics. *)
Definition GetPoolShareEstimate (req : option PoolShareEstimateReq) : M chain PoolShareEstimateRes :=
  req ← lift (deref req);
  externalAsset ← lift (deref (EstExternalAsset req));
  pool ← wrapM (EClp ErrPoolDoesNotExist) (ClpKeeper.GetPool (Symbol externalAsset));
  rate ← gets (λ s, PmtpCurrentRunningRate (RateParams s));
  sellNativeSwapFeeRate ← GetSwapFeeRate GetSettlementAsset false;
  buyNativeSwapFeeRate ← GetSwapFeeRate externalAsset false;
  '(nativeAssetDepth, externalAssetDepth) ← lift
    (ExtractDebt pool (NativeAssetBalance pool) (ExternalAssetBalance pool) false);
  '(newPoolUnits, lpUnits, swapStatus, swapAmount) ← lift
    (CalculatePoolUnits (PoolUnits pool) nativeAssetDepth externalAssetDepth (EstNativeAmount req)
       (EstExternalAmount req) sellNativeSwapFeeRate buyNativeSwapFeeRate rate);
  '(feeRate, swapResult, feeAmount, resSwapStatus) ← lift
    (calculateSwapInfo swapStatus swapAmount nativeAssetDepth externalAssetDepth sellNativeSwapFeeRate
       buyNativeSwapFeeRate rate);
  newNative ← lift (u_add nativeAssetDepth (EstNativeAmount req));
  newExternal ← lift (u_add externalAssetDepth (EstExternalAmount req));
  percentage ← lift (d_quo (d_of_big lpUnits) (d_of_big newPoolUnits));
  nativeAmountD ← lift (d_mul percentage (d_of_big newNative));
  externalAmountD ← lift (d_mul percentage (d_of_big newExternal));
  native ← lift (d_trunc nativeAmountD);
  native ← lift (u_of_big native);
  external ← lift (d_trunc externalAmountD);
  external ← lift (u_of_big external);
  mret (mkPoolShareEstimateRes percentage native external
          (mkSwapInfo resSwapStatus feeAmount feeRate swapAmount swapResult)).
End Handlers.
End Querier.

(** ** x/margin/keeper/grpc_query.go *)
Module MarginQuery.
Section Handlers.
Context {sdk : SDK} {pg : Paginator}.

Definition GetMTP (address : string) (id : Z) : M chain MTP := Margin.GetMTP address id.

Definition GetPositionsForAddress (address : string) (pagination : option PageRequest)
    : M chain (list MTP * PageResponse) :=
  addr ← lift (acc_from_bech32 address); GetMTPsForAddress addr pagination.

Definition GetParams : M chain MarginParams.t := gets Margin.GetParams.

Definition GetPositionsByPool (asset : string) (pagination : option PageRequest)
    : M chain (list MTP * PageResponse) := MTPsForPoolPage asset pagination.

(** The limit is read through the pointer before anything is checked. *)
Definition limited (pagination : option PageRequest) : M chain () :=
  p ← lift (deref pagination);
  lift (ensure (PageLimit p <=? MaxPageLimit) (EOther "page size greater than max")).

Definition GetPositions (pagination : option PageRequest) : M chain (list MTP * PageResponse) :=
  limited pagination;; GetMTPs pagination.

Definition GetStatus : M chain (Z * Z) := gets (λ s, (GetOpenMTPCount s, GetMTPCount s)).

Definition GetWhitelist (pagination : option PageRequest) : M chain (list string * PageResponse) :=
  limited pagination;; Queries.GetWhitelist pagination.

Definition GetSQParams (pool : string) : M chain Z :=
  pool ← ClpKeeper.GetPool pool; gets (λ s, i64 (GetSQBeginBlock s pool)).

Definition IsWhitelisted (address : string) : M chain (string * bool) :=
  gets (λ s, (address, Margin.IsWhitelisted s address)).
End Handlers.
End MarginQuery.

(** ** x/dispensation/keeper/grpc_querier.go *)
Module DispensationQuery.
Section Handlers.
Context {sdk : SDK}.

Definition AllDistributions : M chain (list Distribution) :=
  gets (λ s, GetDistributions (DispensationState s)).

Definition ClaimsByType (userClaimType : DistributionType) : M chain (list UserClaim) :=
  gets (λ s, GetClaimsByType (DispensationState s) userClaimType).

Definition RecordsByDistributionName (distributionName : string) (status : DistributionStatus)
    : M chain (list DistributionRecord) :=
  st ← gets DispensationState;
  records ← lift (GetRecordsForNameAndStatus st distributionName status);
  if status =? DISTRIBUTION_STATUS_UNSPECIFIED then
    pending ← lift (GetRecordsForNameAndStatus st distributionName DISTRIBUTION_STATUS_PENDING);
    mret (records ++ pending)
  else mret records.

Definition RecordsByRecipient (address : string) : M chain (list DistributionRecord) :=
  st ← gets DispensationState; lift (GetRecordsForRecipient st address).
End Handlers.
End DispensationQuery.

(** ** The query servers of admin, tokenregistry and ethbridge *)
Module AdminQuery.
Section Handlers.
Context {sdk : SDK}.

Definition ListAccounts : M chain (list AdminAccount) := gets (λ s, GetAdminAccounts (AdminState s)).
Definition GetParams : M chain Z := gets (λ s, GetAdminParams (AdminState s)).
End Handlers.
End AdminQuery.

Module RegistryQuery.
Section Handlers.
Context {sdk : SDK}.

Definition Entries : M chain Registry := gets TokenRegistry.
End Handlers.
End RegistryQuery.

Module BridgeQuery.
Section Handlers.
Context {sdk : SDK}.

Definition GetPauseStatus : M chain bool := gets (λ s, IsPaused (BridgeState s)).
Definition GetBlacklist : M chain (list string) := gets (λ s, BridgeTypes.GetBlacklist (BridgeState s)).
End Handlers.
End BridgeQuery.
