(* ===== verification/QueryClaims.v ===== *)
(** * What the answers of the queries are worth *)
From S2P Require Import Prelude Sdk Reference ClpTypes ClpCalc ClpCalcProps Admin TokenRegistry MarginTypes Chain.
From S2P Require Import ClpKeeper ClpExec ClpMsg ClpState ClpSwapProps ClpLiquidityProps ClpSystem Margin Genesis Queries.
From S2P Require Import DispensationTypes Demo ClpClaims.

(** ** Pages *)
Section Pages.
Context {A : Type}.
Implicit Types l pre suf rest : list (string * A).

Lemma from_key_suffix pre k a suf : NoDup (pre ++ (k, a) :: suf).*1 →
  from_key k (pre ++ (k, a) :: suf) = (k, a) :: suf.
Proof.
  induction pre as [|[k' a'] pre IH]; intros Hnd; cbn [app from_key]; [by rewrite String.eqb_refl|].
  cbn in Hnd. apply NoDup_cons in Hnd as [Hni Hnd].
  destruct (String.eqb_spec k k') as [->|_]; [|by apply IH].
  exfalso. apply Hni. rewrite fmap_app. set_solver.
Qed.

(** A page function gives the entries kept by [f] of a part of the store, and the key
    to go on with. *)
Definition gives_pages (f : A → bool) l (page : option string → res (list A * PageResponse)) : Prop :=
  ∀ key pre rest, l = pre ++ rest →
    match key with None => pre = [] | Some k => fst <$> head rest = Some k end →
    ∃ here suf total, rest = here ++ suf ∧ (suf ≠ [] → here ≠ [])
      ∧ page key = Ok (filter (λ a, f a = true) here.*2, mkPageResponse (fst <$> head suf) total).

(** What a client collects that asks for the next page until there is none. *)
Fixpoint fetch (page : option string → res (list A * PageResponse)) (fuel : nat) (key : option string)
    : res (list A) :=
  match fuel with
  | O => Err (EOther "out of fuel")
  | S fuel =>
      '(xs, resp) ← page key;
      match NextKey resp with
      | None => Ok xs
      | Some k => rest ← fetch page fuel (Some k); Ok (xs ++ rest)
      end
  end.

Lemma fetch_all f l page : gives_pages f l page → ∀ fuel key pre rest, l = pre ++ rest →
  match key with None => pre = [] | Some k => fst <$> head rest = Some k end →
  (length rest < fuel)%nat → fetch page fuel key = Ok (filter (λ a, f a = true) rest.*2).
Proof.
  intros Hp. induction fuel as [|fuel IH]; intros key pre rest Hl Hk Hf; [lia|].
  destruct (Hp key pre rest Hl Hk) as (here & suf & total & -> & Hpos & Hpage).
  cbn. rewrite Hpage. cbn. destruct suf as [|[k a] suf]; cbn.
  - by rewrite app_nil_r.
  - assert (here ≠ []) as Hne by by apply Hpos. rewrite (IH (Some k) (pre ++ here) ((k, a) :: suf)).
    + cbn. by rewrite fmap_app, filter_app.
    + by rewrite Hl, <- app_assoc.
    + done.
    + rewrite length_app in Hf. destruct here; [done|]. cbn in *. lia.
Qed.

(** Paginate gives pages. *)
Lemma paginate_pages {pg : Paginator} {PL : PaginatorLaws pg} l n : NoDup l.*1 → 0 < n →
  gives_pages (λ _, true) l (λ key, Paginate (mkPageRequest key 0 n false false) l).
Proof.
  intros Hnd Hn key pre rest -> Hk.
  assert (page_size (mkPageRequest key 0 n false false) = n) as Hsize.
  { unfold page_size. cbn. case_test; bool_prop; lia. }
  assert (page_entries (mkPageRequest key 0 n false false) (pre ++ rest) = rest) as Hent.
  { unfold page_entries. cbn. destruct key as [k|]; [|by subst]. destruct rest as [|[k' a] rest]; [done|].
    injection Hk as ->. by apply from_key_suffix. }
  destruct (paginate_law (mkPageRequest key 0 n false false) (pre ++ rest)) as [total Ht]; [done|done|by rewrite Hsize| |].
  { cbn. intros k ->. destruct rest as [|[k' a] rest]; [done|]. injection Hk as ->. split; [|done].
    rewrite fmap_app. set_solver. }
  rewrite Hent, Hsize in Ht. cbn in Ht. change (drop (Z.to_nat 0) rest) with rest in Ht.
  exists (take (Z.to_nat n) rest), (drop (Z.to_nat n) rest), total. split_and!.
  - by rewrite take_drop.
  - intros Hs He. apply Hs. destruct rest as [|x rest]; [by rewrite drop_nil|].
    destruct (Z.to_nat n) eqn:E; [lia|done].
  - rewrite Ht. rewrite <- fmap_take. do 2 f_equal.
    + symmetry. induction ((take (Z.to_nat n) rest).*2) as [|x xs IH]; [done|]. rewrite filter_cons_True by done. by rewrite IH.
    + f_equal. rewrite head_lookup, lookup_drop. by rewrite Nat.add_0_r.
Qed.
End Pages.

Section Filtered.
Context {A : Type} (f : A → bool).
Implicit Types l rest : list (string * A).
Abbreviation kept l := (filter (λ a, f a = true) l.*2).

(** The callback of a listing that counts every matching entry. *)
Definition counts_all (a : A) (accumulate : bool) : bool * bool := (f a, accumulate && f a).
(** That of a listing that counts them only on the page. *)
Definition counts_on_page (a : A) (accumulate : bool) : bool * bool := (accumulate && f a, accumulate && f a).

Lemma kept_cons k a l : kept ((k, a) :: l) = (if f a then [a] else []) ++ kept l.
Proof. rewrite fmap_cons, filter_cons. cbn [snd]. by destruct (f a). Qed.

Lemma scan_key_spec limit l : ∀ hits, 0 ≤ hits ≤ limit → hits < limit ∨ l = [] →
  ∃ here suf, l = here ++ suf ∧ (suf ≠ [] → here ≠ [])
    ∧ scan_key counts_all limit hits l = (kept here, fst <$> head suf).
Proof.
  assert (∀ l hits, 0 ≤ hits ≤ limit → ∃ here suf, l = here ++ suf ∧ (hits < limit → suf ≠ [] → here ≠ [])
    ∧ scan_key counts_all limit hits l = (kept here, fst <$> head suf)) as Hgen.
  { clear l. induction l as [|[k a] l IH]; intros hits Hh; [by exists [], []|]. cbn [scan_key].
    destruct (Z.eqb_spec hits limit) as [->|Hne]; [exists [], ((k, a) :: l); split_and!; [done|lia|done]|].
    unfold counts_all at 1. cbn [andb].
    destruct (IH (if f a then hits + 1 else hits)) as (here & suf & -> & _ & Hs); [destruct (f a); lia|].
    rewrite Hs. exists ((k, a) :: here), suf. split_and!; [done..|]. by rewrite kept_cons. }
  intros hits Hh [Hlt| ->]; [|by exists [], []].
  destruct (Hgen l hits Hh) as (here & suf & ? & Hp & ?). exists here, suf. auto.
Qed.

Lemma scan_offset_spec last l : ∀ hits, 0 ≤ hits ≤ last →
  ∃ here suf, l = here ++ suf ∧ (hits < last → suf ≠ [] → here ≠ [])
    ∧ scan_offset counts_all 0 last hits l = (kept here, fst <$> head suf).
Proof.
  induction l as [|[k a] l IH]; intros hits Hh; [by exists [], []|]. cbn [scan_offset].
  rewrite (proj2 (Z.leb_le 0 hits)) by lia. unfold counts_all at 1. cbn [andb].
  destruct (f a) eqn:Ha.
  - destruct (Z.ltb_spec hits last); cbn [andb].
    + rewrite (proj2 (Z.eqb_neq _ _)) by lia.
      destruct (IH (hits + 1)) as (here & suf & -> & _ & Hs); [lia|]. rewrite Hs.
      exists ((k, a) :: here), suf. split_and!; [done..|]. by rewrite kept_cons, Ha.
    + rewrite (proj2 (Z.eqb_eq _ _)) by lia. exists [], ((k, a) :: l). split_and!; [done|lia|done].
  - rewrite andb_false_r. cbn [andb]. destruct (IH hits Hh) as (here & suf & -> & _ & Hs). rewrite Hs.
    exists ((k, a) :: here), suf. split_and!; [done..|]. by rewrite kept_cons, Ha.
Qed.

Lemma filtered_pages {pg : Paginator} {PL : PaginatorLaws pg} l n : NoDup l.*1 → 0 < n →
  gives_pages f l (λ key, FilteredPaginate (mkPageRequest key 0 n false false) counts_all l).
Proof.
  intros Hnd Hn key pre rest -> Hk.
  assert (page_size (mkPageRequest key 0 n false false) = n) as Hsize.
  { unfold page_size. cbn. case_test; bool_prop; lia. }
  destruct key as [k|].
  - destruct rest as [|[k' a] rest]; [done|]. injection Hk as ->.
    pose proof (filtered_paginate_key (mkPageRequest (Some k) 0 n false false) counts_all
      (pre ++ (k, a) :: rest) k) as Ht.
    rewrite Hsize in Ht. unfold page_entries in Ht. cbn [PageKey Reverse PageOffset] in Ht.
    rewrite from_key_suffix in Ht by done.
    destruct (scan_key_spec n ((k, a) :: rest) 0) as (here & suf & Hl & Hp & Hs); [lia|lia|].
    rewrite Hs in Ht. destruct Ht as [total Ht]; [done|lia|done|rewrite fmap_app; set_solver|done|].
    by exists here, suf, total.
  - subst. pose proof (filtered_paginate_offset (mkPageRequest None 0 n false false) counts_all rest) as Ht.
    rewrite Hsize in Ht. unfold page_entries in Ht. cbn [PageKey Reverse PageOffset CountTotal PageLimit] in Ht.
    replace (0 + n) with n in Ht by lia.
    destruct (scan_offset_spec n rest 0) as (here & suf & Hl & Hp & Hs); [lia|].
    rewrite Hs in Ht. destruct Ht as [total Ht]; [done|lia|done|lia|done|lia|].
    exists here, suf, total. split_and!; [done|intros; apply Hp; [lia|done]|done].
Qed.

(** Counting only on the page, the scan never gets past it. *)
Lemma scan_on_page offset last l : ∀ hits, 0 ≤ hits ≤ last → offset ≤ last →
  (scan_offset counts_on_page offset last hits l).2 = None
  ∧ (hits < offset → (scan_offset counts_on_page offset last hits l).1 = [])
  ∧ (offset ≤ hits → (scan_offset counts_on_page offset last hits l).1
                      = take (Z.to_nat (last - hits)) (kept l)).
Proof.
  induction l as [|[k a] l IH]; intros hits Hh Ho;
    [split_and!; [done|done|intros _; symmetry; apply take_nil]|]. cbn [scan_offset].
  unfold counts_on_page at 1 3 5. rewrite kept_cons.
  destruct (Z.leb_spec offset hits); cbn [andb].
  - destruct (Z.ltb_spec hits last); cbn [andb].
    + destruct (f a); cbn [andb].
      * rewrite (proj2 (Z.eqb_neq _ _)) by lia. destruct (IH (hits + 1)) as (H1 & _ & H2); [lia|lia|].
        destruct (scan_offset _ _ _ _ _) as [xs next]. cbn in *. split_and!; [done|lia|].
        intros _. rewrite H2 by lia. replace (Z.to_nat (last - hits)) with (S (Z.to_nat (last - (hits + 1)))) by lia. done.
      * destruct (IH hits) as (H1 & _ & H2); [lia|lia|].
        destruct (scan_offset _ _ _ _ _) as [xs next]. cbn in *. split_and!; [done|lia|done].
    + destruct (IH hits) as (H1 & _ & H2); [lia|lia|].
      destruct (scan_offset _ _ _ _ _) as [xs next]. cbn in *. split_and!; [done|lia|].
      intros Hx. rewrite H2 by done. by replace (Z.to_nat (last - hits)) with O by lia.
  - destruct (IH hits) as (H1 & H2 & _); [lia|lia|].
    destruct (scan_offset _ _ _ _ _) as [xs next]. cbn in *. split_and!; [done|done|lia].
Qed.
End Filtered.

(** ** A paginator for the witnesses *)
Definition ref_paginator : Paginator := {|
  Paginate A r l :=
    match PageKey r with
    | Some _ => if 0 <? PageOffset r then Err (EOther "either offset or key is expected") else
        let rest := page_entries r l in
        Ok (take (Z.to_nat (page_size r)) rest.*2, mkPageResponse (fst <$> rest !! Z.to_nat (page_size r)) 0)
    | None =>
        let rest := drop (Z.to_nat (PageOffset r)) (page_entries r l) in
        Ok (take (Z.to_nat (page_size r)) rest.*2, mkPageResponse (fst <$> rest !! Z.to_nat (page_size r)) 0)
    end;
  FilteredPaginate A r onResult l :=
    let '(xs, next) := match PageKey r with
      | Some _ => scan_key onResult (page_size r) 0 (page_entries r l)
      | None => scan_offset onResult (PageOffset r) (PageOffset r + page_size r) 0 (page_entries r l)
      end in
    Ok (xs, mkPageResponse next 0)
|}.
#[export] Instance ref_paginator_laws : PaginatorLaws ref_paginator.
Proof.
  split.
  - intros A r l _ _ _ Hk. cbn. exists 0. destruct (PageKey r) as [k|]; [|done].
    destruct (Hk k eq_refl) as [_ H0]. rewrite H0. cbn. by rewrite drop_0.
  - intros A r onResult l k _ _ Hk _ _. cbn. rewrite Hk. destruct (scan_key _ _ _ _). by exists 0.
  - intros A r onResult l _ _ Hk _ _ _. cbn. rewrite Hk. destruct (scan_offset _ _ _ _ _). by exists 0.
  - intros A r l k Hk Ho. cbn. rewrite Hk, (proj2 (Z.ltb_lt _ _)) by done. by eexists.
Qed.

(** ** Complete listings *)
Section Listings.
Context {sdk : SDK} {L : SDKLaws sdk} {pg : Paginator} {PL : PaginatorLaws pg}.
Implicit Types s : chain.

(** The answer to a query on [s], as a client sees it. *)
Definition answer {A B} (m : M chain A) (f : A → B) s : res B := a ← (m s).1; Ok (f a).

(** Pages of [n] entries, from a key on. *)
Definition key_page (n : Z) (key : option string) : PageRequest := mkPageRequest key 0 n false false.

Definition pool_pages n s key : res (list Pool * PageResponse) :=
  answer (Querier.GetPools (Some (Some (key_page n key)))) (λ r, (ResPools r, ResPoolsPagination r)) s.
Definition provider_pages n s key : res (list LiquidityProvider * PageResponse) :=
  answer (Querier.GetLiquidityProviders (Some (Some (key_page n key))))
    (λ r, (ResProviders r, ResProvidersPagination r)) s.
Definition asset_provider_pages symbol n s key : res (list LiquidityProvider * PageResponse) :=
  answer (Querier.GetLiquidityProviderList (Some (symbol, Some (key_page n key))))
    (λ r, (ResProviders r, ResProvidersPagination r)) s.

Lemma listing_keys {A} (m : gmap string A) : NoDup (kv_iterate m).*1.
Proof. rewrite (Permutation_map fst (kv_iterate_law m)). apply NoDup_fst_map_to_list. Qed.

Lemma gives_pages_ext {A} (f : A → bool) l p q : (∀ key, p key = q key) → gives_pages f l p → gives_pages f l q.
Proof.
  intros He Hp key pre rest Hl Hk. destruct (Hp key pre rest Hl Hk) as (h & sf & t & ? & ? & ?).
  exists h, sf, t. split_and!; [done..|]. by rewrite <- He.
Qed.
End Listings.

(** C32.  A client that asks for pages of at most 200 entries and follows the next key
    gets every pool, every provider, and every provider of an asset, exactly once
    and in the order of the store, and comes to an end. *)
Theorem pages_complete {sdk : SDK} {L : SDKLaws sdk} {pg : Paginator} {PL : PaginatorLaws pg}
    n (s : chain) symbol fuel :
  0 < n ≤ MaxPageLimit → (length (kv_iterate (Pools s)) < fuel)%nat →
  (length (kv_iterate (LiquidityProviders s)) < fuel)%nat →
  fetch (pool_pages n s) fuel None = Ok (kv_iterate (Pools s)).*2
  ∧ fetch (provider_pages n s) fuel None = Ok (kv_iterate (LiquidityProviders s)).*2
  ∧ fetch (asset_provider_pages symbol n s) fuel None
    = Ok (filter (λ lp, AssetEquals (LPAsset lp) (mkAsset symbol) = true) (kv_iterate (LiquidityProviders s)).*2).
Proof.
  intros [Hn Hmax] Hp Hl.
  assert (∀ A (xs : list A), filter (λ _, true = true) xs = xs) as Hall.
  { intros A xs. induction xs as [|x xs IH]; [done|]. rewrite filter_cons_True by done. by rewrite IH. }
  split_and!.
  - rewrite <- (Hall _ (kv_iterate (Pools s)).*2). apply (fetch_all _ (kv_iterate (Pools s))) with (pre := []); [|done..].
    eapply gives_pages_ext; [|by apply (paginate_pages (kv_iterate (Pools s)) n (listing_keys _))].
    intros key. unfold pool_pages, answer, Querier.GetPools, empty_request, page_of, GetPoolsPaginated, ensure, key_page, lift, gets, mbind, M_bind. cbn.
    rewrite (proj2 (Z.leb_le n MaxPageLimit) Hmax). cbn.
    by destruct (Paginate _ _) as [[xs resp]| |].
  - rewrite <- (Hall _ (kv_iterate (LiquidityProviders s)).*2).
    apply (fetch_all _ (kv_iterate (LiquidityProviders s))) with (pre := []); [|done..].
    eapply gives_pages_ext; [|by apply (paginate_pages (kv_iterate (LiquidityProviders s)) n (listing_keys _))].
    intros key. unfold provider_pages, answer, Querier.GetLiquidityProviders, empty_request, page_of, GetAllLiquidityProvidersPaginated, ensure, key_page, lift, gets, mbind, M_bind. cbn.
    rewrite (proj2 (Z.leb_le n MaxPageLimit) Hmax). cbn.
    by destruct (Paginate _ _) as [[xs resp]| |].
  - apply (fetch_all (λ lp, AssetEquals (LPAsset lp) (mkAsset symbol)) (kv_iterate (LiquidityProviders s))) with (pre := []); [|done..].
    eapply gives_pages_ext; [|by apply (filtered_pages _ (kv_iterate (LiquidityProviders s)) n (listing_keys _))].
    intros key. unfold asset_provider_pages, answer, Querier.GetLiquidityProviderList, empty_request, page_of, LiquidityProvidersForAssetPage, ensure, key_page, lift, gets, mbind, M_bind, counts_all. cbn.
    rewrite (proj2 (Z.leb_le n MaxPageLimit) Hmax). cbn.
    by destruct (FilteredPaginate _ _ _) as [[xs resp]| |].
Qed.

Lemma pages_complete_witness :
  fetch (pool_pages (pg := ref_paginator) 1 demo_chain) 3 None = Ok (kv_iterate (Pools demo_chain)).*2
  ∧ length (kv_iterate (Pools demo_chain)) = 2%nat.
Proof.
  split; [|vm_compute; reflexivity].
  refine (proj1 (pages_complete (sdk := ref_sdk) (pg := ref_paginator) 1 demo_chain "ceth" 3 _ _ _));
    [by split|vm_compute; lia..].
Defined.

(** ** The positions of a pool *)

(** The positions with custody or collateral in an asset, in the order of the store. *)
Definition positions_in {sdk : SDK} (asset : string) (s : chain) : list MTP :=
  filter (λ m, String.eqb (CustodyAsset m) asset || String.eqb (CollateralAsset m) asset = true)
    (kv_iterate (MTPs (MarginState s))).*2.

(** The listing of the positions of a pool gives the first page at most: asked from
    any later offset it is empty, and it never names a key to go on with, so a
    position past the first page of a size is on no page of that size. *)
Theorem positions_by_pool_truncated {sdk : SDK} {L : SDKLaws sdk} {pg : Paginator} {PL : PaginatorLaws pg}
    asset offset limit (s : chain) : 0 ≤ offset → 0 < limit →
  ∃ total, MarginQuery.GetPositionsByPool asset (Some (mkPageRequest None offset limit false false)) s
    = (Ok (if offset =? 0 then take (Z.to_nat limit) (positions_in asset s) else [],
           mkPageResponse None total), s).
Proof.
  intros Ho Hl. set (r := mkPageRequest None offset limit false false).
  set (f := λ m, String.eqb (CustodyAsset m) asset || String.eqb (CollateralAsset m) asset).
  assert (page_size r = limit) as Hsize by (unfold page_size; cbn; case_test; bool_prop; lia).
  pose proof (filtered_paginate_offset r (counts_on_page f) (kv_iterate (MTPs (MarginState s)))) as Ht.
  destruct (scan_on_page f offset (offset + limit) (kv_iterate (MTPs (MarginState s))) 0) as (Hnext & Hlater & Hfirst);
    [lia..|].
  rewrite Hsize in Ht. cbn [PageOffset PageKey page_entries Reverse r] in Ht.
  unfold page_entries in Ht. cbn [Reverse PageKey r] in Ht.
  destruct (scan_offset _ _ _ _ _) as [xs next]. cbn [fst snd] in *. subst next.
  destruct Ht as [total Ht]; [apply listing_keys|lia|done|done|done|cbn; lia|].
  exists total. unfold MarginQuery.GetPositionsByPool, MTPsForPoolPage, or_everything, lift, gets, mbind, M_bind.
  cbn [default from_option]. unfold counts_on_page in Ht. subst f r. cbn. cbn in Ht. rewrite Ht.
  do 3 f_equal. destruct (Z.eqb_spec offset 0) as [->|Hne]; [|apply Hlater; lia].
  rewrite Hfirst by lia. by replace (0 + limit - 0) with limit by lia.
Qed.

(** ** The estimate of a share *)
Definition provider_units {sdk : SDK} (sym signer : string) (s : chain) : Z :=
  match LiquidityProviders s !! GetLiquidityProviderKey sym signer with
  | Some lp => LiquidityProviderUnits lp
  | None => 0
  end.

Definition estimate_of (msg : MsgAddLiquidity.t) : PoolShareEstimateReq :=
  mkPoolShareEstimateReq (Some (MsgAddLiquidity.ExternalAsset msg)) (MsgAddLiquidity.NativeAssetAmount msg)
    (MsgAddLiquidity.ExternalAssetAmount msg).

Lemma GetPoolShareEstimate_Ok {sdk : SDK} {L : SDKLaws sdk} {mk : MarginKeeper} ext n e p units st x r (s t : chain) :
  Pools s !! pool_key (Symbol ext) = Some p → pool_wf p →
  CalculatePoolUnits (PoolUnits p) (NativeAssetBalance p + NativeLiabilities p)
    (ExternalAssetBalance p + ExternalLiabilities p) n e (fee_rate s GetSettlementAsset) (fee_rate s ext)
    (PmtpCurrentRunningRate (RateParams s)) = Ok (PoolUnits p + units, units, st, x) →
  Querier.GetPoolShareEstimate (Some (mkPoolShareEstimateReq (Some ext) n e)) s = (Ok r, t) →
  t = s ∧ d_quo (d_of_big units) (d_of_big (PoolUnits p + units)) = Ok (EstPercentage r).
Proof.
  intros Hp Hpw Hu H. unfold Querier.GetPoolShareEstimate, GetSwapFeeRate, ClpKeeper.GetSwapFeeParams in H.
  inv_msg.
  repeat match goal with E : deref _ = Ok _ |- _ => injection E as <- end.
  cbn [EstExternalAsset EstNativeAmount EstExternalAmount] in *.
  rewrite Hp in E1. injection E1 as <-.
  match goal with v : (Z * Z)%type |- _ => destruct v end.
  apply ExtractDebt_plain in E5 as (-> & -> & _); [|done].
  unfold fee_rate in Hu. cbn [negb Symbol] in *.
  inv_msg. repeat (open_pairs; inv_msg). split; [done|].
  match goal with E : CalculatePoolUnits _ _ _ _ _ _ _ _ = Ok (_, _, _, _) |- _ =>
    pose proof (eq_trans (eq_sym Hu) E) as Heq; injection Heq as -> -> _ _; assumption end.
Qed.

(** C33.  The percentage estimated for adding liquidity is exact: if MsgAddLiquidity then
    succeeds with the same amounts, it is the share of the pool's units the
    provider has gained.  The estimate changes nothing.  The store is that of a
    reachable state ([clp_inv]), the amounts are decoded integers, and the signer is
    an ordinary account in the spelling of the SDK: signed in capitals the message
    overwrites the record of a provider that has one ([upper_case_signer_overwrites]),
    and what is gained is not the share. *)
Theorem share_estimate_exact {sdk : SDK} {L : SDKLaws sdk} {mk : MarginKeeper} msg r (s s' t : chain) :
  clp_inv s → decoded (AddLiquidityMsg msg) →
  Querier.GetPoolShareEstimate (Some (estimate_of msg)) s = (Ok r, t) →
  msg_AddLiquidity msg s = (Ok (), s') →
  let sym := Symbol (MsgAddLiquidity.ExternalAsset msg) in
  let gained := provider_units sym (MsgAddLiquidity.Signer msg) s'
                - provider_units sym (MsgAddLiquidity.Signer msg) s in
  t = s ∧ d_quo (d_of_big gained) (d_of_big (pool_units_of s' sym)) = Ok (EstPercentage r).
Proof.
  intros [Hwf Hq _] ((addr & Ha & Hc & _) & He & Hn) Hest H sym gained.
  eapply msg_AddLiquidity_Ok in H; [|done..].
  destruct H as (p & units & st & x & b & cs & lp & Hp & Hsym & Hpw & Hcalc & _ & _ & _ & _ & Hls & Hla & HP' & _ & HL' & Hunits & _).
  assert (GetLiquidityProviderKey sym (MsgAddLiquidity.Signer msg) = lp_key lp) as Hkey
    by (unfold lp_key; by rewrite Hls, Hla).
  assert (gained = units) as ->.
  { unfold gained, provider_units. rewrite Hkey, HL', lookup_insert_eq, Hunits.
    destruct (LiquidityProviders s !! lp_key lp); lia. }
  replace (pool_units_of s' sym) with (PoolUnits p + units)
    by (unfold pool_units_of; by rewrite HP', lookup_insert_eq).
  by eapply GetPoolShareEstimate_Ok.
Qed.

Definition demo_estimate : PoolShareEstimateRes :=
  match (Querier.GetPoolShareEstimate (Some (estimate_of demo_add)) demo_chain).1 with
  | Ok r => r
  | _ => mkPoolShareEstimateRes 0 0 0 (mkSwapInfo NoSwap 0 0 0 0)
  end.

Lemma answered {A} (m : res A * @chain ref_sdk) r : m.1 = Ok r → m = (Ok r, m.2).
Proof. destruct m. cbn. congruence. Qed.

Lemma share_estimate_exact_witness :
  d_quo (d_of_big (provider_units "cusdc" "bob" after_add - provider_units "cusdc" "bob" demo_chain))
    (d_of_big (pool_units_of after_add "cusdc")) = Ok (EstPercentage demo_estimate)
  ∧ 0 < EstPercentage demo_estimate.
Proof.
  split; [|vm_compute; reflexivity].
  refine (proj2 (share_estimate_exact (sdk := ref_sdk) demo_add demo_estimate demo_chain after_add
    (Querier.GetPoolShareEstimate (Some (estimate_of demo_add)) demo_chain).2 _ _ _ _));
    [apply demo_inv|split_and!; [apply account_bob|concrete|concrete]
    |apply answered; vm_compute; reflexivity|unfold after_add; apply succeeds_Ok; vm_compute; reflexivity].
Defined.

(** A listing with two positions in "ceth". *)
Definition two_positions : @chain ref_sdk :=
  let m id := (NewMTP "bob" "ceth" "fury" Position_LONG (2 * P18)) <| MtpId := id |> in
  demo_chain <| MarginState := demo_margin <| MTPs :=
    <[GetMTPKey "bob" 1 := m 1]> {[GetMTPKey "bob" 2 := m 2]} |> |>.

Lemma positions_by_pool_truncated_witness :
  ∃ total, (MarginQuery.GetPositionsByPool (pg := ref_paginator) "ceth"
              (Some (mkPageRequest None 1 1 false false)) two_positions).1
           = Ok ([], mkPageResponse None total)
  ∧ length (positions_in "ceth" two_positions) = 2%nat.
Proof.
  destruct (positions_by_pool_truncated (sdk := ref_sdk) (pg := ref_paginator) "ceth" 1 1 two_positions)
    as [total Ht]; [lia|lia|].
  exists total. split; [by rewrite Ht|vm_compute; reflexivity].
Defined.

(** ** Queries read only *)

(** [m] leaves the state as it is, also when it fails or panics. *)
Class Reads {S A} (m : M S A) : Prop := reads_state s : (m s).2 = s.

Section Reads.
Context {S : Type}.

#[export] Instance reads_lift {A} (r : res A) : Reads (S := S) (lift r).
Proof. done. Qed.
#[export] Instance reads_gets {A} (f : S → A) : Reads (gets f).
Proof. done. Qed.
#[export] Instance reads_fail {A} e : Reads (S := S) (A := A) (fail e).
Proof. done. Qed.
#[export] Instance reads_ret {A} (a : A) : Reads (S := S) (mret a).
Proof. done. Qed.
#[export] Instance reads_bind {A B} (m : M S A) (k : A → M S B) :
  Reads m → (∀ a, Reads (k a)) → Reads (m ≫= k).
Proof.
  intros Hm Hk s. specialize (Hm s). unfold mbind, M_bind. destruct (m s) as [[a|e|] s']; cbn in *; subst; [|done..].
  apply Hk.
Qed.
#[export] Instance reads_wrapM {A} e (m : M S A) : Reads m → Reads (wrapM e m).
Proof. intros Hm s. specialize (Hm s). unfold wrapM. by destruct (m s) as [[a|?|] s']. Qed.
#[export] Instance reads_try {A} (m : M S A) : Reads m → Reads (try m).
Proof. intros Hm s. specialize (Hm s). unfold try. by destruct (m s) as [[a|?|] s']. Qed.
#[export] Instance reads_foldM {A B} (f : B → A → M S B) b l : (∀ b a, Reads (f b a)) → Reads (foldM f b l).
Proof. intros Hf. revert b. induction l as [|a l IH]; intros b; [apply reads_ret|]. by apply reads_bind. Qed.
End Reads.

(** The function at the head of a call. *)
Ltac head_of t := match t with ?f _ => head_of f | _ => t end.

(** Follows the handler down, a case at a time. *)
Ltac reads := repeat (intros; match goal with
  | |- Reads (match ?x with _ => _ end) => destruct x
  | |- Reads (let '(_, _) := ?x in _) => destruct x
  | |- Reads (_ ≫= _) => apply reads_bind
  | |- Reads (try _) => apply reads_try
  | |- Reads (wrapM _ _) => apply reads_wrapM
  | |- Reads (foldM _ _ _) => apply reads_foldM
  | |- Reads _ => first [exact _ | match goal with |- Reads ?m => let h := head_of m in unfold h end]
  end).

(** No query changes the chain, whatever it is asked and however it ends. *)
Theorem queries_read_only {sdk : SDK} {pg : Paginator} :
  (∀ r, Reads (Querier.GetPool r)) ∧ (∀ r, Reads (Querier.GetPools r))
  ∧ (∀ r, Reads (Querier.GetLiquidityProvider r)) ∧ (∀ r, Reads (Querier.GetLiquidityProviderData r))
  ∧ (∀ r, Reads (Querier.GetAssetList r)) ∧ (∀ r, Reads (Querier.GetLiquidityProviderList r))
  ∧ (∀ r, Reads (Querier.GetLiquidityProviders r)) ∧ (∀ r, Reads (Querier.GetPoolShareEstimate r))
  ∧ Reads Querier.GetPmtpParams ∧ Reads Querier.GetParams ∧ Reads Querier.GetRewardParams
  ∧ Reads Querier.GetLiquidityProtectionParams ∧ Reads Querier.GetProviderDistributionParams
  ∧ Reads Querier.GetSwapFeeParams
  ∧ (∀ a i, Reads (MarginQuery.GetMTP a i)) ∧ (∀ a p, Reads (MarginQuery.GetPositionsForAddress a p))
  ∧ (∀ a p, Reads (MarginQuery.GetPositionsByPool a p)) ∧ (∀ p, Reads (MarginQuery.GetPositions p))
  ∧ (∀ p, Reads (MarginQuery.GetWhitelist p)) ∧ (∀ p, Reads (MarginQuery.GetSQParams p))
  ∧ (∀ n t, Reads (DispensationQuery.RecordsByDistributionName n t))
  ∧ (∀ a, Reads (DispensationQuery.RecordsByRecipient a)).
Proof. split_and!; reads. Qed.

(** The branch for records of every status is never reached: the unspecified status has
    no prefix to iterate. *)
Lemma unspecified_status_panics {sdk : SDK} name (s : chain) :
  (DispensationQuery.RecordsByDistributionName name DISTRIBUTION_STATUS_UNSPECIFIED s).1 = Panic.
Proof. reflexivity. Qed.

(** The assets of a provider are the same whatever page is asked for. *)
Lemma GetAssetList_same_page {sdk : SDK} {pg : Paginator} a p q (s : chain) :
  PageLimit p ≤ MaxPageLimit → PageLimit q ≤ MaxPageLimit →
  Querier.GetAssetList (Some (a, Some p)) s = Querier.GetAssetList (Some (a, Some q)) s.
Proof.
  assert (∀ p, PageLimit p ≤ MaxPageLimit → page_of (Some p) s = (Ok p, s)) as Hpage.
  { intros r Hr%Z.leb_le. unfold page_of, ensure, default. cbn [from_option id]. by rewrite Hr. }
  intros Hp Hq. unfold Querier.GetAssetList, mbind, M_bind, empty_request, mret, M_ret. by rewrite !Hpage.
Qed.

(** Positions and whitelist are listed through a pointer nobody checks. *)
Lemma nil_page_panics {sdk : SDK} {pg : Paginator} (s : chain) :
  (MarginQuery.GetPositions None s).1 = Panic ∧ (MarginQuery.GetWhitelist None s).1 = Panic.
Proof. done. Qed.
