(* ===== verification/AnteClaims.v ===== *)
(** * What the ante handler lets through *)
From S2P Require Import Prelude Sdk Reference ClpTypes ClpCalc Admin Oracle BridgeTypes Ante.

(** ** The minimum fee *)

(** C36.  A transaction without proposals that the fee decorator lets through pays
    at least 0.1 fury when it holds a transfer of coins, a swap, a claim or a
    change of liquidity, wherever that message stands among the others, and at
    least 0.01 fury when it holds an IBC transfer; its gas prices are not changed.
    (Only a single distribution message is exempt.) *)
Theorem ante_fee_floor {sdk : SDK} {L : SDKLaws sdk} (st : AdminStore) prices prices' tx :
  is_distribution (GetMsgs tx) = false →
  forallb (λ m, negb (proposal_msg m)) (GetMsgs tx) = true →
  AdjustGasPrice st prices tx = Ok prices' →
  prices' = prices
  ∧ (existsb pays_high_msg (GetMsgs tx) = true →
     ∃ fees, TxFee tx = Some fees ∧ fee_high ≤ fury_fee fees)
  ∧ (existsb pays_transfer (GetMsgs tx) = true →
     ∃ fees, TxFee tx = Some fees ∧ fee_transfer ≤ fury_fee fees).
Proof.
  intros Hd Hp H. unfold AdjustGasPrice in H. rewrite Hd in H. inv_ok.
  destruct (min_fee_grows _ _ 0 v Hp (or_introl eq_refl) E) as (_ & _ & Hh & Ht).
  unfold fee_high, fee_transfer in *. case_test; bool_prop.
  - inv_ok. split_and!; [done| |]; intros Hm; [specialize (Hh Hm)|specialize (Ht Hm)]; lia.
  - destruct (TxFee tx) as [fees|]; [|done]. do 2 (case_test; [done|]). inv_ok. bool_prop.
    split_and!; [done| |]; intros Hm; exists fees; (split; [done|]);
      [specialize (Hh Hm)|specialize (Ht Hm)]; lia.
Qed.

Definition send_msg : sdk_msg := mkMsg "/cosmos.bank.v1beta1.MsgSend" OtherMsg.
Definition vote_msg : sdk_msg := mkMsg "/cosmos.gov.v1beta1.MsgVote" OtherMsg.
Definition ibc_msg : sdk_msg := mkMsg "/ibc.applications.transfer.v1.MsgTransfer" OtherMsg.
Definition swap_msg : sdk_msg := mkMsg "/furynode.clp.v1.MsgSwap" OtherMsg.
Definition proposal : sdk_msg := mkMsg "/cosmos.gov.v1beta1.MsgSubmitProposal" OtherMsg.
Definition demo_tx : sdk_tx :=
  mkTx [vote_msg; swap_msg; ibc_msg] (Some [("fury", 100000000000000000)]).
Definition demo_store : AdminStore := mkAdminStore ∅ None.

Lemma ante_fee_floor_witness :
  ([] : gas_prices) = []
  ∧ (existsb pays_high_msg (GetMsgs demo_tx) = true →
     ∃ fees, TxFee demo_tx = Some fees ∧ fee_high ≤ fury_fee fees)
  ∧ (existsb pays_transfer (GetMsgs demo_tx) = true →
     ∃ fees, TxFee demo_tx = Some fees ∧ fee_transfer ≤ fury_fee fees).
Proof.
  apply (ante_fee_floor (sdk := ref_sdk) demo_store [] [] demo_tx); vm_compute; reflexivity.
Defined.

(** The fee of a proposal is forgotten when a transfer of coins follows it: alone
    it needs 5000 fury, before a MsgSend of any amount the transaction passes with
    0.1 fury. *)
Example proposal_fee_avoided :
  let fee := Some [("fury", 100000000000000000)] in
  AdjustGasPrice (sdk := ref_sdk) demo_store [] (mkTx [proposal] fee) = Err (EOther "tx fee is too low")
  ∧ AdjustGasPrice (sdk := ref_sdk) demo_store [] (mkTx [proposal; send_msg] fee) = Ok [].
Proof. vm_compute. split; reflexivity. Qed.

(** Messages inside a MsgExec of the authz module are not looked at. *)
Example exec_not_inspected :
  AdjustGasPrice (sdk := ref_sdk) demo_store [] (mkTx [mkMsg "/cosmos.authz.v1beta1.MsgExec" OtherMsg] None)
  = Ok [].
Proof. vm_compute. reflexivity. Qed.

(** ** Commission and voting power *)

(** What an accepted message guarantees. *)
Definition within_limits {sdk : SDK} (sk : DelegationKeeper) (m : sdk_msg) : Prop :=
  match MsgBody m with
  | MsgCreateValidator rate => MinCommission ≤ rate
  | MsgEditValidator rate => ∀ r, rate = Some r → MinCommission ≤ r
  | MsgDelegate validator amount => 0 ≤ amount →
      ∃ a t, val_from_bech32 validator = Ok a ∧ ValidatorTokens sk a = Some t
        ∧ 1000 * (t + amount) < 66 * (total_delegated sk + amount)
  | MsgBeginRedelegate src dst amount => 0 ≤ amount →
      ∃ a t, val_from_bech32 dst = Ok a ∧ ValidatorTokens sk a = Some t
        ∧ 1000 * (t + if String.eqb src dst then 0 else amount) < 66 * total_delegated sk
  | OtherMsg => True
  end.

Lemma validateMsg_limits {sdk : SDK} {L : SDKLaws sdk} sk m : delegation_wf sk →
  validateMsg sk m = Ok () → within_limits sk m.
Proof.
  intros Hk H. unfold validateMsg in H. unfold within_limits.
  destruct (MsgBody m) as [r|[r|]|a x|s d x|]; [..|done].
  - inv_ok. bool_prop. lia.
  - inv_ok. bool_prop. intros ? [= <-]. lia.
  - by intros.
  - intros Hx. inv_ok. apply AnteGetValidator_Ok in E as (a' & Ha & Hv). exists a', v. split_and!; [done..|].
    bool_prop. eapply delegate_power; [done|by eapply dw_tokens|done|exact E0|lia].
  - intros Hx. inv_ok. apply AnteGetValidator_Ok in E as (a' & Ha & Hv). exists a', v. split_and!; [done..|].
    bool_prop. eapply (redelegate_power sk v _ v0); [done|by eapply dw_tokens|by case_test| |lia].
    rewrite <- E0. f_equal. case_test; [lia|by rewrite d_of_big_law].
Qed.

(** C37.  A transaction the commission decorator lets through creates and edits
    validators with at least 5% commission only, and no delegation or redelegation
    in it, taken by itself, brings a validator to 6.6% of the delegated tokens:
    the share is strictly below, although it is computed with rounded decimals. *)
Theorem ante_validator_limits {sdk : SDK} {L : SDKLaws sdk} (sk : DelegationKeeper) tx :
  delegation_wf sk → ValidateMinCommission sk tx = Ok () →
  Forall (within_limits sk) (GetMsgs tx).
Proof.
  unfold ValidateMinCommission. intros Hk. induction (GetMsgs tx) as [|m ms IH]; intros H; [done|].
  cbn in H. inv_ok. destruct v. constructor; [by apply validateMsg_limits|by apply IH].
Qed.

(** Two validators with 60 and 30 of 1000 delegated tokens. *)
Definition demo_keeper : DelegationKeeper :=
  mkDelegationKeeper (λ a, if String.eqb a "ann" then Some 60 else if String.eqb a "bert" then Some 30 else None)
    900 100.

Lemma demo_keeper_wf : delegation_wf demo_keeper.
Proof. split; [|vm_compute; reflexivity]. intros a t. cbn. repeat case_test; intros [= <-]; lia. Qed.

Definition staking_tx : sdk_tx :=
  mkTx [mkMsg "" (MsgDelegate "ann" 6); mkMsg "" (MsgCreateValidator (dec_prec 5 2));
        mkMsg "" (MsgBeginRedelegate "ann" "bert" 35)] None.

Lemma ante_validator_limits_witness : Forall (within_limits (sdk := ref_sdk) demo_keeper) (GetMsgs staking_tx).
Proof.
  apply (ante_validator_limits (sdk := ref_sdk) demo_keeper staking_tx);
    [apply demo_keeper_wf|vm_compute; reflexivity].
Defined.

(** A delegation whose exact share is below 6.6% by one unit of 10^-18 is
    accepted, so the limit is exact up to that unit. *)
Theorem delegation_accepted {sdk : SDK} {L : SDKLaws sdk} (sk : DelegationKeeper) m validator a t amount :
  delegation_wf sk → MsgBody m = MsgDelegate validator amount →
  val_from_bech32 validator = Ok a → ValidatorTokens sk a = Some t → 0 ≤ amount →
  t + amount < 2 ^ 200 → total_delegated sk + amount < 2 ^ 200 → t ≤ total_delegated sk →
  (t + amount) * 10 ^ 18 ≤ (66 * 10 ^ 15 - 1) * (total_delegated sk + amount) →
  validateMsg sk m = Ok ().
Proof.
  intros Hk Hb Ha Hv Hx Ht HT Hle Hs. pose proof (dw_tokens _ Hk _ _ Hv). pose proof (dw_total _ Hk).
  unfold total_delegated in *.
  unfold validateMsg. rewrite Hb. unfold AnteGetValidator. rewrite Ha. cbn [wrap mbind res_bind].
  rewrite Hv. cbn [mbind res_bind].
  assert (∃ p, CalculateDelegateProjectedVotingPower sk t (d_of_big amount) = Ok p) as [p Hp].
  { unfold CalculateDelegateProjectedVotingPower, getTotalDelegatedTokens.
    rewrite i_add_total by lia. cbn [mbind res_bind]. rewrite !d_of_big_law.
    rewrite !d_add_total by (unfold dec_max, P18; lia). cbn [mbind res_bind].
    rewrite <- !Z.mul_add_distr_r. set (X := t + amount) in *. set (Y := NotBondedAmount sk + BondedAmount sk + amount) in *.
    assert (0 ≤ X ≤ Y) as HXY by lia. assert (0 < Y) as HY by lia.
    destruct (d_quo_total (X * P18) (Y * P18)) as [r Hr].
    { unfold P18. lia. }
    { rewrite (Z.abs_eq (X * P18)), (Z.abs_eq (Y * P18)) by (unfold P18; lia).
      unfold dec_max, P18. nia. }
    rewrite Hr. cbn [mbind res_bind]. apply d_mul_total. apply quo_close in Hr; [|done].
    unfold NewDec. rewrite ?d_of_big_law. unfold dec_max, P18 in *.
    assert (Z.abs (r * Y - X * 10 ^ 18) ≤ Y) as Hn by lia.
    assert (Z.abs r ≤ 2 * 10 ^ 18) as Hb' by (apply (Z.mul_le_mono_pos_r _ _ Y); lia).
    rewrite Z.abs_mul. lia. }
  rewrite Hp. cbn [mbind res_bind]. unfold ensure.
  destruct (Z.geb_spec p maxVotingPower) as [Hge|]; [|done]. exfalso.
  apply delegate_power in Hp as [_ Hp]; [|done..]. specialize (Hp Hge). unfold total_delegated in Hp. lia.
Qed.

(** Every message is checked against the state before the transaction: two
    delegations of 5 tokens pass together, one of 10 does not. *)
Example delegations_add_up :
  let run ms := ValidateMinCommission (sdk := ref_sdk) demo_keeper (mkTx ms None) in
  let d x := mkMsg "" (MsgDelegate "ann" x) in
  run [d 5; d 5] = Ok () ∧ run [d 10] = Err too_much_power.
Proof. vm_compute. split; reflexivity. Qed.
