(* ===== verification/EthBridge.v ===== *)
(** * The Ethereum bridge

    x/ethbridge: validators report locks and burns on Ethereum as claims; the
    claim that succeeds in the oracle mints coins to its receiver.  Users lock
    or burn coins here to release them on Ethereum.  This file holds the keeper
    (keeper.go), the message server, the dispatch of messages and the import of
    the stores.

    What a message sees of the modules of the SDK that are not modelled (staking,
    accounts) is its [bridge_env]. *)
From S2P Require Import Prelude Sdk Float64 Oracle BridgeTypes Admin Chain Ledger.

Record bridge_env := mkBridgeEnv {
  staking : StakingKeeper;
  has_account : string → bool
}.

Section Bridge.
Context {sdk : SDK} {geth : Geth} {go : GoMap}.
Context (env : bridge_env).

(** ** keeper.go *)

Definition BridgeProcessClaim (claim : EthBridgeClaim) : M chain Status :=
  oracleClaim ← lift (CreateOracleClaimFromEthClaim claim);
  onOracle (ProcessClaim DefaultConsensusNeeded (staking env) oracleClaim).

Definition ProcessSuccessfulClaim (claim : string) : M chain () :=
  oracleClaim ← lift (CreateOracleClaimFromOracleString claim);
  let receiverAddress := ContentReceiver oracleClaim in
  coins ← (if ContentType oracleClaim =? CLAIM_TYPE_LOCK then
             let symbol := (PeggedCoinPrefix ++ ContentSymbol oracleClaim)%string in
             onBridge (modify (AddPeggyToken symbol));;
             coins ← lift (one_coin symbol (ContentAmount oracleClaim));
             onBank (bank_mint BridgeModuleName coins);;
             mret coins
           else if ContentType oracleClaim =? CLAIM_TYPE_BURN then
             coins ← lift (one_coin (ContentSymbol oracleClaim) (ContentAmount oracleClaim));
             onBank (bank_mint BridgeModuleName coins);;
             mret coins
           else fail (EBridge ErrInvalidClaimType));
  mustM (onBank (bank_send_mod_to_acc BridgeModuleName receiverAddress coins)).

Definition ProcessBurn (cosmosSender : string) (msg : MsgBurn.t) : M chain () :=
  st ← gets BridgeState;
  if IsBlacklisted st (MsgBurn.EthereumReceiver msg) then fail (EBridge ErrInvalidEthAddress) else
  coins ← match GetCethReceiverAccount st with
          | Some receiver =>
              coins ← lift (one_coin CethSymbol (MsgBurn.CethAmount msg));
              onBank (bank_send cosmosSender receiver coins);;
              lift (one_coin (MsgBurn.Symbol msg) (MsgBurn.Amount msg))
          | None =>
              if String.eqb (MsgBurn.Symbol msg) CethSymbol then
                total ← lift (i_add (MsgBurn.CethAmount msg) (MsgBurn.Amount msg));
                lift (one_coin CethSymbol total)
              else
                c1 ← lift (new_coin (MsgBurn.Symbol msg) (MsgBurn.Amount msg));
                c2 ← lift (new_coin CethSymbol (MsgBurn.CethAmount msg));
                lift (new_coins [c1; c2])
          end;
  onBank (bank_send_acc_to_mod cosmosSender BridgeModuleName coins);;
  coins ← lift (one_coin (MsgBurn.Symbol msg) (MsgBurn.Amount msg));
  onBank (bank_burn BridgeModuleName coins).

Definition ProcessLock (cosmosSender : string) (msg : MsgLock.t) : M chain () :=
  st ← gets BridgeState;
  if IsBlacklisted st (MsgLock.EthereumReceiver msg) then fail (EBridge ErrInvalidEthAddress) else
  coins ← match GetCethReceiverAccount st with
          | Some receiver =>
              coins ← lift (one_coin CethSymbol (MsgLock.CethAmount msg));
              onBank (bank_send cosmosSender receiver coins);;
              lift (one_coin (MsgLock.Symbol msg) (MsgLock.Amount msg))
          | None =>
              c1 ← lift (new_coin (MsgLock.Symbol msg) (MsgLock.Amount msg));
              c2 ← lift (new_coin CethSymbol (MsgLock.CethAmount msg));
              lift (new_coins [c1; c2])
          end;
  onBank (bank_send_acc_to_mod cosmosSender BridgeModuleName coins);;
  coins ← lift (one_coin (MsgLock.Symbol msg) (MsgLock.Amount msg));
  onBank (bank_burn BridgeModuleName coins).

Definition ProcessUpdateCethReceiverAccount (cosmosSender cethReceiverAccount : string) : M chain () :=
  oracle ← gets OracleState;
  lift (ensure (IsOracleAdmin oracle cosmosSender)
          (EOther "only admin account can update ceth receiver account"));;
  onBridge (modify (SetCethReceiverAccount cethReceiverAccount)).

Definition ProcessRescueCeth (msg : MsgRescueCeth.t) : M chain () :=
  cosmosSender ← lift (acc_from_bech32 (MsgRescueCeth.CosmosSender msg));
  cosmosReceiver ← lift (acc_from_bech32 (MsgRescueCeth.CosmosReceiver msg));
  oracle ← gets OracleState;
  lift (ensure (IsOracleAdmin oracle cosmosSender)
          (EOther "only admin account can call rescue ceth"));;
  coins ← lift (one_coin CethSymbol (MsgRescueCeth.CethAmount msg));
  onBank (bank_send_mod_to_acc BridgeModuleName cosmosReceiver coins).

(** ** msg_server.go *)

(** [if account := GetAccount(sender); account == nil { return err }] *)
Definition need_account (a : string) (e : error) : M chain () := lift (ensure (has_account env a) e).

Definition EUnknownAddress : error := EOther "unknown address".

Definition msg_SetPause (msg : MsgPause.t) : M chain () :=
  require_admin AdminType_ETHBRIDGE (MsgPause.Signer msg) (EBridge ErrBridgePermissions);;
  onBridge (modify (SetPauseFlag (MsgPause.IsPaused msg))).

Definition msg_Lock (msg : MsgLock.t) : M chain () :=
  st ← gets BridgeState;
  lift (ensure (negb (IsPaused st)) (EBridge ErrPaused));;
  lift (ensure (negb (ExistsPeggyToken st (MsgLock.Symbol msg))) (EOther "pegged token can't be locked"));;
  cosmosSender ← lift (acc_from_bech32 (MsgLock.CosmosSender msg));
  need_account cosmosSender EInvalidAddress;;
  ProcessLock cosmosSender msg.

Definition msg_Burn (msg : MsgBurn.t) : M chain () :=
  st ← gets BridgeState;
  lift (ensure (negb (IsPaused st)) (EBridge ErrPaused));;
  lift (ensure (ExistsPeggyToken st (MsgBurn.Symbol msg)) (EOther "native token can't be burned"));;
  cosmosSender ← lift (acc_from_bech32 (MsgBurn.CosmosSender msg));
  need_account cosmosSender EInvalidAddress;;
  ProcessBurn cosmosSender msg.

Definition msg_CreateEthBridgeClaim (msg : MsgCreateEthBridgeClaim.t) : M chain Status :=
  claim ← lift (deref (MsgCreateEthBridgeClaim.EthBridgeClaim msg));
  status ← BridgeProcessClaim claim;
  (if Text status =? STATUS_TEXT_SUCCESS then ProcessSuccessfulClaim (FinalClaim status) else mret ());;
  mret status.

Definition msg_UpdateWhiteListValidator (msg : MsgUpdateWhiteListValidator.t) : M chain () :=
  cosmosSender ← lift (acc_from_bech32 (MsgUpdateWhiteListValidator.CosmosSender msg));
  need_account cosmosSender EUnknownAddress;;
  valAddr ← lift (wrap EInvalidAddress (val_from_bech32 (MsgUpdateWhiteListValidator.Validator msg)));
  onOracle (ProcessUpdateWhiteListValidator cosmosSender valAddr
              (MsgUpdateWhiteListValidator.OperationType msg)).

Definition msg_UpdateCethReceiverAccount (msg : MsgUpdateCethReceiverAccount.t) : M chain () :=
  cosmosSender ← lift (acc_from_bech32 (MsgUpdateCethReceiverAccount.CosmosSender msg));
  cethReceiver ← lift (acc_from_bech32 (MsgUpdateCethReceiverAccount.CethReceiverAccount msg));
  need_account cosmosSender EInvalidAddress;;
  ProcessUpdateCethReceiverAccount cosmosSender cethReceiver.

Definition msg_RescueCeth (msg : MsgRescueCeth.t) : M chain () :=
  cosmosSender ← lift (acc_from_bech32 (MsgRescueCeth.CosmosSender msg));
  need_account cosmosSender EInvalidAddress;;
  ProcessRescueCeth msg.

Definition msg_SetBlacklist (msg : MsgSetBlacklist.t) : M chain () :=
  admins ← gets AdminState; onBridge (SetBlacklist admins msg).

(** ** handler.go *)
Inductive bridge_msg :=
| BCreateEthBridgeClaim (m : MsgCreateEthBridgeClaim.t)
| BBurn (m : MsgBurn.t)
| BLock (m : MsgLock.t)
| BUpdateWhiteListValidator (m : MsgUpdateWhiteListValidator.t)
| BUpdateCethReceiverAccount (m : MsgUpdateCethReceiverAccount.t)
| BRescueCeth (m : MsgRescueCeth.t)
| BSetBlacklist (m : MsgSetBlacklist.t)
| BPause (m : MsgPause.t).

Definition bridge_ValidateBasic (m : bridge_msg) : res () :=
  match m with
  | BCreateEthBridgeClaim m => MsgCreateEthBridgeClaim_ValidateBasic m
  | BBurn m => MsgBurn_ValidateBasic m
  | BLock m => MsgLock_ValidateBasic m
  | BUpdateWhiteListValidator m => MsgUpdateWhiteListValidator_ValidateBasic m
  | BUpdateCethReceiverAccount m => MsgUpdateCethReceiverAccount_ValidateBasic m
  | BRescueCeth m => MsgRescueCeth_ValidateBasic m
  | BSetBlacklist _ => Ok ()
  | BPause m => MsgPause_ValidateBasic m
  end.

Definition BridgeHandler (m : bridge_msg) : M chain () :=
  match m with
  | BCreateEthBridgeClaim m => msg_CreateEthBridgeClaim m;; mret ()
  | BBurn m => msg_Burn m
  | BLock m => msg_Lock m
  | BUpdateWhiteListValidator m => msg_UpdateWhiteListValidator m
  | BUpdateCethReceiverAccount m => msg_UpdateCethReceiverAccount m
  | BRescueCeth m => msg_RescueCeth m
  | BSetBlacklist m => msg_SetBlacklist m
  | BPause m => msg_SetPause m
  end.
End Bridge.

(** ** grpc_query.go: the claims of a prophecy *)
Section Query.
Context {sdk : SDK} {geth : Geth} {go : GoMap}.

(** The result is in the order Go visits the map of the votes in. *)
Definition MapOracleClaimsToEthBridgeClaims (chainId : Z) (bridgeContract : string) (nonce : Z)
    (ethereumSender : string) (oracleValidatorClaims : gmap string string)
    : res (list EthBridgeClaim) :=
  foldR (λ mapped vc,
    validatorAddress ← wrap EInvalidAddress (val_from_bech32 vc.1);
    claim ← CreateEthClaimFromOracleString chainId bridgeContract nonce ethereumSender
              validatorAddress vc.2;
    Ok (mapped ++ [claim])) [] (map_range oracleValidatorClaims).

Definition EthProphecy (s : chain) (chainId nonce : Z) (bridgeContract ethereumSender : string)
    : res (string * Status * list EthBridgeClaim) :=
  let id := oracle_id chainId nonce ethereumSender in
  match GetProphecy (OracleState s) id with
  | None => Err (EOracle ErrProphecyNotFound)
  | Some prophecy =>
      bridgeClaims ← MapOracleClaimsToEthBridgeClaims chainId (NewEthereumAddress bridgeContract)
        nonce (NewEthereumAddress ethereumSender) (ValidatorClaims prophecy);
      Ok (ProphecyID prophecy, ProphecyStatus prophecy, bridgeClaims)
  end.
End Query.

(** ** genesis.go of the bridge *)
Section Genesis.
Context {sdk : SDK}.

Record BridgeGenesis := mkBridgeGenesis {
  GenesisCethReceiveAccount : string;
  GenesisPeggyTokens : list string
}.

Definition BridgeInitGenesis (data : BridgeGenesis) : M BridgeStore () :=
  (if String.eqb (GenesisCethReceiveAccount data) "" then mret ()
   else a ← mustM (lift (acc_from_bech32 (GenesisCethReceiveAccount data)));
        modify (SetCethReceiverAccount a));;
  forM (GenesisPeggyTokens data) (λ token, modify (AddPeggyToken token)).

(** The string of a nil address is empty. *)
Definition BridgeExportGenesis (st : BridgeStore) : BridgeGenesis :=
  mkBridgeGenesis (match GetCethReceiverAccount st with Some a => acc_string a | None => "" end)
    (GetPeggyToken st).
End Genesis.
