(* ===== verification/BridgeProps.v ===== *)
(** * What the bridge does to balances and prophecies *)
From S2P Require Import Prelude Sdk Float64 Oracle OracleProps BridgeTypes Admin Chain Ledger EthBridge.

(** ** Minting the coins of a successful claim *)
Section Mint.
Context {sdk : SDK} {L : SDKLaws sdk} {geth : Geth}.

(** The denomination a claim mints. *)
Definition minted_denom (c : OracleClaimContent) : string :=
  if ContentType c =? CLAIM_TYPE_LOCK then (PeggedCoinPrefix ++ ContentSymbol c)%string
  else ContentSymbol c.

Lemma ProcessSuccessfulClaim_Ok claim s s' : ProcessSuccessfulClaim claim s = (Ok (), s') →
  ∃ c, claim_unmarshal claim = Ok c
    ∧ (ContentType c = CLAIM_TYPE_LOCK ∨ ContentType c = CLAIM_TYPE_BURN) ∧ 0 ≤ ContentAmount c
    ∧ balances_change s s' (at_account (ContentReceiver c) (only (minted_denom c) (ContentAmount c)))
    ∧ OracleState s' = OracleState s
    ∧ BridgeState s' = (if ContentType c =? CLAIM_TYPE_LOCK
                        then AddPeggyToken (minted_denom c) (BridgeState s) else BridgeState s).
Proof.
  unfold ProcessSuccessfulClaim, CreateOracleClaimFromOracleString, minted_denom. intros H. inv_ok.
  repeat match goal with H : unit |- _ => destruct H end.
  match goal with H : claim_unmarshal _ = Ok ?c |- _ => exists c; split; [done|] end.
  repeat case_test; inv_ok; repeat match goal with H : unit |- _ => destruct H end;
    match goal with E : one_coin _ _ = Ok _ |- _ => apply one_coin_val in E as [Hpos Hcs] end;
    match goal with E : onBank (bank_mint _ _) ?a = (_, ?b), F : onBank (bank_send_mod_to_acc _ _ _) ?b = _ |- _ =>
      pose proof (onBank_mint _ _ _ _ _ E Hcs) as Hm; pose proof (onBank_send_mod_to_acc _ _ _ _ _ _ F Hcs) as Hs;
      apply onBank_Ok in E as (b1 & _ & ->); apply onBank_Ok in F as (b2 & _ & ->) end;
    bool_prop.
  - match goal with E : onBridge _ _ = _ |- _ => apply onBridge_Ok in E as (x & Hx & ->) end.
    injection Hx as <-. split_and!; [by left|done| |done|done].
    intros a d. rewrite Hs, Hm. cbn. lia.
  - split_and!; [by right|done| |done|done]. intros a d. rewrite Hs, Hm. lia.
Qed.
End Mint.

(** ** Sending coins to Ethereum *)
Section Send.
Context {sdk : SDK} {L : SDKLaws sdk}.

(** The sender pays the amount, which is burned, and the fee in ceth, which goes
    to the receiver account if one is set and to the module otherwise. *)
Definition fee_sink (st : BridgeStore) : string :=
  default (module_address BridgeModuleName) (GetCethReceiverAccount st).
Definition bridge_payment (sink sender symbol : string) (amount fee : Z) (a d : string) : Z :=
  at_account sink (only CethSymbol fee) a d
  - at_account sender (λ d, only symbol amount d + only CethSymbol fee d) a d.

(** The coins collected by the module beyond the fee are burned. *)
Lemma collect_and_burn sender symbol amount cs burned fee s s1 s' :
  (∀ d, amount_of cs d = only symbol amount d + only CethSymbol fee d) →
  onBank (bank_send_acc_to_mod sender BridgeModuleName cs) s = (Ok (), s1) →
  one_coin symbol amount = Ok burned → onBank (bank_burn BridgeModuleName burned) s1 = (Ok (), s') →
  balances_change s s' (bridge_payment (module_address BridgeModuleName) sender symbol amount fee).
Proof.
  intros Hcs Hs [_ Hb]%one_coin_val Hburn a d.
  rewrite (onBank_burn _ _ _ _ _ Hburn Hb), (onBank_send_acc_to_mod _ _ _ _ _ _ Hs Hcs).
  unfold bridge_payment, at_account. repeat case_test; lia.
Qed.

(** The fee goes to the receiver first. *)
Lemma fee_then_burn sender receiver symbol amount fee feecs cs burned s s1 s2 s' :
  one_coin CethSymbol fee = Ok feecs → onBank (bank_send sender receiver feecs) s = (Ok (), s1) →
  one_coin symbol amount = Ok cs →
  onBank (bank_send_acc_to_mod sender BridgeModuleName cs) s1 = (Ok (), s2) →
  one_coin symbol amount = Ok burned → onBank (bank_burn BridgeModuleName burned) s2 = (Ok (), s') →
  balances_change s s' (bridge_payment receiver sender symbol amount fee).
Proof.
  intros [_ Hf]%one_coin_val Hs1 [_ Hcs]%one_coin_val Hs2 [_ Hb]%one_coin_val Hburn a d.
  rewrite (onBank_burn _ _ _ _ _ Hburn Hb), (onBank_send_acc_to_mod _ _ _ _ _ _ Hs2 Hcs),
    (onBank_send _ _ _ _ _ _ Hs1 Hf).
  unfold bridge_payment, at_account. repeat case_test; lia.
Qed.

Ltac units := repeat match goal with H : unit |- _ => destruct H end.

Lemma ProcessBurn_Ok sender msg s s' : ProcessBurn sender msg s = (Ok (), s') →
  IsBlacklisted (BridgeState s) (MsgBurn.EthereumReceiver msg) = false
  ∧ balances_change s s' (bridge_payment (fee_sink (BridgeState s)) sender (MsgBurn.Symbol msg)
      (MsgBurn.Amount msg) (MsgBurn.CethAmount msg))
  ∧ (∃ b, s' = s <| Bank := b |>).
Proof.
  unfold ProcessBurn, fee_sink. intros H. inv_ok. case_test; inv_ok. split; [done|].
  split.
  - destruct (GetCethReceiverAccount (BridgeState _)) as [receiver|] eqn:Er; inv_ok; units; cbn [default].
    + eauto using fee_then_burn.
    + case_test; inv_ok; units; eapply collect_and_burn; try done.
      * bool_prop. match goal with E : i_add _ _ = _ |- _ => apply i_add_val in E as -> end.
        match goal with E : one_coin CethSymbol _ = _ |- _ => apply one_coin_val in E as [_ Hcs] end.
        intros d. rewrite Hcs. match goal with E : _ = CethSymbol |- _ => rewrite E end.
        unfold only. case_test; lia.
      * by eapply two_coins_val.
  - destruct (GetCethReceiverAccount (BridgeState _)) as [receiver|]; [|case_test]; inv_ok; units;
      repeat match goal with E : onBank _ _ = _ |- _ => apply onBank_Ok in E as (? & _ & ->) end;
      by eexists.
Qed.

Lemma ProcessLock_Ok sender msg s s' : ProcessLock sender msg s = (Ok (), s') →
  IsBlacklisted (BridgeState s) (MsgLock.EthereumReceiver msg) = false
  ∧ balances_change s s' (bridge_payment (fee_sink (BridgeState s)) sender (MsgLock.Symbol msg)
      (MsgLock.Amount msg) (MsgLock.CethAmount msg))
  ∧ (∃ b, s' = s <| Bank := b |>).
Proof.
  unfold ProcessLock, fee_sink. intros H. inv_ok. case_test; inv_ok. split; [done|].
  split.
  - destruct (GetCethReceiverAccount (BridgeState _)) as [receiver|] eqn:Er; inv_ok; units; cbn [default].
    + eauto using fee_then_burn.
    + eapply collect_and_burn; try done. by eapply two_coins_val.
  - destruct (GetCethReceiverAccount (BridgeState _)) as [receiver|]; inv_ok; units;
      repeat match goal with E : onBank _ _ = _ |- _ => apply onBank_Ok in E as (? & _ & ->) end;
      by eexists.
Qed.
End Send.

(** ** Prophecies under the messages of the bridge *)
Section Prophecies.
Context {sdk : SDK} {L : SDKLaws sdk} {geth : Geth} {go : GoMap} {G : GoMapLaws go}.

Definition prophecies (s : chain) : gmap string Prophecy := Prophecies (OracleState s).

(** A prophecy that has been decided. *)
Definition decided (s : chain) (id : string) : Prop :=
  ∃ p, prophecies s !! id = Some p ∧ Text (ProphecyStatus p) ≠ STATUS_TEXT_PENDING.

(** Only claims change prophecies. *)
Lemma keeps_bank_prophecies {A} (m : M bank A) : keeps prophecies (onBank m).
Proof. by apply keeps_onBank. Qed.
Lemma keeps_bridge_prophecies {A} (m : M BridgeStore A) : keeps prophecies (onBridge m).
Proof. by apply keeps_onBridge. Qed.
Lemma whitelist_prophecies sender v op : keeps prophecies (onOracle (ProcessUpdateWhiteListValidator sender v op)).
Proof.
  intros s a s' (x & Hx & ->)%onOracle_Ok. unfold prophecies. cbn.
  assert (keeps Prophecies (ProcessUpdateWhiteListValidator sender v op)) as Hk; [|by eapply Hk].
  unfold ProcessUpdateWhiteListValidator, AddOracleWhiteList, RemoveOracleWhiteList. keep_auto.
Qed.
#[local] Hint Resolve keeps_bank_prophecies keeps_bridge_prophecies whitelist_prophecies : frame.

Lemma handler_prophecies env m : (∀ c, m ≠ BCreateEthBridgeClaim c) → keeps prophecies (BridgeHandler env m).
Proof.
  intros Hm. destruct m; cbn [BridgeHandler]; [by destruct (Hm m)|..];
    unfold msg_Burn, msg_Lock, ProcessBurn, ProcessLock, msg_UpdateWhiteListValidator,
      msg_UpdateCethReceiverAccount, ProcessUpdateCethReceiverAccount, msg_RescueCeth,
      ProcessRescueCeth, msg_SetBlacklist, msg_SetPause, need_account; keep_auto.
Qed.

Lemma onOracle_ok_state {A} (m : M OracleStore A) s a s' : onOracle m s = (Ok a, s') →
  m (OracleState s) = (Ok a, OracleState s') ∧ ∃ x, s' = s <| OracleState := x |>.
Proof. intros (x & Hx & ->)%onOracle_Ok. split; [done|by exists x]. Qed.

(** A claim that is accepted: the vote in the oracle, then the coins. *)
Lemma CreateEthBridgeClaim_Ok env msg s status s' :
  msg_CreateEthBridgeClaim env msg s = (Ok status, s') →
  ∃ claim oclaim s1, MsgCreateEthBridgeClaim.EthBridgeClaim msg = Some claim
    ∧ CreateOracleClaimFromEthClaim claim = Ok oclaim
    ∧ ProcessClaim DefaultConsensusNeeded (staking env) oclaim (OracleState s) = (Ok status, OracleState s1)
    ∧ Bank s1 = Bank s ∧ BridgeState s1 = BridgeState s ∧ OracleState s' = OracleState s1
    ∧ if Text status =? STATUS_TEXT_SUCCESS
      then ProcessSuccessfulClaim (FinalClaim status) s1 = (Ok (), s') else s' = s1.
Proof.
  unfold msg_CreateEthBridgeClaim, BridgeProcessClaim. intros H. inv_ok.
  match goal with E : deref ?o = Ok ?c |- _ => destruct o as [?|] eqn:Ho; [injection E as ->|done] end.
  match goal with E : onOracle _ _ = _ |- _ => apply onOracle_ok_state in E as [Hp (x & ->)] end.
  eexists _, _, _. split_and!; [done|done|exact Hp|done|done| |].
  - case_test; inv_ok; [|done].
    match goal with E : ProcessSuccessfulClaim _ _ = (Ok ?u, _) |- _ =>
      destruct u; apply ProcessSuccessfulClaim_Ok in E as (c & _ & _ & _ & _ & Ho' & _) end. done.
  - case_test; inv_ok; [|done]. by match goal with E : ProcessSuccessfulClaim _ _ = (Ok ?u, _) |- _ => destruct u end.
Qed.

Lemma oracle_claim_id claim oclaim : CreateOracleClaimFromEthClaim claim = Ok oclaim →
  ClaimId oclaim = oracle_id (EthereumChainId claim) (Nonce claim) (EthereumSender claim).
Proof. unfold CreateOracleClaimFromEthClaim. intros H. by inv_ok. Qed.

(** An accepted claim was about an undecided prophecy and leaves the others. *)
Lemma CreateEthBridgeClaim_prophecies env msg claim s status s' :
  staking_wf (staking env) → oracle_wf (OracleState s) →
  MsgCreateEthBridgeClaim.EthBridgeClaim msg = Some claim →
  msg_CreateEthBridgeClaim env msg s = (Ok status, s') →
  let id := oracle_id (EthereumChainId claim) (Nonce claim) (EthereumSender claim) in
  oracle_wf (OracleState s') ∧ ¬ decided s id
  ∧ (∃ p, prophecies s' !! id = Some p ∧ ProphecyStatus p = status)
  ∧ ∀ id', id' ≠ id → prophecies s' !! id' = prophecies s !! id'.
Proof.
  intros Hsk Hwf Hm (claim' & oclaim & s1 & Hm' & Hid%oracle_claim_id & Hp & _ & _ & Ho & _)%CreateEthBridgeClaim_Ok.
  rewrite Hm in Hm'. injection Hm' as <-. cbn zeta. rewrite <- Hid. unfold decided, prophecies.
  rewrite Ho. split; [by eapply ProcessClaim_wf|].
  apply ProcessClaim_vote in Hp as (a & p & p' & Hv).
  destruct (vote_new_wf _ _ _ _ _ _ _ _ Hsk Hwf Hv) as [Hid' _].
  rewrite (vt_state _ _ _ _ _ _ _ _ _ Hv). cbn. split_and!.
  - intros (q & Hq & Hne). apply Hne. pose proof (vt_pending _ _ _ _ _ _ _ _ _ Hv) as Hpend.
    by rewrite (vt_old _ _ _ _ _ _ _ _ _ Hv), Hq in Hpend.
  - exists p'. rewrite Hid', lookup_insert_eq. split; [done|]. symmetry. by eapply vt_status.
  - intros id' Hne. rewrite lookup_insert_ne; congruence.
Qed.
End Prophecies.
