(* ===== verification/RelayerTypes.v ===== *)
(** * Data and parsing of the relayer

    The relayer (src/cmd/ebrelayer) is the program every validator runs next to
    its node: it reads events of one chain and reports them on the other.  This
    file holds its data (types/types.go), the translation between events and
    claims (txs/parser.go, internal/symbol_translator) and the comparison of what
    was witnessed with what was already reported (relayer/cosmos.go,
    relayer/ethereum.go).  The two chains are in Relayer.v. *)
From Stdlib Require Import Ascii.
From S2P Require Import Prelude Sdk Oracle BridgeTypes MarginTypes.

(** ** types.go *)

Inductive Event :=
| Event_Unsupported
| Event_MsgBurn
| Event_MsgLock
| Event_LogLock
| Event_LogBurn
| Event_LogNewProphecyClaim
| Event_NewProphecyClaim
| Event_CreateEthBridgeClaim.

Definition Event_String (d : Event) : string :=
  match d with
  | Event_Unsupported => "unsupported"
  | Event_MsgBurn => "burn"
  | Event_MsgLock => "lock"
  | Event_LogLock => "LogLock"
  | Event_LogBurn => "LogBurn"
  | Event_LogNewProphecyClaim => "LogNewProphecyClaim"
  | Event_NewProphecyClaim => "newProphecyClaim"
  | Event_CreateEthBridgeClaim => "create_claim"
  end.

Inductive CosmosMsgAttributeKey :=
| Key_Unsupported
| Key_CosmosSender
| Key_CosmosSenderSequence
| Key_EthereumReceiver
| Key_Amount
| Key_Symbol
| Key_EthereumSender
| Key_EthereumSenderNonce.

Definition Key_String (d : CosmosMsgAttributeKey) : string :=
  match d with
  | Key_Unsupported => "unsupported"
  | Key_CosmosSender => "cosmos_sender"
  | Key_CosmosSenderSequence => "cosmos_sender_sequence"
  | Key_EthereumReceiver => "ethereum_receiver"
  | Key_Amount => "amount"
  | Key_Symbol => "symbol"
  | Key_EthereumSender => "ethereum_sender"
  | Key_EthereumSenderNonce => "ethereum_sender_nonce"
  end.

(** A common.Address is a string of bytes, like in BridgeTypes. *)
Record EthereumEvent := mkEthereumEvent {
  EventTo : string;
  EventSymbol : string;
  EthereumChainID : Z;
  Value : Z;
  EventNonce : Z;
  EventClaimType : ClaimType;
  EventID : string;
  EventBridgeContract : string;
  EventFrom : string;
  EventToken : string
}.
#[global] Instance EthereumEvent_eta : Eta EthereumEvent := λ r,
  mkEthereumEvent (EventTo r) (EventSymbol r) (EthereumChainID r) (Value r) (EventNonce r)
    (EventClaimType r) (EventID r) (EventBridgeContract r) (EventFrom r) (EventToken r).

(** The sequence is a pointer and the amount an sdk.Int; both are nil until they
    are set. *)
Record CosmosMsg := mkCosmosMsg {
  MsgCosmosSender : string;
  CosmosSenderSequence : option Z;
  MsgSymbol : string;
  MsgAmount : option Z;
  MsgEthereumReceiver : string;
  MsgClaimType : Event
}.

Definition NewCosmosMsg (claimType : Event) (cosmosSender : string) (sequence : option Z)
    (ethereumReceiver symbol : string) (amount : option Z) : CosmosMsg :=
  mkCosmosMsg cosmosSender sequence symbol amount ethereumReceiver claimType.

Record EthereumBridgeClaim := mkEthereumBridgeClaim {
  BridgeClaimEthereumSender : string;
  BridgeClaimCosmosSender : string;
  BridgeClaimNonce : option Z
}.
#[global] Instance EthereumBridgeClaim_eta : Eta EthereumBridgeClaim := λ r,
  mkEthereumBridgeClaim (BridgeClaimEthereumSender r) (BridgeClaimCosmosSender r)
    (BridgeClaimNonce r).

Record ProphecyClaimUnique := mkProphecyClaimUnique {
  UniqueSequence : Z;
  UniqueSender : string
}.

(** An event of a transaction of the cosmos chain, and its attributes. *)
Abbreviation attributes := (list (string * string)).
Record sdk_event := mkSdkEvent {
  GetType : string;
  GetAttributes : attributes
}.

(** ** internal/symbol_translator, internal/bimap_with_default

    The table is a bimap of a library, from the keys of a JSON object to its
    values, which need not be strings. *)
Inductive any := AnyString (s : string) | AnyOther.

Record BiMap := mkBiMap {
  BiMapGet : string → option any;
  BiMapGetInverse : string → option any
}.

Definition GetWithDefault (bimap : BiMap) (k : string) (defaultValue : any) : any :=
  match BiMapGet bimap k with Some result => result | None => defaultValue end.
Definition GetInverseWithDefault (bimap : BiMap) (k : string) (defaultValue : any) : any :=
  match BiMapGetInverse bimap k with Some result => result | None => defaultValue end.

(** The type assertion [x.(string)]. *)
Definition as_string (x : any) : res string :=
  match x with AnyString s => Ok s | AnyOther => Panic end.

Definition FurynetToEthereum (s : BiMap) (denom : string) : res string :=
  as_string (GetWithDefault s denom (AnyString denom)).
Definition EthereumToFurynet (s : BiMap) (symbol : string) : res string :=
  as_string (GetInverseWithDefault s symbol (AnyString symbol)).

(** ** Strings of the Go library *)

(** [new(big.Int).SetString(s, 10)]: an optional sign and at least one digit. *)
Fixpoint digits_value (s : string) (acc : Z) : option Z :=
  match s with
  | EmptyString => Some acc
  | String c s' =>
      let d := Z.of_nat (Ascii.nat_of_ascii c) - 48 in
      if (0 <=? d) && (d <=? 9) then digits_value s' (acc * 10 + d) else None
  end.
Definition big_of_str (s : string) : option Z :=
  match s with
  | EmptyString => None
  | String c s' =>
      if Ascii.eqb c "-"%char then if String.eqb s' "" then None else Z.opp <$> digits_value s' 0 else
      if Ascii.eqb c "+"%char then if String.eqb s' "" then None else digits_value s' 0 else
      digits_value s 0
  end.

(** [strings.SplitAfter] for a separator of one character. *)
Fixpoint SplitAfter (s : string) (sep : Ascii.ascii) : list string :=
  match s with
  | EmptyString => [EmptyString]
  | String c s' =>
      if Ascii.eqb c sep then String c EmptyString :: SplitAfter s' sep else
      match SplitAfter s' sep with
      | piece :: pieces => String c piece :: pieces
      | [] => [String c EmptyString]
      end
  end.
Definition Contains (s : string) (sep : Ascii.ascii) : bool :=
  match String.index 0 (String sep EmptyString) s with Some _ => true | None => false end.
(** [strings.Join(l, "")] *)
Definition Join (l : list string) : string := foldr String.append EmptyString l.

(** [data[a:b]], which panics outside of the data. *)
Definition slice (data : string) (a b : nat) : res string :=
  if (a <=? b)%nat && (b <=? String.length data)%nat then Ok (String.substring a (b - a) data) else Panic.

(** [hex.Encode] *)
Definition hex_digit (d : Z) : Ascii.ascii :=
  Ascii.ascii_of_N (Z.to_N (if d <? 10 then d + 48 else d + 87)).
Fixpoint hex_encode (src : string) : string :=
  match src with
  | EmptyString => EmptyString
  | String c s' =>
      let x := Z.of_N (Ascii.N_of_ascii c) in
      String (hex_digit (x / 16)) (String (hex_digit (x mod 16)) (hex_encode s'))
  end.

(** The value of a digit in base 16 as in [strconv.ParseUint], 255 for none. *)
Definition hex_value (c : Ascii.ascii) : Z :=
  let x := Z.of_N (Ascii.N_of_ascii c) in
  if (48 <=? x) && (x <=? 57) then x - 48 else
  if (97 <=? x) && (x <=? 122) then x - 97 + 10 else
  if (65 <=? x) && (x <=? 90) then x - 65 + 10 else 255.

(** [strconv.ParseUint(s, 16, bitSize)]: the digits one by one, with an error as
    soon as the value leaves the range. *)
Fixpoint hex_loop (maxVal : Z) (s : string) (n : Z) : res Z :=
  match s with
  | EmptyString => Ok n
  | String c s' =>
      let d := hex_value c in
      if 16 <=? d then Err (EOther "invalid syntax") else
      if maxVal <? n * 16 + d then Err (EOther "value out of range") else
      hex_loop maxVal s' (n * 16 + d)
  end.
Definition ParseUint16 (s : string) (bitSize : Z) : res Z :=
  if String.eqb s "" then Err (EOther "invalid syntax") else hex_loop (2 ^ bitSize - 1) s 0.

Section Parser.
Context {sdk : SDK} {geth : Geth}.

(** ** parser.go *)

Definition nullAddress : string := "0x0000000000000000000000000000000000000000".
Definition defaultFurynetPrefix : Ascii.ascii := "c"%char.

Definition isZeroAddress (address : string) : bool := String.eqb address (HexToAddress nullAddress).

(** The symbol of the claim: lock events name an Ethereum token, burn events a
    coin of the cosmos chain. *)
Definition claim_symbol (translator : BiMap) (event : EthereumEvent) : res string :=
  let symbol := EventSymbol event in
  if EventClaimType event =? CLAIM_TYPE_LOCK then
    let symbol := ToLower symbol in
    ensure (negb (String.eqb symbol "eth" && negb (isZeroAddress (EventToken event))))
      (EOther "symbol eth must have null address set as token address");;
    Ok symbol
  else if EventClaimType event =? CLAIM_TYPE_BURN then EthereumToFurynet translator symbol
  else Ok symbol.

Definition EthereumEventToEthBridgeClaim (valAddr : string) (event : EthereumEvent)
    (translator : BiMap) : res EthBridgeClaim :=
  let chainID := i64 (EthereumChainID event) in
  let bridgeContractAddress := NewEthereumAddress (HexString (EventBridgeContract event)) in
  let sender := NewEthereumAddress (HexString (EventFrom event)) in
  recipient ← acc_from_bech32 (EventTo event);
  ensure (negb (String.eqb recipient "")) (EOther "empty recipient address");;
  let tokenContractAddress := NewEthereumAddress (HexString (EventToken event)) in
  symbol ← claim_symbol translator event;
  amount ← i_of_big (Value event);
  let nonce := i64 (EventNonce event) in
  Ok (mkEthBridgeClaim chainID (HexString bridgeContractAddress) nonce symbol
        (HexString tokenContractAddress) (HexString sender) (acc_string recipient)
        (val_string valAddr) amount (EventClaimType event)).

(** The variables of BurnLockEventToCosmosMsg. *)
Record parsed := mkParsed {
  p_sender : string;
  p_sequence : option Z;
  p_receiver : string;
  p_symbol : string;
  p_amount : option Z;
  attributeNumber : nat
}.
#[global] Instance parsed_eta : Eta parsed := λ r,
  mkParsed (p_sender r) (p_sequence r) (p_receiver r) (p_symbol r) (p_amount r)
    (attributeNumber r).

(** The coin of a burn event without its prefix: what follows the first "c". *)
Definition burn_symbol (val : string) : res string :=
  ensure (Contains val defaultFurynetPrefix) (EOther "can only relay burns of prefixed coins");;
  Ok (Join (drop 1 (SplitAfter val defaultFurynetPrefix))).

Definition parse_attribute (claimType : Event) (translator : BiMap) (p : parsed)
    (attribute : string * string) : res parsed :=
  let '(key, val) := attribute in
  let counted := p <| attributeNumber := S (attributeNumber p) |> in
  if String.eqb key (Key_String Key_CosmosSender) then Ok (counted <| p_sender := val |>) else
  if String.eqb key (Key_String Key_CosmosSenderSequence) then
    match big_of_str val with
    | None => Err (EOther "invalid account sequence")
    | Some sequence => Ok (counted <| p_sequence := Some sequence |>)
    end else
  if String.eqb key (Key_String Key_EthereumReceiver) then
    ensure (IsHexAddress val) (EOther "invalid recipient address");;
    Ok (counted <| p_receiver := HexToAddress val |>) else
  if String.eqb key (Key_String Key_Symbol) then
    match claimType with
    | Event_MsgLock => symbol ← FurynetToEthereum translator val; Ok (counted <| p_symbol := symbol |>)
    | Event_MsgBurn => symbol ← burn_symbol val; Ok (counted <| p_symbol := symbol |>)
    | _ => Ok counted
    end else
  if String.eqb key (Key_String Key_Amount) then
    match i_of_str val with
    | None => Err (EOther "invalid amount")
    | Some amount => Ok (counted <| p_amount := Some amount |>)
    end else
  Ok p.

(** The zero value of common.Address is the null address. *)
Definition BurnLockEventToCosmosMsg (claimType : Event) (attrs : attributes)
    (translator : BiMap) : res CosmosMsg :=
  p ← foldR (parse_attribute claimType translator)
        (mkParsed "" None (HexToAddress nullAddress) "" None 0) attrs;
  ensure (negb (attributeNumber p <? 5)%nat) (EOther "message not complete");;
  Ok (NewCosmosMsg claimType (p_sender p) (p_sequence p) (p_receiver p) (p_symbol p) (p_amount p)).

Definition claim_attribute (c : EthereumBridgeClaim) (attribute : string * string) :
    res EthereumBridgeClaim :=
  let '(key, val) := attribute in
  if String.eqb key (Key_String Key_CosmosSender) then
    a ← val_from_bech32 val; Ok (c <| BridgeClaimCosmosSender := a |>) else
  if String.eqb key (Key_String Key_EthereumSender) then
    ensure (IsHexAddress val) (EOther "invalid recipient address");;
    Ok (c <| BridgeClaimEthereumSender := HexToAddress val |>) else
  if String.eqb key (Key_String Key_EthereumSenderNonce) then
    match i_of_str val with
    | None => Err (EOther "invalid nonce")
    | Some nonce => Ok (c <| BridgeClaimNonce := Some nonce |>)
    end else
  Ok c.

Definition AttributesToEthereumBridgeClaim (attrs : attributes) : res EthereumBridgeClaim :=
  foldR claim_attribute (mkEthereumBridgeClaim (HexToAddress nullAddress) "" None) attrs.

(** ** What was already reported (relayer/cosmos.go, relayer/ethereum.go) *)

(** The call data of newProphecyClaim without its method identifier. *)
Definition MyDecode (data : string) : res ProphecyClaimUnique :=
  if (String.length data <? 32 * 7 + 42)%nat then Err (EOther "tx data length not enough") else
  src ← slice data 64 96;
  sequence ← ParseUint16 (hex_encode src) 32;
  sender ← slice data (32 * 7) (32 * 7 + 42);
  Ok (mkProphecyClaimUnique (i64 sequence) sender).

(** Comparing with a nil sequence panics. *)
Fixpoint MessageProcessed (message : CosmosMsg) (prophecyClaims : list ProphecyClaimUnique) : res bool :=
  match prophecyClaims with
  | [] => Ok false
  | prophecyClaim :: rest =>
      same ← (if String.eqb (MsgCosmosSender message) (UniqueSender prophecyClaim)
              then sequence ← deref (CosmosSenderSequence message);
                   Ok (sequence =? UniqueSequence prophecyClaim)
              else Ok false);
      if (same : bool) then Ok true else MessageProcessed message rest
  end.

Fixpoint EventProcessed (bridgeClaims : list EthereumBridgeClaim) (event : EthereumEvent) : res bool :=
  match bridgeClaims with
  | [] => Ok false
  | claim :: rest =>
      same ← (if String.eqb (EventFrom event) (BridgeClaimEthereumSender claim)
              then nonce ← deref (BridgeClaimNonce claim); Ok (EventNonce event =? nonce)
              else Ok false);
      if (same : bool) then Ok true else EventProcessed rest event
  end.

Definition getOracleClaimType (eventType : string) : Event :=
  if String.eqb eventType (Event_String Event_MsgBurn) then Event_MsgBurn else
  if String.eqb eventType (Event_String Event_MsgLock) then Event_MsgLock else Event_Unsupported.

(** ** Events of x/ethbridge/keeper/msg_server.go

    The events of a lock and of a burn that the relayer looks at; [sequence] is
    the sequence of the account of the sender. *)
Definition lock_event (msg : MsgLock.t) (sequence : Z) : sdk_event :=
  mkSdkEvent "lock"
    [ ("ethereum_chain_id", pretty (MsgLock.EthereumChainId msg));
      ("cosmos_sender", MsgLock.CosmosSender msg);
      ("cosmos_sender_sequence", pretty (Z.to_N sequence));
      ("ethereum_receiver", MsgLock.EthereumReceiver msg);
      ("amount", i_str (MsgLock.Amount msg));
      ("symbol", MsgLock.Symbol msg);
      ("ceth_amount", i_str (MsgLock.CethAmount msg)) ].

Definition burn_event (msg : MsgBurn.t) (sequence : Z) : sdk_event :=
  mkSdkEvent "burn"
    [ ("ethereum_chain_id", pretty (MsgBurn.EthereumChainId msg));
      ("cosmos_sender", MsgBurn.CosmosSender msg);
      ("cosmos_sender_sequence", pretty (Z.to_N sequence));
      ("ethereum_receiver", MsgBurn.EthereumReceiver msg);
      ("amount", i_str (MsgBurn.Amount msg));
      ("symbol", MsgBurn.Symbol msg);
      ("ceth_amount", i_str (MsgBurn.CethAmount msg)) ].
End Parser.
