(* ===== verification/Relayer.v ===== *)
(** * The relayer as a program over two chains

    src/cmd/ebrelayer/relayer and src/cmd/ebrelayer/txs: the subscription to the
    cosmos chain, which reports locks and burns to the contract on Ethereum
    (cosmos.go, relayToEthereum.go), the subscription to Ethereum, which reports
    its events to the cosmos chain (ethereum.go, relayToCosmos.go), and the
    commands that look for what was missed (Replay, listMissedEvent.go).

    The clients of the two chains, the contracts and the database library are the
    class [Nodes].  They answer differently every time: a method takes the number
    of the call, which the state counts.  The state also records, in order, the
    calls of the contract on Ethereum that were made and the transactions that
    were sent to the cosmos chain, these with whether the node took them. *)
From S2P Require Import Prelude Sdk Oracle BridgeTypes MarginTypes RelayerTypes.

(** A log of the bridge contract, and a transaction of a block of Ethereum with
    the sender its signature gives, if any. *)
Record eth_log := mkEthLog {
  Topics : list string;
  LogData : string;
  TxHash : string
}.
Record eth_tx := mkEthTx {
  TxSender : option string;
  TxData : string
}.

(** registry.go *)
Inductive ContractRegistry := Valset | OracleContract | BridgeBank | CosmosBridge.

(** What bind.TransactOpts is set to, and the contract the call goes to. *)
Record relay_config := mkRelayConfig {
  TxNonce : Z;
  TxValue : Z;
  TxGasLimit : Z;
  TxGasPrice : Z;
  TxTarget : string
}.

(** A call of newProphecyClaim of the contract on Ethereum. *)
Record prophecy_call := mkProphecyCall {
  call_config : relay_config;
  call_claimType : Z;
  call_sender : string;
  call_sequence : option Z;
  call_receiver : string;
  call_symbol : string;
  call_amount : option Z
}.

Class Nodes := {
  (* ethclient *)
  EthDial : nat → bool;
  NetworkID : nat → option Z;
  HeaderByNumber : nat → option Z;
  PendingNonceAt : nat → string → option Z;
  SuggestGasPrice : nat → option Z;
  FilterLogs : nat → Z → Z → option (list eth_log);
  BlockByNumber : nat → Z → option (list eth_tx);
  TransactionReceipt : nat → string → bool;
  (* the bindings of the contracts and their ABI *)
  RegistryContract : nat → string → ContractRegistry → string → Z → option string;
  NewCosmosBridge : string → bool;
  NewProphecyClaim : nat → prophecy_call → option string;
  NewKeyedTransactor : Z → bool;
  EventHex : string → string;
  UnpackIntoInterface : string → string → option EthereumEvent;
  NewProphecyClaimID : string;
  (* the tendermint client: the events of the transactions of a block *)
  TmStart : nat → bool;
  BlockResults : nat → Z → option (list (list sdk_event));
  LatestBlock : nat → option Z;
  BroadcastTx : nat → list MsgCreateEthBridgeClaim.t → bool;
  (* the database, and the keys of the validator *)
  DBPut : nat → bool;
  LoadSender : option string;
  KeyringAddress : option string
}.

(** ** State *)
Record relayer := mkRelayer {
  calls : nat;
  cosmosDB : option string;
  ethDB : option string;
  EventRecords : gmap string EthereumEvent;
  submitted : list prophecy_call;
  broadcast : list (list MsgCreateEthBridgeClaim.t * bool)
}.
#[global] Instance relayer_eta : Eta relayer := λ r,
  mkRelayer (calls r) (cosmosDB r) (ethDB r) (EventRecords r) (submitted r) (broadcast r).

(** One call of a client. *)
Definition call {A} (f : nat → A) : M relayer A := λ s,
  (Ok (f (calls s)), s <| calls := S (calls s) |>).

(** A call that returns an error when there is no result. *)
Definition request {A} (f : nat → option A) : M relayer A :=
  r ← call f; match r with Some a => mret a | None => fail (EOther "request") end.
Definition checked (f : nat → bool) : M relayer () :=
  ok ← call f; if (ok : bool) then mret () else fail (EOther "request").

(** [for i < n { if body() succeeds { break } ; i++ }]: the first success, if
    there is one within [n] attempts. *)
Fixpoint retry {A} (n : nat) (body : M relayer A) : M relayer (option A) :=
  match n with
  | O => mret None
  | S n' => r ← try body; match r with inl a => mret (Some a) | inr _ => retry n' body end
  end.

(** [big.Int.Bytes] of the absolute value, [SetBytes] is [be_value]. *)
Definition big_Bytes (x : Z) : string :=
  be_bytes (if x =? 0 then 0 else Z.to_nat (Z.log2 (Z.abs x) / 8 + 1)) (Z.abs x).

(** [DB.Put]; a failure ends the process. *)
Definition put_cosmos `{Nodes} (last : Z) : M relayer () :=
  ok ← call DBPut;
  if (ok : bool) then modify (λ s, s <| cosmosDB := Some (big_Bytes last) |>) else lift Panic.
Definition put_eth `{Nodes} (last : Z) : M relayer () :=
  ok ← call DBPut;
  if (ok : bool) then modify (λ s, s <| ethDB := Some (big_Bytes last) |>) else lift Panic.

Section Ethereum.
Context {sdk : SDK} {geth : Geth} {nodes : Nodes}.

(** ** txs/registry.go, txs/relayToEthereum.go *)

Definition GetAddressFromBridgeRegistry (registry : string) (target : ContractRegistry) :
    M relayer string :=
  sender ← lift (match LoadSender with Some a => Ok a | None => Err (EOther "no private key") end);
  number ← request HeaderByNumber;
  request (λ t, RegistryContract t registry target sender number).

Definition GasLimit : Z := 1800000.

(** Twice the suggestion, less a quarter of that; Div is Euclidean. *)
Definition adjust_gas_price (suggested : Z) : Z :=
  let gasPrice := suggested * 2 in gasPrice - gasPrice / 4.

Definition InitRelayConfig (registry : string) (event : Event) : M relayer relay_config :=
  checked EthDial;;
  sender ← lift (match LoadSender with Some a => Ok a | None => Err (EOther "no private key") end);
  nonce ← request (λ t, PendingNonceAt t sender);
  gasPrice ← request SuggestGasPrice;
  chainID ← request NetworkID;
  lift (ensure (NewKeyedTransactor chainID) (EOther "transactor"));;
  targetContract ← lift (match event with
                         | Event_MsgBurn | Event_MsgLock => Ok CosmosBridge
                         | Event_LogNewProphecyClaim => Ok OracleContract
                         | _ => Panic
                         end);
  target ← GetAddressFromBridgeRegistry registry targetContract;
  mret (mkRelayConfig (i64 nonce) 0 GasLimit (adjust_gas_price gasPrice) target).

(** The number of the constants MsgBurn and MsgLock. *)
Definition event_number (d : Event) : Z :=
  match d with
  | Event_Unsupported => 0 | Event_MsgBurn => 1 | Event_MsgLock => 2 | Event_LogLock => 3
  | Event_LogBurn => 4 | Event_LogNewProphecyClaim => 5 | Event_NewProphecyClaim => 6
  | Event_CreateEthBridgeClaim => 7
  end.

Definition call_of (config : relay_config) (claim : CosmosMsg) : prophecy_call :=
  mkProphecyCall config (event_number (MsgClaimType claim)) (MsgCosmosSender claim)
    (CosmosSenderSequence claim) (MsgEthereumReceiver claim) (MsgSymbol claim) (MsgAmount claim).

(** The receipt is asked for 60 times; its status is not looked at. *)
Definition RelayProphecyClaimToEthereum (config : relay_config) (claim : CosmosMsg) : M relayer () :=
  modify (λ s, s <| submitted := submitted s ++ [call_of config claim] |>);;
  hash ← request (λ t, NewProphecyClaim t (call_of config claim));
  receipt ← retry 60 (checked (λ t, TransactionReceipt t hash));
  match receipt with
  | Some _ => mret ()
  | None => fail (EOther "hit max tx receipt query retries")
  end.

(** ** relayer/cosmos.go *)

Definition tryInitRelayConfig (registry : string) (claimType : Event) : M relayer relay_config :=
  config ← retry 5 (InitRelayConfig registry claimType);
  match config with
  | Some config => mret config
  | None => fail (EOther "hit max initRelayConfig retries")
  end.

(** Every failure is logged and forgotten. *)
Definition handleBurnLockMsg (registry : string) (cosmosMsg : CosmosMsg) (claimType : Event) :
    M relayer () :=
  r ← try (tryInitRelayConfig registry claimType);
  match r with
  | inr _ => mret ()
  | inl config =>
      if negb (NewCosmosBridge (TxTarget config)) then mret () else
      retry 5 (RelayProphecyClaimToEthereum config cosmosMsg);;
      mret ()
  end.

(** What happens for every event of a block; [relay] decides about a message. *)
Definition on_burn_lock (translator : BiMap) (relay : CosmosMsg → Event → M relayer ())
    (event : sdk_event) : M relayer () :=
  let claimType := getOracleClaimType (GetType event) in
  match claimType with
  | Event_MsgBurn | Event_MsgLock =>
      r ← try (lift (BurnLockEventToCosmosMsg claimType (GetAttributes event) translator));
      match r with
      | inr _ => mret ()
      | inl cosmosMsg => relay cosmosMsg claimType
      end
  | _ => mret ()
  end.

Definition on_block (translator : BiMap) (relay : CosmosMsg → Event → M relayer ())
    (block : list (list sdk_event)) : M relayer () :=
  forM block (λ events, forM events (on_burn_lock translator relay)).

(** The last block of the database, when the subscription is started. *)
Definition cosmos_last (s : relayer) : Z :=
  match cosmosDB s with None => 0 | Some data => i64 (be_value data 0) end.

(** The loop of Start over the blocks up to a new one.  A block that cannot be
    fetched is asked for again, without end: [fuel] bounds the iterations, and
    the result is the last block that was processed, if the loop got there. *)
Fixpoint process_blocks (fuel : nat) (registry : string) (translator : BiMap)
    (blockNumber blockHeight last : Z) : M relayer (option Z) :=
  if blockHeight <? blockNumber then mret (Some last) else
  match fuel with
  | O => mret None
  | S fuel' =>
      r ← call (λ t, BlockResults t blockNumber);
      match r with
      | None => process_blocks fuel' registry translator blockNumber blockHeight last
      | Some block =>
          on_block translator (handleBurnLockMsg registry) block;;
          put_cosmos blockNumber;;
          process_blocks fuel' registry translator (i64 (blockNumber + 1)) blockHeight blockNumber
      end
  end.

(** A new block of height [blockHeight] was witnessed. *)
Definition cosmos_new_block (fuel : nat) (registry : string) (translator : BiMap)
    (blockHeight lastProcessedBlock : Z) : M relayer (option Z) :=
  let last := if lastProcessedBlock =? 0 then blockHeight else lastProcessedBlock in
  process_blocks fuel registry translator (i64 (last + 1)) blockHeight last.

(** The prophecy claims of one account among the transactions of a block. *)
Definition claim_of_tx (ethereumAddress : string) (tx : eth_tx) : res (list ProphecyClaimUnique) :=
  match TxSender tx with
  | None => Ok []
  | Some sender =>
      if negb (String.eqb sender ethereumAddress) then Ok [] else
      if (String.length (TxData tx) <? 4)%nat then Ok [] else
      methodID ← slice (TxData tx) 0 4;
      if negb (String.eqb methodID NewProphecyClaimID) then Ok [] else
      data ← slice (TxData tx) 4 (String.length (TxData tx));
      match MyDecode data with
      | Ok prophecyClaim => Ok [prophecyClaim]
      | Err _ => Ok []
      | Panic => Panic
      end
  end.

(** [for blockNumber := from; blockNumber < to; blockNumber++] *)
Definition block_range (from to : Z) : list Z := seqZ from (to - from).

Definition GetAllProphecyClaim (ethereumAddress : string) (ethFromBlock ethToBlock : Z) :
    M relayer (list ProphecyClaimUnique) :=
  foldM (λ claims blockNumber,
    r ← call (λ t, BlockByNumber t blockNumber);
    match r with
    | None => mret claims
    | Some txs =>
        lift (foldR (λ claims tx, found ← claim_of_tx ethereumAddress tx; Ok (claims ++ found))
                claims txs)
    end) [] (block_range ethFromBlock ethToBlock).

(** Messages that were not reported before are reported. *)
Definition replay_message (registry : string) (prophecyClaims : list ProphecyClaimUnique)
    (cosmosMsg : CosmosMsg) (claimType : Event) : M relayer () :=
  processed ← lift (MessageProcessed cosmosMsg prophecyClaims);
  if (processed : bool) then mret () else handleBurnLockMsg registry cosmosMsg claimType.

Definition replay_blocks (translator : BiMap) (relay : CosmosMsg → Event → M relayer ())
    (fromBlock toBlock : Z) : M relayer () :=
  forM (block_range fromBlock toBlock) (λ blockNumber,
    r ← call (λ t, BlockResults t blockNumber);
    match r with None => mret () | Some block => on_block translator relay block end).

Definition CosmosReplay (registry : string) (translator : BiMap)
    (fromBlock toBlock ethFromBlock ethToBlock : Z) : M relayer () :=
  checked EthDial;;
  request NetworkID;;
  mySender ← lift (match LoadSender with Some a => Ok a | None => Err (EOther "no private key") end);
  prophecyClaims ← GetAllProphecyClaim mySender ethFromBlock ethToBlock;
  checked TmStart;;
  replay_blocks translator (replay_message registry prophecyClaims) fromBlock toBlock.
(** ** relayer/listMissedEvent.go *)

Definition missed_message (prophecyClaims : list ProphecyClaimUnique) (translator : BiMap)
    (missed : list CosmosMsg) (event : sdk_event) : res (list CosmosMsg) :=
  let claimType := getOracleClaimType (GetType event) in
  match claimType with
  | Event_MsgBurn | Event_MsgLock =>
      match BurnLockEventToCosmosMsg claimType (GetAttributes event) translator with
      | Err _ => Ok missed
      | Panic => Panic
      | Ok cosmosMsg =>
          processed ← MessageProcessed cosmosMsg prophecyClaims;
          Ok (if (processed : bool) then missed else missed ++ [cosmosMsg])
      end
  | _ => Ok missed
  end.

(** The height some days ago, at a number of blocks a minute. *)
Definition height_days_ago (current perMinute days : Z) : Z :=
  let from := i64 (current - i64 (perMinute * 60 * 24 * days)) in if from <? 0 then 0 else from.

(** The messages that are printed. *)
Definition ListMissedCosmosEvents (ethereumAddress : string) (days : Z) (translator : BiMap) :
    M relayer (list CosmosMsg) :=
  checked EthDial;;
  number ← request HeaderByNumber;
  let currentEthHeight := i64 number in
  prophecyClaims ← GetAllProphecyClaim ethereumAddress (height_days_ago currentEthHeight 4 days)
                     currentEthHeight;
  currentCosmosHeight ← request LatestBlock;
  checked TmStart;;
  foldM (λ missed blockNumber,
    r ← call (λ t, BlockResults t blockNumber);
    match r with
    | None => mret missed
    | Some block =>
        lift (foldR (foldR (missed_message prophecyClaims translator)) missed block)
    end) [] (block_range (height_days_ago currentCosmosHeight 10 days) currentCosmosHeight).

(** ** types/events.go, relayer/ethereum.go *)

Definition NewEventWrite (txHash : string) (event : EthereumEvent) : M relayer () :=
  modify (λ s, s <| EventRecords := <[txHash := event]> (EventRecords s) |>).

Definition trailingBlocks : Z := 50.

(** The event of a log of the bridge contract, none when it is neither a lock nor
    a burn. *)
Definition logToEvent (clientChainID : Z) (contractAddress : string) (cLog : eth_log) :
    M relayer (option EthereumEvent) :=
  topic ← lift (deref (head (Topics cLog)));
  let eventName :=
    if String.eqb topic (EventHex (Event_String Event_LogBurn)) then Some Event_LogBurn else
    if String.eqb topic (EventHex (Event_String Event_LogLock)) then Some Event_LogLock else None in
  match eventName with
  | None => mret None
  | Some name =>
      event ← lift (match UnpackIntoInterface (Event_String name) (LogData cLog) with
                    | Some event => Ok event
                    | None => Err (EOther "unpack")
                    end);
      let event := event <| EventBridgeContract := contractAddress |>
                         <| EthereumChainID := clientChainID |>
                         <| EventClaimType := match name with
                                              | Event_LogBurn => CLAIM_TYPE_BURN
                                              | _ => CLAIM_TYPE_LOCK end |> in
      NewEventWrite (TxHash cLog) event;;
      mret (Some event)
  end.

(** relayToCosmos.go: the claims that pass the stateless check, in one transaction. *)
Definition valid_claims (claims : list EthBridgeClaim) : res (list MsgCreateEthBridgeClaim.t) :=
  foldR (λ messages claim,
    let msg := MsgCreateEthBridgeClaim.mk (Some claim) in
    match MsgCreateEthBridgeClaim_ValidateBasic msg with
    | Ok _ => Ok (messages ++ [msg])
    | Err _ => Ok messages
    | Panic => Panic
    end) [] claims.

Definition RelayToCosmos (claims : list EthBridgeClaim) : M relayer () :=
  messages ← lift (valid_claims claims);
  ok ← call (λ t, BroadcastTx t messages);
  modify (λ s, s <| broadcast := broadcast s ++ [(messages, ok)] |>);;
  if (ok : bool) then mret () else fail (EOther "failed to broadcast tx to furynet").

(** The claims of the events that can be turned into one. *)
Definition claims_of (valAddr : string) (translator : BiMap) (events : list EthereumEvent) :
    res (list EthBridgeClaim) :=
  foldR (λ claims event,
    match EthereumEventToEthBridgeClaim valAddr event translator with
    | Ok claim => Ok (claims ++ [claim])
    | Err _ => Ok claims
    | Panic => Panic
    end) [] events.

Definition handleEthereumEvent (events : list EthereumEvent) (translator : BiMap) : M relayer () :=
  valAddr ← lift (match KeyringAddress with Some a => Ok a | None => Err (EOther "no key") end);
  prophecyClaims ← lift (claims_of valAddr translator events);
  match events with [] => mret () | _ => RelayToCosmos prophecyClaims end.

(** The events of the logs, in their order. *)
Definition logs_to_events (clientChainID : Z) (contractAddress : string) (logs : list eth_log) :
    M relayer (list EthereumEvent) :=
  foldM (λ events ethLog,
    r ← try (logToEvent clientChainID contractAddress ethLog);
    mret (match r with inl (Some event) => events ++ [event] | _ => events end)) [] logs.

Definition eth_last (s : relayer) : Z :=
  match ethDB s with None => 0 | Some data => be_value data 0 end.

(** The part of a new head that reports: the events of the blocks from [last] to
    [endingBlock].  A failed report is logged and forgotten; the result is whether
    the logs could be read. *)
Definition eth_report (clientChainID : Z) (bridgeBankAddress : string) (translator : BiMap)
    (last endingBlock : Z) : M relayer bool :=
  r ← call (λ t, FilterLogs t last endingBlock);
  match r with
  | None => mret false
  | Some ethLogs =>
      events ← logs_to_events clientChainID bridgeBankAddress ethLogs;
      match events with
      | [] => mret ()
      | _ => try (handleEthereumEvent events translator);; mret ()
      end;;
      mret true
  end.

(** A new head of Ethereum: the events up to [trailingBlocks] behind it are
    reported, and the block to go on with is saved and returned.  [dies] is the
    process that ends, for whatever reason, after the report and before it has saved
    the block. *)
Definition eth_new_head (dies : bool) (clientChainID : Z) (bridgeBankAddress : string)
    (translator : BiMap) (number lastProcessedBlock : Z) : M relayer Z :=
  let endingBlock := number - trailingBlocks in
  if endingBlock <? 0 then mret lastProcessedBlock else
  let last := if lastProcessedBlock =? 0 then endingBlock else lastProcessedBlock in
  read ← eth_report clientChainID bridgeBankAddress translator last endingBlock;
  if negb read then mret last else
  if dies then lift Panic else
  put_eth (endingBlock + 1);;
  mret (endingBlock + 1).

(** The loop of Start: new heads, and restarts of the subscription after an error
    of the connection.  The process ends with a panic, with a block that cannot be
    saved (log.Fatalf), or because it is killed while it handles a head; it is then
    started again by hand.  (Killed before it broadcasts anything, it has only
    restarted.) *)
Inductive eth_input := NewHead (number : Z) | Killed (number : Z) | Restarted.

Definition eth_step (clientChainID : Z) (bridgeBankAddress : string) (translator : BiMap)
    (st : Z * relayer) (input : eth_input) : Z * relayer :=
  let handle dies number :=
    match eth_new_head dies clientChainID bridgeBankAddress translator number st.1 st.2 with
    | (Ok last, s) => (last, s)
    | (_, s) => (eth_last s, s)
    end in
  match input with
  | NewHead number => handle false number
  | Killed number => handle true number
  | Restarted => (eth_last st.2, st.2)
  end.

Definition eth_run (clientChainID : Z) (bridgeBankAddress : string) (translator : BiMap)
    (inputs : list eth_input) (s : relayer) : relayer :=
  (foldl (eth_step clientChainID bridgeBankAddress translator) (eth_last s, s) inputs).2.

(** The claims of this validator among the events of the cosmos chain. *)
Definition claim_of_event (validatorAddress : string) (claims : list EthereumBridgeClaim)
    (event : sdk_event) : res (list EthereumBridgeClaim) :=
  if negb (String.eqb (GetType event) "create_claim") then Ok claims else
  match AttributesToEthereumBridgeClaim (GetAttributes event) with
  | Err _ => Ok claims
  | Panic => Panic
  | Ok claim =>
      Ok (if String.eqb (BridgeClaimCosmosSender claim) validatorAddress
          then claims ++ [claim] else claims)
  end.

Definition getAllClaims (validatorAddress : string) (fromBlock toBlock : Z) :
    M relayer (list EthereumBridgeClaim) :=
  started ← call TmStart;
  if negb started then mret [] else
  foldM (λ claims blockNumber,
    r ← call (λ t, BlockResults t blockNumber);
    match r with
    | None => mret claims
    | Some block => lift (foldR (foldR (claim_of_event validatorAddress)) claims block)
    end) [] (block_range fromBlock toBlock).

Definition replay_log (clientChainID : Z) (contractAddress : string) (translator : BiMap)
    (bridgeClaims : list EthereumBridgeClaim) (ethLog : eth_log) : M relayer () :=
  r ← try (logToEvent clientChainID contractAddress ethLog);
  match r with
  | inl (Some event) =>
      processed ← lift (EventProcessed bridgeClaims event);
      if (processed : bool) then mret () else
      try (handleEthereumEvent [event] translator);; mret ()
  | _ => mret ()
  end.

Definition EthereumReplay (validatorAddress registry : string) (translator : BiMap)
    (fromBlock toBlock cosmosFromBlock cosmosToBlock : Z) : M relayer () :=
  bridgeClaims ← getAllClaims validatorAddress cosmosFromBlock cosmosToBlock;
  checked EthDial;;
  clientChainID ← request NetworkID;
  contractAddress ← GetAddressFromBridgeRegistry registry BridgeBank;
  logs ← request (λ t, FilterLogs t fromBlock toBlock);
  forM logs (replay_log clientChainID contractAddress translator bridgeClaims).
End Ethereum.
