(* ===== verification/RelayerProps.v ===== *)
(** * Lemmas about the relayer

    Numbers and symbols are read back from the text of an event, the hexadecimal
    reading of MyDecode is the big-endian value, and what the loops over the two
    chains leave behind. *)
From Stdlib Require Import Ascii.
From S2P Require Import Prelude Wp Sdk Oracle BridgeTypes MarginTypes RelayerTypes Relayer.

(** ** Text *)

Lemma pretty_digit_val d : (d < 10)%N → Z.of_nat (Ascii.nat_of_ascii (pretty_N_char d)) - 48 = Z.of_N d.
Proof.
  intros H. assert (d = 0 ∨ d = 1 ∨ d = 2 ∨ d = 3 ∨ d = 4 ∨ d = 5 ∨ d = 6 ∨ d = 7 ∨ d = 8 ∨ d = 9)%N
    as Hd by lia.
  by repeat destruct Hd as [->|Hd]; [..|subst].
Qed.

Lemma digits_value_pretty n s : digits_value (pretty_N_go n s) 0 = digits_value s (Z.of_N n).
Proof.
  revert s. induction (N.lt_wf_0 n) as [n _ IH]; intros s.
  destruct (decide (n = 0)%N) as [->|Hn]; [done|].
  rewrite pretty_N_go_step by lia. rewrite IH by (apply N.div_lt; lia).
  pose proof (N.mod_lt n 10 ltac:(lia)). cbn [digits_value]. rewrite pretty_digit_val by done.
  pose proof (N.div_mod n 10 ltac:(lia)) as Hn'. revert Hn' H.
  generalize (n `div` 10)%N (n `mod` 10)%N. intros q r -> H.
  destruct (Z.leb_spec 0 (Z.of_N r)); [|lia]. destruct (Z.leb_spec (Z.of_N r) 9); [|lia].
  cbn. f_equal. lia.
Qed.

Lemma digits_value_head s v : digits_value s 0 = Some v → s ≠ "" →
  ∃ c s', s = String c s' ∧ c ≠ "-"%char ∧ c ≠ "+"%char.
Proof.
  destruct s as [|c s]; [done|]. intros H _. exists c, s. cbn in H.
  split_and!; [done| |]; intros ->; cbn in H; done.
Qed.

(** [big.Int.SetString] reads what [strconv.FormatUint] prints. *)
Lemma big_of_str_pretty (n : N) : big_of_str (pretty n) = Some (Z.of_N n).
Proof.
  assert (digits_value (pretty n) 0 = Some (Z.of_N n)) as Hd.
  { unfold pretty, pretty_N. case_match; [by subst|]. rewrite digits_value_pretty. done. }
  assert (pretty n ≠ "") as Hne.
  { intros He. destruct (decide (n = 0)%N) as [->|Hn]; [done|]. rewrite He in Hd.
    cbn in Hd. simplify_eq. lia. }
  destruct (digits_value_head _ _ Hd Hne) as (c & s & Hs & Hm & Hp). rewrite Hs in *. cbn.
  apply Ascii.eqb_neq in Hm, Hp. by rewrite Hm, Hp.
Qed.

Lemma Join_SplitAfter s c : Join (SplitAfter s c) = s.
Proof.
  unfold Join. induction s as [|a s IH]; [done|]. cbn. case_test; [exact (f_equal (String a) IH)|].
  destruct (SplitAfter s c) as [|p ps]; exact (f_equal (String a) IH).
Qed.

Lemma Contains_head c s : Contains (String c s) c = true.
Proof. unfold Contains. cbn. destruct (ascii_dec c c); [by destruct s|done]. Qed.

Lemma burn_symbol_prefixed s : burn_symbol (String defaultFurynetPrefix s) = Ok s.
Proof.
  unfold burn_symbol. rewrite Contains_head. cbn [ensure mbind res_bind].
  cbn [SplitAfter]. rewrite Ascii.eqb_refl. change (drop 1 (?x :: ?l)) with l.
  by rewrite Join_SplitAfter.
Qed.

(** ** Bytes *)

Lemma be_value_mono s n m : n ≤ m → be_value s n ≤ be_value s m.
Proof. revert n m. induction s as [|c s IH]; intros n m H; cbn; [done|]. apply IH. lia. Qed.

Lemma be_value_ge s n : 0 ≤ n → n ≤ be_value s n.
Proof.
  revert n. induction s as [|c s IH]; intros n H; cbn; [done|].
  etransitivity; [|apply IH]; pose proof (N2Z.is_nonneg (Ascii.N_of_ascii c)); lia.
Qed.

Lemma byte_bound c : 0 ≤ Z.of_N (Ascii.N_of_ascii c) < 256.
Proof. pose proof (Ascii.N_ascii_bounded c). lia. Qed.

Lemma hex_value_digit d : 0 ≤ d < 16 → hex_value (hex_digit d) = d.
Proof.
  intros H. unfold hex_digit, hex_value.
  rewrite Ascii.N_ascii_embedding by (case_test; bool_prop; lia).
  destruct (Z.ltb_spec d 10); rewrite Z2N.id by lia; repeat case_test; bool_prop; lia.
Qed.

(** Reading the hexadecimal digits of bytes gives their big-endian value, if it
    is in range. *)
Lemma hex_loop_value mx s n : 0 ≤ n ≤ mx →
  hex_loop mx (hex_encode s) n
  = if be_value s n <=? mx then Ok (be_value s n) else Err (EOther "value out of range").
Proof.
  revert n. induction s as [|c s IH]; intros n Hn; cbn [hex_encode hex_loop be_value].
  { destruct (Z.leb_spec n mx); [done|lia]. }
  pose proof (byte_bound c) as Hc. set (x := Z.of_N (Ascii.N_of_ascii c)) in *.
  pose proof (Z.mod_pos_bound x 16 ltac:(lia)). pose proof (Z.div_mod x 16 ltac:(lia)).
  assert (0 ≤ x / 16 < 16) by (split; [apply Z.div_pos; lia|apply Z.div_lt_upper_bound; lia]).
  rewrite !hex_value_digit by lia.
  destruct (Z.leb_spec 16 (x / 16)); [lia|]. destruct (Z.leb_spec 16 (x mod 16)); [lia|].
  pose proof (be_value_ge s (n * 256 + x) ltac:(lia)).
  destruct (Z.ltb_spec mx (n * 16 + x / 16)).
  { destruct (Z.leb_spec (be_value s (n * 256 + x)) mx); [lia|done]. }
  destruct (Z.ltb_spec mx ((n * 16 + x / 16) * 16 + x mod 16)).
  { destruct (Z.leb_spec (be_value s (n * 256 + x)) mx); [lia|done]. }
  replace ((n * 16 + x / 16) * 16 + x mod 16) with (n * 256 + x) in * by lia. apply IH. lia.
Qed.

Lemma ParseUint16_value s bits : s ≠ "" → 0 ≤ bits →
  ParseUint16 (hex_encode s) bits
  = if be_value s 0 <? 2 ^ bits then Ok (be_value s 0) else Err (EOther "value out of range").
Proof.
  intros Hs Hb. unfold ParseUint16. destruct s as [|c s]; [done|]. case_test; [done|].
  rewrite hex_loop_value by (pose proof (Z.pow_pos_nonneg 2 bits); lia).
  destruct (Z.leb_spec (be_value (String c s) 0) (2 ^ bits - 1)),
    (Z.ltb_spec (be_value (String c s) 0) (2 ^ bits)); done || lia.
Qed.

Lemma be_value_big_Bytes x : 0 ≤ x → be_value (big_Bytes x) 0 = x.
Proof.
  intros H. unfold big_Bytes. rewrite Z.abs_eq by done. destruct (Z.eqb_spec x 0) as [->|]; [done|].
  rewrite be_value_bytes; [lia|]. split; [done|].
  pose proof (Z.log2_spec x ltac:(lia)) as [_ Hlt]. pose proof (Z.log2_nonneg x).
  change 256 with (2 ^ 8). rewrite <- Z.pow_mul_r by lia.
  eapply Z.lt_le_trans; [exact Hlt|]. apply Z.pow_le_mono_r; [lia|].
  pose proof (Z.div_mod (Z.log2 x) 8 ltac:(lia)). pose proof (Z.mod_pos_bound (Z.log2 x) 8 ltac:(lia)).
  rewrite Z2Nat.id by (pose proof (Z.div_pos (Z.log2 x) 8); lia). lia.
Qed.

Lemma i64_small x : - 2 ^ 63 ≤ x < 2 ^ 63 → i64 x = x.
Proof. intros H. unfold i64. rewrite Z.mod_small by lia. lia. Qed.

Lemma length_append a b : String.length (a ++ b) = (String.length a + String.length b)%nat.
Proof. induction a as [|c a IH]; [done|]. exact (f_equal S IH). Qed.

Lemma append_assoc (a b c : string) : ((a ++ b) ++ c = a ++ (b ++ c))%string.
Proof. induction a as [|x a IH]; [done|]. exact (f_equal (String x) IH). Qed.

Lemma substring_prefix b c : String.substring 0 (String.length b) (b ++ c) = b.
Proof. induction b as [|x b IH]; [by destruct c|]. exact (f_equal (String x) IH). Qed.

Lemma substring_middle a b c :
  String.substring (String.length a) (String.length b) (a ++ b ++ c) = b.
Proof. induction a as [|x a IH]; [exact (substring_prefix b c)|]. exact IH. Qed.

(** The middle part of data. *)
Lemma slice_middle a b c n m : n = String.length a → m = (String.length a + String.length b)%nat →
  slice (a ++ b ++ c) n m = Ok b.
Proof.
  intros -> ->. unfold slice. rewrite !length_append.
  destruct (Nat.leb_spec (String.length a) (String.length a + String.length b)); [|lia].
  destruct (Nat.leb_spec (String.length a + String.length b)
              (String.length a + (String.length b + String.length c))); [|lia].
  cbn. f_equal. replace (_ + _ - _)%nat with (String.length b) by lia. apply substring_middle.
Qed.

Lemma length_substring n m s : (n + m ≤ String.length s)%nat →
  String.length (String.substring n m s) = m.
Proof.
  revert n m. induction s as [|c s IH]; intros n m H; cbn in *; [by destruct n, m; cbn in *; try lia|].
  destruct n; [destruct m; cbn; [done|f_equal; apply IH; lia]|]. apply IH. lia.
Qed.

(** ** What MyDecode reads *)

(** The words of the call data of newProphecyClaim: the sequence is the third,
    the bytes of the sender start in the eighth. *)
Definition call_data (data : string) (sequence : Z) (sender : string) : Prop :=
  ∃ front back rest, String.length front = 64%nat ∧ String.length back = 128%nat
    ∧ data = (front ++ be_bytes 32 sequence ++ back ++ sender ++ rest)%string.

Lemma MyDecode_reads data sequence sender : call_data data sequence sender →
  0 ≤ sequence < 2 ^ 32 → String.length sender = 42%nat →
  MyDecode data = Ok (mkProphecyClaimUnique sequence sender).
Proof.
  intros (front & back & rest & Hf & Hb & ->) Hs Hl. unfold MyDecode.
  rewrite !length_append, be_bytes_length, Hf, Hb, Hl.
  destruct (Nat.ltb_spec (64 + (32 + (128 + (42 + String.length rest)))) (32 * 7 + 42)); [lia|].
  rewrite (slice_middle front _ _ 64 96) by (rewrite ?be_bytes_length; lia). cbn [mbind res_bind].
  rewrite ParseUint16_value by (done || (intros He; by apply (f_equal String.length) in He)).
  rewrite be_value_bytes by (split; [lia|]; change (256 ^ Z.of_nat 32) with (2 ^ 256); lia).
  rewrite Z.mul_0_l, Z.add_0_l. destruct (Z.ltb_spec sequence (2 ^ 32)); [|lia]. cbn [mbind res_bind].
  replace (front ++ be_bytes 32 sequence ++ back ++ sender ++ rest)%string
    with ((front ++ be_bytes 32 sequence ++ back) ++ sender ++ rest)%string.
  2:{ by rewrite !append_assoc. }
  rewrite slice_middle by (rewrite !length_append, be_bytes_length; lia). cbn [mbind res_bind].
  by rewrite i64_small by lia.
Qed.

Lemma MyDecode_length data p : MyDecode data = Ok p → String.length (UniqueSender p) = 42%nat.
Proof.
  unfold MyDecode. intros H. case_test; inv_ok. cbn [UniqueSender]. revert E1. unfold slice.
  destruct (_ && _)%bool eqn:Hb; [|done]. intros [= <-].
  apply andb_true_iff in Hb as [_ Hb%Nat.leb_le]. apply length_substring. lia.
Qed.

(** ** Reading events *)

Lemma foldR_no_panic {A B} (f : B → A → res B) l b : (∀ b a, f b a ≠ Panic) → foldR f b l ≠ Panic.
Proof.
  intros Hf. revert b. induction l as [|a l IH]; intros b; cbn; [done|].
  specialize (Hf b a). destruct (f b a); cbn; done.
Qed.

(** Evaluates the comparisons with a concrete key. *)
Ltac eval_keys :=
  repeat match goal with
  | |- context [String.eqb (String ?c ?s) ?k] =>
      let v := eval vm_compute in (String.eqb (String c s) k) in
      change (String.eqb (String c s) k) with v; cbn [mbind res_bind]
  end.

Section Parsing.
Context {sdk : SDK} {L : SDKLaws sdk} {geth : Geth}.

(** The attributes of a lock or burn event, read one after the other. *)
Lemma parse_event (claimType : Event) translator (chain sender receiver amount symbol ceth : string) n x sym :
  big_of_str n = Some x → IsHexAddress receiver = true →
  (claimType = Event_MsgLock ∧ FurynetToEthereum translator symbol = Ok sym
   ∨ claimType = Event_MsgBurn ∧ burn_symbol symbol = Ok sym) →
  BurnLockEventToCosmosMsg claimType
    [("ethereum_chain_id", chain); ("cosmos_sender", sender); ("cosmos_sender_sequence", n);
     ("ethereum_receiver", receiver); ("amount", amount); ("symbol", symbol); ("ceth_amount", ceth)]
    translator
  = match i_of_str amount with
    | Some a => Ok (mkCosmosMsg sender (Some x) sym (Some a) (HexToAddress receiver) claimType)
    | None => Err (EOther "invalid amount")
    end.
Proof.
  intros Hn Hr Hs. unfold BurnLockEventToCosmosMsg. cbn [foldR parse_attribute Key_String].
  eval_keys. rewrite Hn. cbn [mbind res_bind foldR parse_attribute Key_String]. eval_keys.
  rewrite Hr. cbn [ensure mbind res_bind foldR parse_attribute Key_String]. eval_keys.
  destruct (i_of_str amount) as [a|]; [|done].
  cbn [mbind res_bind foldR parse_attribute Key_String]. eval_keys.
  destruct Hs as [[-> ->]|[-> ->]]; cbn [mbind res_bind foldR parse_attribute Key_String]; by eval_keys.
Qed.

Lemma lock_event_read (msg : MsgLock.t) sequence translator sym :
  0 ≤ sequence → Z.abs (MsgLock.Amount msg) < 2 ^ 255 →
  IsHexAddress (MsgLock.EthereumReceiver msg) = true →
  FurynetToEthereum translator (MsgLock.Symbol msg) = Ok sym →
  BurnLockEventToCosmosMsg Event_MsgLock (GetAttributes (lock_event msg sequence)) translator
  = Ok (mkCosmosMsg (MsgLock.CosmosSender msg) (Some sequence) sym (Some (MsgLock.Amount msg))
          (HexToAddress (MsgLock.EthereumReceiver msg)) Event_MsgLock).
Proof.
  intros Hq Ha Hr Hs. unfold lock_event, GetAttributes.
  erewrite parse_event; [|apply big_of_str_pretty|done|left; done].
  rewrite i_of_istr_law by done. by rewrite Z2N.id.
Qed.

Lemma burn_event_read (msg : MsgBurn.t) sequence translator rest :
  0 ≤ sequence → Z.abs (MsgBurn.Amount msg) < 2 ^ 255 →
  IsHexAddress (MsgBurn.EthereumReceiver msg) = true →
  MsgBurn.Symbol msg = (PeggedCoinPrefix ++ rest)%string →
  BurnLockEventToCosmosMsg Event_MsgBurn (GetAttributes (burn_event msg sequence)) translator
  = Ok (mkCosmosMsg (MsgBurn.CosmosSender msg) (Some sequence) rest (Some (MsgBurn.Amount msg))
          (HexToAddress (MsgBurn.EthereumReceiver msg)) Event_MsgBurn).
Proof.
  intros Hq Ha Hr Hs. unfold burn_event, GetAttributes.
  erewrite parse_event; [|apply big_of_str_pretty|done|right; split; [done|]].
  - rewrite i_of_istr_law by done. by rewrite Z2N.id.
  - rewrite Hs. apply burn_symbol_prefixed.
Qed.

(** A translator whose table holds strings only. *)
Definition only_strings (translator : BiMap) : Prop := ∀ d, FurynetToEthereum translator d ≠ Panic.

Lemma burn_lock_no_panic claimType attrs translator : only_strings translator →
  BurnLockEventToCosmosMsg claimType attrs translator ≠ Panic.
Proof.
  intros Ht. unfold BurnLockEventToCosmosMsg.
  destruct (foldR _ _ attrs) eqn:E; cbn; [by destruct (negb _)|done|].
  exfalso. revert E. apply foldR_no_panic. intros p [key val]. unfold parse_attribute.
  specialize (Ht val). unfold burn_symbol, ensure.
  repeat case_match; cbn; try done. by destruct (FurynetToEthereum translator val).
Qed.
End Parsing.

(** ** What code submits to Ethereum

    A relation between the states around a method: the calls of the contract it
    submits satisfy [P], the databases and what was broadcast stay, and requests
    are only added. *)
Definition sends (cs : list prophecy_call) (s s' : relayer) : Prop :=
  submitted s' = submitted s ++ cs ∧ cosmosDB s' = cosmosDB s ∧ ethDB s' = ethDB s
  ∧ broadcast s' = broadcast s ∧ (calls s ≤ calls s')%nat.

(** [m] does not panic and submits calls that satisfy [P], also when it fails; in
    [does] it moreover succeeds. *)
Definition safe {A} (m : M relayer A) (P : list prophecy_call → Prop) : Prop :=
  ∀ s, ∃ r s' cs, m s = (r, s') ∧ r ≠ Panic ∧ P cs ∧ sends cs s s'.
Definition does {A} (m : M relayer A) (P : list prophecy_call → Prop) : Prop :=
  ∀ s, ∃ a s' cs, m s = (Ok a, s') ∧ P cs ∧ sends cs s s'.
Abbreviation none := (eq (@nil prophecy_call)).

Lemma sends_nil s : sends [] s s.
Proof. unfold sends. by rewrite app_nil_r. Qed.

Lemma sends_app a b s s1 s' : sends a s s1 → sends b s1 s' → sends (a ++ b) s s'.
Proof.
  unfold sends. intros (-> & -> & -> & -> & ?) (-> & -> & -> & -> & ?). rewrite app_assoc.
  split_and!; (done || lia).
Qed.

(** A request by itself. *)
Lemma sends_request s : sends [] s (s <| calls := S (calls s) |>).
Proof. unfold sends. cbn. rewrite app_nil_r. split_and!; (done || lia). Qed.

Section Outcomes.
Context {A : Type}.
Implicit Types (P Q : list prophecy_call → Prop).

Lemma does_ret (a : A) : does (mret a) none.
Proof. intros s. exists a, s, []. split_and!; [done..|apply sends_nil]. Qed.

Lemma does_call (f : nat → A) : does (call f) none.
Proof. intros s. do 3 eexists. split_and!; [done..|apply sends_request]. Qed.

Lemma does_safe (m : M relayer A) P : does m P → safe m P.
Proof. intros H s. destruct (H s) as (a & s' & cs & -> & ? & ?). by exists (Ok a), s', cs. Qed.

Lemma safe_lift (r : res A) : r ≠ Panic → safe (lift r) none.
Proof. intros H s. exists r, s, []. split_and!; [done..|apply sends_nil]. Qed.

Lemma safe_fail e : safe (fail e : M relayer A) none.
Proof. intros s. exists (Err e), s, []. split_and!; [done..|apply sends_nil]. Qed.

End Outcomes.

Section Sequences.
Context {A B : Type}.
Implicit Types (P Q : list prophecy_call → Prop).

Lemma does_bind (m : M relayer A) (k : A → M relayer B) P Q R :
  does m P → (∀ a, does (k a) Q) → (∀ a b, P a → Q b → R (a ++ b)) → does (m ≫= k) R.
Proof.
  intros Hm Hk HR s. destruct (Hm s) as (a & s1 & cs & E & HP & Hs).
  destruct (Hk a s1) as (b & s' & cs' & E' & HQ & Hs'). exists b, s', (cs ++ cs').
  unfold mbind, M_bind. rewrite E. split_and!; [done|by apply HR|by eapply sends_app].
Qed.

(** Queries before and after. *)
Lemma does_then (m : M relayer A) (k : A → M relayer B) P :
  does m none → (∀ a, does (k a) P) → does (m ≫= k) P.
Proof. intros Hm Hk. eapply does_bind; [done..|]. by intros ? ? <-. Qed.

Lemma safe_then (m : M relayer A) (k : A → M relayer B) :
  safe m none → (∀ a, safe (k a) none) → safe (m ≫= k) none.
Proof.
  intros Hm Hk s. destruct (Hm s) as (r & s1 & cs & E & Hr & <- & Hs). unfold mbind, M_bind. rewrite E.
  destruct r as [a|e|]; [|by exists (Err e), s1, []|done].
  destruct (Hk a s1) as (r & s' & cs & E' & Hr' & <- & Hs'). exists r, s', [].
  split_and!; [done..|]. by eapply (sends_app [] []).
Qed.

End Sequences.

(** One step of the loop. *)
Lemma retry_S {A} n (body : M relayer A) : retry (S n) body =
  (r ← try body; match r with inl a => mret (Some a) | inr _ => retry n body end).
Proof. done. Qed.

Section Attempts.
Context {A : Type}.
Implicit Types (P Q : list prophecy_call → Prop).

Lemma does_try (m : M relayer A) P : safe m P → does (try m) P.
Proof.
  intros H s. destruct (H s) as (r & s' & cs & E & Hr & HP & Hs). unfold try. rewrite E.
  destruct r as [a|e|]; [by exists (inl a), s', cs|by exists (inr e), s', cs|done].
Qed.

(** Attempts that submit the same call: at least one, at most as many as attempts,
    and one if the first succeeds. *)
Lemma does_retry (body : M relayer A) c (n : nat) : safe body (eq [c]) →
  does (retry (S n) body) (λ cs, ∃ k, (1 ≤ k ≤ S n)%nat ∧ (does body (eq [c]) → k = 1%nat) ∧ cs = repeat c k).
Proof.
  intros Hb. induction n as [|n IH]; intros s; destruct (does_try _ _ Hb s) as (r & s1 & cs & E & <- & Hs);
    assert (∀ e, r = inr e → ¬ does body (eq [c])) as Hfail
      by (intros e -> Hd; destruct (Hd s) as (a & s2 & cs & E2 & _); unfold try in E; by rewrite E2 in E);
    rewrite retry_S; unfold mbind, M_bind; rewrite E; destruct r as [a|e].
  1, 3: exists (Some a), s1, [c]; split_and!; [done| |done]; exists 1%nat; split_and!; [lia..|done|done].
  - exists None, s1, [c]. split_and!; [done| |done]. exists 1%nat. split_and!; [lia..|done|done].
  - destruct (IH s1) as (r & s' & cs & E' & (k & Hk & _ & ->) & Hs'). exists r, s', (repeat c (S k)).
    split_and!; [done| |by apply (sends_app [c] _ _ s1)].
    exists (S k). split_and!; [lia..| |done]. intros Hd. by destruct (Hfail e eq_refl).
Qed.

Lemma does_retry_none (body : M relayer A) (n : nat) : safe body none → does (retry n body) none.
Proof.
  intros Hb. induction n as [|n IH]; cbn [retry]; [apply does_ret|].
  apply does_then; [by apply does_try|]. intros [a|e]; [apply does_ret|done].
Qed.
End Attempts.

Lemma safe_request {A} (f : nat → option A) : safe (request f) none.
Proof.
  apply safe_then; [apply does_safe, does_call|]. intros [a|]; [apply does_safe, does_ret|apply safe_fail].
Qed.
Lemma safe_checked f : safe (checked f) none.
Proof.
  apply safe_then; [apply does_safe, does_call|]. intros []; [apply does_safe, does_ret|apply safe_fail].
Qed.

(** A request that is answered within [n] attempts. *)
Lemma retry_finds f n s i : (i < n)%nat → f (calls s + i)%nat = true →
  ∃ s', retry n (checked f) s = (Ok (Some ()), s') ∧ sends [] s s'.
Proof.
  revert s i. induction n as [|n IH]; intros s i Hi Hf; [lia|]. set (s1 := s <| calls := S (calls s) |>).
  assert (sends [] s s1) as H1 by apply sends_request.
  rewrite retry_S. unfold mbind, M_bind, try at 1, checked at 1, mbind, M_bind, call. fold s1.
  destruct (f (calls s)) eqn:E; [by exists s1|].
  destruct i as [|i]; [by rewrite Nat.add_0_r, E in Hf|].
  destruct (IH s1 i) as (s' & Es & Hs); [lia|rewrite <- Hf; f_equal; cbn; lia|].
  exists s'. split; [exact Es|]. by apply (sends_app [] [] _ s1).
Qed.

Create HintDb relay.
#[export] Hint Resolve safe_request safe_checked safe_fail : relay.
Ltac safe_auto :=
  repeat match goal with
  | |- safe (_ ≫= _) none => apply safe_then; [|intros ?]
  | |- safe (mret _) none => apply does_safe, does_ret
  | |- safe (lift _) none => apply safe_lift; try (repeat case_match; done)
  | |- _ => solve [auto with relay]
  end.

(** ** The subscription to the cosmos chain *)

Section Cosmos.
Context {sdk : SDK} {geth : Geth} {nodes : Nodes}.
Implicit Types (translator : BiMap) (registry : string).

Lemma safe_GetAddress registry target : safe (GetAddressFromBridgeRegistry registry target) none.
Proof. unfold GetAddressFromBridgeRegistry. safe_auto. Qed.

Definition burn_or_lock (d : Event) : Prop := d = Event_MsgBurn ∨ d = Event_MsgLock.

(** The requests of a relayer to its nodes are numbered.  With the requests from [t]
    up to [t'] the relayer gets a configuration from Ethereum; or it has to give up a
    message without a call, because five attempts to get one have failed with just
    these requests, or there is no such contract. *)
Definition configured registry (t t' : nat) (config : relay_config) : Prop := ∃ d s s',
  burn_or_lock d ∧ calls s = t ∧ calls s' = t'
  ∧ tryInitRelayConfig registry d s = (Ok config, s') ∧ NewCosmosBridge (TxTarget config) = true.
Definition gave_up registry (t t' : nat) : Prop := ∃ d s r s', burn_or_lock d ∧ calls s = t ∧ calls s' = t'
  ∧ tryInitRelayConfig registry d s = (r, s')
  ∧ match r with Ok config => NewCosmosBridge (TxTarget config) = false | _ => True end.

(** Everything the relayer asks of Ethereum before it makes a call is answered. *)
Record eth_ready registry : Prop := {
  ready_dial t : EthDial t = true;
  ready_key : LoadSender ≠ None;
  ready_nonce t a : PendingNonceAt t a ≠ None;
  ready_price t : SuggestGasPrice t ≠ None;
  ready_header t : HeaderByNumber t ≠ None;
  ready_chain t : ∃ c, NetworkID t = Some c ∧ NewKeyedTransactor c = true;
  ready_contract t sender number : ∃ a,
    RegistryContract t registry CosmosBridge sender number = Some a ∧ NewCosmosBridge a = true
}.

(** Every call is taken, and its receipt is there within sixty requests. *)
Record eth_accepts : Prop := {
  accepts_call t c : NewProphecyClaim t c ≠ None;
  accepts_receipt t hash : ∃ i, (i < 60)%nat ∧ TransactionReceipt (t + i) hash = true
}.

(** Calls that report messages, in order, between the requests [t] and [t']: a message
    is given up only for the reason above, with requests of its own, otherwise it is
    submitted one to five times, all with one configuration, and once if the call is
    taken. *)
Inductive relayed registry : nat → list CosmosMsg → list prophecy_call → nat → Prop :=
| relayed_nil t t' : (t ≤ t')%nat → relayed registry t [] [] t'
| relayed_gave_up t t1 t2 m ms cs t' : (t ≤ t1)%nat → gave_up registry t1 t2 →
    relayed registry t2 ms cs t' → relayed registry t (m :: ms) cs t'
| relayed_sent t t1 t2 m ms config k cs t' : (t ≤ t1)%nat → configured registry t1 t2 config →
    (1 ≤ k ≤ 5)%nat → (eth_accepts → k = 1%nat) → relayed registry t2 ms cs t' →
    relayed registry t (m :: ms) (repeat (call_of config m) k ++ cs) t'.

Lemma relayed_later registry t0 t ms cs t' :
  (t0 ≤ t)%nat → relayed registry t ms cs t' → relayed registry t0 ms cs t'.
Proof.
  intros Ht Hr. revert Ht.
  destruct Hr as [u u' Hu|u t1 t2 m ms' cs' u' Hu Hg H|u t1 t2 m ms' config k cs' u' Hu Hc Hk Ha H]; intros Ht.
  - constructor. lia.
  - apply (relayed_gave_up _ _ t1 t2); (done || lia).
  - apply (relayed_sent _ _ t1 t2); (done || lia).
Qed.

Lemma relayed_app registry t t1 t' ms ms' cs cs' :
  relayed registry t ms cs t1 → relayed registry t1 ms' cs' t' →
  relayed registry t (ms ++ ms') (cs ++ cs') t'.
Proof.
  induction 1; intros H'; cbn.
  - by eapply relayed_later.
  - econstructor; [done..|auto].
  - rewrite <- app_assoc. econstructor; [done..|auto].
Qed.

(** [m] reports the messages [ms]. *)
Definition relays {A} registry (m : M relayer A) (ms : list CosmosMsg) : Prop :=
  ∀ s, ∃ a s' cs, m s = (Ok a, s') ∧ relayed registry (calls s) ms cs (calls s') ∧ sends cs s s'.

Lemma relays_ret {A} registry (a : A) : relays registry (mret a) [].
Proof. intros s. exists a, s, []. split_and!; [done|by constructor|apply sends_nil]. Qed.

Lemma relays_bind {A B} registry (m : M relayer A) (k : A → M relayer B) ms ms' :
  relays registry m ms → (∀ a, relays registry (k a) ms') → relays registry (m ≫= k) (ms ++ ms').
Proof.
  intros Hm Hk s. destruct (Hm s) as (a & s1 & cs & E & Hr & Hs).
  destruct (Hk a s1) as (b & s' & cs' & E' & Hr' & Hs'). exists b, s', (cs ++ cs').
  unfold mbind, M_bind. rewrite E. split_and!; [done|by eapply relayed_app|by eapply sends_app].
Qed.

Lemma safe_InitRelayConfig registry d : burn_or_lock d → safe (InitRelayConfig registry d) none.
Proof.
  intros H. unfold InitRelayConfig. safe_auto.
  - unfold ensure. by case_match.
  - by destruct H as [-> | ->].
  - apply safe_GetAddress.
Qed.

Lemma safe_RelayProphecyClaim config m :
  safe (RelayProphecyClaimToEthereum config m) (eq [call_of config m]).
Proof.
  intros s. unfold RelayProphecyClaimToEthereum.
  set (rest := request _ ≫= _). assert (safe rest none) as Hr.
  { unfold rest. safe_auto. eapply does_safe, does_retry_none. auto with relay. case_match; safe_auto. }
  set (s1 := s <| submitted := submitted s ++ [call_of config m] |>).
  destruct (Hr s1) as (r & s' & cs & E & Hp & <- & Hs). exists r, s', [call_of config m].
  split_and!; [exact E|done|done|]. by apply (sends_app [call_of config m] [] s s1).
Qed.

Lemma does_RelayProphecyClaim config m : eth_accepts →
  does (RelayProphecyClaimToEthereum config m) (eq [call_of config m]).
Proof.
  intros [Hc Hr] s. unfold RelayProphecyClaimToEthereum, request, mbind, M_bind, modify, call.
  set (s1 := s <| submitted := submitted s ++ [call_of config m] |>).
  destruct (NewProphecyClaim _ _) as [hash|] eqn:E; [|by destruct (Hc _ _ E)].
  set (s2 := s1 <| calls := S (calls s1) |>).
  destruct (Hr (calls s2) hash) as (i & Hi & Ht).
  destruct (retry_finds (λ t, TransactionReceipt t hash) 60 s2 i Hi Ht) as (s' & Es & Hs).
  exists (), s', [call_of config m]. cbn [mret M_ret]. rewrite Es. split_and!; [done..|].
  apply (sends_app [call_of config m] [] s s2); [unfold sends; cbn; split_and!; (done || lia)|done].
Qed.

(** What happens to one message; failures are swallowed. *)
Lemma relays_handle registry m d : burn_or_lock d → relays registry (handleBurnLockMsg registry m d) [m].
Proof.
  intros H s. assert (safe (tryInitRelayConfig registry d) none) as Ht.
  { unfold tryInitRelayConfig. safe_auto.
    - apply does_safe, does_retry_none. by apply safe_InitRelayConfig.
    - case_match; safe_auto. }
  destruct (Ht s) as (r & s1 & cs & E & Hp & <- & Hs1).
  assert (gave_up registry (calls s) (calls s1) → ∃ a s' cs,
    (Ok (), s1) = (Ok a, s') ∧ relayed registry (calls s) [m] cs (calls s') ∧ sends cs s s') as Hno.
  { intros Hg. exists (), s1, []. split_and!; [done| |done]. econstructor; [done|exact Hg|by constructor]. }
  unfold handleBurnLockMsg, mbind at 1, M_bind at 1, try at 1. rewrite E.
  destruct r as [config|e|]; [|by apply Hno; exists d, s, (Err e), s1|done].
  destruct (NewCosmosBridge (TxTarget config)) eqn:Hb; cbn [negb]; [|by apply Hno; exists d, s, (Ok config), s1].
  destruct (does_retry _ (call_of config m) 4 (safe_RelayProphecyClaim config m) s1)
    as (r & s' & cs & E' & (k & Hk & Hone & ->) & Hs').
  unfold mbind, M_bind. rewrite E'. exists (), s', (repeat (call_of config m) k).
  split_and!; [done| |by apply (sends_app [] _ _ s1)].
  rewrite <- (app_nil_r (repeat _ _)). econstructor; [done|by exists d, s, s1|done| |constructor; apply Hs'].
  intros Ha. by apply Hone, does_RelayProphecyClaim.
Qed.

(** A request whose answer is there. *)
Lemma request_answered {A} (f : nat → option A) s : (∀ t, f t ≠ None) →
  ∃ t a s', request f s = (Ok a, s') ∧ f t = Some a.
Proof.
  intros Hf. unfold request, mbind, M_bind, call. destruct (f (calls s)) as [a|] eqn:E; [|by destruct (Hf _ E)].
  by do 3 eexists.
Qed.

Lemma bind_runs {A B} (m : M relayer A) (k : A → M relayer B) s a s' :
  m s = (Ok a, s') → (m ≫= k) s = k a s'.
Proof. unfold mbind, M_bind. by intros ->. Qed.

Lemma ready_InitRelayConfig registry d s : eth_ready registry → burn_or_lock d →
  ∃ config s', InitRelayConfig registry d s = (Ok config, s') ∧ NewCosmosBridge (TxTarget config) = true.
Proof.
  intros [H1 H2 H3 H4 H5 H6 H7] Hd. destruct LoadSender as [sender|] eqn:Hl; [|done].
  unfold InitRelayConfig, GetAddressFromBridgeRegistry. rewrite Hl.
  erewrite bind_runs by (unfold checked, mbind, M_bind, call; by rewrite H1).
  erewrite bind_runs by done.
  match goal with |- context [(request ?f ≫= _) ?s1] =>
    destruct (request_answered f s1) as (t2 & nonce & s2 & E2 & _); [intros t; apply H3|] end.
  erewrite bind_runs by exact E2.
  destruct (request_answered SuggestGasPrice s2 H4) as (t3 & price & s3 & E3 & _).
  erewrite bind_runs by exact E3.
  destruct (request_answered NetworkID s3) as (t4 & chain & s4 & E4 & Hc);
    [intros t; by destruct (H6 t) as (c & -> & _)|].
  erewrite bind_runs by exact E4. destruct (H6 t4) as (c & Hc' & Hk). rewrite Hc in Hc'. injection Hc' as <-.
  rewrite Hk. erewrite bind_runs by done.
  assert (match d with
    | Event_MsgBurn | Event_MsgLock => Ok CosmosBridge
    | Event_LogNewProphecyClaim => Ok OracleContract
    | _ => Panic end = Ok CosmosBridge) as -> by by destruct Hd as [-> | ->].
  erewrite bind_runs by done.
  destruct (request_answered HeaderByNumber s4 H5) as (t5 & number & s5 & E5 & _).
  destruct (request_answered (λ t, RegistryContract t registry CosmosBridge sender number) s5)
    as (t6 & target & s6 & E6 & Ht); [intros t; by destruct (H7 t sender number) as (a & -> & _)|].
  erewrite bind_runs; [|erewrite bind_runs by done; erewrite bind_runs by exact E5; exact E6].
  do 2 eexists. split; [done|]. destruct (H7 t6 sender number) as (a & Ha & Hb).
  rewrite Ht in Ha. by injection Ha as ->.
Qed.

(** With Ethereum ready no message is given up. *)
Lemma ready_not_gave_up registry t t' : eth_ready registry → ¬ gave_up registry t t'.
Proof.
  intros Hr (d & s & r & s1 & Hd & _ & _ & Ht & Hg). revert Ht. unfold tryInitRelayConfig.
  destruct (ready_InitRelayConfig registry d s Hr Hd) as (config & s' & E & Hb).
  erewrite bind_runs; [|rewrite retry_S; erewrite bind_runs; [|unfold try; by rewrite E]; done].
  cbn. intros [= <- _]. by rewrite Hb in Hg.
Qed.

(** Then every message is submitted, and exactly once if the calls are taken. *)
Lemma relayed_all registry t ms cs t' : eth_ready registry → relayed registry t ms cs t' →
  (∀ m, m ∈ ms → ∃ t1 t2 config, configured registry t1 t2 config ∧ call_of config m ∈ cs)
  ∧ (eth_accepts → ∃ configs, Forall (λ config, ∃ t1 t2, configured registry t1 t2 config) configs
       ∧ length configs = length ms ∧ cs = zip_with call_of configs ms).
Proof.
  intros Hr. induction 1 as [t t' _|t t1 t2 m ms cs t' _ Hg _ _|t t1 t2 m ms config k cs t' _ Hc Hk Ha _ [IH1 IH2]].
  - split; [by intros m ?%not_elem_of_nil|]. intros _. by exists [].
  - by destruct (ready_not_gave_up _ _ _ Hr Hg).
  - split.
    + intros m' [->|Hm]%elem_of_cons.
      * exists t1, t2, config. split; [done|]. apply elem_of_app. left. destruct k; [lia|]. left.
      * destruct (IH1 m' Hm) as (u1 & u2 & c & ? & ?). exists u1, u2, c. split; [done|]. apply elem_of_app. by right.
    + intros Hacc. destruct (IH2 Hacc) as (configs & ? & ? & ->). exists (config :: configs).
      rewrite (Ha Hacc). cbn. split_and!; [constructor; [by exists t1, t2|done]|by f_equal|done].
Qed.

(** The messages of an event and of a block. *)
Definition event_messages translator (event : sdk_event) : list CosmosMsg :=
  match getOracleClaimType (GetType event) with
  | (Event_MsgBurn | Event_MsgLock) as d =>
      match BurnLockEventToCosmosMsg d (GetAttributes event) translator with Ok m => [m] | _ => [] end
  | _ => []
  end.
Definition block_messages translator (block : list (list sdk_event)) : list CosmosMsg :=
  flat_map (flat_map (event_messages translator)) block.

Lemma relays_forM registry {A} (l : list A) body (f : A → list CosmosMsg) :
  (∀ x, relays registry (body x) (f x)) → relays registry (forM l body) (flat_map f l).
Proof.
  intros H. induction l as [|x l IH]; cbn [forM flat_map]; [apply relays_ret|].
  apply relays_bind; [apply H|intros ?; exact IH].
Qed.

Lemma relays_event registry translator event : only_strings translator →
  relays registry (on_burn_lock translator (handleBurnLockMsg registry) event) (event_messages translator event).
Proof.
  intros Ht. unfold on_burn_lock, event_messages.
  assert (∀ d, burn_or_lock d → relays registry
    (r ← try (lift (BurnLockEventToCosmosMsg d (GetAttributes event) translator));
     match r with inl m => handleBurnLockMsg registry m d | inr _ => mret () end)
    (match BurnLockEventToCosmosMsg d (GetAttributes event) translator with Ok m => [m] | _ => [] end)) as Hd.
  { intros d Hd s. pose proof (burn_lock_no_panic d (GetAttributes event) translator Ht) as Hp.
    unfold mbind, M_bind, try, lift. destruct (BurnLockEventToCosmosMsg _ _ _) as [m| |];
      [by apply relays_handle|by apply relays_ret|done]. }
  destruct (getOracleClaimType _); try (apply Hd; unfold burn_or_lock; auto).
  all: apply relays_ret.
Qed.

Lemma relays_on_block registry translator block : only_strings translator →
  relays registry (on_block translator (handleBurnLockMsg registry) block) (block_messages translator block).
Proof. intros Ht. do 2 (apply relays_forM; intros ?). by apply relays_event. Qed.

(** *** The loop over the blocks *)

(** A node that gives the same answer about a block every time it gives one, and
    gives one again and again. *)
Record cosmos_node (blocks : Z → list (list sdk_event)) : Prop := {
  node_agrees t b block : BlockResults t b = Some block → block = blocks b;
  node_serves t b : ∃ t', (t ≤ t')%nat ∧ BlockResults t' b ≠ None
}.
Definition db_works : Prop := ∀ t, DBPut t = true.

(** A block is fetched after finitely many attempts. *)
Lemma fetch_block blocks registry translator b h last s : cosmos_node blocks → b ≤ h →
  ∃ n s1, sends [] s s1 ∧ ∀ fuel,
    process_blocks (n + S fuel) registry translator b h last s
    = (on_block translator (handleBurnLockMsg registry) (blocks b);; put_cosmos b;;
       process_blocks fuel registry translator (i64 (b + 1)) h b) s1.
Proof.
  intros Hn Hb. destruct (node_serves _ Hn (calls s) b) as (t' & Ht & Hs).
  remember (t' - calls s)%nat as d eqn:Hd. revert s Ht Hd.
  assert ((h <? b) = false) as Hlt by lia.
  induction d as [d IH] using lt_wf_ind; intros s Ht Hd.
  destruct (BlockResults (calls s) b) as [block|] eqn:E.
  - apply (node_agrees _ Hn) in E as Hbl. subst block.
    exists 0%nat, (s <| calls := S (calls s) |>). split; [apply sends_request|].
    intros fuel. cbn [Nat.add process_blocks]. rewrite Hlt. unfold mbind at 1, M_bind at 1, call at 1.
    by rewrite E.
  - assert (t' ≠ calls s) by congruence.
    destruct (IH (t' - S (calls s))%nat ltac:(lia) (s <| calls := S (calls s) |>))
      as (n & s1 & Hs1 & H1); [cbn; lia|done|].
    exists (S n), s1. split; [by apply (sends_app [] [] s (s <| calls := S (calls s) |>)); [apply sends_request|]|]. intros fuel. cbn [Nat.add process_blocks]. rewrite Hlt.
    unfold mbind at 1, M_bind at 1, call at 1. rewrite E. apply H1.
Qed.

Definition messages_between translator (blocks : Z → list (list sdk_event)) (from to : Z) : list CosmosMsg :=
  flat_map (λ b, block_messages translator (blocks b)) (seqZ from (to - from)).

Lemma process_blocks_ends blocks registry translator b h last s :
  cosmos_node blocks → db_works → only_strings translator → 0 ≤ b → h < 2 ^ 63 - 1 →
  ∃ fuel s' cs, process_blocks fuel registry translator b h last s
                = (Ok (Some (if b <=? h then h else last)), s')
    ∧ cosmosDB s' = (if b <=? h then Some (big_Bytes h) else cosmosDB s)
    ∧ relayed registry (calls s) (messages_between translator blocks b (h + 1)) cs (calls s')
    ∧ submitted s' = submitted s ++ cs
    ∧ ethDB s' = ethDB s ∧ broadcast s' = broadcast s.
Proof.
  intros Hn Hdb Ht Hb0 Hh. remember (Z.to_nat (h + 1 - b)) as k eqn:Hk. revert b last s Hb0 Hk.
  induction k as [|k IH]; intros b last s Hb0 Hk; unfold messages_between in *.
  { assert (h < b) as Hlt by lia. exists 0%nat, s, [].
    cbn [process_blocks]. destruct (Z.ltb_spec h b); [|lia]. destruct (Z.leb_spec b h); [lia|].
    rewrite app_nil_r. split_and!; [done|done| |done..].
    replace (seqZ b (h + 1 - b)) with (@nil Z); [by constructor|]. symmetry. apply seqZ_nil. lia. }
  assert (b ≤ h) as Hle by lia.
  destruct (fetch_block blocks registry translator b h last s Hn Hle) as (n & s1 & Hs1 & Hf).
  destruct (relays_on_block registry translator (blocks b) Ht s1) as (u & s2 & cs & E2 & Hr2 & Hs2).
  set (s3 := s2 <| calls := S (calls s2) |> <| cosmosDB := Some (big_Bytes b) |>).
  destruct (IH (b + 1) b s3 ltac:(lia) ltac:(lia)) as (fuel & s' & cs' & E' & Hc & Hr & Hsub & He & Hbr).
  exists (n + S fuel)%nat, s', (cs ++ cs'). rewrite Hf. unfold mbind at 1, M_bind at 1. rewrite E2.
  unfold mbind at 1, M_bind at 1, put_cosmos, mbind at 1, M_bind at 1, call at 1. rewrite Hdb.
  change (modify _ _) with (Ok (), s3). cbn beta iota. rewrite i64_small by lia. rewrite E'.
  destruct Hs1 as (Hs1 & _ & He1 & Hb1 & Hle1), Hs2 as (Hs2 & _ & He2 & Hb2 & _).
  destruct (Z.leb_spec b h); [|lia]. split_and!.
  - do 3 f_equal. destruct (Z.leb_spec (b + 1) h); [done|lia].
  - rewrite Hc. destruct (Z.leb_spec (b + 1) h); [done|]. cbn. do 2 f_equal. lia.
  - rewrite seqZ_cons by lia. cbn [flat_map].
    apply (relayed_app _ _ (calls s2)); [by eapply relayed_later|]. apply (relayed_later _ _ (calls s3)); [cbn; lia|].
    replace (Z.pred (h + 1 - b)) with (h + 1 - (b + 1)) by lia. exact Hr.
  - rewrite Hsub. cbn. rewrite Hs2, Hs1, app_nil_r. by rewrite app_assoc.
  - rewrite He. cbn. by rewrite He2.
  - rewrite Hbr. cbn. by rewrite Hb2.
Qed.
End Cosmos.

(** ** The subscription to Ethereum *)

Lemma foldR_collect {A B} (step : list B → A → res (list B)) (f : A → list B) l acc r :
  (∀ acc a r, step acc a = Ok r → r = acc ++ f a) →
  foldR step acc l = Ok r → r = acc ++ flat_map f l.
Proof.
  intros Hs. revert acc. induction l as [|a l IH]; intros acc H; cbn in *; inv_ok.
  - by rewrite app_nil_r.
  - apply Hs in E as ->. apply IH in H as ->. by rewrite app_assoc.
Qed.

Lemma foldR_no_err {A B} (step : B → A → res B) l b e : (∀ b a, step b a ≠ Err e) → foldR step b l ≠ Err e.
Proof.
  intros Hs. revert b. induction l as [|a l IH]; intros b; cbn; [done|].
  specialize (Hs b a). destruct (step b a); cbn; done.
Qed.

Lemma flat_map_flat_map {A B C} (f : A → list B) (g : B → list C) l :
  flat_map g (flat_map f l) = flat_map (λ a, flat_map g (f a)) l.
Proof. induction l as [|a l IH]; [done|]. cbn. by rewrite flat_map_app, IH. Qed.

Section Ethereum.
Context {sdk : SDK} {geth : Geth} {nodes : Nodes}.
Context (chainID : Z) (bank : string) (translator : BiMap).

(** The event of a log and the messages it is reported with. *)
Definition log_event (log : eth_log) : option EthereumEvent :=
  match (logToEvent chainID bank log (mkRelayer 0 None None ∅ [] [])).1 with
  | Ok (Some event) => Some event
  | _ => None
  end.
Definition event_claims (valAddr : string) (event : EthereumEvent) : list EthBridgeClaim :=
  match EthereumEventToEthBridgeClaim valAddr event translator with Ok claim => [claim] | _ => [] end.
Definition claim_messages (claim : EthBridgeClaim) : list MsgCreateEthBridgeClaim.t :=
  let msg := MsgCreateEthBridgeClaim.mk (Some claim) in
  match MsgCreateEthBridgeClaim_ValidateBasic msg with Ok _ => [msg] | _ => [] end.
Definition event_reports (valAddr : string) (event : EthereumEvent) : list MsgCreateEthBridgeClaim.t :=
  flat_map claim_messages (event_claims valAddr event).
Definition log_reports (valAddr : string) (log : eth_log) : list MsgCreateEthBridgeClaim.t :=
  match log_event log with Some event => event_reports valAddr event | None => [] end.

(** What is kept while events are read. *)
Definition quiet (s s' : relayer) : Prop := ethDB s' = ethDB s ∧ broadcast s' = broadcast s.

Lemma quiet_trans s s1 s' : quiet s s1 → quiet s1 s' → quiet s s'.
Proof. unfold quiet. intros [] []. split; congruence. Qed.

Lemma logToEvent_spec log s : ∃ r s', logToEvent chainID bank log s = (r, s') ∧ quiet s s'
  ∧ log_event log = match r with Ok x => x | _ => None end.
Proof.
  unfold log_event, logToEvent, mbind, M_bind, lift.
  destruct (deref _) as [topic|e|]; cbn; [|by eexists _, s..].
  destruct (if String.eqb _ _ then _ else _) as [name|]; cbn; [|by eexists _, s].
  destruct (UnpackIntoInterface _ _); cbn; by do 2 eexists.
Qed.

Lemma read_log acc log s : ∃ r s',
  (r ← try (logToEvent chainID bank log);
   mret (match r with inl (Some event) => acc ++ [event] | _ => acc end)) s = (r, s')
  ∧ quiet s s' ∧ (r = Panic ∨ r = Ok (acc ++ option_list (log_event log))).
Proof.
  destruct (logToEvent_spec log s) as (r & s1 & E & Hq & ->). unfold mbind, M_bind, try. rewrite E.
  destruct r as [[event|]|e|]; cbn; do 2 eexists; (split_and!; [done|done|]); try (by left); right.
  all: by rewrite ?app_nil_r.
Qed.

(** The events of the logs in order, without those that cannot be read. *)
Lemma logs_to_events_spec logs s : ∃ r s', logs_to_events chainID bank logs s = (r, s') ∧ quiet s s'
  ∧ (r = Panic ∨ r = Ok (omap log_event logs)).
Proof.
  unfold logs_to_events. set (body := λ events log, _).
  assert (∀ acc s, ∃ r s', foldM body acc logs s = (r, s') ∧ quiet s s'
    ∧ (r = Panic ∨ r = Ok (acc ++ omap log_event logs))) as H; [|apply (H [])].
  clear s. induction logs as [|log logs IH]; intros acc s.
  { exists (Ok acc), s. split_and!; [done..|]. right. by rewrite app_nil_r. }
  destruct (read_log acc log s) as (r & s1 & E & Hq & Hr). cbn [foldM].
  unfold mbind, M_bind in E |- *. unfold body at 1. unfold mbind, M_bind. rewrite E.
  destruct Hr as [->| ->]; [exists Panic, s1; by split_and!; [..|left]|].
  destruct (IH (acc ++ option_list (log_event log)) s1) as (r & s' & E' & Hq' & Hev).
  exists r, s'. split_and!; [done|by eapply quiet_trans|]. destruct Hev as [->| ->]; [by left|right].
  cbn. by destruct (log_event log); rewrite <- app_assoc.
Qed.

Lemma claims_of_spec v events claims : claims_of v translator events = Ok claims →
  claims = flat_map (event_claims v) events.
Proof.
  unfold claims_of. intros H. eapply (foldR_collect _ _ _ []); [|exact H]. clear.
  intros acc event r. unfold event_claims.
  destruct (EthereumEventToEthBridgeClaim v event translator); intros [= <-]; by rewrite ?app_nil_r.
Qed.

Lemma valid_claims_spec claims messages : valid_claims claims = Ok messages →
  messages = flat_map claim_messages claims.
Proof.
  unfold valid_claims. intros H. eapply (foldR_collect _ _ _ []); [|exact H]. clear.
  intros acc claim r. unfold claim_messages.
  destruct (MsgCreateEthBridgeClaim_ValidateBasic _); intros [= <-]; by rewrite ?app_nil_r.
Qed.

(** Reporting events either panics before anything is broadcast, or hands all of their
    messages to the cosmos chain at once. *)
Lemma handle_spec v events s : KeyringAddress = Some v → events ≠ [] →
  ∃ r s', handleEthereumEvent events translator s = (r, s') ∧ ethDB s' = ethDB s
    ∧ let ms := flat_map (event_reports v) events in
      (r = Panic ∧ broadcast s' = broadcast s
       ∨ r ≠ Panic ∧ ∃ t, broadcast s' = broadcast s ++ [(ms, BroadcastTx t ms)]).
Proof.
  intros Hk Hne. unfold handleEthereumEvent. rewrite Hk.
  unfold mbind at 1, M_bind at 1, lift at 1, mbind at 1, M_bind at 1, lift.
  destruct (claims_of v translator events) as [claims|e|] eqn:Ec.
  - apply claims_of_spec in Ec. destruct events as [|event events]; [done|].
    unfold RelayToCosmos. unfold mbind at 1, M_bind at 1, lift at 1.
    destruct (valid_claims claims) as [ms|e|] eqn:Em.
    + apply valid_claims_spec in Em. subst claims. rewrite flat_map_flat_map in Em.
      change (λ a, flat_map claim_messages (event_claims v a)) with (event_reports v) in Em. rewrite <- Em.
      unfold mbind, M_bind, call, modify. cbv beta iota zeta.
      destruct (BroadcastTx (calls s) ms) eqn:E; do 2 eexists; (split_and!; [done|done|right]);
        (split; [done|]); exists (calls s); by rewrite E.
    + exfalso. revert Em. apply foldR_no_err. intros b a. cbn. by case_match.
    + do 2 eexists. split_and!; [done|done|by left].
  - exfalso. revert Ec. apply foldR_no_err. intros b a. cbn. by case_match.
  - do 2 eexists. split_and!; [done|done|by left].
Qed.
(** *** Heads *)

(** A node that lists exactly the logs of the blocks of a range, in their order,
    whenever it answers (blocks [trailingBlocks] behind the head do not change). *)
Definition eth_node (block_logs : Z → list eth_log) : Prop := ∀ t a b logs,
  FilterLogs t a b = Some logs → logs = flat_map block_logs (seqZ a (b - a + 1)).

Definition reports (v : string) (block_logs : Z → list eth_log) (from to : Z) :
    list MsgCreateEthBridgeClaim.t :=
  flat_map (log_reports v) (flat_map block_logs (seqZ from (to - from))).

Lemma flat_map_omap v logs :
  flat_map (event_reports v) (omap log_event logs) = flat_map (log_reports v) logs.
Proof.
  induction logs as [|log logs IH]; [done|]. cbn. unfold log_reports at 1.
  destruct (log_event log); cbn; by rewrite IH.
Qed.

(** What is handed to the cosmos chain for the blocks from [from] to the one before
    [to]: nothing if they have no events, otherwise one transaction with the reports of
    all of them, which is not repeated when the node does not take it. *)
Inductive batch (v : string) (block_logs : Z → list eth_log) (from to : Z) :
    list (list MsgCreateEthBridgeClaim.t * bool) → Prop :=
| batch_none : omap log_event (flat_map block_logs (seqZ from (to - from))) = [] →
    batch v block_logs from to []
| batch_sent t : let ms := reports v block_logs from to in batch v block_logs from to [(ms, BroadcastTx t ms)].

Lemma batch_reports v block_logs from to sent : batch v block_logs from to sent →
  concat sent.*1 = reports v block_logs from to.
Proof.
  destruct 1 as [Hn|t ms]; cbn; [|by rewrite app_nil_r].
  unfold reports. by rewrite <- flat_map_omap, Hn.
Qed.

(** A request for logs that fails. *)
Definition unanswered : Prop := ∃ t a b, FilterLogs t a b = None.

Lemma eth_report_spec v block_logs last endingBlock s : eth_node block_logs → KeyringAddress = Some v →
  ∃ r s' sent, eth_report chainID bank translator last endingBlock s = (r, s') ∧ ethDB s' = ethDB s
    ∧ broadcast s' = broadcast s ++ sent
    ∧ (r = Ok false ∧ sent = [] ∧ unanswered
       ∨ r = Panic ∧ sent = []
       ∨ r = Ok true ∧ batch v block_logs last (endingBlock + 1) sent).
Proof.
  intros Hn Hk. unfold eth_report, mbind at 1, M_bind at 1, call at 1.
  destruct (FilterLogs _ _ _) as [logs|] eqn:El.
  2:{ do 2 eexists. exists []. rewrite app_nil_r. split_and!; [done..|]. left. split_and!; [done..|by do 3 eexists]. }
  apply Hn in El. set (s0 := s <| calls := S (calls s) |>).
  unfold mbind at 1, M_bind at 1.
  destruct (logs_to_events_spec logs s0) as (r & s1 & E & [Hq1 Hq2] & Hr). rewrite E. cbn in Hq1, Hq2.
  destruct Hr as [->| ->].
  { exists Panic, s1, []. rewrite app_nil_r. split_and!; [done..|]. right. by left. }
  assert (reports v block_logs last (endingBlock + 1) = flat_map (event_reports v) (omap log_event logs)) as Hrep.
  { rewrite flat_map_omap, El. unfold reports. by replace (endingBlock + 1 - last) with (endingBlock - last + 1) by lia. }
  destruct (omap log_event logs) as [|ev evs] eqn:Ev.
  - exists (Ok true), s1, []. rewrite app_nil_r. split_and!; [done..|]. do 2 right. split; [done|]. constructor.
    rewrite <- Ev, El. by replace (endingBlock + 1 - last) with (endingBlock - last + 1) by lia.
  - destruct (handle_spec v (ev :: evs) s1 Hk ltac:(done)) as (r & s2 & E2 & Hd & Hr).
    unfold mbind, M_bind, try. rewrite E2. destruct Hr as [[-> Hb]|[Hp [t Hb]]].
    + exists Panic, s2, []. rewrite app_nil_r, Hb. split_and!; [done|congruence|done|]. right. by left.
    + rewrite <- Hrep in Hb. destruct r as [a|e|]; [..|done];
        do 3 eexists; (split_and!; [done|congruence|by rewrite Hb, Hq2|]); do 2 right; (split; [done|apply batch_sent]).
Qed.

(** A head either leaves the database and what was sent alone; or moves the database
    to the block after the last one read and sends the reports of the blocks in
    between; or the process ends, with the database as it was and these reports sent
    or not. *)
Lemma eth_new_head_spec v block_logs dies number last s :
  eth_node block_logs → KeyringAddress = Some v → last ≠ 0 →
  ∃ r s' sent, eth_new_head dies chainID bank translator number last s = (r, s')
    ∧ broadcast s' = broadcast s ++ sent
    ∧ (r = Ok last ∧ ethDB s' = ethDB s ∧ sent = [] ∧ (number < 50 ∨ unanswered)
       ∨ r = Panic ∧ ethDB s' = ethDB s ∧ (sent = [] ∨ batch v block_logs last (number - 49) sent)
       ∨ r = Ok (number - 49) ∧ ethDB s' = Some (big_Bytes (number - 49))
         ∧ batch v block_logs last (number - 49) sent).
Proof.
  intros Hn Hk Hl. unfold eth_new_head, trailingBlocks.
  destruct (Z.ltb_spec (number - 50) 0).
  { exists (Ok last), s, []. rewrite app_nil_r. split_and!; [done..|]. left. split_and!; [done..|]. left. lia. }
  destruct (Z.eqb_spec last 0); [done|].
  destruct (eth_report_spec v block_logs last (number - 50) s Hn Hk) as (r & s1 & sent & E & Hd & Hb & Hr).
  replace (number - 50 + 1) with (number - 49) in * by lia.
  unfold mbind at 1, M_bind at 1. rewrite E. destruct Hr as [(-> & -> & Hu)|[[-> ->]|[-> Hbatch]]]; cbn [negb].
  - exists (Ok last), s1, []. split_and!; [done..|]. left. split_and!; [done..|by right].
  - exists Panic, s1, []. split_and!; [done..|]. right. left. split_and!; [done..|by left].
  - destruct dies.
    { exists Panic, s1, sent. split_and!; [done..|]. right. left. split_and!; [done..|by right]. }
    unfold put_eth, mbind, M_bind, call, modify. destruct (DBPut _).
    + do 2 eexists. exists sent. split_and!; [done|done|]. do 2 right. by split_and!.
    + do 2 eexists. exists sent. split_and!; [done|done|]. right. left. split_and!; [done|done|by right].
Qed.

(** *** Runs *)

Lemma reports_empty v block_logs from : reports v block_logs from from = [].
Proof. unfold reports. by rewrite Z.sub_diag. Qed.

Lemma reports_app v block_logs from mid to : from ≤ mid ≤ to →
  reports v block_logs from to = reports v block_logs from mid ++ reports v block_logs mid to.
Proof.
  intros H. unfold reports. rewrite <- flat_map_app, <- flat_map_app.
  replace (to - from) with ((mid - from) + (to - mid)) by lia. rewrite seqZ_app by lia.
  by replace (from + (mid - from)) with mid by lia.
Qed.

(** Transactions that report the blocks from [from] to the one before [to], in passes
    that follow each other; a pass is repeated after each of the [n] times the process
    ended before it had saved the block. *)
Inductive passes (v : string) (block_logs : Z → list eth_log) :
    nat → Z → Z → list (list MsgCreateEthBridgeClaim.t * bool) → Prop :=
| passes_end a : passes v block_logs 0 a a []
| passes_saved n a b c sent rest : a ≤ b → batch v block_logs a b sent → passes v block_logs n b c rest →
    passes v block_logs n a c (sent ++ rest)
| passes_lost n a b c sent rest : a ≤ b → batch v block_logs a b sent → passes v block_logs n a c rest →
    passes v block_logs (S n) a c (sent ++ rest).

Lemma passes_le v block_logs n a c l : passes v block_logs n a c l → a ≤ c.
Proof. induction 1; lia. Qed.

(** Every block is reported, in order, and no block twice if the process never ended
    that way. *)
Lemma passes_reports v block_logs n a c l : passes v block_logs n a c l →
  reports v block_logs a c `sublist_of` concat l.*1
  ∧ (n = 0%nat → concat l.*1 = reports v block_logs a c).
Proof.
  induction 1 as [a|n a b c sent rest Hab Hb Hp [IH1 IH2]|n a b c sent rest Hab Hb Hp [IH1 _]];
    [by rewrite reports_empty| |];
    rewrite fmap_app, concat_app, (batch_reports _ _ _ _ _ Hb).
  - apply passes_le in Hp. rewrite (reports_app _ _ a b c) by lia. split; [by apply sublist_app|].
    intros Hn. by rewrite IH2.
  - split; [|done]. by apply sublist_inserts_l.
Qed.

(** The heads that arrive do not go back, and start at [from] or later. *)
Fixpoint heads_grow (from : Z) (inputs : list eth_input) : Prop :=
  match inputs with
  | [] => True
  | NewHead number :: rest | Killed number :: rest => from ≤ number ∧ heads_grow number rest
  | Restarted :: rest => heads_grow from rest
  end.

(** How often the process ends while it handles a head. *)
Definition ends (input : eth_input) (st : Z * relayer) : bool :=
  let ended dies number :=
    negb (is_ok (eth_new_head dies chainID bank translator number st.1 st.2).1) in
  match input with
  | NewHead number => ended false number
  | Killed number => ended true number
  | Restarted => false
  end.
Fixpoint endings (inputs : list eth_input) (st : Z * relayer) : nat :=
  match inputs with
  | [] => 0
  | input :: rest =>
      (if ends input st then 1 else 0) + endings rest (eth_step chainID bank translator st input)
  end.

(** The head of an input. *)
Definition head_of (input : eth_input) : option Z :=
  match input with NewHead number | Killed number => Some number | Restarted => None end.

Lemma eth_step_passes v block_logs last s input : eth_node block_logs → KeyringAddress = Some v →
  0 < last → ethDB s = Some (big_Bytes last) → (∀ number, head_of input = Some number → last + 49 ≤ number) →
  ∃ next s' sent, eth_step chainID bank translator (last, s) input = (next, s')
    ∧ ethDB s' = Some (big_Bytes next) ∧ broadcast s' = broadcast s ++ sent
    ∧ (next = last ∧ sent = [] ∧ (head_of input = None ∨ unanswered ∨ ends input (last, s) = true)
       ∨ (∃ number, head_of input = Some number ∧ next = number - 49) ∧ batch v block_logs last next sent
       ∨ next = last ∧ ends input (last, s) = true ∧ ∃ b, last ≤ b ∧ batch v block_logs last b sent).
Proof.
  intros Hn Hk Hpos Hd Hnum.
  assert (∀ s1, ethDB s1 = ethDB s → eth_last s1 = last) as Hlast.
  { intros s1 H1. unfold eth_last. rewrite H1, Hd. apply be_value_big_Bytes. lia. }
  assert (∀ dies number, last + 49 ≤ number → ∃ next s' sent,
    match eth_new_head dies chainID bank translator number last s with
    | (Ok last, s) => (last, s) | (_, s) => (eth_last s, s) end = (next, s')
    ∧ ethDB s' = Some (big_Bytes next) ∧ broadcast s' = broadcast s ++ sent
    ∧ (next = last ∧ sent = []
         ∧ (unanswered ∨ negb (is_ok (eth_new_head dies chainID bank translator number last s).1) = true)
       ∨ next = number - 49 ∧ batch v block_logs last next sent
       ∨ next = last ∧ negb (is_ok (eth_new_head dies chainID bank translator number last s).1) = true
         ∧ ∃ b, last ≤ b ∧ batch v block_logs last b sent)) as H.
  { intros dies number Hle.
    destruct (eth_new_head_spec v block_logs dies number last s Hn Hk ltac:(lia)) as (r & s' & sent & E & Hb & Hr).
    rewrite E. destruct Hr as [(-> & Hs & -> & Hu)|[(-> & Hs & Hr)|(-> & Hs & Hr)]].
    - exists last, s', []. split_and!; [done|congruence|done|]. left. split_and!; [done..|left].
      destruct Hu as [?|?]; [lia|done].
    - exists last, s', sent. rewrite (Hlast s' Hs). split_and!; [done|congruence|done|].
      destruct Hr as [->|Hr]; [left; by split_and!; [..|right]|]. do 2 right. split_and!; [done..|]. exists (number - 49). split; [lia|done].
    - exists (number - 49), s', sent. split_and!; [done..|]. right. by left. }
  destruct input as [number|number|]; cbn [eth_step ends fst snd].
  - destruct (H false number (Hnum _ eq_refl)) as (next & s' & sent & E & Hd' & Hb & Hr). exists next, s', sent.
    split_and!; [done..|]. destruct Hr as [(? & ? & ?)|[[? ?]|?]];
      [left; by split_and!; [..|right]|right; left; by eauto|by do 2 right].
  - destruct (H true number (Hnum _ eq_refl)) as (next & s' & sent & E & Hd' & Hb & Hr). exists next, s', sent.
    split_and!; [done..|]. destruct Hr as [(? & ? & ?)|[[? ?]|?]];
      [left; by split_and!; [..|right]|right; left; by eauto|by do 2 right].
  - exists last, s, []. rewrite Hlast, app_nil_r by done. split_and!; [done..|]. left. by split_and!; [..|left].
Qed.

Lemma eth_run_passes v block_logs : eth_node block_logs → KeyringAddress = Some v →
  ∀ inputs lo last s, 0 < last → last + 49 ≤ lo → heads_grow lo inputs → ethDB s = Some (big_Bytes last) →
  ∃ next sent n, let s' := (foldl (eth_step chainID bank translator) (last, s) inputs).2 in
    ethDB s' = Some (big_Bytes next) ∧ broadcast s' = broadcast s ++ sent
    ∧ (next = last ∨ ∃ input number, input ∈ inputs ∧ head_of input = Some number ∧ next = number - 49)
    ∧ passes v block_logs n last next sent ∧ (n ≤ endings inputs (last, s))%nat
    ∧ (endings inputs (last, s) = 0%nat → ¬ unanswered →
       next = from_option (λ number, number - 49) last (list.last (omap head_of inputs))).
Proof.
  intros Hn Hk inputs. induction inputs as [|input inputs IH]; intros lo last s Hpos Hlo Hg Hd.
  { exists last, [], 0%nat. cbn. rewrite app_nil_r. split_and!; [done|done|by left|constructor|done|done]. }
  assert (∃ lo', heads_grow lo' inputs ∧ lo ≤ lo' ∧ ∀ number, head_of input = Some number → number = lo')
    as (lo' & Hg' & Hlo' & Heq).
  { destruct input as [number|number|]; cbn in Hg; [exists number|exists number|exists lo];
      split_and!; try done; try lia; try easy; by intros ? [= <-]. }
  destruct (eth_step_passes v block_logs last s input Hn Hk Hpos Hd) as (next & s1 & sent & E & Hd1 & Hb1 & Hr).
  { intros number Hh. rewrite (Heq _ Hh). lia. }
  assert (last ≤ next ∧ next + 49 ≤ lo') as [Hle Hlo1].
  { destruct Hr as [[-> _]|[[(number & Hh & ->) _]|[-> _]]]; [lia| |lia]. rewrite (Heq _ Hh). lia. }
  cbn [foldl endings]. rewrite E.
  destruct (IH lo' next s1 ltac:(lia) Hlo1 Hg' Hd1) as (next' & rest & n & Hd' & Hb' & Hor & Hp & Hle' & Hlast).
  cbn zeta in *. rewrite Hb', Hb1, <- app_assoc.
  assert (next' = next ∨ ∃ input' number, input' ∈ input :: inputs ∧ head_of input' = Some number ∧ next' = number - 49)
    as Hor'.
  { destruct Hor as [->|(i & number & Hin & ? & ?)]; [by left|right]. exists i, number. split; [by right|done]. }
  assert (omap head_of (input :: inputs)
    = match head_of input with Some x => x :: omap head_of inputs | None => omap head_of inputs end) as Hom by done.
  destruct Hr as [(-> & -> & Hu)|[[(number & Hh & ->) Hbatch]|(-> & He & b & Hb & Hbatch)]].
  - exists next', rest, n. split_and!; [done..|lia|]. intros H0 Hun. rewrite Hom.
    destruct Hu as [->|[?|He]]; [apply Hlast; [lia|done]|done|]. rewrite He in H0. lia.
  - exists next', (sent ++ rest), n. split_and!; [done|done| |exact (passes_saved _ _ _ _ _ _ _ _ Hle Hbatch Hp)|lia|].
    2:{ intros H0 Hun. rewrite Hom, Hh, last_cons. rewrite Hlast by (done || lia). by destruct (list.last _). }
    right. destruct Hor' as [->|?]; [|done].
    exists input, number. split; [left|by split].
  - exists next', (sent ++ rest), (S n). rewrite He. split_and!; [done|done|done|exact (passes_lost _ _ _ _ _ _ _ _ Hb Hbatch Hp)|lia|lia].
Qed.
End Ethereum.

(** ** Reports found on Ethereum *)
Section Found.
Context {sdk : SDK} {geth : Geth} {nodes : Nodes}.

Lemma foldM_keeps {S A B} (body : list B → A → M S (list B)) l acc s acc' s' x :
  (∀ acc a s acc' s', body acc a s = (Ok acc', s') → ∃ found, acc' = acc ++ found) →
  foldM body acc l s = (Ok acc', s') → x ∈ acc → x ∈ acc'.
Proof.
  intros Hb. revert acc s. induction l as [|a l IH]; intros acc s H Hx; cbn in H.
  { by injection H as -> ->. }
  apply M_bind_Ok in H as (acc1 & s1 & H1 & H). apply Hb in H1 as [found ->].
  eapply IH; [exact H|]. apply elem_of_app. by left.
Qed.

Lemma foldR_claims me txs acc r :
  foldR (λ claims tx, found ← claim_of_tx me tx; Ok (claims ++ found)) acc txs = Ok r →
  ∃ found, r = acc ++ found ∧ ∀ tx f, tx ∈ txs → claim_of_tx me tx = Ok f → f ⊆ found.
Proof.
  revert acc. induction txs as [|tx txs IH]; intros acc H; cbn in H.
  { injection H as <-. exists []. rewrite app_nil_r. split; [done|]. by intros tx f ?%not_elem_of_nil. }
  destruct (claim_of_tx me tx) as [f0| |] eqn:E; [|done..]. cbn in H.
  apply IH in H as (found & -> & Hf). exists (f0 ++ found). rewrite app_assoc. split; [done|].
  intros tx' f [->|Hin]%elem_of_cons Hc x Hx; apply elem_of_app.
  - left. rewrite E in Hc. by injection Hc as ->.
  - right. by apply (Hf tx' f).
Qed.

Lemma append_nil_r (a : string) : (a ++ "" = a)%string.
Proof. induction a as [|x a IH]; [done|]. exact (f_equal (String x) IH). Qed.

(** A call of newProphecyClaim by the account itself is decoded. *)
Lemma claim_of_own_tx me tx data sequence sender :
  TxSender tx = Some me → String.length NewProphecyClaimID = 4%nat →
  TxData tx = (NewProphecyClaimID ++ data)%string → call_data data sequence sender →
  0 ≤ sequence < 2 ^ 32 → String.length sender = 42%nat →
  claim_of_tx me tx = Ok [mkProphecyClaimUnique sequence sender].
Proof.
  intros Hm Hid Hd Hc Hs Hl. unfold claim_of_tx. rewrite Hm, String.eqb_refl, Hd. cbn [negb].
  rewrite length_append, Hid. destruct (Nat.ltb_spec (4 + String.length data) 4); [lia|].
  replace (slice (NewProphecyClaimID ++ data) 0 4) with (Ok NewProphecyClaimID)
    by (symmetry; exact (slice_middle "" NewProphecyClaimID data 0 4 eq_refl (eq_sym Hid))).
  cbn [mbind res_bind].
  rewrite String.eqb_refl. cbn [negb].
  replace (slice (NewProphecyClaimID ++ data) 4 (4 + String.length data)) with (Ok data).
  2:{ symmetry. rewrite <- (append_nil_r data) at 1. apply slice_middle; lia. }
  cbn [mbind res_bind].
  by rewrite (MyDecode_reads _ _ _ Hc Hs Hl).
Qed.

(** The claims of a block that the node always has are among those found. *)
Lemma GetAll_finds me from to s claims s' b txs tx f :
  GetAllProphecyClaim me from to s = (Ok claims, s') → from ≤ b < to →
  (∀ t, BlockByNumber t b = Some txs) → tx ∈ txs → claim_of_tx me tx = Ok f → f ⊆ claims.
Proof.
  unfold GetAllProphecyClaim, block_range. intros H Hb Ht Hin Hf.
  set (body := λ claims blockNumber, _) in H.
  assert (∀ acc a s acc' s', body acc a s = (Ok acc', s') → ∃ found, acc' = acc ++ found
    ∧ (a = b → f ⊆ found)) as Hbody.
  { clear -Ht Hin Hf. intros acc a s acc' s' H. unfold body, mbind, M_bind, call in H.
    destruct (BlockByNumber (calls s) a) as [l|] eqn:E.
    - apply lift_Ok in H as [H _]. apply foldR_claims in H as (found & -> & Hc). exists found.
      split; [done|]. intros ->. rewrite Ht in E. injection E as ->. by apply (Hc tx).
    - injection H as <- <-. exists []. rewrite app_nil_r. split; [done|]. intros ->. by rewrite Ht in E. }
  assert (b ∈ seqZ from (to - from)) as Hm by (apply elem_of_seqZ; lia).
  revert Hm H. generalize (seqZ from (to - from)), (@nil ProphecyClaimUnique). clear -Hbody.
  intros l. revert s. induction l as [|a l IH]; intros s acc Hm H; [by apply not_elem_of_nil in Hm|].
  cbn in H. apply M_bind_Ok in H as (acc1 & s1 & H1 & H).
  apply elem_of_cons in Hm as [->|Hm]; [|by eapply IH].
  apply Hbody in H1 as (found & -> & Hfound). intros x Hx.
  eapply foldM_keeps; [|exact H|apply elem_of_app; right; by apply Hfound].
  intros ? ? ? ? ? H1. apply Hbody in H1 as (? & ? & _). eauto.
Qed.

(** Every sender that is found has 42 bytes. *)
Definition decoded_length (c : ProphecyClaimUnique) : Prop := String.length (UniqueSender c) = 42%nat.

Lemma claim_of_tx_length me tx f : claim_of_tx me tx = Ok f → Forall decoded_length f.
Proof.
  unfold claim_of_tx. intros H. destruct (TxSender tx); [|by simplify_eq].
  do 2 (case_test; [by simplify_eq|]). inv_ok. case_test; [by simplify_eq|]. inv_ok.
  destruct (MyDecode _) as [c| |] eqn:E'; simplify_eq; [|constructor].
  constructor; [by eapply MyDecode_length|constructor].
Qed.

Lemma GetAll_length me from to s claims s' :
  GetAllProphecyClaim me from to s = (Ok claims, s') → Forall decoded_length claims.
Proof.
  unfold GetAllProphecyClaim. set (body := λ claims blockNumber, _).
  assert (∀ l acc s, Forall decoded_length acc → foldM body acc l s = (Ok claims, s') →
    Forall decoded_length claims) as H; [|intros Hf; by eapply H; [|exact Hf]].
  clear. induction l as [|b l IH]; intros acc s Hacc H; [by injection H as <- _|].
  cbn in H. apply M_bind_Ok in H as (acc1 & s1 & H1 & H). eapply IH; [|exact H]. clear H IH.
  unfold body, mbind, M_bind, call in H1. destruct (BlockByNumber _ _) as [txs|]; [|by injection H1 as <- _].
  apply lift_Ok in H1 as [H1 _]. revert acc Hacc H1.
  induction txs as [|tx txs IH]; intros acc Hacc H; cbn in H; [by injection H as <-|].
  destruct (claim_of_tx me tx) as [f| |] eqn:E; [|done..]. cbn in H. eapply IH; [|exact H].
  apply Forall_app. split; [done|]. by eapply claim_of_tx_length.
Qed.

Lemma MessageProcessed_true m claims sequence :
  CosmosSenderSequence m = Some sequence →
  mkProphecyClaimUnique sequence (MsgCosmosSender m) ∈ claims → MessageProcessed m claims = Ok true.
Proof.
  intros Hs. induction claims as [|c claims IH]; intros Hin; [by apply not_elem_of_nil in Hin|].
  cbn. rewrite Hs. apply elem_of_cons in Hin as [<-|Hin].
  - cbn. by rewrite String.eqb_refl, Z.eqb_refl.
  - case_test; cbn; [case_test; [done|]|]; by apply IH.
Qed.

Lemma MessageProcessed_false m claims :
  (∀ c, c ∈ claims → UniqueSender c ≠ MsgCosmosSender m) → MessageProcessed m claims = Ok false.
Proof.
  induction claims as [|c claims IH]; intros H; [done|]. cbn.
  destruct (String.eqb_spec (MsgCosmosSender m) (UniqueSender c)) as [E|]; cbn.
  - destruct (H c ltac:(left)). by rewrite E.
  - apply IH. intros c' Hc. apply H. by right.
Qed.
End Found.

(** More fuel does not change a finished loop. *)
Lemma process_blocks_fuel {sdk : SDK} {geth : Geth} {nodes : Nodes} registry translator n k b h last s x s' :
  process_blocks n registry translator b h last s = (Ok (Some x), s') →
  process_blocks (n + k) registry translator b h last s = (Ok (Some x), s').
Proof.
  revert b last s. induction n as [|n IH]; intros b last s H.
  { cbn in H. destruct k; cbn; case_test; done. }
  cbn [Nat.add process_blocks] in *. case_test; [done|].
  unfold mbind at 1, M_bind at 1, call at 1 in H. unfold mbind at 1, M_bind at 1, call at 1.
  destruct (BlockResults _ _) as [block|]; [|by apply IH].
  apply M_bind_Ok in H as (u & s1 & H1 & H). apply M_bind_Ok in H as (u' & s2 & H2 & H).
  unfold mbind at 1, M_bind at 1. rewrite H1. unfold mbind at 1, M_bind at 1. rewrite H2. by apply IH.
Qed.
