(* ===== verification/BridgeClaims.v ===== *)
(** * Theorems about the Ethereum bridge

    A prophecy mints coins at most once, an accepted claim changes exactly the
    balance of the receiver of the final claim, and sending to Ethereum takes
    from the sender what it says. *)
From S2P Require Import Prelude Sdk Reference Float64 Oracle OracleProps OracleClaims.
From S2P Require Import BridgeTypes Admin Chain Ledger EthBridge BridgeProps Demo.

(** ** go-ethereum for witnesses *)
Definition content_tuple (c : OracleClaimContent) : string * Z * string * string * Z :=
  (ContentReceiver c, ContentAmount c, ContentSymbol c, ContentToken c, ContentType c).
Definition tuple_content (t : string * Z * string * string * Z) : OracleClaimContent :=
  let '(r, a, s, k, y) := t in mkOracleClaimContent r a s k y.

#[export] Instance ref_geth : Geth := {|
  IsHexAddress s := (2 <? String.length s)%nat;
  HexToAddress s := s;
  HexString s := s;
  claim_marshal c := Ok (z_string (Z.pos (encode (content_tuple c))));
  claim_unmarshal j :=
    match string_z j with
    | Some (Z.pos p) => match decode p with Some t => Ok (tuple_content t) | None => Err (EOther "json") end
    | _ => Err (EOther "json")
    end
|}.

#[export] Instance ref_geth_laws : @GethLaws ref_sdk ref_geth.
Proof.
  split. intros c j a h _ _ _ _ [= <-]. cbn [claim_unmarshal ref_geth]. rewrite string_z_string, decode_encode. by destruct c.
Qed.

(** ** Runs of the bridge *)
Section Run.
Context {sdk : SDK} {geth : Geth} {go : GoMap}.

Definition bridge_tx (env : bridge_env) (m : bridge_msg) (s : chain) : chain :=
  deliver (lift (bridge_ValidateBasic m);; BridgeHandler env m) s.

(** The prophecy whose coins a message mints, if it does. *)
Definition credit (env : bridge_env) (m : bridge_msg) (s : chain) : list string :=
  match m with
  | BCreateEthBridgeClaim msg =>
      match (lift (bridge_ValidateBasic m);; msg_CreateEthBridgeClaim env msg) s,
            MsgCreateEthBridgeClaim.EthBridgeClaim msg with
      | (Ok status, _), Some claim =>
          if Text status =? STATUS_TEXT_SUCCESS
          then [oracle_id (EthereumChainId claim) (Nonce claim) (EthereumSender claim)] else []
      | _, _ => []
      end
  | _ => []
  end.

(** Delivers messages one after the other and lists the prophecies credited. *)
Fixpoint bridge_run (txs : list (bridge_env * bridge_msg)) (s : chain) : list string * chain :=
  match txs with
  | [] => ([], s)
  | (env, m) :: txs' =>
      let '(ids, s') := bridge_run txs' (bridge_tx env m s) in (credit env m s ++ ids, s')
  end.
End Run.

Section Once.
Context {sdk : SDK} {L : SDKLaws sdk} {geth : Geth} {go : GoMap} {G : GoMapLaws go}.

Lemma bridge_tx_step env m s : staking_wf (staking env) → oracle_wf (OracleState s) →
  oracle_wf (OracleState (bridge_tx env m s))
  ∧ (∀ id, decided s id → prophecies (bridge_tx env m s) !! id = prophecies s !! id)
  ∧ (credit env m s = [] ∨ ∃ id p, credit env m s = [id] ∧ ¬ decided s id
       ∧ prophecies (bridge_tx env m s) !! id = Some p
       ∧ Text (ProphecyStatus p) = STATUS_TEXT_SUCCESS).
Proof.
  intros Hsk Hwf. unfold bridge_tx, deliver, credit.
  assert ((∃ c, m = BCreateEthBridgeClaim c) ∨ ∀ c, m ≠ BCreateEthBridgeClaim c) as [[c ->]|Hm]
    by (destruct m; naive_solver).
  - cbn [BridgeHandler]. unfold mbind at 1 3 5, M_bind, lift.
    destruct (bridge_ValidateBasic _) as [u| |]; [|by split_and!; auto|by split_and!; auto].
    unfold mbind, M_bind.
    destruct (msg_CreateEthBridgeClaim env c s) as [[status| |] s'] eqn:E;
      [|by split_and!; auto|by split_and!; auto]. cbn.
    pose proof E as (claim & _ & _ & Hc & _)%CreateEthBridgeClaim_Ok. rewrite Hc.
    destruct (CreateEthBridgeClaim_prophecies _ _ _ _ _ _ Hsk Hwf Hc E) as (Hwf' & Hnd & (p & Hp & Hs) & Ho).
    split_and!; [done| |].
    + intros id Hid. apply Ho. by intros ->.
    + case_test; [right|by left]. bool_prop. eexists _, p. by rewrite Hs.
  - destruct ((lift _;; _) s) as [[u| |] s'] eqn:E; [|by split_and!; auto; destruct m; naive_solver..].
    inv_ok. assert (prophecies s' = prophecies s) as Hp.
    { by eapply handler_prophecies. }
    split_and!; [unfold oracle_wf, prophecies in *; by rewrite Hp|by rewrite Hp|].
    destruct m; naive_solver.
Qed.
End Once.

(** C6.  In any sequence of delivered bridge messages each prophecy mints its
    coins at most once: the prophecies credited are pairwise different, none of
    them was already decided before, and each of them is recorded as successful
    afterwards. *)
Theorem bridge_credits_once {sdk : SDK} {L : SDKLaws sdk} {geth : Geth} {go : GoMap}
    {G : GoMapLaws go} txs s ids s' :
  (∀ env m, (env, m) ∈ txs → staking_wf (staking env)) → oracle_wf (OracleState s) →
  bridge_run txs s = (ids, s') →
  NoDup ids ∧ oracle_wf (OracleState s')
  ∧ (∀ id, decided s id → prophecies s' !! id = prophecies s !! id)
  ∧ ∀ id, id ∈ ids → ¬ decided s id
      ∧ ∃ p, prophecies s' !! id = Some p ∧ Text (ProphecyStatus p) = STATUS_TEXT_SUCCESS.
Proof.
  revert s ids s'. induction txs as [|[env m] txs IH]; intros s ids s' Hsk Hwf H.
  - injection H as <- <-. split_and!; [apply NoDup_nil_2|done|done|].
    intros id Hid. by apply not_elem_of_nil in Hid.
  - cbn in H. destruct (bridge_run txs (bridge_tx env m s)) as [ids1 s1] eqn:E.
    injection H as <- <-.
    destruct (bridge_tx_step env m s) as (Hwf1 & Hkeep & Hcr); [by apply (Hsk env m); left|done|].
    destruct (IH _ _ _ (λ e k Hin, Hsk e k (proj2 (elem_of_cons _ _ _) (or_intror Hin))) Hwf1 E)
      as (Hnd & Hwf' & Hk' & Hids).
    assert (∀ id, decided s id → decided (bridge_tx env m s) id) as Hdec.
    { intros id Hd. pose proof Hd as (p & Hp & Hne). exists p. by rewrite (Hkeep id Hd). }
    assert (∀ id, decided s id → prophecies s1 !! id = prophecies s !! id) as Hall.
    { intros id Hd. rewrite Hk' by auto. by apply Hkeep. }
    assert (∀ id, id ∈ ids1 → ¬ decided s id
      ∧ ∃ p, prophecies s1 !! id = Some p ∧ Text (ProphecyStatus p) = STATUS_TEXT_SUCCESS) as Hold.
    { intros id Hin. destruct (Hids id Hin) as [Hn Hp]. split; [auto|done]. }
    destruct Hcr as [-> |(id & p & -> & Hn & Hp & Ht)]; [done|].
    assert (decided (bridge_tx env m s) id) as Hd by (exists p; by rewrite Ht).
    split_and!; [|done|done|].
    + apply NoDup_cons. split; [|done]. intros Hin. by apply (Hids id Hin).
    + intros id' [->|Hin]%elem_of_cons; [|by apply Hold]. split; [done|].
      exists p. by rewrite (Hk' id Hd).
Qed.

(** A validator set of one for the demo chain, whose whitelist is ann and bert. *)
Definition demo_env : bridge_env := mkBridgeEnv demo_staking (λ a, true).
Definition demo_claim (validator : string) : MsgCreateEthBridgeClaim.t :=
  MsgCreateEthBridgeClaim.mk (Some
    (mkEthBridgeClaim 1 "0xb" 7 "dai" "0xt" "0xs" "zoe" validator 500 CLAIM_TYPE_LOCK)).

Definition demo_votes : list (bridge_env * bridge_msg) :=
  (λ v, (demo_env, BCreateEthBridgeClaim (demo_claim v))) <$> ["ann"; "bert"; "ann"].

Lemma bridge_credits_once_witness :
  NoDup (bridge_run (sdk := ref_sdk) (go := go_asc) demo_votes demo_chain).1
  ∧ (bridge_run (sdk := ref_sdk) (go := go_asc) demo_votes demo_chain).1 = [oracle_id 1 7 "0xs"].
Proof.
  split; [|vm_compute; reflexivity].
  refine (proj1 (bridge_credits_once (sdk := ref_sdk) (go := go_asc) demo_votes demo_chain _
    (bridge_run demo_votes demo_chain).2 _ _ _)).
  - intros env m Hin. cbn in Hin.
    repeat (apply elem_of_cons in Hin as [[= -> ->]|Hin]; [apply demo_staking_wf|]).
    by apply not_elem_of_nil in Hin.
  - apply (demo_oracle_wf ["ann"; "bert"]).
  - apply surjective_pairing.
Defined.

(** C16.  An accepted claim mints exactly the coins of the prophecy's final
    claim: while the prophecy is undecided or fails no balance changes; when it
    succeeds the receiver named in the final claim gets its amount (in the pegged
    denomination for a lock, which is recorded as pegged) and no other balance
    changes.  If the final claim is the content of this very message, receiver,
    amount and denomination are those of the message. *)
Theorem CreateEthBridgeClaim_mints {sdk : SDK} {L : SDKLaws sdk} {geth : Geth} {GL : GethLaws geth}
    {go : GoMap} {G : GoMapLaws go} env msg claim s status s' :
  MsgCreateEthBridgeClaim.EthBridgeClaim msg = Some claim →
  msg_CreateEthBridgeClaim env msg s = (Ok status, s') →
  if Text status =? STATUS_TEXT_SUCCESS then
    ∃ c, claim_unmarshal (FinalClaim status) = Ok c
      ∧ balances_change s s' (at_account (ContentReceiver c) (only (minted_denom c) (ContentAmount c)))
      ∧ (ContentType c = CLAIM_TYPE_LOCK → ExistsPeggyToken (BridgeState s') (minted_denom c) = true)
      ∧ (∀ oclaim, CreateOracleClaimFromEthClaim claim = Ok oclaim →
           FinalClaim status = ClaimContent oclaim →
           is_ascii (ClaimSymbol claim) = true → Z.abs (ClaimAmount claim) < 2 ^ 255 →
           acc_from_bech32 (CosmosReceiver claim) = Ok (ContentReceiver c)
           ∧ ContentAmount c = ClaimAmount claim ∧ ContentSymbol c = ClaimSymbol claim
           ∧ ContentType c = EthClaimType claim)
  else Bank s' = Bank s ∧ BridgeState s' = BridgeState s.
Proof.
  intros Hm (claim' & oclaim & s1 & Hm' & Ho & _ & Hb & Hbr & _ & Hs)%CreateEthBridgeClaim_Ok.
  rewrite Hm in Hm'. injection Hm' as <-.
  destruct (Text status =? STATUS_TEXT_SUCCESS); [|by subst].
  apply ProcessSuccessfulClaim_Ok in Hs as (c & Hc & _ & _ & Hbal & _ & Hst).
  exists c. split_and!; [done| | |].
  - intros a d. rewrite (Hbal a d). by rewrite Hb.
  - intros Ht. rewrite Hst, Ht. cbn. apply existsb_exists. exists (minted_denom c).
    split; [|apply String.eqb_refl]. unfold AddPeggyToken.
    destruct (ExistsPeggyToken _ _) eqn:Ee.
    + apply existsb_exists in Ee as (x & Hx & ->%String.eqb_eq). done.
    + cbn. apply list_elem_of_In, elem_of_app. right. by left.
  - intros oclaim' Ho' Hfc Hasc Habs. unfold CreateOracleClaimFromEthClaim in Ho'. inv_ok.
    cbn in Hfc. rewrite Hfc in Hc.
    match goal with E : claim_marshal ?x = Ok _, F : acc_from_bech32 _ = Ok _ |- _ =>
      rewrite (claim_round_trip x _ (CosmosReceiver claim) (TokenContractAddress claim)) in Hc by done;
      injection Hc as <-; done end.
Qed.

Definition demo_pending : @chain ref_sdk := bridge_tx (go := go_asc) demo_env
  (BCreateEthBridgeClaim (demo_claim "ann")) demo_chain.

Lemma CreateEthBridgeClaim_mints_witness :
  (msg_CreateEthBridgeClaim (go := go_asc) demo_env (demo_claim "bert") demo_pending).1
    = Ok (mkStatus STATUS_TEXT_SUCCESS
            (z_string (Z.pos (encode ("zoe", 500, "dai", "0xt", CLAIM_TYPE_LOCK)))))
  ∧ ∃ c, ContentReceiver c = "zoe" ∧ ContentAmount c = 500 ∧ minted_denom c = "cdai"
     ∧ balances_change demo_pending
       (msg_CreateEthBridgeClaim (go := go_asc) demo_env (demo_claim "bert") demo_pending).2
       (at_account (ContentReceiver c) (only (minted_denom c) (ContentAmount c))).
Proof.
  assert ((msg_CreateEthBridgeClaim (go := go_asc) demo_env (demo_claim "bert") demo_pending).1
    = Ok (mkStatus STATUS_TEXT_SUCCESS
            (z_string (Z.pos (encode ("zoe", 500, "dai", "0xt", CLAIM_TYPE_LOCK)))))) as H
    by (vm_compute; reflexivity).
  split; [exact H|].
  destruct (CreateEthBridgeClaim_mints (sdk := ref_sdk) (go := go_asc) demo_env (demo_claim "bert") _
    demo_pending _ _ eq_refl
    (eq_trans (surjective_pairing _) (f_equal (λ x, (x, _)) H))) as (c & Hc & Hbal & _).
  exists c. vm_compute in Hc. injection Hc as <-. split_and!; [reflexivity..|exact Hbal].
Defined.

(** C17.  A successful lock or burn takes exactly the amount and the ceth fee
    from the sender; the fee goes to the configured account, or to the module
    account if there is none; the amount is burned, so no other balance changes;
    and it only happens while the bridge is not paused, to a receiver that is not
    on the blacklist, for a pegged token (burn) or one that is not (lock). *)
Theorem lock_burn_payment {sdk : SDK} {L : SDKLaws sdk} env s :
  (∀ msg s', msg_Burn env msg s = (Ok (), s') →
     ∃ sender, acc_from_bech32 (MsgBurn.CosmosSender msg) = Ok sender
       ∧ balances_change s s' (bridge_payment (fee_sink (BridgeState s)) sender
           (MsgBurn.Symbol msg) (MsgBurn.Amount msg) (MsgBurn.CethAmount msg))
       ∧ IsPaused (BridgeState s) = false
       ∧ ExistsPeggyToken (BridgeState s) (MsgBurn.Symbol msg) = true
       ∧ IsBlacklisted (BridgeState s) (MsgBurn.EthereumReceiver msg) = false)
  ∧ (∀ msg s', msg_Lock env msg s = (Ok (), s') →
     ∃ sender, acc_from_bech32 (MsgLock.CosmosSender msg) = Ok sender
       ∧ balances_change s s' (bridge_payment (fee_sink (BridgeState s)) sender
           (MsgLock.Symbol msg) (MsgLock.Amount msg) (MsgLock.CethAmount msg))
       ∧ IsPaused (BridgeState s) = false
       ∧ ExistsPeggyToken (BridgeState s) (MsgLock.Symbol msg) = false
       ∧ IsBlacklisted (BridgeState s) (MsgLock.EthereumReceiver msg) = false)
  ∧ (∀ msg s', IsPaused (BridgeState s) = true → msg_Burn env msg s = (Err (EBridge ErrPaused), s') ↔ s' = s)
  ∧ (∀ msg s', IsPaused (BridgeState s) = true → msg_Lock env msg s = (Err (EBridge ErrPaused), s') ↔ s' = s).
Proof.
  unfold msg_Burn, msg_Lock, need_account. split_and!.
  - intros msg s' H. inv_ok. apply ProcessBurn_Ok in H as (Hbl & Hbal & _). bool_prop.
    eexists. split_and!; try done.
  - intros msg s' H. inv_ok. apply ProcessLock_Ok in H as (Hbl & Hbal & _). bool_prop.
    eexists. split_and!; try done.
  - intros msg s' Hp. unfold mbind, M_bind, gets, lift. rewrite Hp. cbn. naive_solver.
  - intros msg s' Hp. unfold mbind, M_bind, gets, lift. rewrite Hp. cbn. naive_solver.
Qed.

Definition demo_burn (receiver : string) : MsgBurn.t :=
  MsgBurn.mk "bob" 30 "cdash" 1 receiver burnGasCost.
Definition demo_bridge (s : @chain ref_sdk) : @chain ref_sdk :=
  s <| BridgeState := mkBridgeStore (Some ["cdash"]) None {["0xAB" := "0xAB"]} None |>.

Lemma lock_burn_payment_witness :
  balances_change (demo_bridge demo_chain) (msg_Burn demo_env (demo_burn "0xcd") (demo_bridge demo_chain)).2
    (bridge_payment "module/ethbridge" "bob" "cdash" 30 burnGasCost).
Proof.
  destruct (lock_burn_payment (sdk := ref_sdk) demo_env (demo_bridge demo_chain)) as [Hb _].
  destruct (Hb (demo_burn "0xcd") _ (succeeds_Ok (msg_Burn demo_env (demo_burn "0xcd"))
    (demo_bridge demo_chain) ltac:(vm_compute; reflexivity))) as (sender & Hs & Hbal & _).
  vm_compute in Hs. injection Hs as <-. exact Hbal.
Defined.

(** ** Where the code falls short *)

(** The blacklist compares strings, while a hexadecimal address may be written
    in either case: a blacklisted receiver is reachable in lower case. *)
Theorem blacklist_case_sensitive :
  (msg_Burn demo_env (demo_burn "0xAB") (demo_bridge demo_chain)).1 = Err (EBridge ErrInvalidEthAddress)
  ∧ succeeds (msg_Burn demo_env (demo_burn "0xab")) (demo_bridge demo_chain) = true.
Proof. split; vm_compute; reflexivity. Qed.

(** The identifier of a prophecy concatenates chain, nonce and sender without a
    separator, so different events share one: the second is never processed. *)
Theorem oracle_id_collision sender : oracle_id 1 11 sender = oracle_id 11 1 sender.
Proof. reflexivity. Qed.

(** Replacing the blacklist installs exactly the given addresses, except that
    the entry of the empty address is never removed. *)
Lemma SetBlacklist_exact {sdk : SDK} {L : SDKLaws sdk} admins msg st st' a :
  SetBlacklist admins msg st = (Ok (), st') →
  IsBlacklisted st' a = true
  ↔ a ∈ MsgSetBlacklist.Addresses msg ∨ (a = "" ∧ IsBlacklisted st a = true).
Proof.
  intros H. unfold SetBlacklist in H. inv_ok. cbn [id] in *. unfold IsBlacklisted. cbn.
  assert (∀ (l : list string) (m : gmap string string), (∃ x, foldl (λ m a, <[a := a]> m) m l !! a = Some x)
    ↔ a ∈ l ∨ ∃ x, m !! a = Some x) as Hins.
  { induction l as [|b l IH]; intros m; cbn; [pose proof (not_elem_of_nil a); naive_solver|].
    rewrite IH, elem_of_cons, lookup_insert. case_decide as Hb; [subst|]; naive_solver. }
  assert (∀ (l : list string) (m : gmap string string), (∃ x, foldl (λ m a, delete a m) m l !! a = Some x)
    ↔ (a ∉ l) ∧ ∃ x, m !! a = Some x) as Hdel.
  { induction l as [|b l IH]; intros m; cbn; [pose proof (not_elem_of_nil a); naive_solver|].
    rewrite IH, elem_of_cons, lookup_delete. case_decide as Hb; [subst|]; naive_solver. }
  assert (∀ o : option string, (match o with Some _ => true | None => false end) = true
    ↔ ∃ x, o = Some x) as Ho by (intros []; naive_solver).
  rewrite !Ho, Hins, Hdel. unfold blacklist_removals, GetBlacklist.
  rewrite list_elem_of_filter. setoid_rewrite kv_iterate_law.
  rewrite list_elem_of_fmap. split.
  - intros [?|[Hn (x & Hx)]]; [by left|]. destruct (decide (a ∈ MsgSetBlacklist.Addresses msg)) as [|Hna]; [by left|].
    right. split; [|by exists x]. destruct a as [|c a]; [done|]. exfalso. apply Hn.
    split_and!; [cbn; lia| |].
    + apply not_true_is_false. intros (y & Hy & ->%String.eqb_eq)%existsb_exists.
      apply Hna. by apply list_elem_of_In.
    + exists (String c a, x). split; [done|]. by apply elem_of_map_to_list.
  - intros [?|[-> (x & Hx)]]; [by left|]. right. split; [|by exists x]. cbn. lia.
Qed.
