(* ===== verification/RelayerClaims.v ===== *)
(** * What the relayer reports

    The events of the bridge module are read back exactly; every block of either
    chain is reported in order, over failing nodes and restarts, and once unless the
    process ends before it has saved the block; the loop over the blocks ends; and
    what was already reported is recognised. *)
From S2P Require Import Prelude Sdk Reference Oracle BridgeTypes BridgeClaims MarginTypes.
From S2P Require Import RelayerTypes Relayer RelayerProps.

(** ** Two chains for witnesses

    The nodes fail at every other call. *)
Definition unmapped : BiMap := mkBiMap (λ _, None) (λ _, None).

Lemma unmapped_strings : only_strings unmapped.
Proof. by intros d. Qed.

Definition demo_lock : MsgLock.t := MsgLock.mk "ann" 500 "fury" 1 "0xdead" lockGasCost.
Definition demo_burn : MsgBurn.t := MsgBurn.mk "bert" 70 "cdai" 1 "0xbeef" burnGasCost.

(** Blocks 3 and 5 of the cosmos chain hold events of the bridge and others. *)
Definition demo_blocks (b : Z) : list (list sdk_event) :=
  if b =? 3 then [ [mkSdkEvent "message" []; lock_event (sdk := ref_sdk) demo_lock 7];
                   [mkSdkEvent "burn" [("burner", "m"); ("amount", "1fury")]] ] else
  if b =? 5 then [ [burn_event (sdk := ref_sdk) demo_burn 9] ] else [].

Definition demo_event (to symbol : string) (value nonce : Z) (from token : string) : EthereumEvent :=
  mkEthereumEvent to symbol 0 value nonce 0 "" "" from token.

(** The logs of the blocks 100 and 102 of Ethereum, with the data in place of its
    encoding. *)
Definition demo_logs (b : Z) : list eth_log :=
  if b =? 100 then [mkEthLog ["LogLock"] "zoe DAI" "h1"; mkEthLog ["Other"] "" "h2"] else
  if b =? 102 then [mkEthLog ["LogBurn"] "yan fury" "h3"] else [].

Definition nodes_taking (takes : bool) : Nodes := {|
  EthDial _ := true;
  NetworkID _ := Some 1;
  HeaderByNumber _ := Some 200;
  PendingNonceAt _ _ := Some 4;
  SuggestGasPrice _ := Some 10;
  FilterLogs t a b := if Nat.even t then None else Some (flat_map demo_logs (seqZ a (b - a + 1)));
  BlockByNumber _ b :=
    if b =? 90 then Some [mkEthTx (Some "0xme") ("abcd" ++ be_bytes 64 2 ++ be_bytes 32 7 ++ be_bytes 128 0
                                                 ++ "fury1smknl4uf89ef84kg020ff7ask7l0sxz3s93gv")] else Some [];
  TransactionReceipt t _ := Nat.odd t;
  RegistryContract _ _ _ _ _ := Some "0xbridge";
  NewCosmosBridge _ := true;
  NewProphecyClaim _ _ := Some "0xhash";
  NewKeyedTransactor _ := true;
  EventHex s := s;
  UnpackIntoInterface _ data :=
    if String.eqb data "zoe DAI" then Some (demo_event "zoe" "DAI" 500 1 "0xeve" "0xdai") else
    if String.eqb data "yan fury" then Some (demo_event "yan" "fury" 30 2 "0xeve" "0xfur") else None;
  NewProphecyClaimID := "abcd";
  TmStart _ := true;
  BlockResults t b := if Nat.even t then None else Some (demo_blocks b);
  LatestBlock _ := Some 6;
  BroadcastTx _ _ := takes;
  DBPut _ := true;
  LoadSender := Some "0xme";
  KeyringAddress := Some "val"
|}.
#[export] Instance demo_nodes : Nodes := nodes_taking true.

Lemma demo_cosmos_node : cosmos_node demo_blocks.
Proof.
  split.
  - intros t b block. cbn. destruct (Nat.even t); [done|]. by intros [= <-].
  - intros t b. cbn. destruct (Nat.even t) eqn:E.
    + exists (S t). split; [lia|]. rewrite Nat.even_succ, <- Nat.negb_even, E. done.
    + exists t. by rewrite E.
Qed.

Lemma demo_eth_node : eth_node demo_logs.
Proof. intros t a b logs. cbn. destruct (Nat.even t); [done|]. by intros [= <-]. Qed.

(** ** Events of the bridge module *)

(** C26.  The relayer reads the event of every valid lock and burn back: the
    sender, the sequence of its account, the amount and the receiver are those of
    the message; the symbol is translated for a lock and loses its prefix, and
    nothing else, for a burn. *)
Theorem bridge_events_read {sdk : SDK} {L : SDKLaws sdk} {geth : Geth} translator sequence :
  0 ≤ sequence →
  (∀ msg sym, MsgLock_ValidateBasic msg = Ok () → MsgLock.Amount msg < 2 ^ 255 →
    FurynetToEthereum translator (MsgLock.Symbol msg) = Ok sym →
    event_messages translator (lock_event msg sequence)
    = [mkCosmosMsg (MsgLock.CosmosSender msg) (Some sequence) sym (Some (MsgLock.Amount msg))
         (HexToAddress (MsgLock.EthereumReceiver msg)) Event_MsgLock])
  ∧ (∀ msg, MsgBurn_ValidateBasic msg = Ok () → MsgBurn.Amount msg < 2 ^ 255 →
    ∃ symbol, MsgBurn.Symbol msg = (PeggedCoinPrefix ++ symbol)%string
      ∧ event_messages translator (burn_event msg sequence)
        = [mkCosmosMsg (MsgBurn.CosmosSender msg) (Some sequence) symbol (Some (MsgBurn.Amount msg))
             (HexToAddress (MsgBurn.EthereumReceiver msg)) Event_MsgBurn]).
Proof.
  intros Hq. split.
  - intros msg sym Hv Ha Hs. unfold MsgLock_ValidateBasic in Hv. inv_ok. bool_prop.
    unfold event_messages. change (getOracleClaimType _) with Event_MsgLock. cbv iota.
    by erewrite lock_event_read; [|done|lia|done|done].
  - intros msg Hv Ha. unfold MsgBurn_ValidateBasic in Hv. inv_ok. bool_prop.
    assert (∃ symbol, MsgBurn.Symbol msg = (PeggedCoinPrefix ++ symbol)%string) as [symbol Hs].
    { match goal with H : String.substring 0 _ _ = _ |- _ => revert H end.
      destruct (MsgBurn.Symbol msg) as [|c symbol]; [done|]. intros H. exists symbol.
      assert (substring_one : String.substring 0 1 (String c symbol) = String c "") by by destruct symbol.
      change (String.length PeggedCoinPrefix) with 1%nat in H. rewrite substring_one in H. by injection H as ->. }
    exists symbol.
    split; [done|]. unfold event_messages. change (getOracleClaimType _) with Event_MsgBurn. cbv iota.
    by erewrite burn_event_read; [|done|lia|done|exact Hs].
Qed.

Lemma bridge_events_read_witness :
  event_messages (sdk := ref_sdk) unmapped (lock_event (sdk := ref_sdk) demo_lock 7)
  = [mkCosmosMsg "ann" (Some 7) "fury" (Some 500) "0xdead" Event_MsgLock]
  ∧ ∃ symbol, "cdai"%string = (PeggedCoinPrefix ++ symbol)%string
    ∧ event_messages (sdk := ref_sdk) unmapped (burn_event (sdk := ref_sdk) demo_burn 9)
      = [mkCosmosMsg "bert" (Some 9) symbol (Some 70) "0xbeef" Event_MsgBurn].
Proof.
  destruct (bridge_events_read (sdk := ref_sdk) unmapped 7 ltac:(lia)) as [H _].
  destruct (bridge_events_read (sdk := ref_sdk) unmapped 9 ltac:(lia)) as [_ H'].
  split; [apply (H demo_lock "fury")|apply (H' demo_burn)]; vm_compute; reflexivity.
Defined.

(** The events of the same names that the bank module and the other handlers of
    the bridge emit are not taken for locks or burns: they lack attributes. *)
Example other_events_ignored :
  event_messages (sdk := ref_sdk) unmapped (mkSdkEvent "burn" [("burner", "m"); ("amount", "5fury")]) = []
  ∧ event_messages (sdk := ref_sdk) unmapped
      (mkSdkEvent "lock" [("cosmos_sender", "ann"); ("validator", "v"); ("operation_type", "add")]) = [].
Proof. vm_compute. split; reflexivity. Qed.

(** ** From Ethereum to the cosmos chain *)

(** C24.  The relayer has a database that says block [from] is next, which it can
    read, and the key of its validator, and the node lists the same logs whenever it answers.  Over any
    sequence of heads that do not go back, failed requests, failed broadcasts,
    restarts, and ends of the process while it handles a head (a panic, a block that
    cannot be saved, a kill), what it hands to the cosmos chain is a sequence of
    passes over the blocks from [from] up to the one before the block the database
    then says is next: every block is reported at least once and in order, none is
    skipped, and a pass is repeated only after the process has ended before it saved
    the block, so without such an end every block is reported exactly once.  A
    transaction the chain does not take is not sent again.  If moreover the node
    always answers, all blocks up to fifty behind the last head have been reported. *)
Theorem eth_blocks_reported_once {sdk : SDK} {geth : Geth} {nodes : Nodes} chainID bank translator
    valAddr block_logs inputs from (s : relayer) :
  eth_node block_logs → KeyringAddress = Some valAddr →
  0 < from → ethDB s = Some (big_Bytes from) → heads_grow (from + 49) inputs →
  ∃ next sent n, let s' := eth_run chainID bank translator inputs s in
    let ended := endings chainID bank translator inputs (from, s) in
    let reported := reports chainID bank translator valAddr block_logs from next in
    ethDB s' = Some (big_Bytes next)
    ∧ (next = from ∨ ∃ input number, input ∈ inputs ∧ head_of input = Some number ∧ next = number - 49)
    ∧ broadcast s' = broadcast s ++ sent
    ∧ passes chainID bank translator valAddr block_logs n from next sent ∧ (n ≤ ended)%nat
    ∧ reported `sublist_of` concat sent.*1
    ∧ (ended = 0%nat → concat sent.*1 = reported)
    ∧ (ended = 0%nat → ¬ unanswered →
       next = from_option (λ number, number - 49) from (list.last (omap head_of inputs))).
Proof.
  intros Hn Hk Hpos Hs Hg. unfold eth_run.
  assert (eth_last s = from) as -> by (unfold eth_last; rewrite Hs; apply be_value_big_Bytes; lia).
  destruct (eth_run_passes chainID bank translator valAddr block_logs Hn Hk inputs (from + 49) from s Hpos
              ltac:(lia) Hg Hs) as (next & sent & n & Hd & Hb & Hor & Hp & Hle & Hlast).
  destruct (passes_reports chainID bank translator valAddr block_logs n from next sent Hp) as [Hsub Heq].
  exists next, sent, n. cbn zeta in *. split_and!; [done..| |done]. intros H0. apply Heq. lia.
Qed.

(** The relayer before it has processed anything, with block 100 of Ethereum next. *)
Definition demo_relayer : relayer := mkRelayer 0 None (Some (big_Bytes 100)) ∅ [] [].

(** Every other request fails, the subscription is restarted, and heads come twice. *)
Definition demo_inputs : list eth_input :=
  [NewHead 149; NewHead 149; NewHead 150; Restarted; NewHead 151; NewHead 151; NewHead 154; NewHead 154].
Definition demo_run (inputs : list eth_input) : relayer :=
  eth_run (sdk := ref_sdk) 1 "0xbank" unmapped inputs demo_relayer.
Definition sent_coins (r : relayer) : list (option (string * Z)) :=
  (λ m, (λ c, (ClaimSymbol c, ClaimAmount c)) <$> MsgCreateEthBridgeClaim.EthBridgeClaim m)
    <$> concat (broadcast r).*1.

Example demo_run_reports :
  sent_coins (demo_run demo_inputs) = [Some ("dai", 500); Some ("fury", 30)]
  ∧ endings (sdk := ref_sdk) 1 "0xbank" unmapped demo_inputs (100, demo_relayer) = 0%nat.
Proof. vm_compute. split; reflexivity. Qed.

(** Killed between the report of block 100 and the write of the database, the relayer
    reports that block again. *)
Example killed_run_reports :
  sent_coins (demo_run [NewHead 150; Killed 151; NewHead 151; NewHead 151])
    = [Some ("dai", 500); Some ("dai", 500)].
Proof. vm_compute. reflexivity. Qed.

(** A transaction that the cosmos chain does not take is sent once, and its blocks
    are saved as processed: the events are lost until somebody replays them. *)
Example broadcast_lost :
  let s := eth_run (sdk := ref_sdk) (nodes := nodes_taking false) 1 "0xbank" unmapped demo_inputs demo_relayer in
  (broadcast s).*2 = [false; false] ∧ sent_coins s = [Some ("dai", 500); Some ("fury", 30)]
  ∧ ethDB s = Some (big_Bytes 105).
Proof. vm_compute. split_and!; reflexivity. Qed.

Lemma eth_blocks_reported_once_witness :
  ∃ next sent, ethDB (demo_run demo_inputs) = Some (big_Bytes next)
    ∧ broadcast (demo_run demo_inputs) = [] ++ sent
    ∧ concat sent.*1 = reports (sdk := ref_sdk) 1 "0xbank" unmapped "val" demo_logs 100 next.
Proof.
  destruct (eth_blocks_reported_once (sdk := ref_sdk) 1 "0xbank" unmapped "val" demo_logs demo_inputs 100 demo_relayer)
    as (next & sent & n & Hd & _ & Hb & _ & _ & _ & He & _);
    [apply demo_eth_node|reflexivity|lia|reflexivity|cbn; lia|].
  exists next, sent. split_and!; [exact Hd|exact Hb|]. apply He. vm_compute. reflexivity.
Defined.

(** When the head goes back, blocks are read again: the events of block 102 are
    reported twice (the chain refuses the second claim). *)
Example head_goes_back :
  length (sent_coins (demo_run
    [NewHead 155; NewHead 155; NewHead 150; NewHead 150; NewHead 155; NewHead 155])) = 3%nat.
Proof. vm_compute. reflexivity. Qed.

(** ** From the cosmos chain to Ethereum *)

(** C25.  When a new block is witnessed, the loop over the blocks since the last
    one ends, provided the node of the cosmos chain keeps answering now and then,
    however often it fails in between, every write of the database succeeds and the
    table of symbols holds strings; from then on the number of iterations does not
    matter, and the database says that the new block was the last one.  Each message
    of exactly these blocks has been treated in order and with requests of its own
    ([relayed]): given up without a call only after five attempts for just this message
    to reach Ethereum have failed (or without a contract there), otherwise submitted one
    to five times.  With Ethereum ready none is given up, and
    if it takes the calls as well, the calls are those of the messages, one each. *)
Theorem cosmos_blocks_loop_ends {sdk : SDK} {geth : Geth} {nodes : Nodes} blocks registry translator
    height last (s : relayer) :
  cosmos_node blocks → db_works → only_strings translator →
  0 < last < 2 ^ 63 - 1 → last < height < 2 ^ 63 - 1 →
  ∃ n s' calls, let messages := messages_between translator blocks (last + 1) (height + 1) in
    (∀ fuel, (n ≤ fuel)%nat →
       cosmos_new_block fuel registry translator height last s = (Ok (Some height), s'))
    ∧ cosmos_last s' = height
    ∧ submitted s' = submitted s ++ calls
    ∧ relayed registry (Relayer.calls s) messages calls (Relayer.calls s')
    ∧ (eth_ready registry → ∀ m, m ∈ messages →
         ∃ t t' config, configured registry t t' config ∧ call_of config m ∈ calls)
    ∧ (eth_ready registry → eth_accepts → ∃ configs,
         Forall (λ config, ∃ t t', configured registry t t' config) configs
         ∧ length configs = length messages ∧ calls = zip_with call_of configs messages).
Proof.
  intros Hn Hdb Ht Hl Hh. unfold cosmos_new_block.
  destruct (Z.eqb_spec last 0) as [|_]; [lia|]. rewrite i64_small by lia.
  destruct (process_blocks_ends blocks registry translator (last + 1) height last s Hn Hdb Ht)
    as (n & s' & calls & E & Hc & Hr & Hs & _); [lia|lia|].
  destruct (Z.leb_spec (last + 1) height); [|lia].
  exists n, s', calls. cbn zeta. split_and!; [|unfold cosmos_last; rewrite Hc|done|done| |].
  - intros fuel Hf. replace fuel with (n + (fuel - n))%nat by lia. by apply process_blocks_fuel.
  - rewrite be_value_big_Bytes by lia. apply i64_small. lia.
  - intros He. by eapply relayed_all.
  - intros He. by eapply relayed_all.
Qed.

(** Ethereum is ready and takes the calls. *)
Lemma demo_eth_ready : eth_ready "0xreg".
Proof. split; try done; [by exists 1|by intros; exists "0xbridge"]. Qed.
Lemma demo_eth_accepts : eth_accepts.
Proof.
  split; [done|]. intros t hash. destruct (Nat.odd t) eqn:E.
  - exists 0%nat. split; [lia|]. cbn. by rewrite Nat.add_0_r.
  - exists 1%nat. split; [lia|]. cbn. by rewrite Nat.add_1_r, Nat.odd_succ, <- Nat.negb_odd, E.
Qed.

Lemma cosmos_blocks_loop_ends_witness : ∃ n s' configs,
  (∀ fuel, (n ≤ fuel)%nat →
     cosmos_new_block (sdk := ref_sdk) fuel "0xreg" unmapped 6 2 demo_relayer = (Ok (Some 6), s'))
  ∧ cosmos_last s' = 6
  ∧ submitted s' = zip_with call_of configs (messages_between (sdk := ref_sdk) unmapped demo_blocks (2 + 1) (6 + 1))
  ∧ length configs = 2%nat.
Proof.
  destruct (cosmos_blocks_loop_ends (sdk := ref_sdk) demo_blocks "0xreg" unmapped 6 2 demo_relayer)
    as (n & s' & calls & Hf & Hl & Hs & _ & _ & Hz);
    [apply demo_cosmos_node|intros t; reflexivity|apply unmapped_strings|lia|lia|].
  destruct (Hz demo_eth_ready demo_eth_accepts) as (configs & _ & Hlen & ->). exists n, s', configs.
  split_and!; [exact Hf|exact Hl|exact Hs|]. rewrite Hlen. vm_compute. reflexivity.
Defined.

(** The blocks 3 to 6 in twelve iterations; every receipt comes at the second
    request. *)
Example demo_cosmos_run :
  let r := cosmos_new_block (sdk := ref_sdk) 12 "0xreg" unmapped 6 2 demo_relayer in
  r.1 = Ok (Some 6)
  ∧ (λ c, (call_claimType c, call_sender c, call_symbol c)) <$> submitted r.2
    = [(2, "ann", "fury"); (1, "bert", "dai")].
Proof. vm_compute. split; reflexivity. Qed.

(** A relayer without a database entry does not process the block it witnesses
    first: it takes it for the last one processed. *)
Theorem first_block_skipped {sdk : SDK} {geth : Geth} {nodes : Nodes} fuel registry translator height s :
  0 < height < 2 ^ 63 - 1 → cosmosDB s = None →
  cosmos_new_block fuel registry translator height (cosmos_last s) s = (Ok (Some height), s).
Proof.
  intros Hh Hs. unfold cosmos_last. rewrite Hs. unfold cosmos_new_block.
  destruct (Z.eqb_spec 0 0); [|done]. rewrite i64_small by lia.
  destruct fuel; cbn; by destruct (Z.ltb_spec height (height + 1)); [|lia].
Qed.

(** ** Looking for what was missed *)

(** When missed events are replayed, a message that this relayer has
    already reported is recognised and nothing is sent: its call of
    newProphecyClaim is in a scanned block that the node has, with the sequence
    below 2^32 and a sender of 42 bytes at their places in the call data. *)
Theorem replay_skips_reported {nodes : Nodes} registry me ethFrom ethTo s claims s1
    b txs tx data sequence m d s2 :
  GetAllProphecyClaim me ethFrom ethTo s = (Ok claims, s1) →
  ethFrom ≤ b < ethTo → (∀ t, BlockByNumber t b = Some txs) → tx ∈ txs → TxSender tx = Some me →
  String.length NewProphecyClaimID = 4%nat → TxData tx = (NewProphecyClaimID ++ data)%string →
  call_data data sequence (MsgCosmosSender m) → CosmosSenderSequence m = Some sequence →
  0 ≤ sequence < 2 ^ 32 → String.length (MsgCosmosSender m) = 42%nat →
  replay_message registry claims m d s2 = (Ok (), s2).
Proof.
  intros HG Hb Ht Hin Hme Hid Hd Hc Hs Hq Hl.
  assert (mkProphecyClaimUnique sequence (MsgCosmosSender m) ∈ claims) as Hm.
  { eapply GetAll_finds; [exact HG|exact Hb|exact Ht|exact Hin|by eapply claim_of_own_tx|by left]. }
  unfold replay_message. by rewrite (MessageProcessed_true m claims sequence Hs Hm).
Qed.

Definition short_sender : string := "fury1smknl4uf89ef84kg020ff7ask7l0sxz3s93gv".
Definition demo_message (sender : string) : CosmosMsg :=
  mkCosmosMsg sender (Some 7) "fury" (Some 500) "0xdead" Event_MsgLock.
Definition demo_data : string :=
  (be_bytes 64 2 ++ be_bytes 32 7 ++ be_bytes 128 0 ++ short_sender)%string.
Definition found : list ProphecyClaimUnique := [mkProphecyClaimUnique 7 short_sender].

Lemma replay_skips_reported_witness :
  replay_message "0xreg" found (demo_message short_sender) Event_MsgLock demo_relayer
  = (Ok (), demo_relayer).
Proof.
  apply (replay_skips_reported "0xreg" "0xme" 88 92 demo_relayer found
           (demo_relayer <| calls := 4%nat |>) 90 [mkEthTx (Some "0xme") ("abcd" ++ demo_data)]
           (mkEthTx (Some "0xme") ("abcd" ++ demo_data)) demo_data 7).
  - vm_compute. reflexivity.
  - lia.
  - intros t. reflexivity.
  - left.
  - reflexivity.
  - reflexivity.
  - reflexivity.
  - exists (be_bytes 64 2), (be_bytes 128 0), "". split_and!; [apply be_bytes_length..|reflexivity].
  - reflexivity.
  - lia.
  - reflexivity.
Defined.

(** A sender that is not 42 bytes long is never recognised, whatever was reported:
    the message is sent again.  The addresses of this chain have 43 characters. *)
Theorem other_lengths_resent {nodes : Nodes} registry me ethFrom ethTo s claims s1 m d s2 :
  GetAllProphecyClaim me ethFrom ethTo s = (Ok claims, s1) →
  String.length (MsgCosmosSender m) ≠ 42%nat →
  replay_message registry claims m d s2 = handleBurnLockMsg registry m d s2.
Proof.
  intros HG Hl. unfold replay_message. rewrite MessageProcessed_false; [done|].
  intros c Hc He. apply Hl. rewrite <- He. apply GetAll_length in HG.
  by eapply (proj1 (Forall_forall _ _) HG c).
Qed.

(** The account fury1smknl4uf89ef84kg020ff7ask7l0sxz3s93gva of a migration, whose
    message the relayer has reported: what is decoded lacks its last character. *)
Example address_of_43_characters :
  let sender := "fury1smknl4uf89ef84kg020ff7ask7l0sxz3s93gva" in
  String.length sender = 43%nat
  ∧ MyDecode (be_bytes 64 2 ++ be_bytes 32 7 ++ be_bytes 128 0 ++ sender) = Ok (mkProphecyClaimUnique 7 short_sender)
  ∧ MessageProcessed (demo_message sender) found = Ok false.
Proof. vm_compute. split_and!; reflexivity. Qed.

(** ** Crashes *)

(** An event with an amount of 255 bits or more makes the conversion to an sdk.Int
    panic.  The database is not moved, so the relayer panics again whenever it is
    started, and reports nothing after that event. *)
Example oversized_amount :
  let event := demo_event "zoe" "DAI" (2 ^ 255) 3 "0xeve" "0xdai" in
  claims_of (sdk := ref_sdk) "val" unmapped [event <| EventClaimType := CLAIM_TYPE_LOCK |>] = Panic.
Proof. vm_compute. reflexivity. Qed.
