(* ===== verification/Dispensation.v ===== *)
(** * The dispensation module

    x/dispensation: a distributor funds a distribution, which records what each
    recipient is owed; its runner pays the records out in batches.  Every block
    mints a fixed amount of fury for the ecosystem pool until a maximum.  This
    file holds the executors (executors.go), the message server, the dispatch and
    BeginBlocker (abci.go). *)
From S2P Require Import Prelude Sdk ClpTypes DispensationTypes DispensationKeeper Chain.

Section Dispensation.
Context {sdk : SDK}.

(** ** utils/parser.go *)
Definition TotalOutput (output : list Output) : res (list coin) :=
  match output with
  | [] => Err (EOther "no outputs to send transaction")
  | o :: rest => foldR (λ total o, coins_add_all total (OutCoins o)) (OutCoins o) rest
  end.

(** ** executors.go *)

Definition create_drop (height : Z) (name : string) (t : DistributionType)
    (authorizedRunner : string) (receiver : Output) : M DispensationStore () :=
  let distributionRecord := NewDistributionRecord DISTRIBUTION_STATUS_PENDING t name
    (OutAddress receiver) (OutCoins receiver) height (-1) authorizedRunner in
  st ← gets id;
  distributionRecord ←
    (if ExistsDistributionRecord st name (OutAddress receiver) DISTRIBUTION_STATUS_PENDING t then
       oldRecord ← lift (wrap (EDispensation ErrDistribution)
         (GetDistributionRecord st name (OutAddress receiver) DISTRIBUTION_STATUS_PENDING t));
       lift (DistributionRecordAdd distributionRecord oldRecord)
     else mret distributionRecord);
  wrapM (EDispensation ErrFailedOutputs) (SetDistributionRecord distributionRecord).

Definition CreateDrops (height : Z) (output : list Output) (name : string) (t : DistributionType)
    (authorizedRunner : string) : M DispensationStore () :=
  forM output (create_drop height name t authorizedRunner).

(** One record of a run.  An error of the transfer marks the record as failed;
    if a paid record cannot be marked as completed the coins are taken back. *)
Definition distribute_record (height : Z) (record : DistributionRecord) : M chain () :=
  match acc_from_bech32 (RecipientAddress record) with
  | Panic => lift Panic
  | Err _ => mret ()
  | Ok recipientAddress =>
      sent ← try (onBank (bank_send_mod_to_acc DispensationModule recipientAddress (RecordCoins record)));
      match sent with
      | inr _ => mustM (onDispensation (ChangeRecordStatus record height DISTRIBUTION_STATUS_FAILED))
      | inl _ =>
          done ← try (onDispensation (ChangeRecordStatus record height DISTRIBUTION_STATUS_COMPLETED));
          match done with
          | inr _ => mustM (onBank (bank_send_acc_to_mod recipientAddress DispensationModule
                                      (RecordCoins record)))
          | inl _ =>
              if DoesTypeSupportClaim record
              then onDispensation (modify (DeleteClaim (RecipientAddress record) (RecordType record)))
              else mret ()
          end
      end
  end.

Definition DistributeDrops (height : Z) (distributionName authorizedRunner : string)
    (t : DistributionType) (distributionCount : Z) : M chain (list DistributionRecord) :=
  st ← gets DispensationState;
  pendingRecords ← lift (GetLimitedRecordsForRunner st distributionName authorizedRunner t
    DISTRIBUTION_STATUS_PENDING distributionCount);
  forM pendingRecords (distribute_record height);;
  mret pendingRecords.

Definition AccumulateDrops (addr : string) (amount : list coin) : M chain () :=
  address ← lift (acc_from_bech32 addr);
  wrapM (EDispensation ErrFailedInputs)
    (onBank (bank_send_acc_to_mod address DispensationModule amount)).

Definition VerifyAndSetDistribution (distributionName : string) (t : DistributionType)
    (authorizedRunner : string) : M DispensationStore () :=
  st ← gets id;
  if ExistsDistribution st distributionName t authorizedRunner then fail (EDispensation ErrDistribution)
  else wrapM (EDispensation ErrDistribution)
         (SetDistribution (NewDistribution t distributionName authorizedRunner)).

(** ** msg_server.go *)

Definition msg_CreateDistribution (msg : MsgCreateDistribution.t) : M chain () :=
  height ← gets BlockHeight;
  let distributionName := (pretty height ++ "_" ++ MsgCreateDistribution.Distributor msg)%string in
  let t := MsgCreateDistribution.DistType msg in
  let runner := MsgCreateDistribution.AuthorizedRunner msg in
  onDispensation (VerifyAndSetDistribution distributionName t runner);;
  totalOutput ← lift (TotalOutput (MsgCreateDistribution.Outputs msg));
  AccumulateDrops (MsgCreateDistribution.Distributor msg) totalOutput;;
  onDispensation (CreateDrops height (MsgCreateDistribution.Outputs msg) distributionName t runner).

(** [TimestampProto] fails on times outside the range of a timestamp. *)
Context (TimestampProto : string → res string).

Definition NewUserClaim (userAddress : string) (t : DistributionType) (time : string) : res UserClaim :=
  tProto ← TimestampProto time; Ok (mkUserClaim userAddress t tProto).

Definition msg_CreateUserClaim (claim : MsgCreateUserClaim.t) : M chain () :=
  st ← gets DispensationState;
  if ExistsClaim st (MsgCreateUserClaim.UserClaimAddress claim) (MsgCreateUserClaim.UserClaimType claim)
  then fail (EDispensation ErrBadRecord) else
  time ← gets BlockTime;
  newClaim ← lift (NewUserClaim (MsgCreateUserClaim.UserClaimAddress claim)
                     (MsgCreateUserClaim.UserClaimType claim) time);
  onDispensation (SetClaim newClaim).

Definition msg_RunDistribution (msg : MsgRunDistribution.t) : M chain () :=
  height ← gets BlockHeight;
  DistributeDrops height (MsgRunDistribution.DistributionName msg)
    (MsgRunDistribution.AuthorizedRunner msg) (MsgRunDistribution.DistType msg)
    (MsgRunDistribution.DistributionCount msg);;
  mret ().

(** ** handler.go *)
Inductive dispensation_msg :=
| DCreateDistribution (m : MsgCreateDistribution.t)
| DCreateUserClaim (m : MsgCreateUserClaim.t)
| DRunDistribution (m : MsgRunDistribution.t).

(** The stateless check and the handler, on the message as the check leaves it. *)
Definition DispensationHandler (m : dispensation_msg) : M chain () :=
  match m with
  | DCreateDistribution m =>
      m ← lift (MsgCreateDistribution_ValidateBasic m); msg_CreateDistribution m
  | DCreateUserClaim m => lift (MsgCreateUserClaim_ValidateBasic m);; msg_CreateUserClaim m
  | DRunDistribution m => lift (MsgRunDistribution_ValidateBasic m);; msg_RunDistribution m
  end.

(** ** abci.go *)

(** [return] in the middle: [None] ends the block processing. *)
Definition mint_amount (st : DispensationStore) : res (option Z) :=
  last ← IsLastBlock st;
  if (last : bool) then
    match MintController st with
    | None => Ok None
    | Some totalCounter => x ← i_sub MaxMintAmount totalCounter.2; Ok (Some x)
    end
  else Ok (Some MintAmountPerBlock).

Definition DispensationBeginBlocker : M chain () :=
  st ← gets DispensationState;
  can ← lift (TokensCanBeMinted st);
  if negb can then mret () else
  amount ← lift (mint_amount st);
  match amount with
  | None => mret ()
  | Some mintAmount =>
      c ← lift (new_coin (Symbol GetSettlementAsset) mintAmount);
      mintCoins ← lift (new_coins [c]);
      if negb (coins_valid mintCoins) || negb (length mintCoins =? 1)%nat then mret () else
      match acc_from_bech32 EcoPool with
      | Panic => lift Panic
      | Err _ => mret ()
      | Ok ecoPoolAddress =>
          minted ← try (onBank (bank_mint DispensationModule mintCoins));
          match minted with
          | inr _ => mret ()
          | inl _ =>
              try (onBank (bank_send_mod_to_acc DispensationModule ecoPoolAddress mintCoins));;
              match mintCoins with
              | c :: _ => try (onDispensation (AddMintAmount c));; mret ()
              | [] => lift Panic
              end
          end
      end
  end.
End Dispensation.
