(* ===== verification/DispensationProps.v ===== *)
(** * The books of the dispensation module

    What the module owes (the coins of its pending records) against what its
    account holds, and what every operation does to both. *)
From S2P Require Import Prelude Wp Sdk ClpTypes DispensationTypes DispensationKeeper Chain Ledger Dispensation.

Section Books.
Context {sdk : SDK} {L : SDKLaws sdk}.

(** A pending record is stored under its own key and is valid. *)
Definition pending_wf (m : gmap string DistributionRecord) : Prop :=
  ∀ k dr, m !! k = Some dr → k = record_key dr ∧ RecordStatus dr = DISTRIBUTION_STATUS_PENDING
    ∧ DistributionRecordValidate dr = true.

Definition owes (d : string) (dr : DistributionRecord) : Z := amount_of (RecordCoins dr) d.
Definition owed (st : DispensationStore) (d : string) : Z := msum (owes d) (PendingRecords st).
Definition held (s : chain) (d : string) : Z :=
  bank_balance (Bank s) (module_address DispensationModule) d.
Definition disp_surplus (s : chain) (d : string) : Z := held s d - owed (DispensationState s) d.

(** The account covers every pending record. *)
Definition disp_solvent (s : chain) : Prop :=
  pending_wf (PendingRecords (DispensationState s)) ∧ ∀ d, 0 ≤ disp_surplus s d.

Lemma valid_owes dr d : DistributionRecordValidate dr = true → 0 ≤ owes d dr.
Proof.
  unfold DistributionRecordValidate, owes. intros H. repeat case_test; bool_prop; try done.
  assert (∀ c, c ∈ RecordCoins dr → 0 < c.2) as Hpos by (intros; by eapply coins_valid_pos).
  clear -Hpos. unfold amount_of. induction (RecordCoins dr) as [|c l IH]; cbn; [lia|].
  assert (0 < c.2) by (apply Hpos; left).
  assert (0 ≤ foldr (λ c acc, (if String.eqb c.1 d then c.2 else 0) + acc) 0 l).
  { apply IH. intros x Hx. apply Hpos. by right. }
  destruct (String.eqb c.1 d); lia.
Qed.

Lemma owes_le_owed m k dr d : pending_wf m → m !! k = Some dr → owes d dr ≤ msum (owes d) m.
Proof.
  intros Hwf Hk. assert (0 ≤ msum (owes d) (delete k m)) as H.
  { apply msum_nonneg. intros j x [_ Hj]%lookup_delete_Some. apply valid_owes. by eapply Hwf. }
  rewrite (msum_delete _ _ _ _ Hk) in H. lia.
Qed.

Lemma onDispensation_keeps_held {A} (m : M DispensationStore A) s a s' d :
  onDispensation m s = (Ok a, s') → held s' d = held s d.
Proof. by intros (x & _ & ->)%onDispensation_Ok. Qed.

(** ** Recording a distribution *)

Lemma create_drop_Ok h name t runner o st st' :
  pending_wf (PendingRecords st) → create_drop h name t runner o st = (Ok (), st') →
  pending_wf (PendingRecords st') ∧ ∀ d, owed st' d = owed st d + amount_of (OutCoins o) d.
Proof.
  unfold create_drop, ExistsDistributionRecord, GetDistributionRecord, SetDistributionRecord,
    DistributionRecordAdd, owed.
  intros Hwf H. inv_ok. cbn [id] in *.
  set (k := GetDistributionRecordKey name (OutAddress o) t) in *.
  change (status_records DISTRIBUTION_STATUS_PENDING st) with (PendingRecords st) in *.
  assert (record_key v0 = k ∧ RecordStatus v0 = DISTRIBUTION_STATUS_PENDING
    ∧ s0 = st ∧ ∀ d, owes d v0 = amount_of (OutCoins o) d
        + match PendingRecords st !! k with Some old => owes d old | None => 0 end)
    as (Hk & Hst & -> & Hd).
  { destruct (PendingRecords st !! k) as [old|]; cbn [wrap] in *; inv_ok.
    - split_and!; [done..|]. intros d.
      match goal with E : coins_add_all _ _ = _ |- _ => exact (coins_add_all_val _ _ _ E d) end.
    - split_and!; [done..|]. intros d. symmetry. apply Z.add_0_r. }
  clear E0. case_test; inv_ok. bool_prop. rewrite Hst. cbn. rewrite Hk. split.
  - intros j x [[<- <-]|[_ Hx]]%lookup_insert_Some; [done|by apply Hwf].
  - intros d. rewrite msum_insert, Hd. destruct (PendingRecords st !! k); lia.
Qed.

Lemma CreateDrops_Ok h outs name t runner st st' :
  pending_wf (PendingRecords st) → CreateDrops h outs name t runner st = (Ok (), st') →
  pending_wf (PendingRecords st')
  ∧ ∀ d, owed st' d = owed st d + zsum (λ o, amount_of (OutCoins o) d) outs.
Proof.
  unfold CreateDrops. revert st. induction outs as [|o outs IH]; intros st Hwf H; cbn [forM zsum] in *.
  - inv_ok. split; [done|]. intros; lia.
  - inv_ok. destruct v. destruct (create_drop_Ok _ _ _ _ _ _ _ Hwf E) as [Hwf1 Hd1].
    destruct (IH _ Hwf1 H) as [Hwf2 Hd2]. split; [done|]. intros d. rewrite Hd2, Hd1. lia.
Qed.

Lemma TotalOutput_Ok outs total : TotalOutput outs = Ok total →
  ∀ d, amount_of total d = zsum (λ o, amount_of (OutCoins o) d) outs.
Proof.
  destruct outs as [|o outs]; [done|]. cbn [TotalOutput zsum]. generalize (OutCoins o).
  induction outs as [|o' outs IH]; intros cs H d; cbn [foldR zsum] in *; inv_ok; [lia|].
  rewrite (IH _ H), (coins_add_all_val _ _ _ E). lia.
Qed.

(** Creating a distribution receives exactly what it records. *)
Lemma msg_CreateDistribution_Ok msg s s' :
  pending_wf (PendingRecords (DispensationState s)) →
  acc_from_bech32 (MsgCreateDistribution.Distributor msg) ≠ Ok (module_address DispensationModule) →
  msg_CreateDistribution msg s = (Ok (), s') →
  pending_wf (PendingRecords (DispensationState s')) ∧ ∀ d, disp_surplus s' d = disp_surplus s d.
Proof.
  unfold msg_CreateDistribution, AccumulateDrops. intros Hwf Hacc H. inv_ok.
  repeat match goal with H : unit |- _ => destruct H end.
  match goal with E : onDispensation (VerifyAndSetDistribution _ _ _) _ = _ |- _ =>
    apply onDispensation_Ok in E as (x & Hx & ->) end.
  assert (PendingRecords x = PendingRecords (DispensationState s)) as Hpx.
  { assert (∀ n t r, keeps PendingRecords (VerifyAndSetDistribution n t r)) as Hk; [|by eapply Hk].
    intros n t r. unfold VerifyAndSetDistribution, SetDistribution. keep_auto. }
  match goal with E : onDispensation (CreateDrops _ _ _ _ _) _ = _ |- _ =>
    apply onDispensation_Ok in E as (y & Hy & ->) end.
  match goal with E : onBank _ _ = _, T : TotalOutput _ = _ |- _ =>
    pose proof (onBank_send_acc_to_mod _ _ _ _ _ _ E (TotalOutput_Ok _ _ T)) as Hbal;
    apply onBank_Ok in E as (b & _ & ->) end.
  apply CreateDrops_Ok in Hy as [Hwf' Hd]; [|cbn; by rewrite Hpx].
  cbn. split; [done|]. intros d. unfold disp_surplus, held in *. cbn. rewrite Hd.
  specialize (Hbal (module_address DispensationModule) d). cbn in Hbal. rewrite Hbal.
  unfold owed. cbn. rewrite Hpx. unfold at_account. rewrite String.eqb_refl.
  match goal with E : acc_from_bech32 _ = Ok ?a |- _ =>
    destruct (String.eqb_spec (module_address DispensationModule) a) as [<-|]; [done|] end. lia.
Qed.

(** ** Paying a record *)

Lemma ChangeRecordStatus_pending dr h status st :
  status = DISTRIBUTION_STATUS_COMPLETED ∨ status = DISTRIBUTION_STATUS_FAILED →
  pending_wf (PendingRecords st) → PendingRecords st !! record_key dr = Some dr →
  ∃ st', ChangeRecordStatus dr h status st = (Ok (), st')
    ∧ PendingRecords st' = delete (record_key dr) (PendingRecords st).
Proof.
  intros Hs Hwf Hk. destruct (Hwf _ _ Hk) as (_ & Hst & Hv).
  unfold ChangeRecordStatus, SetDistributionRecord, DeleteDistributionRecord, ExistsDistributionRecord.
  rewrite Hst. set (dr' := dr <| RecordStatus := _ |> <| DistributionCompletedHeight := _ |>).
  assert (DistributionRecordValidate dr' = true) as Hv' by exact Hv.
  assert (record_key dr' = record_key dr) as Hk' by done.
  fold (record_key dr'). unfold mbind, M_bind, wrapM, modify, gets. rewrite Hv'. cbn [negb].
  destruct Hs as [-> | ->]; cbn; rewrite Hk', Hk; cbn; by eexists.
Qed.

(** One record of a run: the account stays solvent, and no other pending record
    is touched. *)
Lemma distribute_record_Ok h dr s s' :
  disp_solvent s → PendingRecords (DispensationState s) !! record_key dr = Some dr →
  distribute_record h dr s = (Ok (), s') →
  disp_solvent s' ∧ ∀ k, k ≠ record_key dr →
    PendingRecords (DispensationState s') !! k = PendingRecords (DispensationState s) !! k.
Proof.
  intros [Hwf Hsol] Hk H. unfold distribute_record in H.
  destruct (acc_from_bech32 (RecipientAddress dr)) as [a| |]; [|by inv_ok|done].
  assert (∀ d, amount_of (RecordCoins dr) d ≤ held s d) as Hcov.
  { intros d. pose proof (owes_le_owed _ _ _ d Hwf Hk). specialize (Hsol d).
    unfold disp_surplus, owed, owes in *. lia. }
  assert (∀ b x, PendingRecords x = delete (record_key dr) (PendingRecords (DispensationState s)) →
    (∀ d, bank_balance (Bank s) (module_address DispensationModule) d - amount_of (RecordCoins dr) d
          ≤ bank_balance b (module_address DispensationModule) d) →
    disp_solvent (s <| Bank := b |> <| DispensationState := x |>)
    ∧ ∀ k, k ≠ record_key dr → PendingRecords x !! k = PendingRecords (DispensationState s) !! k) as Hend.
  { intros b x Hx Hb. split; [|intros; by rewrite Hx, lookup_delete_ne].
    split.
    - cbn. rewrite Hx. intros j y [_ Hy]%lookup_delete_Some. by apply Hwf.
    - intros d. specialize (Hsol d). specialize (Hb d). unfold disp_surplus, held, owed in *. cbn.
      rewrite Hx, (msum_delete _ _ _ _ Hk). unfold owes at 2. lia. }
  unfold mbind at 1, M_bind, try at 1, onBank at 1 in H.
  destruct (bank_send_mod_to_acc DispensationModule a (RecordCoins dr) (Bank s)) as [[u|e|] b] eqn:Eb; [..|done].
  - destruct u. pose proof (send_mod_to_acc_val _ _ _ _ _ Eb) as Ht.
    destruct (ChangeRecordStatus_pending dr h DISTRIBUTION_STATUS_COMPLETED (DispensationState s))
      as (x & Hx & Hpx); [by left|done|done|].
    unfold mbind, M_bind, try, onDispensation at 1 in H. cbn [DispensationState field_setter] in H.
    change (DispensationState (s <| Bank := b |>)) with (DispensationState s) in H. rewrite Hx in H. cbn in H.
    assert (∀ d, bank_balance (Bank s) (module_address DispensationModule) d - amount_of (RecordCoins dr) d
          ≤ bank_balance b (module_address DispensationModule) d) as Hb.
    { intros d. rewrite (Ht _ d), String.eqb_refl. specialize (Hcov d).
      assert (0 ≤ amount_of (RecordCoins dr) d) by (apply (valid_owes dr); by eapply Hwf).
      destruct (String.eqb _ a); lia. }
    case_test; inv_ok; [|by apply Hend].
    match goal with E : onDispensation _ _ = _ |- _ => apply onDispensation_Ok in E as (y & Hy & ->) end.
    injection Hy as <-. destruct (Hend b (DeleteClaim (RecipientAddress dr) (RecordType dr) x)) as [H1 H2];
      [done|done|]. split; [exact H1|exact H2].
  - destruct (ChangeRecordStatus_pending dr h DISTRIBUTION_STATUS_FAILED (DispensationState s))
      as (x & Hx & Hpx); [by right|done|done|].
    unfold mustM, onDispensation in H.
    change (DispensationState (s <| Bank := b |>)) with (DispensationState s) in H. rewrite Hx in H. cbn in H.
    inv_ok. apply Hend; [done|]. intros d.
    rewrite (send_covered_err _ _ _ _ _ _ Hcov Eb).
    assert (0 ≤ amount_of (RecordCoins dr) d) by (apply (valid_owes dr); by eapply Hwf). lia.
Qed.
End Books.

(** ** A batch of records *)
Section Batch.
Context {sdk : SDK} {L : SDKLaws sdk}.

Lemma limited_sublist P limit count l : sublist (limited P limit count l) l.
Proof.
  revert count. induction l as [|dr l IH]; intros count; cbn; [constructor|].
  destruct (count =? limit); [apply sublist_nil_l|].
  destruct (P dr); [apply sublist_skip|apply sublist_cons]; apply IH.
Qed.

(** The records of a batch are pending and have different keys. *)
Lemma GetLimitedRecords_Ok st name runner t n l : pending_wf (PendingRecords st) →
  GetLimitedRecordsForRunner st name runner t DISTRIBUTION_STATUS_PENDING n = Ok l →
  NoDup (record_key <$> l) ∧ ∀ dr, dr ∈ l → PendingRecords st !! record_key dr = Some dr.
Proof.
  unfold GetLimitedRecordsForRunner. intros Hwf H. inv_ok.
  cbn in E. inv_ok. set (l := (kv_iterate (PendingRecords st)).*2).
  assert (∀ k dr, (k, dr) ∈ kv_iterate (PendingRecords st) → k = record_key dr
    ∧ PendingRecords st !! record_key dr = Some dr) as Hkey.
  { intros k dr Hin. rewrite kv_iterate_law in Hin. apply elem_of_map_to_list in Hin.
    destruct (Hwf _ _ Hin) as [-> _]. done. }
  pose proof (limited_sublist (runs_record name runner t) n 0 l) as Hsub. split.
  - eapply sublist_NoDup; [|by apply fmap_sublist].
    assert (record_key <$> l = (kv_iterate (PendingRecords st)).*1) as ->.
    { unfold l. rewrite <- list_fmap_compose. apply list_fmap_ext. intros i [k dr] Hi.
      apply list_elem_of_lookup_2 in Hi. cbn. symmetry. by apply Hkey. }
    rewrite kv_iterate_law. apply NoDup_fst_map_to_list.
  - intros dr Hin. assert (dr ∈ l) as Hl by by eapply elem_of_sublist.
    unfold l in Hl. apply list_elem_of_fmap in Hl as ([k x] & -> & Hx). by eapply Hkey.
Qed.

Lemma distribute_records_Ok h l s s' : disp_solvent s → NoDup (record_key <$> l) →
  (∀ dr, dr ∈ l → PendingRecords (DispensationState s) !! record_key dr = Some dr) →
  forM l (distribute_record h) s = (Ok (), s') → disp_solvent s'.
Proof.
  revert s. induction l as [|dr l IH]; intros s Hs Hnd Hl H; cbn [forM] in H; inv_ok; [done|].
  destruct v. cbn in Hnd. apply NoDup_cons in Hnd as [Hdr Hnd].
  destruct (distribute_record_Ok _ _ _ _ Hs (Hl dr ltac:(left)) E) as [Hs1 Hk].
  apply (IH _ Hs1 Hnd); [|done]. intros x Hx. rewrite Hk; [by apply Hl; right|].
  intros He. apply Hdr. rewrite <- He. by apply list_elem_of_fmap_2.
Qed.

Lemma msg_RunDistribution_Ok msg s s' : disp_solvent s →
  msg_RunDistribution msg s = (Ok (), s') → disp_solvent s'.
Proof.
  unfold msg_RunDistribution, DistributeDrops. intros Hs H. inv_ok.
  repeat match goal with H : unit |- _ => destruct H end.
  match goal with E : GetLimitedRecordsForRunner _ _ _ _ _ _ = _ |- _ =>
    apply GetLimitedRecords_Ok in E as [Hnd Hl]; [|apply Hs] end.
  by eapply distribute_records_Ok.
Qed.

(** ** Messages *)

(** No message is signed by the account of the module, which has no key. *)
Definition signed_by_account (m : dispensation_msg) : Prop :=
  match m with
  | DCreateDistribution m =>
      acc_from_bech32 (MsgCreateDistribution.Distributor m) ≠ Ok (module_address DispensationModule)
  | _ => True
  end.

Lemma CreateDistribution_checked m m' : MsgCreateDistribution_ValidateBasic m = Ok m' →
  MsgCreateDistribution.Distributor m' = MsgCreateDistribution.Distributor m.
Proof. unfold MsgCreateDistribution_ValidateBasic. intros H. by inv_ok. Qed.

Lemma DispensationHandler_solvent TimestampProto m s s' : signed_by_account m → disp_solvent s →
  DispensationHandler TimestampProto m s = (Ok (), s') → disp_solvent s'.
Proof.
  intros Hm Hs H. destruct m as [m|m|m]; cbn [DispensationHandler] in H; inv_ok.
  - destruct (msg_CreateDistribution_Ok v s s') as [Hwf Hd]; [apply Hs| |done|].
    + by rewrite (CreateDistribution_checked _ _ E).
    + split; [done|]. intros d. rewrite Hd. apply Hs.
  - unfold msg_CreateUserClaim in H. inv_ok. case_test; inv_ok.
    apply onDispensation_Ok in H as (x & Hx & ->).
    unfold SetClaim in Hx. case_test; inv_ok. exact Hs.
  - by eapply msg_RunDistribution_Ok.
Qed.
End Batch.

(** ** Minting *)
Section Mint.
Context {sdk : SDK} {L : SDKLaws sdk}.

(** What the mint controller has counted. *)
Definition counted (s : chain) : option coin := MintController (DispensationState s).

(** Minting to the module and passing the coins on never lowers the balance of
    the module, whether the transfer succeeds or not. *)
Lemma mint_and_send c cs eco s s1 s2 r : new_coins [c] = Ok cs → 0 ≤ c.2 →
  onBank (bank_mint DispensationModule cs) s = (Ok (), s1) →
  try (onBank (bank_send_mod_to_acc DispensationModule eco cs)) s1 = (Ok r, s2) →
  DispensationState s2 = DispensationState s
  ∧ (∀ a d, a ≠ eco → a ≠ module_address DispensationModule →
       bank_balance (Bank s2) a d = bank_balance (Bank s) a d)
  ∧ (∀ d, held s d ≤ held s2 d)
  ∧ (eco ≠ module_address DispensationModule → ∀ d,
       held s2 d + bank_balance (Bank s2) eco d
       = held s d + bank_balance (Bank s) eco d + amount_of [c] d).
Proof.
  intros Hc Hpos (b1 & Hm & ->)%onBank_Ok Ht.
  pose proof (mint_val _ _ _ _ Hm) as Hmint. pose proof (new_coins_val _ _ Hc) as Hamt.
  assert (∀ d, 0 ≤ amount_of [c] d) as Hge.
  { intros d. unfold amount_of. cbn. destruct (String.eqb c.1 d); lia. }
  assert (∃ b2, s2 = s <| Bank := b2 |> ∧ ∀ a d, bank_balance b2 a d = bank_balance (Bank s) a d
    + (if String.eqb a (module_address DispensationModule) then amount_of [c] d else 0)
    + match r with inr _ => 0 | inl _ => (if String.eqb a eco then amount_of [c] d else 0)
        - (if String.eqb a (module_address DispensationModule) then amount_of [c] d else 0) end)
    as (b2 & -> & Hb).
  { apply try_Ok in Ht as [(u & -> & (b & H & ->)%onBank_inv)|(e & -> & (b & H & ->)%onBank_inv)];
      exists b; (split; [done|]); intros a d; cbn in H.
    - destruct u. rewrite (send_mod_to_acc_val _ _ _ _ _ H), Hmint, Hamt. lia.
    - rewrite (send_one_err _ _ _ _ _ _ _ Hc H), Hmint, Hamt. lia. }
  clear Hamt. revert Hge Hb. generalize (amount_of [c]). intros x Hge Hb.
  unfold held. cbn. split_and!; [done|..].
  - intros a d Ha%String.eqb_neq Hm'%String.eqb_neq. rewrite Hb, Ha, Hm'. destruct r; lia.
  - intros d. rewrite Hb, String.eqb_refl. specialize (Hge d). destruct r; [destruct (String.eqb _ eco)|]; lia.
  - intros Hne d. rewrite !Hb, !String.eqb_refl.
    apply String.eqb_neq in Hne as Hne1. rewrite Hne1.
    apply not_eq_sym, String.eqb_neq in Hne. rewrite Hne. destruct r; lia.
Qed.

Lemma AddMintAmount_pending c s r s' : try (onDispensation (AddMintAmount c)) s = (Ok r, s') →
  PendingRecords (DispensationState s') = PendingRecords (DispensationState s) ∧ Bank s' = Bank s.
Proof.
  unfold try, onDispensation, AddMintAmount, mbind, M_bind, gets, lift, modify.
  destruct (MintController _) as [t|]; [destruct (coin_add t c)|]; cbn; intros [= <- <-]; done.
Qed.

(** An error of BeginBlocker comes before it has changed anything. *)
Lemma DispensationBeginBlocker_Err s e s' : DispensationBeginBlocker s = (Err e, s') → s' = s.
Proof.
  assert (wp DispensationBeginBlocker (λ _ _, True) (λ s', s' = s) s) as Hw.
  { unfold DispensationBeginBlocker. wp_steps. apply wp_lift; [intros b _|done]. case_match; [done|].
    wp_steps. apply wp_lift; [intros [x|] _|done]; [|done]. wp_steps. apply wp_lift; [intros c _|done].
    wp_steps. apply wp_lift; [intros cs _|done]. case_match; [done|]. destruct (acc_from_bech32 EcoPool); [|done..].
    assert (∀ cs s1, wp (match cs with
      | c :: _ => try (onDispensation (AddMintAmount c));; mret ()
      | [] => lift Panic end) (λ _ _, True) (λ s', s' = s) s1) as Hend.
    { intros [|c' cs'] s1; [done|]. wp_steps. unfold wp. by destruct (onDispensation _ s1) as [[]]. }
    wp_steps. unfold wp at 1. destruct (onBank (bank_mint _ _) s) as [[]]; [|done..].
    wp_steps. unfold wp at 1. destruct (onBank _ _) as [[]]; [apply Hend|intros _; apply Hend|done]. }
  unfold wp in Hw. intros H. by rewrite H in Hw.
Qed.

Lemma DispensationBeginBlocker_solvent s s' : disp_solvent s →
  DispensationBeginBlocker s = (Ok (), s') → disp_solvent s'.
Proof.
  intros Hs H. unfold DispensationBeginBlocker in H. inv_ok.
  destruct (negb _) in H; inv_ok; [done|].
  match goal with v : option Z |- _ => destruct v as [x|]; inv_ok; [|done] end.
  destruct (negb _ || negb _) in H; inv_ok; [done|].
  destruct (acc_from_bech32 EcoPool) as [eco| |]; [|by inv_ok|done]. inv_ok.
  match goal with E : new_coin _ _ = Ok ?c |- _ =>
    rewrite new_coin_law in E; destruct (_ && _) eqn:Ed in E; inv_ok; bool_prop end.
  assert (∀ s1, DispensationState s1 = DispensationState s → (∀ d, held s d ≤ held s1 d) → disp_solvent s1) as Hend.
  { intros s1 Hd Hh. split; [rewrite Hd; apply Hs|]. intros d. destruct Hs as [_ Hs]. specialize (Hs d).
    specialize (Hh d). unfold disp_surplus in *. rewrite Hd. lia. }
  match goal with E : try (onBank (bank_mint _ _)) _ = _ |- _ =>
    apply try_Ok in E as [([] & -> & Hmint)|(e & -> & Hmint)] end; inv_ok.
  - match goal with E : try (onBank (bank_send_mod_to_acc _ _ _)) _ = _, N : new_coins _ = _ |- _ =>
      destruct (mint_and_send _ _ _ _ _ _ _ N ltac:(done) Hmint E) as (Hd & _ & Hh & _) end.
    match goal with H : match ?l with _ => _ end _ = _ |- _ => destruct l; inv_ok end.
    match goal with E : try (onDispensation _) _ = _ |- _ => apply AddMintAmount_pending in E as [Hp Hb] end.
    destruct (Hend _ Hd Hh) as [Hwf Hsol]. split; [by rewrite Hp|].
    intros d. specialize (Hsol d). unfold disp_surplus, held, owed in *. by rewrite Hb, Hp.
  - apply onBank_inv in Hmint as (b & Hb & ->). apply Hend; [done|]. intros d. unfold held. cbn.
    match goal with N : new_coins _ = _ |- _ => rewrite (mint_one_err _ _ _ _ _ _ N Hb) end. done.
Qed.
End Mint.
