(* ===== verification/DispensationClaims.v ===== *)
(** * Theorems about the dispensation module *)
From S2P Require Import Prelude Sdk Reference ClpTypes DispensationTypes DispensationKeeper.
From S2P Require Import Chain Ledger Dispensation DispensationProps Demo.

(** ** Blocks and messages *)

(** A new block with its height and time, or a delivered message. *)
Inductive disp_event :=
| DBlock (height : Z) (time : string)
| DTx (m : dispensation_msg).

Section Run.
Context {sdk : SDK} (TimestampProto : string → res string).

(** A panic of the block processing stops the chain. *)
Definition disp_step (e : disp_event) (s : chain) : res chain :=
  match e with
  | DTx m => Ok (deliver (DispensationHandler TimestampProto m) s)
  | DBlock h t =>
      match DispensationBeginBlocker (s <| BlockHeight := h |> <| BlockTime := t |>) with
      | (Ok _, s') => Ok s'
      | (Err e, _) => Err e
      | (Panic, _) => Panic
      end
  end.

Definition disp_run (es : list disp_event) (s : chain) : res chain := foldR (λ s e, disp_step e s) s es.
End Run.

Definition event_signed {sdk : SDK} (e : disp_event) : Prop :=
  match e with DTx m => signed_by_account m | DBlock _ _ => True end.

(** C8.  Whatever distributions are created and run, and however many blocks
    pass, the account of the module holds at least the coins of all pending
    records, in every denomination; so no recipient of a pending record can find
    the account empty. *)
Theorem dispensation_solvent {sdk : SDK} {L : SDKLaws sdk} TimestampProto es s s' :
  Forall event_signed es → disp_solvent s → disp_run TimestampProto es s = Ok s' → disp_solvent s'.
Proof.
  intros Hes. revert s. induction Hes as [|e es He Hes IH]; intros s Hs H; cbn in H; inv_ok; [done|].
  apply (IH v); [|done]. destruct e as [h t|m]; cbn in E.
  - destruct (DispensationBeginBlocker _) as [[[]| |] s1] eqn:Eb; inv_ok.
    eapply DispensationBeginBlocker_solvent; [|exact Eb]. exact Hs.
  - inv_ok. unfold deliver.
    destruct (DispensationHandler _ m s) as [[[]| |] s1] eqn:Eh; [|done|done].
    by eapply DispensationHandler_solvent.
Qed.

Definition demo_distribution (runner : string) : dispensation_msg :=
  DCreateDistribution (MsgCreateDistribution.mk "bob" runner DISTRIBUTION_TYPE_AIRDROP
    [mkOutput "ann" [("fury", 70)]; mkOutput "cleo" [("fury", 5)]; mkOutput "ann" [("fury", 1)]]).
Definition demo_events : list disp_event :=
  [DTx (demo_distribution "run"); DBlock 101 "later";
   DTx (DRunDistribution (MsgRunDistribution.mk "run" "100_bob" DISTRIBUTION_TYPE_AIRDROP 1))].

Lemma demo_solvent : @disp_solvent ref_sdk demo_chain.
Proof.
  split; [intros k dr Hk; cbn in Hk; by rewrite lookup_empty in Hk|].
  intros d. unfold disp_surplus, held, owed. cbn [DispensationState demo_chain PendingRecords Bank].
  rewrite msum_empty. cbn [bank_balance ref_sdk]. unfold ref_balance.
  assert (map_Forall (λ _ x, 0 ≤ x) demo_bank) as Hb
    by (refine (bool_decide_unpack _ _); vm_compute; exact I).
  destruct (demo_bank !! _) as [x|] eqn:Ex; cbn [default]; [apply Hb in Ex|]; cbn; lia.
Qed.

Definition after {A} (a : A) (r : res A) : A := match r with Ok x => x | _ => a end.
Lemma after_Ok {A} (a : A) r : is_ok r = true → r = Ok (after a r).
Proof. by destruct r. Qed.

Definition demo_distributed : @chain ref_sdk :=
  after demo_chain (disp_run (sdk := ref_sdk) Ok demo_events demo_chain).

Lemma dispensation_solvent_witness :
  disp_solvent demo_distributed
  ∧ owed (DispensationState demo_distributed) "fury" = 71 ∧ held demo_distributed "fury" = 71.
Proof.
  split; [|split; vm_compute; reflexivity].
  apply (dispensation_solvent (sdk := ref_sdk) Ok demo_events demo_chain).
  - repeat constructor. done.
  - apply demo_solvent.
  - apply after_Ok. vm_compute. reflexivity.
Defined.

(** ** The minting schedule *)

Fixpoint mint_blocks {sdk : SDK} (n : nat) : M chain () :=
  match n with
  | O => mret ()
  | S n' => DispensationBeginBlocker;; mint_blocks n'
  end.

(** What minting relies on: the native denomination and the address of the
    ecosystem pool are valid, the module may mint (app.go grants it), and the
    bank reports a refused transfer as an error. *)
Record mint_ready {sdk : SDK} (eco : string) : Prop := {
  mr_denom : valid_denom NativeSymbol = true;
  mr_eco : acc_from_bech32 EcoPool = Ok eco;
  mr_other : eco ≠ module_address DispensationModule;
  mr_mint x b : 0 < x → ∃ b', bank_mint DispensationModule [(NativeSymbol, x)] b = (Ok (), b');
  mr_send cs b : (bank_send_mod_to_acc DispensationModule eco cs b).1 ≠ Panic
}.

Section Schedule.
Context {sdk : SDK} {L : SDKLaws sdk} (eco : string) (R : mint_ready eco).

(** What the ecosystem pool and the module hold together. *)
Definition pool_holds (s : chain) (d : string) : Z := held s d + bank_balance (Bank s) eco d.

Definition next_count (c : Z) : Z := Z.min MaxMintAmount (c + MintAmountPerBlock).

Lemma mint_amount_spec st c : MintController st = Some (NativeSymbol, c) → 0 ≤ c < MaxMintAmount →
  mint_amount st = Ok (Some (next_count c - c)).
Proof.
  intros Hst Hc. unfold mint_amount, IsLastBlock. rewrite Hst. cbn [snd].
  rewrite i_sub_total by (unfold MaxMintAmount in *; lia). cbn [mbind res_bind].
  unfold next_count. case_test; bool_prop; cbn [mbind res_bind]; do 2 f_equal; lia.
Qed.

(** A block below the maximum mints the next amount and counts it. *)
Lemma block_mints s c : counted s = Some (NativeSymbol, c) → 0 ≤ c < MaxMintAmount →
  ∃ s', DispensationBeginBlocker s = (Ok (), s')
    ∧ counted s' = Some (NativeSymbol, next_count c)
    ∧ ∀ d, pool_holds s' d = pool_holds s d + amount_of [(NativeSymbol, next_count c - c)] d.
Proof.
  intros Hs Hc. destruct R as [Rd Re Ro Rm Rs]. unfold counted in Hs.
  set (x := next_count c - c).
  assert (0 < x) as Hx by (unfold x, next_count, MaxMintAmount, MintAmountPerBlock in *; lia).
  assert (TokensCanBeMinted (DispensationState s) = Ok true) as Hcan.
  { unfold TokensCanBeMinted. rewrite Hs, new_coin_law. change (Symbol GetSettlementAsset) with NativeSymbol.
    rewrite Rd. cbn. f_equal. apply Z.ltb_lt. lia. }
  destruct (new_coins_one NativeSymbol x Rd ltac:(lia)) as [cs Hcs].
  pose proof (new_coins_single _ _ _ Hcs) as ->. rewrite (proj2 (Z.eqb_neq x 0)) in * by lia.
  destruct (Rm x (Bank s) Hx) as [b1 Hb1].
  destruct (try (onBank (bank_send_mod_to_acc DispensationModule eco [(NativeSymbol, x)]))
    (s <| Bank := b1 |>)) as [[r|e|] s2] eqn:Et.
  2: { exfalso. unfold try in Et. by destruct (onBank _ _) as [[]]. }
  2: { exfalso. unfold try, onBank in Et.
       pose proof (Rs [(NativeSymbol, x)] b1) as Hp. cbn in Et, Hp.
       destruct (bank_send_mod_to_acc _ _ _ b1) as [[]]; naive_solver. }
  assert (onBank (bank_mint DispensationModule [(NativeSymbol, x)]) s = (Ok (), s <| Bank := b1 |>)) as Hm.
  { unfold onBank. by rewrite Hb1. }
  destruct (mint_and_send (NativeSymbol, x) _ eco s _ s2 r Hcs ltac:(cbn; lia) Hm Et) as (Hd & _ & _ & Hp).
  assert (coin_add (NativeSymbol, c) (NativeSymbol, x) = Ok (NativeSymbol, c + x)) as Hadd.
  { apply (coin_add_total (NativeSymbol, c) (NativeSymbol, x)); [done|].
    cbn [snd]. unfold x, next_count, MaxMintAmount in *. lia. }
  eexists. split_and!.
  - unfold DispensationBeginBlocker, gets, lift. unfold mbind at 1, M_bind at 1. rewrite Hcan.
    unfold mbind at 1, M_bind at 1. cbn [negb]. rewrite (mint_amount_spec _ c) by done. fold x.
    unfold mbind at 1, M_bind at 1. rewrite new_coin_law.
    change (Symbol GetSettlementAsset) with NativeSymbol. rewrite Rd, (proj2 (Z.leb_le 0 x)) by lia. cbn [andb].
    unfold mbind at 1, M_bind at 1. rewrite Hcs. unfold mbind at 1, M_bind at 1.
    rewrite (coins_valid_one _ _ Rd Hx), Re. cbn [negb orb length Nat.eqb].
    unfold mbind at 1, M_bind at 1, try at 1. rewrite Hm. cbv beta iota.
    unfold mbind at 1, M_bind at 1. rewrite Et. cbv beta iota.
    unfold mbind at 1, M_bind at 1, try, onDispensation, AddMintAmount, gets, lift, modify, mbind, M_bind.
    rewrite Hd, Hs, Hadd. reflexivity.
  - cbn. do 2 f_equal. unfold x. lia.
  - intros d. unfold pool_holds, held in *. cbn. by apply Hp.
Qed.

Lemma block_stops s c : counted s = Some (NativeSymbol, c) → MaxMintAmount ≤ c →
  DispensationBeginBlocker s = (Ok (), s).
Proof.
  intros Hs Hc. destruct R as [Rd _ _ _ _]. unfold counted in Hs.
  unfold DispensationBeginBlocker, gets, lift, mbind, M_bind, TokensCanBeMinted.
  rewrite Hs, new_coin_law. change (Symbol GetSettlementAsset) with NativeSymbol. rewrite Rd. cbn.
  rewrite (proj2 (Z.ltb_ge c MaxMintAmount)) by done. done.
Qed.
End Schedule.

(** C20.  Minting follows the schedule to its end: every run of
    BeginBlocker succeeds, after [n] runs the counter is the start plus [n] times the
    block amount, capped at the maximum, so it reaches the maximum after enough runs
    (a block makes two, see [block_mints_twice]) and stays there;
    and what the ecosystem pool and the module hold grows by exactly what was
    counted, so the chain mints no uncounted fury. *)
Theorem mint_schedule {sdk : SDK} {L : SDKLaws sdk} eco (n : nat) s c :
  mint_ready eco → counted s = Some (NativeSymbol, c) → 0 ≤ c ≤ MaxMintAmount →
  ∃ s', mint_blocks n s = (Ok (), s')
    ∧ counted s' = Some (NativeSymbol, Z.min MaxMintAmount (c + Z.of_nat n * MintAmountPerBlock))
    ∧ (MaxMintAmount ≤ c + Z.of_nat n * MintAmountPerBlock → counted s' = Some (NativeSymbol, MaxMintAmount))
    ∧ ∀ d, pool_holds eco s' d = pool_holds eco s d
        + (if String.eqb NativeSymbol d
           then Z.min MaxMintAmount (c + Z.of_nat n * MintAmountPerBlock) - c else 0).
Proof.
  intros R. assert (0 < MintAmountPerBlock) as Hpos by (unfold MintAmountPerBlock; lia).
  revert s c. induction n as [|n IH]; intros s c Hs Hc; cbn [mint_blocks].
  - exists s. rewrite Z.mul_0_l, Z.add_0_r, Z.min_r by lia. split_and!; [done|done| |].
    + intros Hm. rewrite Hs. do 2 f_equal. lia.
    + intros d. case_test; lia.
  - destruct (decide (c < MaxMintAmount)) as [Hlt|Hge].
    + destruct (block_mints eco R s c Hs ltac:(lia)) as (s1 & H1 & Hc1 & Hb1).
      destruct (IH s1 (next_count c) Hc1) as (s' & H' & Hc' & Hm' & Hb').
      { unfold next_count. lia. }
      exists s'. unfold mbind, M_bind. rewrite H1.
      assert (Z.min MaxMintAmount (next_count c + Z.of_nat n * MintAmountPerBlock)
              = Z.min MaxMintAmount (c + Z.of_nat (S n) * MintAmountPerBlock)) as He.
      { unfold next_count. rewrite Nat2Z.inj_succ, Z.mul_succ_l. lia. }
      split_and!; [done|by rewrite <- He| |].
      * intros Hm. rewrite Hc', He. do 2 f_equal. lia.
      * intros d. rewrite Hb', Hb1, He. unfold amount_of. cbn [foldr fst snd]. case_test; lia.
    + destruct (IH s c Hs Hc) as (s' & H' & Hc' & Hm' & Hb').
      exists s'. unfold mbind, M_bind. rewrite (block_stops eco R s c Hs) by lia.
      rewrite Nat2Z.inj_succ, Z.mul_succ_l.
      assert (Z.min MaxMintAmount (c + (Z.of_nat n * MintAmountPerBlock + MintAmountPerBlock))
        = Z.min MaxMintAmount (c + Z.of_nat n * MintAmountPerBlock)) as -> by lia.
      split_and!; [done|done| |done]. intros _. apply Hm'. lia.
Qed.

Lemma demo_mint_ready : @mint_ready ref_sdk EcoPool.
Proof.
  split.
  - reflexivity.
  - reflexivity.
  - intros He. vm_compute in He. discriminate He.
  - intros x b Hx. cbn. unfold ref_mint, ref_valid. cbn. rewrite (proj2 (Z.leb_le 0 x)) by lia. by eexists.
  - intros cs b. cbn. unfold ref_send. by destruct (ref_valid cs && ref_covers _ _ _).
Qed.

Lemma mint_schedule_witness : ∃ s',
  mint_blocks (sdk := ref_sdk) 3 demo_chain = (Ok (), s')
  ∧ counted s' = Some (NativeSymbol, 675000000000000000000).
Proof.
  destruct (mint_schedule (sdk := ref_sdk) EcoPool 3 demo_chain 0 demo_mint_ready eq_refl
    ltac:(vm_compute; split; discriminate)) as (s' & H & Hc & _).
  exists s'. split; [exact H|]. rewrite Hc. vm_compute. reflexivity.
Defined.

(** ** Where the code falls short *)

(** The key of a record does not name the runner: a second distribution to the
    same recipients in the same block, for another runner, takes the records of
    the first one over. *)
Theorem second_runner_takes_over :
  let s := deliver (DispensationHandler Ok (demo_distribution "run2"))
             (deliver (DispensationHandler (sdk := ref_sdk) Ok (demo_distribution "run1")) demo_chain) in
  (λ dr, (AuthorizedRunner dr, RecordCoins dr)) <$> (kv_iterate (PendingRecords (DispensationState s))).*2
  = [("run2", [("fury", 10)]); ("run2", [("fury", 142)])].
Proof. vm_compute. reflexivity. Qed.

(** Exporting and importing the module resets the counter of minted coins, so
    the maximum applies again from zero. *)
Theorem genesis_resets_counter {sdk : SDK} {L : SDKLaws sdk} st data st0 st' :
  DispensationExportGenesis st = Ok data → DispensationInitGenesis data st0 = (Ok (), st') →
  MintController st' = Some (NativeSymbol, 0).
Proof.
  intros _ H. unfold DispensationInitGenesis in H. inv_ok.
  rewrite new_coin_law in E. case_test; inv_ok.
  assert (∀ A (l : list A) f s u s1, (∀ x, keeps MintController (f x)) →
    forM l (λ x, mustM (f x)) s = (Ok u, s1) → MintController s1 = MintController s) as Hk.
  { intros A l f z u z1 Hf Hl. eapply (keeps_forM MintController); [|exact Hl].
    intros x. apply keeps_mustM, Hf. }
  assert (∀ r, keeps MintController (SetDistributionRecord r)) as K1.
  { intros r. unfold SetDistributionRecord, set_status_records. case_test; [apply keeps_fail|].
    apply keeps_modify. intros. repeat case_test; done. }
  assert (∀ d, keeps MintController (SetDistribution d)) as K2
    by (intros; unfold SetDistribution; keep_auto).
  assert (∀ d, keeps MintController (SetClaim d)) as K3 by (intros; unfold SetClaim; keep_auto).
  rewrite (Hk _ _ _ _ _ _ K3 H).
  repeat match goal with E : forM _ _ _ = _ |- _ =>
    first [rewrite (Hk _ _ _ _ _ _ K2 E)|rewrite (Hk _ _ _ _ _ _ K1 E)]; clear E end. done.
Qed.
