(* ===== verification/App.v ===== *)
(** * The application

    src/app/app.go wires the modules together: it routes the messages of a
    transaction to their modules, runs the modules' BeginBlock and EndBlock in
    the order of two lists, and names the module accounts.  A transaction runs
    when all its messages pass their stateless checks and name their signers
    (GetSigners of every msgs.go, whose signatures the ante handler of the SDK
    demands); it leaves no trace unless all its messages succeed.  The modules of
    the SDK run between those of the repository and are seen through their use of
    the bank.

    Left out: the fee the ante handler of the SDK takes from the first signer,
    MsgUpdateStakingRewardParams and the messages of ibctransfer and of the SDK. *)
From S2P Require Import Prelude Sdk ClpTypes ClpCalc Admin TokenRegistry MarginTypes Oracle BridgeTypes.
From S2P Require Import DispensationTypes DispensationKeeper Chain ClpKeeper ClpExec ClpMsg ClpBlock.
From S2P Require Import ClpSystem Margin MarginSystem EthBridge Dispensation.

(** ** Messages of the administrative modules *)
Inductive admin_msg :=
| MsgAddAccount (signer : string) (account : AdminAccount)
| MsgRemoveAccount (signer : string) (account : AdminAccount)
| MsgSetParams (signer : string) (fee : Z).

Inductive registry_msg :=
| MsgRegister (from : string) (entry : option RegistryEntry)
| MsgSetRegistry (from : string) (registry : option Registry)
| MsgDeregister (from denom : string).

(** ** What a transaction carries *)
Inductive app_msg {sdk : SDK} :=
| AppDex (m : dex_msg)
| AppBridge (m : bridge_msg)
| AppDispensation (m : dispensation_msg)
| AppAdmin (m : admin_msg)
| AppRegistry (m : registry_msg).

Section Messages.
Context {sdk : SDK}.

(** *** x/tokenregistry/types/msgs.go *)
Definition valid_entry (denom : string) : res () :=
  ensure (negb (String.eqb denom "")) (EOther "no denom specified");;
  ensure (valid_denom denom) (EOther "Denom is not valid").

Definition MsgRegister_ValidateBasic (from : string) (entry : option RegistryEntry) : res () :=
  match entry with
  | None => Err (EOther "no token entry specified")
  | Some entry =>
      valid_entry (Denom entry);;
      acc_from_bech32 from;;
      ensure (0 <=? Decimals entry) (EOther "Decimals cannot be less than zero")
  end.

Definition MsgSetRegistry_ValidateBasic (from : string) (registry : option Registry) : res () :=
  match registry with
  | None => Err (EOther "no token entry specified")
  | Some entries =>
      foldR (λ _ e, entry ← deref e;
                    valid_entry (Denom entry);;
                    ensure (0 <=? Decimals entry) (EOther "Decimals cannot be less than zero")) () entries;;
      acc_from_bech32 from;;
      Ok ()
  end.

Definition MsgDeregister_ValidateBasic (from denom : string) : res () :=
  valid_entry denom;; acc_from_bech32 from;; Ok ().

Definition registry_ValidateBasic (m : registry_msg) : res () :=
  match m with
  | MsgRegister from entry => MsgRegister_ValidateBasic from entry
  | MsgSetRegistry from registry => MsgSetRegistry_ValidateBasic from registry
  | MsgDeregister from denom => MsgDeregister_ValidateBasic from denom
  end.

Definition RegistryHandler (m : registry_msg) : M chain () :=
  admins ← gets AdminState;
  match m with
  | MsgRegister from entry =>
      e ← lift (deref entry); onRegistry (Register admins from e)
  | MsgSetRegistry from registry =>
      r ← lift (deref registry); onRegistry (SetRegistry admins from r)
  | MsgDeregister from denom => onRegistry (Deregister admins from denom)
  end.

(** *** x/admin: its messages have no stateless checks *)
Definition AdminHandler (m : admin_msg) : M chain () :=
  match m with
  | MsgAddAccount signer account => onAdmin (AddAccount signer account)
  | MsgRemoveAccount signer account => onAdmin (RemoveAccount signer account)
  | MsgSetParams signer fee => onAdmin (AdminSetParams signer fee)
  end.

(** ** Signers *)
Definition clp_signer (m : clp_msg) : string :=
  match m with
  | CreatePoolMsg m => MsgCreatePool.Signer m
  | DecommissionPoolMsg m => MsgDecommissionPool.Signer m
  | AddLiquidityMsg m => MsgAddLiquidity.Signer m
  | RemoveLiquidityMsg m => MsgRemoveLiquidity.Signer m
  | RemoveLiquidityUnitsMsg m => MsgRemoveLiquidityUnits.Signer m
  | SwapMsg m => MsgSwap.Signer m
  | ModifyPmtpRatesMsg m => MsgModifyPmtpRates.Signer m
  | UpdatePmtpParamsMsg m => MsgUpdatePmtpParams.Signer m
  | CancelUnlockMsg m | UnlockLiquidityMsg m => MsgUnlock.Signer m
  | UpdateRewardsParamsMsg signer _ _ | AddRewardPeriodMsg signer _
  | ModifyLiquidityProtectionRatesMsg signer _ | AddProviderDistributionPeriodMsg signer _
  | UpdateSwapFeeParamsMsg signer _ | SetSymmetryThresholdMsg signer _ _ => signer
  | UpdateLiquidityProtectionParamsMsg m => MsgUpdateLiquidityProtectionParams.Signer m
  end.

Definition margin_signer (m : margin_msg) : string :=
  match m with
  | OpenMsg m => MsgOpen.Signer m
  | CloseMsg m => MsgClose.Signer m
  | AdminCloseMsg m => MsgAdminClose.Signer m
  | ForceCloseMsg signer _ _ | UpdateParamsMsg signer _ | UpdatePoolsMsg signer _ _
  | UpdateFuryCollateralMsg signer _ | WhitelistMsg signer _ | DewhitelistMsg signer _
  | AdminCloseAllMsg signer _ => signer
  end.

(** A claim is signed by the account of its validator. *)
Definition bridge_GetSigners (m : bridge_msg) : res (list string) :=
  match m with
  | BCreateEthBridgeClaim m =>
      claim ← deref (MsgCreateEthBridgeClaim.EthBridgeClaim m);
      a ← must (val_from_bech32 (ValidatorAddress claim)); Ok [a]
  | BBurn m => a ← must (acc_from_bech32 (MsgBurn.CosmosSender m)); Ok [a]
  | BLock m => a ← must (acc_from_bech32 (MsgLock.CosmosSender m)); Ok [a]
  | BUpdateWhiteListValidator m =>
      a ← must (acc_from_bech32 (MsgUpdateWhiteListValidator.CosmosSender m)); Ok [a]
  | BUpdateCethReceiverAccount m =>
      a ← must (acc_from_bech32 (MsgUpdateCethReceiverAccount.CosmosSender m)); Ok [a]
  | BRescueCeth m => a ← must (acc_from_bech32 (MsgRescueCeth.CosmosSender m)); Ok [a]
  | BSetBlacklist m => a ← must (acc_from_bech32 (MsgSetBlacklist.From m)); Ok [a]
  | BPause m => a ← must (acc_from_bech32 (MsgPause.Signer m)); Ok [a]
  end.

Definition dispensation_signer (m : dispensation_msg) : string :=
  match m with
  | DCreateDistribution m => MsgCreateDistribution.Distributor m
  | DCreateUserClaim m => MsgCreateUserClaim.UserClaimAddress m
  | DRunDistribution m => MsgRunDistribution.AuthorizedRunner m
  end.

Definition admin_signer_of (m : admin_msg) : string :=
  match m with MsgAddAccount s _ | MsgRemoveAccount s _ | MsgSetParams s _ => s end.

Definition registry_signer (m : registry_msg) : string :=
  match m with MsgRegister s _ | MsgSetRegistry s _ | MsgDeregister s _ => s end.

Definition one_signer (s : string) : res (list string) := a ← must (acc_from_bech32 s); Ok [a].

Definition GetSigners (m : app_msg) : res (list string) :=
  match m with
  | AppDex (Clp m) => one_signer (clp_signer m)
  | AppDex (Margin m) => one_signer (margin_signer m)
  | AppBridge m => bridge_GetSigners m
  | AppDispensation m => one_signer (dispensation_signer m)
  | AppAdmin m => one_signer (admin_signer_of m)
  | AppRegistry m => one_signer (registry_signer m)
  end.
End Messages.

(** ** Transactions *)
Section App.
Context {sdk : SDK} {geth : Geth} {go : GoMap} (TimestampProto : string → res string).

(** The check of a dispensation message, which may change the message, is part of
    [DispensationHandler]. *)
Definition app_ValidateBasic (m : app_msg) : res () :=
  match m with
  | AppDex (Clp m) => ValidateBasic m
  | AppDex (Margin m) => margin_ValidateBasic m
  | AppBridge m => bridge_ValidateBasic m
  | AppDispensation _ | AppAdmin _ => Ok ()
  | AppRegistry m => registry_ValidateBasic m
  end.

Definition app_handler (env : bridge_env) (m : app_msg) : M chain () :=
  match m with
  | AppDex (Clp m) => NewHandler m
  | AppDex (Margin m) => MarginServer m
  | AppBridge m => BridgeHandler env m
  | AppDispensation m => DispensationHandler TimestampProto m
  | AppAdmin m => AdminHandler m
  | AppRegistry m => RegistryHandler m
  end.

(** The signers of a transaction whose messages pass their checks. *)
Definition tx_signers (ms : list app_msg) : res (list string) :=
  foldR (λ _ m, app_ValidateBasic m) () ms;;
  foldR (λ acc m, signers ← GetSigners m; Ok (acc ++ signers)) [] ms.

Definition deliver_tx (env : bridge_env) (ms : list app_msg) (s : chain) : chain :=
  match tx_signers ms with
  | Ok _ => deliver (forM ms (app_handler env)) s
  | _ => s
  end.

(** A sequence of transactions, each with what it sees of the staking module and
    the accounts. *)
Definition deliver_txs (txs : list (bridge_env * list app_msg)) (s : chain) : chain :=
  foldl (λ s tx, deliver_tx tx.1 tx.2 s) s txs.

(** ** Blocks *)

(** What the modules of the SDK do to the balances in a block. *)
Context (sdk_BeginBlock sdk_EndBlock : string → M bank ()).

(** SetOrderBeginBlockers, SetOrderEndBlockers. *)
Definition OrderBeginBlockers : list string :=
  ["upgrade"; "capability"; "mint"; "distribution"; "slashing"; "evidence"; "staking"; "auth"; "bank";
   "gov"; "crisis"; "genutil"; "authz"; "feegrant"; "params"; "vesting"; "ibc"; DispensationModule;
   "transfer"; "margin"; ModuleName; BridgeModuleName; "tokenregistry"; "oracle"; DispensationModule;
   "admin"].
Definition OrderEndBlockers : list string :=
  ["crisis"; "gov"; "staking"; "capability"; "auth"; "bank"; "distribution"; "slashing"; "mint";
   "genutil"; "evidence"; "authz"; "feegrant"; "params"; "upgrade"; "vesting"; "ibc";
   DispensationModule; "transfer"; ModuleName; "margin"; BridgeModuleName; "tokenregistry"; "oracle";
   "admin"].

(** The modules of the repository that do nothing in a block. *)
Definition idle_modules : list string := [BridgeModuleName; "tokenregistry"; "oracle"; "admin"].

Definition module_BeginBlock (name : string) : M chain () :=
  if String.eqb name DispensationModule then DispensationBeginBlocker
  else if String.eqb name "margin" then Margin.BeginBlocker
  else if String.eqb name ModuleName then ClpBlock.BeginBlocker
  else if existsb (String.eqb name) idle_modules then mret ()
  else onBank (sdk_BeginBlock name).

Definition module_EndBlock (name : string) : M chain () :=
  if String.eqb name ModuleName then EndBlocker
  else if String.eqb name DispensationModule || String.eqb name "margin"
          || existsb (String.eqb name) idle_modules then mret ()
  else onBank (sdk_EndBlock name).

(** The module manager calls the modules in the order of the list.  They return
    no errors; a panic stops the chain. *)
Definition app_BeginBlocker : M chain () :=
  forM OrderBeginBlockers (λ name, try (module_BeginBlock name);; mret ()).
Definition app_EndBlocker : M chain () :=
  forM OrderEndBlockers (λ name, try (module_EndBlock name);; mret ()).

Inductive app_event :=
| ABeginBlock (height : Z) (time : string)
| ATx (env : bridge_env) (ms : list app_msg)
| AEndBlock.

Definition commit (m : M chain ()) (s : chain) : res chain :=
  match m s with (Panic, _) => Panic | (_, s') => Ok s' end.

Definition app_step (e : app_event) (s : chain) : res chain :=
  match e with
  | ABeginBlock h t => commit app_BeginBlocker (s <| BlockHeight := h |> <| BlockTime := t |>)
  | ATx env ms => Ok (deliver_tx env ms s)
  | AEndBlock => commit app_EndBlocker s
  end.

Definition app_run (es : list app_event) (s : chain) : res chain :=
  foldR (λ s e, app_step e s) s es.

(** ** Module accounts: maccPerms *)
Definition maccPerms : list string :=
  ["fee_collector"; "distribution"; "mint"; "bonded_tokens_pool"; "not_bonded_tokens_pool"; "gov";
   "transfer"; "scibctransfer"; BridgeModuleName; ModuleName; DispensationModule; "margin"].
Definition ModuleAccountAddrs : list string := map module_address maccPerms.
End App.
