(* ===== verification/Moves.v ===== *)
(** * Who can lose coins

    [moves R m]: however the call [m] ends, the state before and the state after
    are related by the preorder [R].  Framing is the case of an equality; here
    the relation is [spares]: a part of the state is what it was and an account
    holds at least what it held.  A bank operation spares every account but its
    payer, so walking through the code of a method shows whose coins it can take.
    Every method of clp, margin, ethbridge and dispensation is walked through, in
    blocks and in messages. *)
From S2P Require Import Prelude Sdk Wp ClpTypes ClpCalc Admin TokenRegistry MarginTypes.
From S2P Require Import Oracle BridgeTypes DispensationTypes DispensationKeeper Chain.
From S2P Require Import ClpKeeper ClpExec ClpMsg ClpBlock ClpSystem Margin MarginBooks MarginSystem.
From S2P Require Import EthBridge Dispensation DispensationProps App.

Definition moves {S A} (R : S → S → Prop) (m : M S A) : Prop := ∀ s, R s (m s).2.

(** What only successful calls promise. *)
Definition settles {S A} (R : S → S → Prop) (m : M S A) : Prop :=
  ∀ s a s', m s = (Ok a, s') → R s s'.

Section Rules.
Context {S : Type} (R : S → S → Prop) `{!PreOrder R}.

Lemma moves_reads {A} (m : M S A) : reads m → moves R m.
Proof. intros H s. by rewrite H. Qed.
Lemma moves_modify f : (∀ s, R s (f s)) → moves R (modify f).
Proof. intros H s. apply H. Qed.
Lemma moves_bind {A B} (m : M S A) (k : A → M S B) :
  moves R m → (∀ a, moves R (k a)) → moves R (m ≫= k).
Proof.
  intros Hm Hk s. specialize (Hm s). unfold mbind, M_bind.
  destruct (m s) as [[a| |] s']; cbn in *; [by etrans; [|apply Hk]|done|done].
Qed.
Lemma moves_wrapM {A} e (m : M S A) : moves R m → moves R (wrapM e m).
Proof. intros H s. specialize (H s). unfold wrapM. by destruct (m s) as [[]]. Qed.
Lemma moves_mustM {A} (m : M S A) : moves R m → moves R (mustM m).
Proof. intros H s. specialize (H s). unfold mustM. by destruct (m s) as [[]]. Qed.
Lemma moves_try {A} (m : M S A) : moves R m → moves R (try m).
Proof. intros H s. specialize (H s). unfold try. by destruct (m s) as [[]]. Qed.
Lemma moves_recovering (m : M S ()) : moves R m → moves R (recovering m).
Proof. intros H s. apply H. Qed.
Lemma moves_forM {A} (l : list A) body : (∀ x, moves R (body x)) → moves R (forM l body).
Proof.
  intros H. induction l as [|x l IH]; [intros s; cbn; reflexivity|]. by apply moves_bind.
Qed.
Lemma moves_foldM {A B} (body : B → A → M S B) l : (∀ b x, moves R (body b x)) →
  ∀ b, moves R (foldM body b l).
Proof.
  intros H. induction l as [|x l IH]; intros b; [intros s; cbn; reflexivity|]. by apply moves_bind.
Qed.

(** The first step of a method, from a given state. *)
Lemma after_gets {A B} (f : S → A) (k : A → M S B) s :
  R s (k (f s) s).2 → R s ((gets f ≫= k) s).2.
Proof. done. Qed.
Lemma after_lift {A B} (r : res A) (k : A → M S B) s :
  (∀ x, r = Ok x → R s (k x s).2) → R s ((lift r ≫= k) s).2.
Proof. intros H. unfold lift, mbind, M_bind. destruct r; [by apply H|cbn; reflexivity..]. Qed.

Lemma after_bind {A B} (m : M S A) (k : A → M S B) s :
  R s (m s).2 → (∀ x, moves R (k x)) → R s ((m ≫= k) s).2.
Proof.
  intros Hm Hk. unfold mbind, M_bind. destruct (m s) as [[x| |] s1]; cbn in *; [by etrans; [|apply Hk]|done|done].
Qed.

Lemma settles_moves {A} (m : M S A) : moves R m → settles R m.
Proof. intros H s a s' Hm. specialize (H s). by rewrite Hm in H. Qed.
Lemma settles_bind {A B} (m : M S A) (k : A → M S B) :
  settles R m → (∀ a, settles R (k a)) → settles R (m ≫= k).
Proof. intros Hm Hk s b s' (a & s1 & ?%Hm & ?%Hk)%M_bind_Ok. by etrans. Qed.
Lemma settles_forM {A} (l : list A) body : (∀ x, settles R (body x)) → settles R (forM l body).
Proof.
  intros H. induction l as [|x l IH]; [intros s a s' [= _ <-]; reflexivity|]. by apply settles_bind.
Qed.
End Rules.

Lemma settles_deliver {sdk : SDK} (R : chain → chain → Prop) `{!PreOrder R} {A} (m : M chain A) : settles R m → ∀ s, R s (deliver m s).
Proof.
  intros H s. unfold deliver. destruct (m s) as [[a| |] s'] eqn:E; [|reflexivity..].
  by apply (H _ _ _ E).
Qed.

(** ** An account that is spared *)
Section Spares.
Context {sdk : SDK}.

Definition spares {B} (keep : chain → B) (a : string) (s s' : chain) : Prop :=
  keep s' = keep s ∧ ∀ d, bank_balance (Bank s) a d ≤ bank_balance (Bank s') a d.

#[export] Instance spares_preorder {B} (keep : chain → B) a : PreOrder (spares keep a).
Proof.
  split; [intros s; split; [done|intros; lia]|]. intros s1 s2 s3 [H1 B1] [H2 B2].
  split; [congruence|]. intros d. specialize (B1 d). specialize (B2 d). lia.
Qed.

Lemma spares_weaken {B C} (keep : chain → B) (f : B → C) a s s' :
  spares keep a s s' → spares (f ∘ keep) a s s'.
Proof. intros [Hk Hb]. split; [|done]. cbn. by rewrite Hk. Qed.

Section Leaves.
Context {L : SDKLaws sdk} {B : Type} (keep : chain → B) (a : string).
Abbreviation gentle := (moves (spares keep a)).

Lemma gentle_modify f : (∀ s, keep (f s) = keep s) → (∀ s, Bank (f s) = Bank s) → gentle (modify f).
Proof. intros Hk Hb. apply moves_modify. intros s. split; [done|]. intros d. rewrite Hb. lia. Qed.

Lemma gentle_lift_bind {A C} (r : res A) (k : A → M chain C) :
  (∀ x, r = Ok x → gentle (k x)) → gentle (lift r ≫= k).
Proof.
  intros H s. unfold lift, mbind, M_bind. destruct r as [x| |]; [by apply H|cbn; reflexivity..].
Qed.

Section Bank.
Hypothesis keep_bank : ∀ s b, keep (s <| Bank := b |>) = keep s.

Lemma gentle_onBank {A} (m : M bank A) :
  (∀ b d, bank_balance b a d ≤ bank_balance (m b).2 a d) → gentle (onBank m).
Proof.
  intros H s. specialize (H (Bank s)). unfold onBank. destruct (m (Bank s)) as [r b]. cbn in *.
  split; [apply keep_bank|done].
Qed.

Lemma gentle_send from to cs : from ≠ a → gentle (onBank (bank_send from to cs)).
Proof. intros ?. apply gentle_onBank. intros. by apply send_takes. Qed.
Lemma gentle_mod_to_acc m to cs : module_address m ≠ a →
  gentle (onBank (bank_send_mod_to_acc m to cs)).
Proof. intros ?. apply gentle_onBank. intros. by apply send_mod_to_acc_takes. Qed.
Lemma gentle_acc_to_mod from m cs : from ≠ a → gentle (onBank (bank_send_acc_to_mod from m cs)).
Proof. intros ?. apply gentle_onBank. intros. by apply send_acc_to_mod_takes. Qed.
Lemma gentle_mint m cs : gentle (onBank (bank_mint m cs)).
Proof. apply gentle_onBank. intros. apply mint_takes. Qed.
Lemma gentle_burn m cs : module_address m ≠ a → gentle (onBank (bank_burn m cs)).
Proof. intros ?. apply gentle_onBank. intros. by apply burn_takes. Qed.
End Bank.

Lemma gentle_onOracle {A} (m : M OracleStore A) :
  (∀ s x, keep (s <| OracleState := x |>) = keep s) → gentle (onOracle m).
Proof. intros H s. unfold onOracle. destruct (m (OracleState s)). split; [apply H|intros; cbn; lia]. Qed.
Lemma gentle_onBridge {A} (m : M BridgeStore A) :
  (∀ s x, keep (s <| BridgeState := x |>) = keep s) → gentle (onBridge m).
Proof. intros H s. unfold onBridge. destruct (m (BridgeState s)). split; [apply H|intros; cbn; lia]. Qed.
Lemma gentle_onDispensation {A} (m : M DispensationStore A) :
  (∀ s x, keep (s <| DispensationState := x |>) = keep s) → gentle (onDispensation m).
Proof. intros H s. unfold onDispensation. destruct (m (DispensationState s)). split; [apply H|intros; cbn; lia]. Qed.
Lemma gentle_onAdmin {A} (m : M AdminStore A) :
  (∀ s x, keep (s <| AdminState := x |>) = keep s) → gentle (onAdmin m).
Proof. intros H s. unfold onAdmin. destruct (m (AdminState s)). split; [apply H|intros; cbn; lia]. Qed.
Lemma gentle_onRegistry {A} (m : M Registry A) :
  (∀ s x, keep (s <| TokenRegistry := x |>) = keep s) → gentle (onRegistry m).
Proof. intros H s. unfold onRegistry. destruct (m (TokenRegistry s)). split; [apply H|intros; cbn; lia]. Qed.
End Leaves.
End Spares.

Create HintDb moves.
(** One step along the code.  A payer is shown to be another account by the
    hypotheses at hand. *)
Ltac moves_step :=
  match goal with
  | |- moves _ (mret _) => apply moves_reads; [apply _|apply reads_ret]
  | |- moves _ (fail _) => apply moves_reads; [apply _|apply reads_fail]
  | |- moves _ (lift _) => apply moves_reads; [apply _|apply reads_lift]
  | |- moves _ (gets _) => apply moves_reads; [apply _|apply reads_gets]
  | |- moves (spares _ _) (modify _) => apply gentle_modify; intros; reflexivity
  | |- moves (spares _ _) (lift _ ≫= _) => apply gentle_lift_bind; intros ? ?
  | |- moves _ (onBank (bank_send _ _ _)) => apply gentle_send; [done|solve [eauto]]
  | |- moves _ (onBank (bank_send_mod_to_acc _ _ _)) => apply gentle_mod_to_acc; [done|solve [eauto]]
  | |- moves _ (onBank (bank_send_acc_to_mod _ _ _)) => apply gentle_acc_to_mod; [done|solve [eauto]]
  | |- moves _ (onBank (bank_mint _ _)) => apply gentle_mint; done
  | |- moves _ (onBank (bank_burn _ _)) => apply gentle_burn; [done|solve [eauto]]
  | |- moves _ (onOracle _) => apply gentle_onOracle; done
  | |- moves _ (onBridge _) => apply gentle_onBridge; done
  | |- moves _ (onDispensation _) => apply gentle_onDispensation; done
  | |- moves _ (onAdmin _) => apply gentle_onAdmin; done
  | |- moves _ (onRegistry _) => apply gentle_onRegistry; done
  | |- moves _ (_ ≫= _) => apply moves_bind; [apply _| |intros]
  | |- moves _ (wrapM _ _) => apply moves_wrapM
  | |- moves _ (mustM _) => apply moves_mustM
  | |- moves _ (try _) => apply moves_try
  | |- moves _ (recovering _) => apply moves_recovering
  | |- moves _ (forM _ _) => apply moves_forM; [apply _|intros]
  | |- moves _ (foldM _ _ _) => apply moves_foldM; [apply _|intros]
  | |- moves _ (if ?b then _ else _) => destruct b
  | |- moves _ (match ?x with _ => _ end) => destruct x
  end.
Ltac moves_auto := repeat (moves_step || solve [auto with moves]).

(** ** The clp module *)
Section Clp.
Context {sdk : SDK} {L : SDKLaws sdk} {mk : MarginKeeper} {go : GoMap} (a : string).
Hypothesis not_clp : clp_module_address ≠ a.

(** The stores of the other modules. *)
Definition outside_clp (s : chain) :=
  (TokenRegistry s, AdminState s, MarginState s, OracleState s, BridgeState s, DispensationState s).
Abbreviation R := (spares outside_clp a).

Local Lemma not_clp' : module_address ModuleName ≠ a.
Proof. exact not_clp. Qed.
Hint Resolve not_clp' : core.

Ltac moves_clp :=
  unfold SetPool, GetPool, SetLiquidityProvider, GetLiquidityProvider, DestroyLiquidityProvider,
    GetSwapFeeRate, GetSwapFeeParams, registry_entry, require_permission, require_admin, ExistsPool,
    ValidateAddress, GetClpWhiteList, GetLiquidityProvidersForAssetPaginated, IsInsidePmtpWindow,
    SetPmtpEpoch, SetPmtpInterPolicyRate, SetLiquidityProtectionCurrentFuryLiquidityThreshold,
    GetRemovalQueue, SetRemovalQueue, set_request in *; moves_auto.

Lemma moves_price : moves R GetNativePrice.
Proof. unfold GetNativePrice. moves_clp. Qed.
Lemma moves_protect x y z : moves R (MustUpdateLiquidityProtectionThreshold x y z).
Proof. unfold MustUpdateLiquidityProtectionThreshold. moves_clp. Qed.
Lemma moves_blocked x y : moves R (IsBlockedByLiquidityProtection x y).
Proof. unfold IsBlockedByLiquidityProtection. moves_clp. Qed.
Lemma moves_prune lp x y : moves R (PruneUnlockRecords lp x y).
Proof. unfold PruneUnlockRecords. moves_clp. Qed.
Lemma moves_unlocked lp x y : moves R (UseUnlockedLiquidity lp x y).
Proof. unfold UseUnlockedLiquidity. moves_clp. Qed.
Lemma moves_queued lp : moves R (GetRemovalQueueUnitsForLP lp).
Proof. unfold GetRemovalQueueUnitsForLP. moves_clp. Qed.
Lemma moves_RemoveLiquidity x b c d e f g : moves R (RemoveLiquidity x b c d e f g).
Proof. unfold RemoveLiquidity. moves_clp. Qed.
Hint Resolve moves_price moves_protect moves_blocked moves_prune moves_unlocked moves_queued
  moves_RemoveLiquidity : moves.
Lemma moves_gate x b c d e f g h : moves R (health_gate x b c d e f g h).
Proof. unfold health_gate, QueueRemoval. moves_clp. Qed.
Lemma moves_queue m u : moves R (ProcessRemovalQueue m u).
Proof.
  unfold ProcessRemovalQueue, process_request, ProcessRemoveLiquidityMsg, SetProcessedRemovalRequest,
    DequeueRemovalRequest. moves_clp.
Qed.
Lemma moves_refund sym p lps : ∀ acc, moves R (refund_lps sym p acc lps).
Proof.
  induction lps as [|lp lps IH]; intros acc; cbn; [moves_auto|].
  apply moves_bind; [apply _| |done]. unfold refund_lp, RemoveLiquidityProvider. moves_clp.
Qed.
Hint Resolve moves_gate moves_queue moves_refund : moves.

(** A message takes coins from its signer only. *)
Lemma moves_NewHandler m : (∀ x, acc_from_bech32 (clp_signer m) = Ok x → x ≠ a) →
  moves R (NewHandler m).
Proof.
  destruct m; cbn [NewHandler clp_signer]; intros Hp;
  unfold msg_CreatePool, msg_DecommissionPool, msg_AddLiquidity, msg_RemoveLiquidity,
    msg_RemoveLiquidityUnits, msg_Swap, msg_ModifyPmtpRates, msg_UpdatePmtpParams,
    msg_CancelUnlockLiquidity, msg_UnlockLiquidity, msg_UpdateRewardsParams, msg_AddRewardPeriod,
    msg_UpdateLiquidityProtectionParams, msg_ModifyLiquidityProtectionRates,
    msg_AddProviderDistributionPeriod, msg_UpdateSwapFeeParams, msg_SetSymmetryThreshold;
  unfold CreatePool, AddLiquidity, CreateLiquidityProvider, add_checks, swap_price, swap_first_leg,
    swap_update_threshold, InitiateSwap, FinalizeSwap, DecommissionPool, DestroyPool; moves_clp.
Qed.

(** *** Blocks *)
Lemma moves_BeginBlocker : moves R ClpBlock.BeginBlocker.
Proof.
  unfold ClpBlock.BeginBlocker, replenish_threshold, start_policy, manage_policy, PolicyStart,
    PolicyCalculations, PolicyRun, DecrementPmtpBlockCounter, DecrementPmtpEpochCounter,
    SetPmtpBlockCounter, SetPmtpBlockRate, SetPmtpCurrentRunningRate, GetPools, update_prices,
    GetAssetDecimals. moves_clp.
Qed.

Lemma moves_pay_provider m f e : moves R (pay_provider m f e).
Proof. unfold pay_provider. destruct e. moves_auto. Qed.
Hint Resolve moves_pay_provider : moves.

Lemma moves_distribution : moves R ProviderDistributionPolicyRun.
Proof.
  unfold ProviderDistributionPolicyRun, doProviderDistribution, CollectProviderDistributions,
    GetAllLiquidityProvidersPartitions, GetAllLiquidityProviders, TransferProviderDistribution,
    TransferProviderDistributionGeneric, RemoveFuryFromPool, GetPools. moves_clp.
Qed.
Lemma moves_rewards x p ps : moves R (DistributeDepthRewards x p ps).
Proof.
  unfold DistributeDepthRewards, calcTotalDepth, add_depth, distribute_rewards, GetModuleFury,
    GetAllLiquidityProvidersPartitions, GetAllLiquidityProviders, reward_providers, addRewardsToPool,
    TransferRewards, TransferProviderDistributionGeneric, record_reward, BurnFury. moves_clp.
Qed.
Hint Resolve moves_distribution moves_rewards : moves.

Lemma moves_EndBlocker : moves R EndBlocker.
Proof.
  unfold EndBlocker, IsDistributionBlock, GetPools, GetBlockDistributionAccu,
    SetBlockDistributionAccu. moves_clp.
Qed.
End Clp.

(** ** The margin module *)
Section Margin.
Context {sdk : SDK} {L : SDKLaws sdk} (a : string).
Hypothesis not_clp : clp_module_address ≠ a.

Definition outside_dex (s : chain) :=
  (TokenRegistry s, AdminState s, OracleState s, BridgeState s, DispensationState s).
Abbreviation R := (spares outside_dex a).

(** The same for a method that runs with a position and a pool. *)
Definition Rc (c c' : mctx) : Prop := R (CtxChain c) (CtxChain c').
#[local] Instance Rc_preorder : PreOrder Rc.
Proof. split; [intros c; unfold Rc; reflexivity|]. intros c1 c2 c3 H1 H2. unfold Rc in *. by etrans. Qed.

Local Lemma margin_not_clp : module_address ModuleName ≠ a.
Proof. exact not_clp. Qed.
Hint Resolve margin_not_clp : core.

Lemma moves_onChain {A} (m : M chain A) : moves R m → moves Rc (onChain m).
Proof. intros H c. specialize (H (CtxChain c)). unfold onChain. by destruct (m (CtxChain c)). Qed.
Lemma moves_updMtp f : moves Rc (updMtp f).
Proof. unfold updMtp. moves_auto. apply moves_modify. intros c. unfold Rc. reflexivity. Qed.
Lemma moves_updPool f : moves Rc (updPool f).
Proof. unfold updPool. moves_auto. apply moves_modify. intros c. unfold Rc. reflexivity. Qed.
Lemma moves_withPointers_at {A} mtp pool (m : M mctx A) :
  (∀ s, Rc (mkCtx sdk s mtp pool) (m (mkCtx sdk s mtp pool)).2) → moves R (withPointers mtp pool m).
Proof.
  intros H s. specialize (H s). unfold withPointers.
  destruct (m (mkCtx sdk s mtp pool)) as [r c]. exact H.
Qed.
Lemma moves_withPointers {A} mtp pool (m : M mctx A) : moves Rc m → moves R (withPointers mtp pool m).
Proof. intros H. apply moves_withPointers_at. intros s. apply H. Qed.
Lemma moves_CLPSwap x to p : moves R (CLPSwap x to p).
Proof. apply moves_reads; [apply _|apply reads_CLPSwap]. Qed.
Lemma moves_health m p : moves R (UpdateMTPHealth m p).
Proof. apply moves_reads; [apply _|apply reads_UpdateMTPHealth]. Qed.
Lemma moves_pool p : moves R (SetPool p).
Proof. unfold SetPool. moves_auto. Qed.
Hint Resolve moves_updMtp moves_updPool moves_CLPSwap moves_health moves_pool : moves.

Ltac moves_margin :=
  repeat (moves_step || (apply moves_onChain) || solve [auto with moves]).

Lemma moves_write f : moves R (margin_modify f).
Proof. unfold margin_modify. moves_auto. Qed.
Hint Resolve moves_write : moves.
Lemma moves_SetMTP : moves Rc SetMTP.
Proof. unfold SetMTP. moves_margin. Qed.
Lemma moves_savePool : moves Rc savePool.
Proof. unfold savePool. moves_margin. Qed.
Lemma moves_refresh : moves Rc refresh_health.
Proof. unfold refresh_health. moves_margin. Qed.
Lemma moves_fund x y p f : moves R (TakeFundPayment x y p f).
Proof. unfold TakeFundPayment. moves_auto. Qed.
Hint Resolve moves_SetMTP moves_savePool moves_refresh moves_fund : moves.
Lemma moves_return m x t : moves R (pay_return m x t).
Proof. unfold pay_return, GetForceCloseFundAddress. moves_auto. Qed.
Lemma moves_DestroyMTP x i : moves R (DestroyMTP x i).
Proof. unfold DestroyMTP, GetMTP. moves_auto. Qed.
Hint Resolve moves_return moves_DestroyMTP : moves.
Lemma moves_Repay x t : moves Rc (Repay x t).
Proof. unfold Repay. moves_margin. Qed.
Lemma moves_interest x : moves Rc (IncrementalInterestPayment x).
Proof. unfold IncrementalInterestPayment, GetIncrementalInterestPaymentFundAddress. moves_margin. Qed.
Hint Resolve moves_Repay moves_interest : moves.
Lemma moves_close_out t : moves Rc (close_out t).
Proof. unfold close_out, TakeOutCustody. moves_margin. Qed.
Lemma moves_prorated : moves Rc pay_prorated_interest.
Proof. unfold pay_prorated_interest, HandleInterestPayment, record_block_interest. moves_margin. Qed.
Hint Resolve moves_close_out moves_prorated : moves.
Lemma moves_force_close x t : moves Rc (ForceCloseLong x t).
Proof. unfold ForceCloseLong. moves_margin. Qed.
Hint Resolve moves_force_close : moves.

(** Borrowing takes the collateral of the owner of the position. *)
Lemma moves_Borrow x y z t c :
  (∀ o, acc_from_bech32 (MtpAddress (CtxMtp c)) = Ok o → o ≠ a) → Rc c (Borrow x y z t c).2.
Proof.
  intros Ho. unfold Borrow. apply after_gets, after_lift; [apply _|]. intros o Hok%Ho.
  generalize c. refine (_ : moves Rc _). moves_margin.
Qed.

Lemma moves_OpenLong msg : (∀ o, acc_from_bech32 (MsgOpen.Signer msg) = Ok o → o ≠ a) →
  moves R (OpenLong msg).
Proof.
  intros Ho. unfold OpenLong, GetPool, CheckMinLiabilities. repeat (moves_step || solve [auto with moves]).
  all: apply moves_withPointers_at; intros s; apply after_bind; [apply _|by apply moves_Borrow|].
  all: intros []; unfold UpdatePoolHealth, TakeInCustody; moves_margin.
Qed.

Lemma moves_close_params p : moves R (SetParams p).
Proof. unfold SetParams. moves_auto. Qed.
Lemma moves_pool_of m : moves R (pool_of_mtp m).
Proof. apply moves_reads; [apply _|apply reads_pool_of_mtp]. Qed.
Hint Resolve moves_OpenLong moves_close_params moves_pool_of : moves.

Lemma moves_MarginServer m : (∀ o, acc_from_bech32 (margin_signer m) = Ok o → o ≠ a) →
  moves R (MarginServer m).
Proof.
  destruct m; cbn [MarginServer margin_signer]; intros Ho;
  unfold msg_ForceClose, msg_Open, msg_Close, msg_AdminClose, msg_AdminCloseAll, msg_UpdateParams,
    msg_UpdatePools, msg_UpdateFuryCollateral, msg_Whitelist, msg_Dewhitelist, WhitelistAddress,
    DewhitelistAddress, CloseLong, require_admin, GetMTP, GetPool;
  repeat (moves_step || (apply moves_withPointers) || solve [auto with moves]).
Qed.

(** *** Blocks *)
Lemma moves_process_mtp m : moves Rc (BeginBlockerProcessMTP m).
Proof.
  unfold BeginBlockerProcessMTP, process_mtp, HandleInterestPayment, record_block_interest.
  apply moves_bind; [apply _|apply moves_modify; intros c; unfold Rc; reflexivity|intros _]. moves_margin.
Qed.
Hint Resolve moves_process_mtp : moves.

Lemma moves_margin_BeginBlocker : moves R Margin.BeginBlocker.
Proof.
  unfold Margin.BeginBlocker, process_pool, InterestRateComputation, GetSQFromBlocks, GetPools.
  repeat (moves_step || (apply moves_withPointers) || (apply moves_onChain) || solve [auto with moves]).
  all: unfold UpdatePoolHealth, TrackSQBeginBlock, GetMTPsForPool, SetSQBeginBlock; moves_margin.
Qed.
End Margin.

(** ** The bridge *)
Section Bridge.
Context {sdk : SDK} {L : SDKLaws sdk} {geth : Geth} {go : GoMap} (a : string).
Hypothesis not_bridge : module_address BridgeModuleName ≠ a.

Definition outside_bridge (s : chain) :=
  (Pools s, LiquidityProviders s, RemovalRequests s, MarginState s, DispensationState s, AdminState s,
   TokenRegistry s).
Abbreviation R := (spares outside_bridge a).

(** A lock or a burn takes coins from its signer only, the other messages from
    nobody. *)
Lemma moves_BridgeHandler env m : (∀ l, bridge_GetSigners m = Ok l → a ∉ l) → moves R (BridgeHandler env m).
Proof.
  assert (∀ s o, acc_from_bech32 s = Ok o → (∀ l, one_signer s = Ok l → a ∉ l) → o ≠ a) as Hpay.
  { intros s o Ho Hl ->. unfold one_signer in Hl. rewrite Ho in Hl. apply (Hl [a]); [done|set_solver]. }
  destruct m; cbn [BridgeHandler bridge_GetSigners]; intros Hs;
  unfold msg_CreateEthBridgeClaim, msg_Burn, msg_Lock, msg_UpdateWhiteListValidator,
    msg_UpdateCethReceiverAccount, msg_RescueCeth, msg_SetBlacklist, msg_SetPause, BridgeProcessClaim,
    ProcessSuccessfulClaim, ProcessBurn, ProcessLock, ProcessUpdateCethReceiverAccount,
    ProcessRescueCeth, need_account, require_admin; moves_auto.
Qed.
End Bridge.

(** ** Dispensation *)
Section Dispensation.
Context {sdk : SDK} {L : SDKLaws sdk} (TimestampProto : string → res string) (a : string).
Hypothesis not_dispensation : module_address DispensationModule ≠ a.

Definition outside_dispensation (s : chain) :=
  (Pools s, LiquidityProviders s, RemovalRequests s, MarginState s, OracleState s, BridgeState s,
   AdminState s, TokenRegistry s).
Abbreviation R := (spares outside_dispensation a).

Lemma moves_disp_BeginBlocker : moves R DispensationBeginBlocker.
Proof. unfold DispensationBeginBlocker. moves_auto. Qed.

(** A record that is taken back was paid before: its recipient ends where it
    began. *)
Lemma settles_record h dr : settles R (distribute_record h dr).
Proof.
  intros s [] s' H. unfold distribute_record in H.
  destruct (acc_from_bech32 (RecipientAddress dr)) as [o| |]; [|by inv_ok|done].
  apply M_bind_Ok in H as (sent & s1 & Et & H).
  assert (R s s1) as H1.
  { assert (moves R (try (onBank (bank_send_mod_to_acc DispensationModule o (RecordCoins dr))))) as Hm
      by moves_auto. exact (settles_moves _ _ Hm _ _ _ Et). }
  assert (∀ st, moves R (onDispensation (ChangeRecordStatus dr h st))) as Hc by (intros; moves_auto).
  destruct sent as [u|e]; [|etrans; [exact H1|]; by apply mustM_Ok, (settles_moves _ _ (Hc _)) in H].
  apply try_Ok in Et as [(u' & _ & (b & Eb & ->)%onBank_Ok)|(e & [=] & _)].
  destruct u'. pose proof (send_mod_to_acc_val _ _ _ _ _ Eb) as Ht.
  apply M_bind_Ok in H as (done & s2 & Ed & H). destruct done as [u'|e].
  { etrans; [exact H1|]. etrans; [exact (settles_moves _ _ (moves_try _ _ (Hc _)) _ _ _ Ed)|].
    refine (settles_moves R _ _ _ _ _ H). moves_auto. }
  apply try_Ok in Ed as [(u' & [=] & _)|(e' & _ & Ed)].
  assert (∃ x, s2 = s <| Bank := b |> <| DispensationState := x |>) as [x ->].
  { unfold onDispensation in Ed. destruct (ChangeRecordStatus _ _ _ _) as [r x]. injection Ed as _ <-. eauto. }
  apply mustM_Ok, onBank_Ok in H as (b' & Eb' & ->). split; [done|]. intros d. cbn in *.
  pose proof (send_acc_to_mod_val _ _ _ _ _ Eb' a d) as ->. rewrite (Ht a d).
  apply not_eq_sym, String.eqb_neq in not_dispensation. rewrite not_dispensation.
  destruct (String.eqb a o); lia.
Qed.

(** Funding a distribution takes coins from the distributor, the other messages
    take none. *)
Lemma settles_DispensationHandler m :
  (∀ o, acc_from_bech32 (dispensation_signer m) = Ok o → o ≠ a) →
  settles R (DispensationHandler TimestampProto m).
Proof.
  intros Ho. destruct m as [m|m|m]; cbn [DispensationHandler dispensation_signer] in *.
  - intros s [] s' (m' & s1 & [E ->]%lift_Ok & H)%M_bind_Ok.
    rewrite <- (CreateDistribution_checked _ _ E) in Ho.
    refine (settles_moves R _ _ _ _ _ H). unfold msg_CreateDistribution, AccumulateDrops. moves_auto.
  - apply settles_moves. unfold msg_CreateUserClaim. moves_auto.
  - apply settles_bind; [apply _|apply settles_moves; moves_auto|intros _].
    unfold msg_RunDistribution, DistributeDrops.
    repeat (apply settles_bind; [apply _| |intros]).
    all: try (apply settles_moves; solve [moves_auto]).
    apply settles_forM; [apply _|apply settles_record].
Qed.
End Dispensation.

(** ** Administration *)
Section Administration.
Context {sdk : SDK} (a : string).

Definition outside_admin (s : chain) :=
  (Pools s, LiquidityProviders s, RemovalRequests s, MarginState s, OracleState s, BridgeState s,
   DispensationState s, Bank s).

Lemma moves_AdminHandler m : moves (spares outside_admin a) (AdminHandler m).
Proof. unfold AdminHandler. moves_auto. Qed.
Lemma moves_RegistryHandler m : moves (spares outside_admin a) (RegistryHandler m).
Proof. unfold RegistryHandler. moves_auto. Qed.
End Administration.
