(* ===== verification/AppProps.v ===== *)
(** * The application: what holds whatever the message

    The walks of Moves.v put together: which accounts a message or a block can take
    coins from, and how the books of clp, margin and dispensation stand after a
    message of any module. *)
From S2P Require Import Prelude Sdk Wp ClpTypes ClpCalc Admin TokenRegistry MarginTypes.
From S2P Require Import Oracle BridgeTypes DispensationTypes DispensationKeeper Chain.
From S2P Require Import ClpKeeper ClpExec ClpMsg ClpBlock ClpState ClpSystem Margin MarginBooks.
From S2P Require Import MarginSystem EthBridge Dispensation DispensationProps App Moves.

Section App.
Context {sdk : SDK} {L : SDKLaws sdk} {geth : Geth} {go : GoMap}.
Context (TimestampProto : string → res string).

(** The account [a] loses nothing. *)
Abbreviation untaken a := (spares (λ _ : chain, ()) a).

Lemma moves_untaken {A B} (keep : chain → B) a (m : M chain A) :
  moves (spares keep a) m → moves (untaken a) m.
Proof. intros Hm s. split; [done|apply Hm]. Qed.
Lemma settles_untaken {A B} (keep : chain → B) a (m : M chain A) :
  settles (spares keep a) m → settles (untaken a) m.
Proof. intros Hm s x s' E. split; [done|by eapply Hm]. Qed.

Lemma one_signer_not s a : (∀ l, one_signer s = Ok l → a ∉ l) → ∀ o, acc_from_bech32 s = Ok o → o ≠ a.
Proof. intros H o Ho ->. unfold one_signer in H. rewrite Ho in H. apply (H [a]); [done|set_solver]. Qed.

(** ** Messages *)
Section Message.
Context (a : string) (env : bridge_env) (m : app_msg).
Hypothesis Hclp : clp_module_address ≠ a.
Hypothesis Hdisp : module_address DispensationModule ≠ a.
Hypothesis Hbridge : module_address BridgeModuleName ≠ a.
Hypothesis Hsign : ∀ l, GetSigners m = Ok l → a ∉ l.

(** A message takes coins only from its signers and from module accounts. *)
Lemma app_handler_untaken : settles (untaken a) (app_handler TimestampProto env m).
Proof using All.
  destruct m as [[m'|m']|m'|m'|m'|m']; cbn [app_handler GetSigners] in *.
  - apply (settles_untaken outside_clp). apply settles_moves, moves_NewHandler; [done|].
    by apply one_signer_not.
  - apply (settles_untaken outside_dex). apply settles_moves, moves_MarginServer; [done|].
    by apply one_signer_not.
  - apply (settles_untaken outside_bridge). by apply settles_moves, moves_BridgeHandler.
  - apply (settles_untaken outside_dispensation). apply settles_DispensationHandler; [done|].
    by apply one_signer_not.
  - apply (settles_untaken outside_admin). apply settles_moves, moves_AdminHandler.
  - apply (settles_untaken outside_admin). apply settles_moves, moves_RegistryHandler.
Qed.
End Message.

(** The signers of a transaction are those of its messages. *)
Lemma collect_signers (ms : list app_msg) : ∀ acc l,
  foldR (λ acc m, signers ← GetSigners m; Ok (acc ++ signers)) acc ms = Ok l →
  acc ⊆ l ∧ ∀ m, m ∈ ms → ∃ k, GetSigners m = Ok k ∧ k ⊆ l.
Proof.
  induction ms as [|m ms IH]; intros acc l H; cbn in H; inv_ok; [split; [done|set_solver]|].
  apply IH in H as [H1 H2]. split; [set_solver|]. intros m' [->|Hm]%elem_of_cons; [|by apply H2].
  eexists. split; [done|]. set_solver.
Qed.

Lemma tx_signers_msgs ms l m : tx_signers ms = Ok l → m ∈ ms →
  ∃ k, GetSigners m = Ok k ∧ k ⊆ l.
Proof. unfold tx_signers. intros H Hm. inv_ok. apply collect_signers in H as [_ H]. by apply H. Qed.

(** What holds of every message of a transaction holds of the transaction. *)
Lemma settles_forM_in {S A} (R : S → S → Prop) `{!PreOrder R} (l : list A) body :
  (∀ x, x ∈ l → settles R (body x)) → settles R (forM l body).
Proof.
  induction l as [|x l IH]; intros H; [intros s u s' [= _ <-]; reflexivity|].
  apply settles_bind; [done|apply H; set_solver|]. intros _. apply IH. set_solver.
Qed.

Lemma deliver_tx_untaken a env ms s :
  clp_module_address ≠ a → module_address DispensationModule ≠ a → module_address BridgeModuleName ≠ a →
  (∀ l, tx_signers ms = Ok l → a ∉ l) → untaken a s (deliver_tx TimestampProto env ms s).
Proof.
  intros H1 H2 H3 Hs. unfold deliver_tx. destruct (tx_signers ms) as [l| |] eqn:E; [|reflexivity..].
  apply settles_deliver; [apply _|]. apply settles_forM_in; [apply _|]. intros m Hm.
  apply app_handler_untaken; [done..|]. intros k Hk.
  destruct (tx_signers_msgs _ _ _ E Hm) as (k' & Hk' & Hsub). rewrite Hk in Hk'. injection Hk' as <-.
  specialize (Hs l eq_refl). set_solver.
Qed.

(** ** Blocks *)
Section Block.
Context (sdk_BeginBlock sdk_EndBlock : string → M bank ()) (a : string).

(** In a block the modules of the SDK take coins from module accounts only. *)
Definition sdk_blocks_spare : Prop := ∀ name b d,
  bank_balance b a d ≤ bank_balance (sdk_BeginBlock name b).2 a d
  ∧ bank_balance b a d ≤ bank_balance (sdk_EndBlock name b).2 a d.

Hypothesis Hclp : clp_module_address ≠ a.
Hypothesis Hdisp : module_address DispensationModule ≠ a.
Hypothesis Hsdk : sdk_blocks_spare.

Lemma module_BeginBlock_untaken name : moves (untaken a) (module_BeginBlock sdk_BeginBlock name).
Proof using Hclp Hdisp Hsdk L.
  unfold module_BeginBlock. repeat case_test.
  - apply (moves_untaken outside_dispensation). by apply moves_disp_BeginBlocker.
  - apply (moves_untaken outside_dex). by apply moves_margin_BeginBlocker.
  - apply (moves_untaken outside_clp). by apply moves_BeginBlocker.
  - moves_auto.
  - apply gentle_onBank; [done|]. intros b d. apply Hsdk.
Qed.

Lemma module_EndBlock_untaken name : moves (untaken a) (module_EndBlock sdk_EndBlock name).
Proof using Hclp Hsdk L.
  unfold module_EndBlock. repeat case_test.
  - apply (moves_untaken outside_clp). by apply moves_EndBlocker.
  - moves_auto.
  - apply gentle_onBank; [done|]. intros b d. apply Hsdk.
Qed.

Lemma app_BeginBlocker_untaken : moves (untaken a) (app_BeginBlocker sdk_BeginBlock).
Proof using Hclp Hdisp Hsdk L.
  unfold app_BeginBlocker. apply moves_forM; [apply _|]. intros name. apply moves_bind; [apply _| |].
  - apply moves_try, module_BeginBlock_untaken.
  - intros _. moves_auto.
Qed.

Lemma app_EndBlocker_untaken : moves (untaken a) (app_EndBlocker sdk_EndBlock).
Proof using Hclp Hsdk L.
  unfold app_EndBlocker. apply moves_forM; [apply _|]. intros name. apply moves_bind; [apply _| |].
  - apply moves_try, module_EndBlock_untaken.
  - intros _. moves_auto.
Qed.

Lemma commit_untaken m s s' : moves (untaken a) m → commit m s = Ok s' → untaken a s s'.
Proof.
  intros Hm. specialize (Hm s). unfold commit. destruct (m s) as [[] s1]; intros [= <-]; exact Hm.
Qed.

Lemma app_run_cons e es s s' : app_run TimestampProto sdk_BeginBlock sdk_EndBlock (e :: es) s = Ok s' →
  ∃ s1, app_step TimestampProto sdk_BeginBlock sdk_EndBlock e s = Ok s1
    ∧ app_run TimestampProto sdk_BeginBlock sdk_EndBlock es s1 = Ok s'.
Proof. apply res_bind_Ok. Qed.
End Block.

(** ** The books of all modules *)

(** Positions and pools are well formed and covered, and so are the pending
    records. *)
Record app_inv (s : chain) : Prop := {
  ai_dex : dex_inv s;
  ai_dispensation : disp_solvent s
}.

(** The accounts of the three modules are three accounts. *)
Definition accounts_distinct : Prop :=
  clp_module_address ≠ module_address DispensationModule
  ∧ clp_module_address ≠ module_address BridgeModuleName
  ∧ module_address DispensationModule ≠ module_address BridgeModuleName.

(** A message as it comes out of a decoded transaction: module accounts sign
    nothing, and the fields of clp and margin messages are in range. *)
Definition app_decoded (m : app_msg) : Prop :=
  (∀ l, GetSigners m = Ok l → (clp_module_address ∉ l) ∧ (module_address DispensationModule ∉ l))
  ∧ match m with AppDex m => dex_decoded m | _ => True end.

Lemma dex_inv_spared {B} (keep : chain → B) s s' :
  (Pools s', LiquidityProviders s', RemovalRequests s', MarginState s')
  = (Pools s, LiquidityProviders s, RemovalRequests s, MarginState s) →
  spares keep clp_module_address s s' → dex_inv s → dex_inv s'.
Proof.
  intros [= HP HL HR HM] [_ Hb] [[[W1 W2 W3] Hq Hs] Hm]. split; [split|].
  - by split; rewrite ?HP, ?HL.
  - by rewrite HR.
  - intros d. specialize (Hs d). specialize (Hb d). unfold surplus, module_balance, claims in *.
    rewrite HP. lia.
  - unfold margin_wf. by rewrite HM.
Qed.

Lemma disp_solvent_spared {B} (keep : chain → B) s s' : DispensationState s' = DispensationState s →
  spares keep (module_address DispensationModule) s s' → disp_solvent s → disp_solvent s'.
Proof.
  intros HD [_ Hb] [Hp Hs]. split; [by rewrite HD|]. intros d. specialize (Hs d). specialize (Hb d).
  unfold disp_surplus, held, owed in *. rewrite HD. lia.
Qed.

Section Handlers.
Context (env : bridge_env) (s s' : chain).
Hypothesis distinct : accounts_distinct.

(** A message of clp or margin leaves the records and their account alone. *)
Lemma dex_msg_spares m : app_decoded (AppDex m) →
  app_handler TimestampProto env (AppDex m) s = (Ok (), s') →
  spares outside_dex (module_address DispensationModule) s s'.
Proof using All.
  destruct distinct as (Hcd & _ & _). intros [Hs Hm] H. destruct m as [m|m]; cbn in *.
  - assert (spares outside_clp (module_address DispensationModule) s s') as [Hk Hb].
    { refine (settles_moves _ _ (moves_NewHandler _ Hcd m _) _ _ _ H).
      apply one_signer_not. intros l Hl. by apply Hs. }
    split; [|done]. unfold outside_dex. by injection Hk as -> -> _ -> -> ->.
  - refine (settles_moves _ _ (moves_MarginServer _ Hcd m _) _ _ _ H).
    apply one_signer_not. intros l Hl. by apply Hs.
Qed.

Lemma dex_msg_disp m : app_decoded (AppDex m) →
  app_handler TimestampProto env (AppDex m) s = (Ok (), s') → disp_solvent s → disp_solvent s'.
Proof using All.
  intros Hm H. pose proof (dex_msg_spares m Hm H) as Hsp. apply (disp_solvent_spared outside_dex s); [|done].
  by destruct Hsp as [[= _ _ _ _ ->] _].
Qed.

Lemma dex_msg_inv m : app_decoded (AppDex m) → app_ValidateBasic (AppDex m) = Ok () →
  app_handler TimestampProto env (AppDex m) s = (Ok (), s') → app_inv s → app_inv s'.
Proof using All.
  intros Hm Hv H [Hd Hp]. split; [|by apply (dex_msg_disp m)]. destruct Hm as [_ Hm].
  replace s' with (dex_tx m s); [by apply dex_tx_inv|].
  destruct m as [m|m]; cbn in *; unfold tx, margin_tx, deliver; by rewrite Hv, H.
Qed.

Lemma bridge_msg_spares m : app_decoded (AppBridge m) →
  app_handler TimestampProto env (AppBridge m) s = (Ok (), s') →
  spares outside_bridge clp_module_address s s'
  ∧ spares outside_bridge (module_address DispensationModule) s s'.
Proof using All.
  destruct distinct as (_ & Hcb & Hdb). intros [Hs _] H. cbn in *.
  assert (∀ a, module_address BridgeModuleName ≠ a → (∀ l, bridge_GetSigners m = Ok l → a ∉ l) →
    spares outside_bridge a s s') as Hsp.
  { intros a Ha Hl. exact (settles_moves _ _ (moves_BridgeHandler a Ha env m Hl) _ _ _ H). }
  split; (apply Hsp; [done|]; intros l Hl; by apply Hs).
Qed.

Lemma bridge_msg_disp m : app_decoded (AppBridge m) →
  app_handler TimestampProto env (AppBridge m) s = (Ok (), s') → disp_solvent s → disp_solvent s'.
Proof using All.
  intros Hm H. destruct (bridge_msg_spares m Hm H) as [_ Hsp].
  apply (disp_solvent_spared outside_bridge s); [|done]. by destruct Hsp as [[= _ _ _ _ -> _ _] _].
Qed.

Lemma bridge_msg_inv m : app_decoded (AppBridge m) →
  app_handler TimestampProto env (AppBridge m) s = (Ok (), s') → app_inv s → app_inv s'.
Proof using All.
  intros Hm H [Hd Hp]. split; [|by apply (bridge_msg_disp m)].
  destruct (bridge_msg_spares m Hm H) as [Hc _]. pose proof Hc as [Hk _]. injection Hk as E1 E2 E3 E4 E5 _ _.
  apply (dex_inv_spared outside_bridge s); [congruence|done..].
Qed.

Lemma dispensation_msg_spares m : app_decoded (AppDispensation m) →
  app_handler TimestampProto env (AppDispensation m) s = (Ok (), s') →
  spares outside_dispensation clp_module_address s s'.
Proof using All.
  destruct distinct as (Hcd & _ & _). intros [Hs _] H. cbn in *.
  refine (settles_DispensationHandler TimestampProto _ _ m _ _ _ _ H); [done|].
  apply one_signer_not. intros l Hl. by apply Hs.
Qed.

Lemma dispensation_msg_disp m : app_decoded (AppDispensation m) →
  app_handler TimestampProto env (AppDispensation m) s = (Ok (), s') → disp_solvent s → disp_solvent s'.
Proof using All.
  intros [Hs _] H Hp. refine (DispensationHandler_solvent _ _ _ _ _ Hp H). destruct m as [m| |]; [|done..]. cbn in *.
  intros He. eapply one_signer_not; [|exact He|reflexivity]. intros l Hl. by apply Hs.
Qed.

Lemma dispensation_msg_inv m : app_decoded (AppDispensation m) →
  app_handler TimestampProto env (AppDispensation m) s = (Ok (), s') → app_inv s → app_inv s'.
Proof using All.
  intros Hm H [Hd Hp]. split; [|by apply (dispensation_msg_disp m)].
  pose proof (dispensation_msg_spares m Hm H) as Hsp.
  apply (dex_inv_spared outside_dispensation s); [|done..]. by destruct Hsp as [[= -> -> -> -> _ _ _ _] _].
Qed.

(** Administrative messages touch neither coins nor books. *)
Lemma admin_inv : outside_admin s' = outside_admin s → app_inv s → app_inv s'.
Proof using All.
  intros Hk [Hd Hp]. injection Hk as E1 E2 E3 E4 E5 E6 E7 E8.
  assert (∀ a, spares (λ _, ()) a s s') as Hsp by (intros a; split; [done|]; intros d; by rewrite E8).
  split; [by apply (dex_inv_spared (λ _, ()) s); [congruence|..]|by apply (disp_solvent_spared (λ _, ()) s)].
Qed.

Lemma app_handler_inv m : app_decoded m → app_ValidateBasic m = Ok () →
  app_handler TimestampProto env m s = (Ok (), s') → app_inv s → app_inv s'.
Proof using All.
  destruct m as [m|m|m|m|m]; intros Hm Hv H.
  - by eapply dex_msg_inv.
  - by eapply bridge_msg_inv.
  - by eapply dispensation_msg_inv.
  - apply admin_inv, (settles_moves _ _ (moves_AdminHandler clp_module_address m) _ _ _ H).
  - apply admin_inv, (settles_moves _ _ (moves_RegistryHandler clp_module_address m) _ _ _ H).
Qed.
End Handlers.

Lemma tx_signers_valid (ms : list app_msg) l : tx_signers ms = Ok l →
  ∀ m, m ∈ ms → app_ValidateBasic m = Ok ().
Proof.
  unfold tx_signers. intros Et. inv_ok. clear Et. induction ms as [|m ms IH]; [set_solver|].
  cbn in E. inv_ok. intros m' [->|Hm]%elem_of_cons; [by destruct v0|]. destruct v0. by apply IH.
Qed.

Lemma deliver_tx_inv env ms s : accounts_distinct → Forall app_decoded ms → app_inv s →
  app_inv (deliver_tx TimestampProto env ms s).
Proof.
  intros Ha Hd Hi. unfold deliver_tx. destruct (tx_signers ms) as [l| |] eqn:Et; [|done..].
  assert (∀ m, m ∈ ms → app_ValidateBasic m = Ok ()) as Hv by by apply (tx_signers_valid ms l).
  clear Et. unfold deliver. destruct (forM ms _ s) as [[u| |] s'] eqn:E; [|done..].
  revert s Hi E. induction ms as [|m ms IH]; intros s Hi E; [by injection E as _ <-|].
  apply M_bind_Ok in E as ([] & s1 & E1 & E). inversion Hd; subst.
  apply (IH ltac:(done) ltac:(set_solver) s1); [|done].
  eapply app_handler_inv; [done..|apply Hv; set_solver|exact E1|done].
Qed.
End App.
