(* ===== verification/AppBooks.v ===== *)
(** * The books of the application, blocks included

    What AppProps.v shows of messages is carried through BeginBlock and EndBlock:
    the interest and the forced closings of margin, the prices of clp, its
    distributions and rewards, the minting of dispensation.  [F] names the accounts
    the funds of margin are paid to; what a payment moves to them inside a block
    that then fails is still theirs. *)
From S2P Require Import Prelude Sdk Wp ClpTypes ClpCalc Admin TokenRegistry MarginTypes.
From S2P Require Import Oracle BridgeTypes DispensationTypes DispensationKeeper Chain.
From S2P Require Import ClpKeeper ClpExec ClpMsg ClpBlock ClpState ClpSystem Margin MarginBooks.
From S2P Require Import ClpLiquidityProps MarginSystem ClpDistribution ClpDistributionClaims.
From S2P Require Import EthBridge Dispensation DispensationProps App Moves AppProps.
From S2P Require Import MarginBlock ClpBlockBooks.

Section Books.
Context {sdk : SDK} {L : SDKLaws sdk} {geth : Geth} {go : GoMap} {G : GoMapLaws go}.
Context (TimestampProto : string → res string) (F : list string).
Implicit Types s : chain.

(** The books of a state: the module account and the funds cover the pools, pool
    units are those of the providers, the pending records are covered. *)
Record books_ok s : Prop := {
  bo_wf : clp_wf s;
  bo_requests : RemovalRequests s = ∅;
  bo_margin : margin_wf s;
  bo_units : units_match s;
  bo_ledger d : claims s d ≤ reserve F s d;
  bo_dispensation : disp_solvent s;
  bo_funds : funds_in F s
}.

(** The accounts of the funds are none of the three modules'. *)
Definition funds_apart : Prop := ∀ f, f ∈ F →
  clp_module_address ≠ f ∧ module_address DispensationModule ≠ f ∧ module_address BridgeModuleName ≠ f.

(** The funds lose nothing. *)
Definition funds_spared s s' : Prop :=
  ∀ f d, f ∈ F → bank_balance (Bank s) f d ≤ bank_balance (Bank s') f d.

Lemma reserve_grows s s' d : funds_spared s s' → surplus s d ≤ surplus s' d →
  claims s d ≤ reserve F s d → claims s' d ≤ reserve F s' d.
Proof.
  intros Hf Hs. unfold reserve, surplus in *.
  pose proof (zsum_le (λ a, bank_balance (Bank s) a d) (λ a, bank_balance (Bank s') a d) F
    (λ f Hin, Hf f d Hin)). lia.
Qed.

(** Code outside clp and margin that takes no coins of the module and the funds. *)
Lemma books_spared s s' :
  (Pools s', LiquidityProviders s', RemovalRequests s', MarginState s')
  = (Pools s, LiquidityProviders s, RemovalRequests s, MarginState s) →
  (∀ d, module_balance s d ≤ module_balance s' d) → funds_spared s s' → disp_solvent s' →
  books_ok s → books_ok s'.
Proof.
  intros [= HP HL HR HM] Hb Hf Hd [W R M U Lg _ Fu]. split; [|congruence| | | |done|].
  - by apply (clp_wf_ext s).
  - unfold margin_wf. by rewrite HM.
  - unfold units_match, unit_gap, pool_units_of, lp_total. by rewrite HP, HL.
  - intros d. apply (reserve_grows s); [done| |done]. unfold surplus, claims. rewrite HP. specialize (Hb d). lia.
  - unfold funds_in, GetParams. by rewrite HM.
Qed.

(** ** Messages *)

(** A message that deletes no pool and keeps the funds in [F]. *)
Definition calm_msg (m : app_msg) : Prop :=
  match m with
  | AppDex (Clp m) => is_decommission m = false
  | AppDex (Margin (UpdateParamsMsg _ p)) =>
      fund_in F (MarginParams.ForceCloseFundPercentage p) (MarginParams.ForceCloseFundAddress p)
      ∧ fund_in F (MarginParams.IncrementalInterestPaymentFundPercentage p)
                  (MarginParams.IncrementalInterestPaymentFundAddress p)
  | _ => True
  end.

(** A message that the theorems below admit: decoded, calm, not signed by a fund. *)
Definition admitted (m : app_msg) : Prop :=
  app_decoded m ∧ calm_msg m ∧ ∀ l f, GetSigners m = Ok l → f ∈ F → f ∉ l.

Lemma funds_in_after m s s' : fund_params (GetParams s') = funds_after m (GetParams s) →
  calm_msg (AppDex (Margin m)) → funds_in F s → funds_in F s'.
Proof.
  unfold funds_in. intros Hf Hk Hs.
  destruct m as [| | | | | | | | |x []]; cbn in Hf, Hk; injection Hf as -> -> -> ->; try done.
  split; [by left|apply Hs].
Qed.

Section Handlers.
Context (env : bridge_env) (s s' : chain).
Hypothesis distinct : accounts_distinct.
Hypothesis apart : funds_apart.

Lemma msg_funds_spared m : admitted m → app_handler TimestampProto env m s = (Ok (), s') → funds_spared s s'.
Proof using L apart.
  intros (_ & _ & Hs) H f d Hf. destruct (apart f Hf) as (H1 & H2 & H3).
  refine (proj2 (app_handler_untaken TimestampProto f env m H1 H2 H3 _ _ _ _ H) d).
  intros l Hl. by apply (Hs l).
Qed.

Lemma clp_msg_books m : admitted (AppDex (Clp m)) → ValidateBasic m = Ok () →
  NewHandler m s = (Ok (), s') → disp_solvent s' → funds_spared s s' → books_ok s → books_ok s'.
Proof using L.
  intros ([_ Hd] & Hc & _) Hv H Hp Hf [W R M U Lg _ Fu]. cbn in Hd, Hc.
  pose proof (frames_NewHandler m s) as HM. rewrite H in HM. cbn in HM.
  apply handler_books in H as (W' & R' & S & _ & U'); [|done..]. split; [done|done| | | |done|].
  - unfold margin_wf. by rewrite HM.
  - intros sym. by rewrite U'.
  - intros d. by apply (reserve_grows s).
  - unfold funds_in, GetParams. by rewrite HM.
Qed.

Lemma margin_msg_books m : admitted (AppDex (Margin m)) →
  MarginServer m s = (Ok (), s') → disp_solvent s' → funds_spared s s' → books_ok s → books_ok s'.
Proof using L.
  intros ([_ Hd] & Hc & _) H Hp Hf [W R M U Lg _ Fu]. cbn in Hd.
  destruct (is_trade m) eqn:Ht.
  - apply trade_settled in H as [W1 W2 S Gp O]; [|done..]. split; [done| |done| | |done|].
    + by injection O as _ -> _.
    + intros sym. by rewrite Gp.
    + intros d. apply (reserve_grows s); [done|apply S|done].
    + by eapply funds_in_outer.
  - apply admin_settled in H as (W1 & W2 & S & Gp & R' & Fp); [|done..]. split; [done|congruence|done| | |done|].
    + intros sym. by rewrite Gp.
    + intros d. apply (reserve_grows s); [done|by rewrite S|done].
    + by eapply funds_in_after.
Qed.

Lemma admin_msg_books : outside_admin s' = outside_admin s → books_ok s → books_ok s'.
Proof using L.
  intros Hk Hb. injection Hk as E1 E2 E3 E4 E5 E6 E7 E8. apply (books_spared s); [congruence| | | |done].
  - intros d. unfold module_balance. by rewrite E8.
  - intros f d _. by rewrite E8.
  - apply (disp_solvent_spared (λ _, ()) s); [done| |apply Hb]. split; [done|]. intros d. by rewrite E8.
Qed.

Lemma app_handler_books m : admitted m → app_ValidateBasic m = Ok () →
  app_handler TimestampProto env m s = (Ok (), s') → books_ok s → books_ok s'.
Proof using All.
  intros Ha Hv H Hb. pose proof (msg_funds_spared m Ha H) as Hf. pose proof (bo_dispensation s Hb) as Hdisp.
  destruct m as [[m|m]|m|m|m|m].
  - eapply clp_msg_books; [done..| |done|done]. exact (dex_msg_disp TimestampProto env s s' distinct _ (proj1 Ha) H Hdisp).
  - eapply margin_msg_books; [done..| |done|done]. exact (dex_msg_disp TimestampProto env s s' distinct _ (proj1 Ha) H Hdisp).
  - destruct (bridge_msg_spares TimestampProto env s s' distinct m (proj1 Ha) H) as [[Hk Hsp] _].
    injection Hk as E1 E2 E3 E4 E5 _ _. apply (books_spared s); [congruence|done|done| |done].
    exact (bridge_msg_disp TimestampProto env s s' distinct _ (proj1 Ha) H Hdisp).
  - destruct (dispensation_msg_spares TimestampProto env s s' distinct m (proj1 Ha) H) as [Hk Hsp].
    injection Hk as E1 E2 E3 E4 _ _ _ _. apply (books_spared s); [congruence|done|done| |done].
    exact (dispensation_msg_disp TimestampProto env s s' distinct _ (proj1 Ha) H Hdisp).
  - exact (admin_msg_books (proj1 (settles_moves _ _ (moves_AdminHandler clp_module_address m) _ _ _ H)) Hb).
  - exact (admin_msg_books (proj1 (settles_moves _ _ (moves_RegistryHandler clp_module_address m) _ _ _ H)) Hb).
Qed.
End Handlers.

Lemma deliver_tx_books env ms s : accounts_distinct → funds_apart → Forall admitted ms → books_ok s →
  books_ok (deliver_tx TimestampProto env ms s).
Proof using All.
  intros Ha Hf Hd Hi. unfold deliver_tx. destruct (tx_signers ms) as [l| |] eqn:Et; [|done..].
  assert (∀ m, m ∈ ms → app_ValidateBasic m = Ok ()) as Hv by by apply (tx_signers_valid ms l).
  clear Et. unfold deliver. destruct (forM ms _ s) as [[u| |] s'] eqn:E; [|done..].
  revert s Hi E. induction ms as [|m ms IH]; intros s Hi E; [by injection E as _ <-|].
  apply M_bind_Ok in E as ([] & s1 & E1 & E). inversion Hd; subst.
  apply (IH ltac:(done) ltac:(set_solver) s1); [|done].
  eapply app_handler_books; [done..|apply Hv; set_solver|exact E1|done].
Qed.

(** ** Blocks *)
Section Blocks.
Context (sdk_BeginBlock sdk_EndBlock : string → M bank ()).

(** The accounts the modules of the SDK take nothing from in a block. *)
Definition sdk_spares : Prop := ∀ a, a ∈ clp_module_address :: module_address DispensationModule :: F →
  sdk_blocks_spare sdk_BeginBlock sdk_EndBlock a.

Hypothesis distinct : accounts_distinct.
Hypothesis apart : funds_apart.
Hypothesis spared : sdk_spares.

Lemma disp_not_clp : clp_module_address ≠ module_address DispensationModule.
Proof using distinct. apply distinct. Qed.

Lemma end_spares {B A} (keep : chain → B) a (m : M chain A) s r s' : moves (spares keep a) m →
  m s = (r, s') → spares keep a s s'.
Proof. intros H E. specialize (H s). by rewrite E in H. Qed.

Lemma funds_spared_moves {A} (m : M chain A) s r s' : (∀ f, f ∈ F → moves (spares (λ _, ()) f) m) →
  m s = (r, s') → funds_spared s s'.
Proof. intros H E f d Hf. by apply (end_spares _ f _ _ _ _ (H f Hf) E). Qed.

(** A module that keeps the pools and the module account. *)
Lemma block_kept_books s s' : block_kept s s' → funds_spared s s' → disp_solvent s' → books_ok s → books_ok s'.
Proof using L.
  intros [W S U _ HL HR] Hf Hd [_ R M Um Lg _ Fu]. injection HR as HR HM _. split; [done|congruence| | | |done|].
  - unfold margin_wf. by rewrite HM.
  - intros sym. specialize (Um sym). unfold unit_gap, lp_total in *. by rewrite U, HL.
  - intros d. apply (reserve_grows s); [done| |done]. specialize (S d). lia.
  - unfold funds_in, GetParams. by rewrite HM.
Qed.

Lemma margin_kept_books s s' : margin_kept F s s' → disp_solvent s' → books_ok s → books_ok s'.
Proof using L.
  intros [W M S U O] Hd [_ R _ Um Lg _ Fu]. split; [done| |done| | |done|].
  - by injection O as _ -> _.
  - intros sym. specialize (Um sym). unfold unit_gap, lp_total in *. rewrite U. by injection O as -> _ _.
  - intros d. specialize (S d). specialize (Lg d). lia.
  - by eapply funds_in_outer.
Qed.

Lemma disp_spared {B A} (keep : chain → B) (m : M chain A) s r s' :
  moves (spares keep (module_address DispensationModule)) m →
  (∀ s s', keep s' = keep s → DispensationState s' = DispensationState s) →
  m s = (r, s') → disp_solvent s → disp_solvent s'.
Proof.
  intros Hm Hk E. pose proof (end_spares _ _ _ _ _ _ Hm E) as Hs.
  apply (disp_solvent_spared keep s); [|done]. by apply Hk, Hs.
Qed.

Lemma disp_begin_books s : books_ok s → wp DispensationBeginBlocker (λ _, books_ok) books_ok s.
Proof using All.
  intros Hb. unfold wp. destruct (DispensationBeginBlocker s) as [[[]|e|] s'] eqn:E; [| |done].
  2: { by apply DispensationBeginBlocker_Err in E as ->. }
  pose proof (end_spares _ _ _ _ _ _ (moves_disp_BeginBlocker clp_module_address (not_eq_sym disp_not_clp)) E) as [Hk Hc].
  injection Hk as E1 E2 E3 E4 _ _ _ _. apply (books_spared s); [congruence|exact Hc| | |done].
  - eapply funds_spared_moves; [|exact E]. intros f Hf. destruct (apart f Hf) as (_ & H2 & _).
    apply (moves_untaken outside_dispensation), moves_disp_BeginBlocker, H2.
  - eapply DispensationBeginBlocker_solvent; [apply Hb|exact E].
Qed.

Lemma margin_begin_books s : books_ok s → wp Margin.BeginBlocker (λ _, books_ok) books_ok s.
Proof using All.
  intros Hb. assert (clp_module_address ∉ F) as Hapart by (intros Hin; by destruct (apart _ Hin)).
  pose proof (BeginBlocker_kept F Hapart s (bo_funds s Hb) (bo_wf s Hb) (bo_margin s Hb)) as H.
  unfold wp in *. destruct (Margin.BeginBlocker s) as [[[]|e|] s'] eqn:E; [|done..].
  apply (margin_kept_books s); [done| |done].
  eapply (disp_spared outside_dex); [apply moves_margin_BeginBlocker, disp_not_clp| |exact E|apply Hb].
  by intros ?? [= _ _ _ _ ->].
Qed.

(** The two blockers of clp. *)
Lemma clp_block_books m s : (∀ a, clp_module_address ≠ a → moves (spares outside_clp a) m) →
  wp m (λ _ : (), block_kept s) (block_kept s) s → books_ok s → wp m (λ _, books_ok) books_ok s.
Proof using All.
  intros Hm H Hb. unfold wp in *. destruct (m s) as [r s'] eqn:E.
  assert (block_kept s s' → books_ok s') as Hend; [|by destruct r as [[]| |]; [apply Hend..|]].
  intros Hk. apply (block_kept_books s); [done| | |done].
  - eapply funds_spared_moves; [|exact E]. intros f Hf. destruct (apart f Hf) as (H1 & _).
    by apply (moves_untaken outside_clp), Hm.
  - eapply (disp_spared outside_clp); [apply Hm, disp_not_clp| |exact E|apply Hb]. by intros ?? [= _ _ _ _ _ ->].
Qed.

(** The modules of the SDK only move coins of other accounts. *)
Lemma sdk_books (m : M bank ()) s :
  (∀ a, a ∈ clp_module_address :: module_address DispensationModule :: F →
     ∀ b d, bank_balance b a d ≤ bank_balance (m b).2 a d) →
  books_ok s → wp (onBank m) (λ _, books_ok) books_ok s.
Proof using All.
  intros Hm Hb. unfold wp, onBank. destruct (m (Bank s)) as [r b] eqn:E.
  assert (books_ok (s <| Bank := b |>)) as Hend; [|by destruct r].
  assert (∀ a, a ∈ clp_module_address :: module_address DispensationModule :: F →
    ∀ d, bank_balance (Bank s) a d ≤ bank_balance b a d) as Hs.
  { intros a Ha d. specialize (Hm a Ha (Bank s) d). by rewrite E in Hm. }
  apply (books_spared s); [done|intros d; apply Hs; set_solver|intros f d Hf; apply Hs; set_solver| |done].
  apply (disp_solvent_spared (λ _, ()) s); [done| |apply Hb]. split; [done|]. intros d. apply Hs. set_solver.
Qed.

Lemma module_BeginBlock_books name s : books_ok s →
  wp (module_BeginBlock sdk_BeginBlock name) (λ _, books_ok) books_ok s.
Proof using All.
  intros Hb. unfold module_BeginBlock. repeat case_test.
  - by apply disp_begin_books.
  - by apply margin_begin_books.
  - apply clp_block_books; [intros a _; apply moves_BeginBlocker| |done].
    pose proof (BeginBlocker_block_kept s (bo_wf s Hb)) as H. unfold wp, wpe in *.
    by destruct (ClpBlock.BeginBlocker s) as [[]].
  - by apply wp_ret.
  - apply sdk_books; [|done]. intros a Ha b d. by apply spared.
Qed.

Lemma EndBlocker_books s : books_ok s → payable s → wp EndBlocker (λ _, books_ok) books_ok s.
Proof using All.
  intros Hb Hp. apply clp_block_books; [intros a Ha; by apply moves_EndBlocker| |done].
  apply EndBlocker_kept; [apply Hb..|done].
Qed.

(** Apart from clp, the end of a block is the business of the SDK. *)
Lemma module_EndBlock_books name s : name ≠ ModuleName → books_ok s →
  wp (module_EndBlock sdk_EndBlock name) (λ _, books_ok) books_ok s.
Proof using All.
  intros Hn%String.eqb_neq Hb. unfold module_EndBlock. rewrite Hn. case_test; [by apply wp_ret|].
  apply sdk_books; [|done]. intros a Ha b d. by apply spared.
Qed.

Lemma module_EndBlock_payable name s : name ≠ ModuleName → payable s →
  wp (module_EndBlock sdk_EndBlock name) (λ _, payable) payable s.
Proof using.
  intros Hn%String.eqb_neq Hp. unfold module_EndBlock. rewrite Hn. case_test; [by apply wp_ret|].
  unfold wp, onBank. destruct (sdk_EndBlock name (Bank s)) as [r b].
  assert (payable (s <| Bank := b |>)); [|by destruct r]. by destruct Hp as [? ? [? ?]].
Qed.

(** The module manager calls each module; errors are dropped. *)
Lemma wp_modules (names : list string) (body : string → M chain ()) (I : chain → Prop) s :
  (∀ name s, name ∈ names → I s → wp (body name) (λ _, I) I s) → I s →
  wp (forM names (λ name, try (body name);; mret ())) (λ _, I) (λ _, False) s.
Proof using.
  intros Hb. apply wp_forM. intros name s1 Hin Hi. wp_steps.
  eapply wp_mono; [by apply Hb|done|]. intros s2 H2 e. by apply wp_ret.
Qed.

Lemma app_BeginBlocker_books s : books_ok s →
  wp (app_BeginBlocker sdk_BeginBlock) (λ _, books_ok) (λ _, False) s.
Proof using All.
  apply wp_modules. intros name s1 _. apply module_BeginBlock_books.
Qed.

Lemma wp_both {A} (m : M chain A) (P Q : chain → Prop) s :
  wp m (λ _, P) P s → wp m (λ _, Q) Q s → wp m (λ _ s', P s' ∧ Q s') (λ s', P s' ∧ Q s') s.
Proof using. unfold wp. by destruct (m s) as [[]]. Qed.

Lemma app_EndBlocker_books s : books_ok s → payable s →
  wp (app_EndBlocker sdk_EndBlock) (λ _, books_ok) (λ _, False) s.
Proof using All.
  intros Hb Hp. unfold app_EndBlocker.
  set (before := take 19 OrderEndBlockers). set (after := drop 20 OrderEndBlockers).
  change OrderEndBlockers with (before ++ ModuleName :: after).
  assert (∀ name, name ∈ before ++ after → name ≠ ModuleName) as Hn.
  { intros name Hin ->. vm_compute in Hin. set_solver. }
  apply wp_forM_app. wp_steps.
  eapply wp_mono; [apply (wp_modules before _ (λ s, books_ok s ∧ payable s))|intros [] s1 [H1 P1]|done].
  - intros name s1 Hin [H1 P1]. apply wp_both; [apply module_EndBlock_books|apply module_EndBlock_payable]; try done;
      apply Hn; set_solver.
  - done.
  - cbn [forM]. wp_steps. change (module_EndBlock sdk_EndBlock ModuleName) with EndBlocker.
    assert (∀ s2, books_ok s2 → wp (forM after (λ name, try (module_EndBlock sdk_EndBlock name);; mret ()))
      (λ _, books_ok) (λ _, False) s2) as Hafter.
    { intros s2. apply wp_modules. intros name s3 Hin. apply module_EndBlock_books, Hn. set_solver. }
    eapply wp_mono; [by apply EndBlocker_books|intros [] s2 H2|intros s2 H2 e]; wp_steps; by apply Hafter.
Qed.

(** ** Runs *)
Abbreviation step := (app_step TimestampProto sdk_BeginBlock sdk_EndBlock).
Abbreviation steps := (app_run TimestampProto sdk_BeginBlock sdk_EndBlock).

Definition event_admitted (e : app_event) : Prop :=
  match e with ATx _ ms => Forall admitted ms | _ => True end.

(** Wherever a block of the run ends, the pools can pay. *)
Fixpoint ends_payable (es : list app_event) (s : chain) : Prop :=
  match es with
  | [] => True
  | e :: es => (e = AEndBlock → payable s) ∧ ∀ s1, step e s = Ok s1 → ends_payable es s1
  end.

Lemma app_step_books e s s' : event_admitted e → (e = AEndBlock → payable s) → step e s = Ok s' →
  books_ok s → books_ok s'.
Proof using All.
  intros He Hp H Hb. destruct e as [h t|env ms|]; unfold app_step in H.
  - unfold commit in H. assert (books_ok (s <| BlockHeight := h |> <| BlockTime := t |>)) as Hb1 by (destruct Hb as [[] ? ? ? ? [] ?]; split; try done; by split).
    pose proof (app_BeginBlocker_books _ Hb1) as Hw. unfold wp in Hw.
    by destruct (app_BeginBlocker sdk_BeginBlock _) as [[[]|e|] s1]; [injection H as <-|..].
  - injection H as <-. by apply deliver_tx_books.
  - unfold commit in H. pose proof (app_EndBlocker_books s Hb (Hp eq_refl)) as Hw. unfold wp in Hw.
    by destruct (app_EndBlocker sdk_EndBlock s) as [[[]|e|] s1]; [injection H as <-|..].
Qed.

Lemma app_run_books es : ∀ s s', Forall event_admitted es → ends_payable es s → steps es s = Ok s' →
  books_ok s → books_ok s'.
Proof using All.
  induction es as [|e es IH]; intros s s' He Hp H Hb; [by injection H as <-|].
  inversion He; subst. destruct Hp as [Hp Hps]. apply app_run_cons in H as (s1 & H1 & H).
  apply (IH s1); [done|by apply Hps|done|]. by eapply app_step_books.
Qed.
End Blocks.
End Books.
