(* ===== verification/AppClaims.v ===== *)
(** * Theorems about the application

    Who pays, what all modules together guarantee, and what the order of the
    modules in app.go does to the minting schedule. *)
From S2P Require Import Prelude Sdk Reference Wp ClpTypes ClpCalc Admin TokenRegistry MarginTypes.
From S2P Require Import Oracle BridgeTypes DispensationTypes DispensationKeeper Chain.
From S2P Require Import ClpKeeper ClpExec ClpMsg ClpBlock ClpState ClpSystem Margin MarginBooks.
From S2P Require Import MarginSystem EthBridge Dispensation DispensationProps App Moves AppProps.
From S2P Require Import ClpLiquidityProps ClpDistribution ClpDistributionClaims MarginBlock ClpBlockBooks AppBooks.
From S2P Require Import Demo OracleClaims BridgeClaims ClpClaims DexClaims DispensationClaims.

(** ** A block of the demonstration chain *)

(** Carol holds fury and does nothing. *)
Definition app_chain : @chain ref_sdk :=
  demo_chain <| Bank := <[("carol", "fury") := 1000000]> demo_bank |>.

Definition demo_mint (name : string) : M ref_bank () :=
  if String.eqb name "mint" then ref_mint "module/fee_collector" [("fury", 7)] else mret ().
Definition demo_idle (name : string) : M ref_bank () := mret ().

(** Bob trades, votes credit him a deposit, he funds a distribution that includes
    carol, and its runner pays it out. *)
Definition app_demo_txs : list (bridge_env * list (@app_msg ref_sdk)) :=
  [ (demo_env, [AppDex (Clp (SwapMsg (MsgSwap.mk "bob" ceth usdc 200 1)));
                AppDex (Margin (OpenMsg (MsgOpen.mk "bob" "ceth" 300 "fury" Position_LONG (2 * P18))))]);
    (demo_env, [AppBridge (BCreateEthBridgeClaim (demo_claim "ann"))]);
    (demo_env, [AppBridge (BCreateEthBridgeClaim (demo_claim "bert"))]);
    (demo_env, [AppDispensation (DCreateDistribution (MsgCreateDistribution.mk "bob" "run"
                  DISTRIBUTION_TYPE_AIRDROP [mkOutput "carol" [("fury", 70)]]))]);
    (demo_env, [AppDispensation (DRunDistribution (MsgRunDistribution.mk "run" "101_bob"
                  DISTRIBUTION_TYPE_AIRDROP 1))]) ].
Definition app_demo : list (@app_event ref_sdk) :=
  [ABeginBlock 101 "later"] ++ map (λ t, ATx t.1 t.2) app_demo_txs ++ [AEndBlock].

(** ** Who pays *)

(** The account [a] signs the transaction. *)
Definition signs {sdk : SDK} {geth : Geth} (a : string) (e : app_event) : Prop :=
  match e with ATx _ ms => ∃ l, tx_signers ms = Ok l ∧ a ∈ l | _ => False end.

(** C3.  Nobody's coins are taken without a signature: over any sequence of
    blocks and transactions of all modules, with failing messages among them, an
    account that signs no transaction and is not an account of a module ends with
    at least what it began with, in every denomination. *)
Theorem only_signers_pay {sdk : SDK} {L : SDKLaws sdk} {geth : Geth} {go : GoMap} TimestampProto
    sdk_BeginBlock sdk_EndBlock es s s' a :
  a ∉ ModuleAccountAddrs → sdk_blocks_spare sdk_BeginBlock sdk_EndBlock a →
  Forall (λ e, ¬ signs a e) es → app_run TimestampProto sdk_BeginBlock sdk_EndBlock es s = Ok s' →
  ∀ d, bank_balance (Bank s) a d ≤ bank_balance (Bank s') a d.
Proof.
  intros Hm Hsdk. unfold ModuleAccountAddrs, maccPerms in Hm. cbn in Hm.
  assert (clp_module_address ≠ a) as H1 by (unfold clp_module_address; set_solver).
  assert (module_address DispensationModule ≠ a) as H2 by set_solver.
  assert (module_address BridgeModuleName ≠ a) as H3 by set_solver.
  intros Hes. revert s. induction Hes as [|e es He Hes IH]; intros s H.
  { injection H as <-. intros d. lia. }
  apply app_run_cons in H as (s1 & E & H). intros d.
  apply Z.le_trans with (bank_balance (Bank s1) a d); [|by apply IH].
  destruct e as [h t|env ms|]; unfold app_step in E.
  - apply (commit_untaken a) in E as [_ Hb]; [apply Hb|by apply (app_BeginBlocker_untaken _ sdk_EndBlock)].
  - injection E as <-. apply (deliver_tx_untaken TimestampProto a env ms s H1 H2 H3). intros l Hl Hin.
    apply He. by exists l.
  - apply (commit_untaken a) in E as [_ Hb]; [apply Hb|by apply (app_EndBlocker_untaken sdk_BeginBlock)].
Qed.

Lemma is_ok_Ok {A} (r : res A) : is_ok r = true → ∃ a, r = Ok a.
Proof. destruct r; by eauto. Qed.

Lemma demo_mint_spares a : a ≠ "module/fee_collector"%string →
  @sdk_blocks_spare ref_sdk demo_mint demo_idle a.
Proof.
  intros Ha name b d. split; [|cbn; lia]. unfold demo_mint. case_test; [|cbn; lia].
  apply (mint_takes (sdk := ref_sdk) "fee_collector" [("fury", 7)] b a d).
Qed.

Lemma app_demo_ends :
  ∃ s', app_run (sdk := ref_sdk) (go := go_asc) Ok demo_mint demo_idle app_demo app_chain = Ok s'.
Proof.
  apply is_ok_Ok. vm_compute. reflexivity.
Qed.

Lemma app_demo_unsigned : Forall (λ e, ¬ signs "carol" e) app_demo.
Proof.
  unfold app_demo, app_demo_txs. cbn [map app fst snd].
  repeat apply Forall_cons_2; try apply Forall_nil_2; try (intros []; fail); intros (l & H & Hin);
    vm_compute in H; injection H as <-; repeat (apply elem_of_cons in Hin as [[=]|Hin]); by apply elem_of_nil in Hin.
Qed.

Lemma only_signers_pay_witness : ∃ s',
  app_run (sdk := ref_sdk) (go := go_asc) Ok demo_mint demo_idle app_demo app_chain = Ok s'
  ∧ bank_balance (Bank app_chain) "carol" "fury" ≤ bank_balance (Bank s') "carol" "fury".
Proof.
  destruct app_demo_ends as [s' E]. exists s'. split; [exact E|].
  apply (only_signers_pay (sdk := ref_sdk) (go := go_asc) Ok demo_mint demo_idle app_demo app_chain s' "carol").
  - intros H. vm_compute in H. repeat (apply elem_of_cons in H as [[=]|H]). by apply elem_of_nil in H.
  - apply demo_mint_spares. discriminate.
  - apply app_demo_unsigned.
  - exact E.
Defined.

(** ** Solvency of all modules *)

(** C2.  Whatever transactions of all modules are delivered, in any order and
    with failing messages among them, the account of the clp module covers the
    balances and the custody of all pools in every denomination, the account of
    the dispensation module covers every pending record, pools keep depth on both
    sides, and stored positions are well formed: no message of one module spends
    what another one owes.  Module accounts are assumed to sign nothing, amounts
    to be decoded integers, and positions to be opened between fury and another
    asset. *)
Theorem app_txs_solvent {sdk : SDK} {L : SDKLaws sdk} {geth : Geth} {go : GoMap} TimestampProto
    (txs : list (bridge_env * list app_msg)) (s : chain) :
  accounts_distinct → Forall (λ tx, Forall app_decoded tx.2) txs → app_inv s →
  let s' := deliver_txs TimestampProto txs s in
  (∀ d, claims s' d ≤ module_balance s' d) ∧ (∀ d, owed (DispensationState s') d ≤ held s' d)
  ∧ clp_wf s' ∧ margin_wf s'.
Proof.
  intros Ha Hd Hi s'. assert (app_inv s') as [[[W _ S] M] [_ D]].
  { unfold s', deliver_txs. clear s'. revert s Hi. induction Hd as [|tx txs Htx Hd IH]; intros s Hi; [done|].
    cbn. by apply IH, deliver_tx_inv. }
  split_and!; [| |done..]; intros d; specialize (S d); specialize (D d);
    unfold surplus, disp_surplus in *; lia.
Qed.

Lemma demo_accounts_distinct : accounts_distinct (sdk := ref_sdk).
Proof. split_and!; discriminate. Qed.

Lemma app_demo_decoded : Forall (λ tx, Forall app_decoded tx.2) app_demo_txs.
Proof.
  assert (∀ m, (∃ x, GetSigners m = Ok [x] ∧ x ∉ ["module/clp"; "module/dispensation"]%string) →
    ∀ l, GetSigners (sdk := ref_sdk) m = Ok l →
    (clp_module_address ∉ l) ∧ (module_address DispensationModule ∉ l)) as Hs.
  { intros m (x & Hx & Hn) l Hl. rewrite Hx in Hl. injection Hl as <-.
    change (clp_module_address (sdk := ref_sdk)) with "module/clp"%string.
    change (module_address (SDK := ref_sdk) DispensationModule) with "module/dispensation"%string. set_solver. }
  unfold app_demo_txs. repeat (apply Forall_cons_2; [|]); try apply Forall_nil_2; cbn [snd];
    repeat (apply Forall_cons_2; [|]); try apply Forall_nil_2;
    (split; [apply Hs; eexists; split; [vm_compute; reflexivity|set_solver]|cbn; try exact I]);
    split_and?; try apply account_bob; try concrete; unfold open_paired; cbn; auto.
Qed.

Lemma app_txs_solvent_witness : let s' := deliver_txs (sdk := ref_sdk) (go := go_asc) Ok app_demo_txs demo_chain in
  (∀ d, claims s' d ≤ module_balance s' d) ∧ (∀ d, owed (DispensationState s') d ≤ held s' d)
  ∧ clp_wf s' ∧ margin_wf s'.
Proof.
  apply (app_txs_solvent (sdk := ref_sdk) (go := go_asc) Ok app_demo_txs demo_chain).
  - apply demo_accounts_distinct.
  - apply app_demo_decoded.
  - split; [apply demo_dex_inv|apply demo_solvent].
Defined.

(** ** Blocks *)

(** C1.  The books stay in order over any sequence of blocks and transactions:
    the account of the clp module and the accounts of margin's funds cover the
    balances and the custody of all pools in every denomination (with no fund
    taking a share, [F] is empty and the module account covers them alone), the
    account of the dispensation module covers every pending record, the units of
    every pool are those of its providers, pools keep depth on both sides and
    stored positions are well formed.  Interest, forced closings, prices,
    distributions, rewards and minting are included, with every error in them that
    is only logged and every panic that is recovered; a panic that stops the chain
    ends the run.

    Conditions the code does not check.  Messages ([admitted]): the signers of clp
    messages and of opened positions are ordinary accounts in the spelling of the
    SDK ([upper_case_signer_overwrites] shows units that do not match otherwise),
    amounts are decoded integers, module accounts and funds sign nothing, positions
    are opened between fury and another asset ([unpaired_open_drains]), no pool is
    decommissioned, and an update of the parameters names no fund outside [F].
    Accounts: those of the three modules and the funds are different, and the
    modules of the SDK take nothing from them in a block.  Blocks ([payable]): where
    one ends, every distribution rate is between 0 and 1/2, every pool has two
    base units of fury and a provider ([rewards_without_providers],
    [whole_pool_paid_out]), and there are fewer providers than fit a page.  The
    run starts with books in order ([books_ok]). *)
Theorem app_run_solvent {sdk : SDK} {L : SDKLaws sdk} {geth : Geth} {go : GoMap} {G : GoMapLaws go} TimestampProto
    sdk_BeginBlock sdk_EndBlock (F : list string) es s s' :
  accounts_distinct → funds_apart F → sdk_spares F sdk_BeginBlock sdk_EndBlock →
  Forall (event_admitted F) es → ends_payable TimestampProto sdk_BeginBlock sdk_EndBlock es s →
  books_ok F s → app_run TimestampProto sdk_BeginBlock sdk_EndBlock es s = Ok s' →
  (∀ d, claims s' d ≤ module_balance s' d + zsum (λ f, bank_balance (Bank s') f d) F)
  ∧ (∀ d, owed (DispensationState s') d ≤ held s' d)
  ∧ clp_wf s' ∧ margin_wf s' ∧ units_match s'.
Proof.
  intros Hd Hf Hs He Hp Hb H.
  destruct (app_run_books TimestampProto F sdk_BeginBlock sdk_EndBlock Hd Hf Hs es s s' He Hp H Hb)
    as [W _ M U Lg [_ D] _].
  split_and!; [exact Lg| |done..]. intros d. specialize (D d). unfold disp_surplus in D. lia.
Qed.

(** The demonstration chain with a reward period and a provider distribution. *)
Definition block_chain : @chain ref_sdk := demo_chain
  <| RewardsParams := mkRewardParams 0 518400 [demo_period] "" |>
  <| DistributionPeriods := [mkProviderDistributionPeriod (3 * 10 ^ 15) 90 200 1] |>.
Definition fund : string := "fury1syavy2npfyt9tcncdtsdzf7kny9lh777yqc2nd".
(** The transactions above, and a second block. *)
Definition block_demo : list (@app_event ref_sdk) := app_demo ++ [ABeginBlock 102 "later"; AEndBlock].

(** [payable] as a computation. *)
Definition payable_check (s : @chain ref_sdk) : bool :=
  (Z.of_nat (length (kv_iterate (LiquidityProviders s))) <? MaxUint64)
  && forallb (λ p, (0 <=? DistributionPeriodBlockRate p) && (2 * DistributionPeriodBlockRate p <=? P18))
       (DistributionPeriods s)
  && forallb (λ kp, (2 <=? NativeAssetBalance kp.2)
       && existsb (λ kl, String.eqb kp.1 (pool_key (Symbol (LPAsset kl.2)))) (map_to_list (LiquidityProviders s)))
       (map_to_list (Pools s)).

Lemma payable_checked s : payable_check s = true → payable s.
Proof.
  unfold payable_check. intros [[Hl Hr]%andb_prop Hp]%andb_prop. rewrite forallb_forall in Hr, Hp.
  apply Z.ltb_lt in Hl. split.
  - intros p Hin%list_elem_of_In. specialize (Hr p Hin). bool_prop. lia.
  - intros k p Hk. assert (In (k, p) (map_to_list (Pools s))) as Hin by by apply list_elem_of_In, elem_of_map_to_list.
    specialize (Hp _ Hin). cbn in Hp. bool_prop. lia.
  - split; [done|]. intros k [p Hk].
    assert (In (k, p) (map_to_list (Pools s))) as Hin by by apply list_elem_of_In, elem_of_map_to_list.
    specialize (Hp _ Hin). cbn in Hp. apply andb_prop in Hp as [_ ([kl lp] & Hlp & He)%existsb_exists].
    exists kl, lp. split; [by apply elem_of_map_to_list, list_elem_of_In|by apply String.eqb_eq].
Qed.

Fixpoint ends_check (es : list app_event) (s : @chain ref_sdk) : bool :=
  match es with
  | [] => true
  | e :: es =>
      match e with AEndBlock => payable_check s | _ => true end
      && match app_step (go := go_asc) Ok demo_mint demo_idle e s with Ok s1 => ends_check es s1 | _ => true end
  end.

Lemma ends_checked es : ∀ s, ends_check es s = true →
  ends_payable (go := go_asc) Ok demo_mint demo_idle es s.
Proof.
  induction es as [|e es IH]; intros s H; [done|]. cbn [ends_check] in H. apply andb_prop in H as [H1 H2]. split.
  - intros ->. by apply payable_checked.
  - intros s1 Hs. rewrite Hs in H2. by apply IH.
Qed.

Lemma block_demo_ends :
  ∃ s', app_run (sdk := ref_sdk) (go := go_asc) Ok demo_mint demo_idle block_demo block_chain = Ok s'.
Proof. apply is_ok_Ok. vm_compute. reflexivity. Qed.

(** What the two blocks do: providers are paid, rewards are added, the position
    pays interest into the custody of its pool and to the fund. *)
Example block_demo_books :
  match app_run (sdk := ref_sdk) (go := go_asc) Ok demo_mint demo_idle block_demo block_chain with
  | Ok s => (map (λ kp, (kp.1, NativeAssetBalance kp.2, NativeCustody kp.2, RewardPeriodNativeDistributed kp.2))
               (map_to_list (Pools s)),
             ref_balance (Bank s) fund "fury", ref_balance (Bank s) "alice" "fury", module_balance s "fury")
  | _ => ([], 0, 0, 0)
  end = ([("cusdc_fury", 4977692, 0, 1056); ("ceth_fury", 2958526, 17767, 942)], 195, 47818, 7953985).
Proof. vm_compute. reflexivity. Qed.

Lemma block_demo_admitted : Forall (event_admitted [fund]) block_demo.
Proof.
  assert (Forall (λ tx, Forall (admitted [fund]) tx.2) app_demo_txs) as Ht.
  { pose proof app_demo_decoded as Hd. unfold app_demo_txs in *.
    repeat match goal with H : Forall _ (_ :: _) |- _ => apply Forall_cons_1 in H as [? ?] end.
    cbn [snd] in *. repeat (apply Forall_cons_2; [|]); try apply Forall_nil_2; cbn [snd];
    repeat match goal with H : Forall _ (_ :: _) |- _ => apply Forall_cons_1 in H as [? ?] end;
    repeat (apply Forall_cons_2; [|]); try apply Forall_nil_2;
    (split; [assumption|split; [reflexivity || exact I|]]);
    intros l f Hl ->%list_elem_of_singleton; vm_compute in Hl; injection Hl as <-; vm_compute; set_solver. }
  assert (∀ e, e = ABeginBlock 101 "later" ∨ e = AEndBlock ∨ e = ABeginBlock 102 "later" →
    event_admitted (sdk := ref_sdk) [fund] e) as He by (intros e [->|[->| ->]]; exact I).
  unfold block_demo, app_demo. rewrite !Forall_app, !Forall_cons, Forall_map, !Forall_nil.
  split_and!; try exact Ht; try exact I; apply He; auto.
Qed.

Lemma block_chain_books : books_ok [fund] block_chain.
Proof.
  split.
  - by apply (clp_wf_ext demo_chain); [..|apply demo_wf].
  - reflexivity.
  - apply demo_dex_inv.
  - exact demo_units.
  - intros d. pose proof (demo_surplus d) as H. unfold surplus in H. unfold reserve. cbn [zsum].
    change (claims block_chain d) with (claims demo_chain d).
    change (module_balance block_chain d) with (module_balance demo_chain d).
    assert (is_uint (ref_balance demo_bank fund d)) as Hf by (apply bank_bounded; vm_compute; reflexivity).
    change (bank_balance (Bank block_chain) fund d) with (ref_balance demo_bank fund d). unfold is_uint in Hf. lia.
  - exact demo_solvent.
  - split; right; intros a H; vm_compute in H; injection H as <-; apply list_elem_of_singleton; reflexivity.
Qed.

Lemma app_run_solvent_witness : ∃ s',
  app_run (sdk := ref_sdk) (go := go_asc) Ok demo_mint demo_idle block_demo block_chain = Ok s'
  ∧ (∀ d, claims s' d ≤ module_balance s' d + zsum (λ f, bank_balance (Bank s') f d) [fund])
  ∧ (∀ d, owed (DispensationState s') d ≤ held s' d)
  ∧ clp_wf s' ∧ margin_wf s' ∧ units_match s'.
Proof.
  destruct block_demo_ends as [s' E]. exists s'. split; [exact E|].
  apply (app_run_solvent (sdk := ref_sdk) (go := go_asc) Ok demo_mint demo_idle [fund] block_demo block_chain s').
  - apply demo_accounts_distinct.
  - intros f ->%list_elem_of_singleton. split_and!; discriminate.
  - intros a Ha. apply demo_mint_spares. intros ->.
    repeat (apply elem_of_cons in Ha as [[=]|Ha]). by apply elem_of_nil in Ha.
  - apply block_demo_admitted.
  - apply ends_checked. vm_compute. reflexivity.
  - apply block_chain_books.
  - exact E.
Defined.

(** A reward period that pays the providers adds the rewards of a pool without
    providers to the pool (rewards.go:77), and then burns them with what it could not
    pay out (rewards.go:113): the pools end with 999 base units of fury more, the
    module account with none. *)
Definition no_provider_chain : @chain ref_sdk := demo_chain
  <| LiquidityProviders := ∅ |>
  <| RewardsParams := mkRewardParams 0 518400 [demo_period <| RewardPeriodDistribute := true |>] "" |>.
Definition after_end (s : @chain ref_sdk) : @chain ref_sdk := (ClpBlock.EndBlocker (go := go_asc) s).2.

Example rewards_without_providers :
  surplus no_provider_chain "fury" = 0
  ∧ (NativeAssetBalance <$> Pools (after_end no_provider_chain) !! pool_key "cusdc") = Some 5000526
  ∧ (NativeAssetBalance <$> Pools (after_end no_provider_chain) !! pool_key "ceth") = Some 3000473
  ∧ surplus (after_end no_provider_chain) "fury" = -999.
Proof. vm_compute. split_and!; reflexivity. Qed.

(** MsgAddProviderDistributionPeriod admits a rate of one: a block then pays all of
    a pool's fury to its providers. *)
Example whole_pool_paid_out :
  let s := demo_chain <| DistributionPeriods := [mkProviderDistributionPeriod P18 90 200 1] |> in
  MsgAddProviderDistributionPeriod_ValidateBasic (sdk := ref_sdk) "root" (DistributionPeriods s) = Ok ()
  ∧ (NativeAssetBalance <$> Pools (after_end s) !! pool_key "cusdc") = Some 0.
Proof. vm_compute. split; reflexivity. Qed.

(** ** Minting in a block *)
Section Minting.
Context {sdk : SDK} {L : SDKLaws sdk} {geth : Geth} {go : GoMap} (eco : string) (R : mint_ready eco).
Context (sdk_BeginBlock : string → M bank ()).

(** Some account other than that of the clp module. *)
Definition somebody : string := ("x" ++ clp_module_address)%string.
Lemma not_somebody : clp_module_address ≠ somebody.
Proof.
  unfold somebody. generalize clp_module_address. intros m H. apply (f_equal String.length) in H.
  change (String.length m = S (String.length m)) in H. lia.
Qed.

(** The other modules leave the counter alone. *)
Lemma other_modules_count name s : name ≠ DispensationModule →
  counted (module_BeginBlock sdk_BeginBlock name s).2 = counted s.
Proof.
  intros Hn%String.eqb_neq. unfold module_BeginBlock. rewrite Hn. pose proof not_somebody as Hs.
  case_test; [pose proof (moves_margin_BeginBlocker _ Hs s) as [[= _ _ _ _ H] _]; by unfold counted; rewrite H|].
  case_test; [pose proof (moves_BeginBlocker somebody s) as [[= _ _ _ _ _ H] _]; by unfold counted; rewrite H|].
  case_test; [done|]. unfold onBank. by destruct (sdk_BeginBlock name (Bank s)).
Qed.

Lemma dispensation_counts s c : counted s = Some (NativeSymbol, c) → 0 ≤ c ≤ MaxMintAmount →
  counted (DispensationBeginBlocker s).2 = Some (NativeSymbol, next_count c).
Proof.
  intros Hs Hc. destruct (decide (c < MaxMintAmount)) as [Hlt|Hge].
  - destruct (block_mints eco R s c Hs ltac:(lia)) as (s' & -> & H & _). exact H.
  - rewrite (block_stops eco R s c Hs) by lia. cbn [snd]. rewrite Hs. unfold next_count, MintAmountPerBlock.
    do 2 f_equal. lia.
Qed.

(** How often a list of modules runs the dispensation module. *)
Definition mints (names : list string) : Z :=
  Z.of_nat (length (filter (λ n, n = DispensationModule) names)).

Lemma begin_blocks_count names : ∀ s s' c,
  counted s = Some (NativeSymbol, c) → 0 ≤ c ≤ MaxMintAmount →
  forM names (λ name, try (module_BeginBlock sdk_BeginBlock name);; mret ()) s = (Ok (), s') →
  counted s' = Some (NativeSymbol, Z.min MaxMintAmount (c + mints names * MintAmountPerBlock)).
Proof.
  induction names as [|n names IH]; intros s s' c Hs Hc H.
  { injection H as <-. rewrite Hs. change (mints []) with 0. do 2 f_equal. lia. }
  apply M_bind_Ok in H as ([] & s1 & H1 & H). apply M_bind_Ok in H1 as (r & s2 & H1 & [_ ->]%mret_Ok).
  assert (s2 = (module_BeginBlock sdk_BeginBlock n s).2) as ->.
  { unfold try in H1. destruct (module_BeginBlock _ _ s) as [[] ?]; by injection H1 as _ <-. }
  unfold mints. rewrite filter_cons. destruct (decide (n = DispensationModule)) as [->|Hn].
  - cbn [length]. rewrite Nat2Z.inj_succ.
    change (module_BeginBlock sdk_BeginBlock DispensationModule) with DispensationBeginBlocker in H.
    rewrite (IH _ s' (next_count c) (dispensation_counts s c Hs Hc));
      [|unfold next_count, MintAmountPerBlock; lia|done].
    unfold mints, next_count, MintAmountPerBlock. do 2 f_equal. lia.
  - eapply IH; [|done|exact H]. by rewrite other_modules_count.
Qed.
End Minting.

Lemma forM_try_Err {S A} (l : list A) (body : A → M S ()) : ∀ s e s',
  forM l (λ x, try (body x);; mret ()) s = (Err e, s') → False.
Proof.
  induction l as [|x l IH]; intros s e s' H; [done|]. cbn in H. unfold mbind, M_bind, try in H.
  destruct (body x s) as [[] s1]; cbn in H; [by eapply IH|by eapply IH|done].
Qed.

Lemma demo_block_begins : ∃ s',
  app_step (sdk := ref_sdk) (go := go_asc) Ok demo_mint demo_idle (ABeginBlock 101 "later") demo_chain = Ok s'.
Proof. apply is_ok_Ok. vm_compute. reflexivity. Qed.

(** C21.  A block counts, and mints, twice the amount a block is meant to mint:
    SetOrderBeginBlockers lists the dispensation module twice (as
    [disptypes.ModuleName] and as [dispensation.ModuleName], the same name), so its
    BeginBlocker runs twice in every block that does not stop the chain.  The
    maximum still holds. *)
Theorem block_mints_twice {sdk : SDK} {L : SDKLaws sdk} {geth : Geth} {go : GoMap} TimestampProto
    sdk_BeginBlock sdk_EndBlock eco height time s s' c :
  mint_ready eco → counted s = Some (NativeSymbol, c) → 0 ≤ c ≤ MaxMintAmount →
  app_step TimestampProto sdk_BeginBlock sdk_EndBlock (ABeginBlock height time) s = Ok s' →
  counted s' = Some (NativeSymbol, Z.min MaxMintAmount (c + 2 * MintAmountPerBlock)).
Proof.
  intros R Hs Hc H. unfold app_step, commit in H.
  destruct (app_BeginBlocker sdk_BeginBlock _) as [[[]|e|] s1] eqn:E; [|by apply forM_try_Err in E|done].
  injection H as <-. unfold app_BeginBlocker in E.
  by apply (begin_blocks_count eco R sdk_BeginBlock OrderBeginBlockers _ _ c) in E.
Qed.

Lemma block_mints_twice_witness : ∃ s',
  app_step (sdk := ref_sdk) (go := go_asc) Ok demo_mint demo_idle (ABeginBlock 101 "later") demo_chain = Ok s'
  ∧ counted s' = Some (NativeSymbol, 450000000000000000000).
Proof.
  destruct demo_block_begins as [s' E]. exists s'. split; [exact E|].
  apply (block_mints_twice (sdk := ref_sdk) (go := go_asc) Ok demo_mint demo_idle EcoPool 101 "later"
    demo_chain s' 0 demo_mint_ready eq_refl ltac:(vm_compute; split; discriminate) E).
Defined.
