(* ===== verification/IbcTransfer.v ===== *)
(** * The IBC transfer wrapper

    x/ibctransfer wraps the transfer module of ibc-go: only whitelisted
    denominations pass, and coins that arrive in a denomination with fewer
    decimals than the one the chain uses are converted on arrival.  This file
    holds helpers/conversion_helper.go, onrecv_packet.go, the message server,
    types/keys.go and the channel callbacks of module.go.

    ibc-go is not part of the repository: what the wrapper calls of it, and the
    hash of the Go library, are the class [IBC]. *)
From S2P Require Import Prelude Sdk ClpCalc Admin TokenRegistry Chain Ledger.

Record Packet := mkPacket {
  SourcePort : string;
  SourceChannel : string;
  DestPort : string;
  DestChannel : string;
  PacketData : string
}.

Record FungibleTokenPacketData := mkPacketData {
  DataDenom : string;
  DataAmount : string;
  DataSender : string;
  DataReceiver : string
}.

Record DenomTrace := mkDenomTrace { TracePath : string; TraceBaseDenom : string }.

Record MsgTransfer := mkMsgTransfer {
  TransferPort : string;
  TransferChannel : string;
  TransferToken : coin;
  TransferSender : string;
  TransferReceiver : string
}.

Record Counterparty := mkCounterparty { CounterpartyPort : string; CounterpartyChannel : string }.

Inductive Acknowledgement := AckError (e : error) | AckResult.

Class IBC {sdk : SDK} := {
  unmarshal_packet : string → res FungibleTokenPacketData;
  ReceiverChainIsSource : string → string → string → bool;
  GetDenomPrefix : string → string → string;
  ParseDenomTrace : string → DenomTrace;
  IBCDenom : DenomTrace → string;
  sdk_OnRecvPacket : Packet → FungibleTokenPacketData → M chain ();
  sdk_Transfer : MsgTransfer → M chain ();
  sha256 : string → string
}.

Section Ibc.
Context {sdk : SDK} {ibc : IBC}.

(** ** types/keys.go *)
Definition IbcModuleName : string := "scibctransfer".
Definition Version : string := "ics20-sc.1".

Definition GetEscrowAddress (portID channelID : string) : string :=
  let contents := (portID ++ "/" ++ channelID)%string in
  let preImage := (Version ++ String (Ascii.ascii_of_nat 0) contents)%string in
  String.substring 0 20 (sha256 preImage).

(** ** helpers/conversion_helper.go *)

Definition IncreasePrecision (dec po : Z) : res Z := p ← d_pow (NewDec 10) po; d_mul_trunc dec p.
Definition ReducePrecision (dec po : Z) : res Z := p ← d_pow (NewDec 10) po; d_quo_trunc dec p.

(** [sdk.NewIntFromBigInt(dec.TruncateInt().BigInt())] *)
Definition truncate_int (dec : Z) : res Z := x ← d_trunc dec; i_of_big x.

Definition ConvertCoinsForTransfer (msg : MsgTransfer) (sendEntry sendAsEntry : RegistryEntry)
    : res (coin * coin) :=
  let po := u64 (i64 (Decimals sendEntry - Decimals sendAsEntry)) in
  let decAmount := d_of_big (TransferToken msg).2 in
  convAmountDec ← ReducePrecision decAmount po;
  convAmount ← truncate_int convAmountDec;
  convToken ← new_coin (IbcCounterpartyDenom sendEntry) convAmount;
  tokenAmountDec ← IncreasePrecision (d_of_big convAmount) po;
  tokenAmount ← truncate_int tokenAmountDec;
  token ← new_coin (TransferToken msg).1 tokenAmount;
  Ok (token, convToken).

Definition PrepareToSendConvertedCoins (msg : MsgTransfer) (token convToken : coin) : M chain () :=
  sender ← lift (acc_from_bech32 (TransferSender msg));
  let escrowAddress := GetEscrowAddress (TransferPort msg) (TransferChannel msg) in
  coins ← lift (new_coins [token]);
  onBank (bank_send sender escrowAddress coins);;
  convCoins ← lift (new_coins [convToken]);
  onBank (bank_mint IbcModuleName convCoins);;
  onBank (bank_send_mod_to_acc IbcModuleName sender convCoins).

Definition IsRecvPacketAllowed (packet : Packet) (data : FungibleTokenPacketData)
    (mintedDenomEntry : RegistryEntry) : bool :=
  if ReceiverChainIsSource (SourcePort packet) (SourceChannel packet) (DataDenom data) then true
  else CheckEntryPermissions mintedDenomEntry [Permission_IBCIMPORT].

(** [s[n:]] *)
Definition slice_from (s : string) (n : nat) : res string :=
  if (String.length s <? n)%nat then Panic
  else Ok (String.substring n (String.length s - n) s).

Definition GetMintedDenomFromPacket (packet : Packet) (data : FungibleTokenPacketData) : res string :=
  if ReceiverChainIsSource (SourcePort packet) (SourceChannel packet) (DataDenom data) then
    denom ← slice_from (DataDenom data)
              (String.length (GetDenomPrefix (SourcePort packet) (SourceChannel packet)));
    let denomTrace := ParseDenomTrace denom in
    Ok (if negb (String.eqb (TracePath denomTrace) "") then IBCDenom denomTrace else denom)
  else Ok (IBCDenom (ParseDenomTrace
             (GetDenomPrefix (DestPort packet) (DestChannel packet) ++ DataDenom data)%string)).

Definition ConvertIncomingCoins (amount : string) (diff : Z) : res Z :=
  match i_of_str amount with
  | None => Err (EOther "Failed to convert to int from string")
  | Some intAmount => dec ← IncreasePrecision (d_of_big intAmount) diff; truncate_int dec
  end.

Definition ExecConvForIncomingCoins (mintedDenomEntry convertToDenomEntry : RegistryEntry)
    (packet : Packet) (data : FungibleTokenPacketData) : M chain () :=
  receiver ← lift (acc_from_bech32 (DataReceiver data));
  amount ← lift (match i_of_str (DataAmount data) with
                 | Some x => Ok x | None => Err (EOther "Unable to get string amount") end);
  incomingCoins ← lift (one_coin (Denom mintedDenomEntry) amount);
  onBank (bank_send_acc_to_mod receiver IbcModuleName incomingCoins);;
  onBank (bank_burn IbcModuleName incomingCoins);;
  finalCoins ← lift (one_coin (Denom convertToDenomEntry) amount);
  finalCoins ← (if Decimals mintedDenomEntry <? Decimals convertToDenomEntry then
                  let diff := u64 (i64 (Decimals convertToDenomEntry - Decimals mintedDenomEntry)) in
                  convAmount ← lift (ConvertIncomingCoins (DataAmount data) diff);
                  lift (one_coin (Denom convertToDenomEntry) convAmount)
                else mret finalCoins);
  let escrowAddress := GetEscrowAddress (DestPort packet) (DestChannel packet) in
  onBank (bank_send escrowAddress receiver finalCoins).

(** ** onrecv_packet.go *)

Definition EDenomNotWhitelisted : error := EOther "denom not whitelisted".

Definition needs_conversion (minted convertTo : RegistryEntry) : bool :=
  (0 <? Decimals convertTo) && (0 <? Decimals minted) && (Decimals minted <? Decimals convertTo).

Definition OnRecvPacketWhitelistConvert (packet : Packet) : M chain Acknowledgement :=
  data ← try (lift (unmarshal_packet (PacketData packet)));
  match data with
  | inr e => mret (AckError e)
  | inl data =>
      received ← try (sdk_OnRecvPacket packet data);
      match received with
      | inr e => mret (AckError e)
      | inl _ =>
          mintedDenom ← lift (GetMintedDenomFromPacket packet data);
          registry ← gets TokenRegistry;
          match GetEntry registry mintedDenom with
          | Ok mintedDenomEntry =>
              if negb (IsRecvPacketAllowed packet data mintedDenomEntry)
              then mret (AckError EDenomNotWhitelisted) else
              match GetEntry registry (UnitDenom mintedDenomEntry) with
              | Ok convertToDenomEntry =>
                  if needs_conversion mintedDenomEntry convertToDenomEntry then
                    r ← try (ExecConvForIncomingCoins mintedDenomEntry convertToDenomEntry packet data);
                    match r with
                    | inr _ => mret (AckError (EIbc ErrConvertingToUnitDenom))
                    | inl _ => mret AckResult
                    end
                  else mret AckResult
              | _ => mret AckResult
              end
          | _ => mret (AckError EDenomNotWhitelisted)
          end
      end
  end.

(** How the IBC core runs the callback: an error acknowledgement discards what
    it wrote. *)
Definition receive_packet (packet : Packet) (s : chain) : res Acknowledgement * chain :=
  match OnRecvPacketWhitelistConvert packet s with
  | (Ok AckResult, s') => (Ok AckResult, s')
  | (r, _) => (r, s)
  end.

(** ** keeper/msg_server.go *)

Definition msg_Transfer (msg : MsgTransfer) : M chain () :=
  registry ← gets TokenRegistry;
  registryEntry ← lift (wrap (ERegistry ErrPermissionDenied) (GetEntry registry (TransferToken msg).1));
  lift (ensure (negb (negb (String.eqb (UnitDenom registryEntry) "")
                      && negb (String.eqb (UnitDenom registryEntry) (Denom registryEntry))))
          (ERegistry ErrPermissionDenied));;
  lift (ensure (CheckEntryPermissions registryEntry [Permission_IBCEXPORT]) (ERegistry ErrPermissionDenied));;
  lift (ensure (negb ((TransferToken msg).2 <=? 0)) (EIbc ErrAmountTooLowToConvert));;
  sdk_Transfer msg.

(** ** module.go *)

(** The callbacks of a module that owns a port (porttypes.IBCModule), by which the IBC core
    opens and closes channels and delivers packets, acknowledgements and timeouts. *)
Record IBCModule := mkIBCModule {
  ibc_NegotiateAppVersion : Z → string → string → Counterparty → string → M chain string;
  ibc_OnChanOpenInit : Z → list string → string → string → Z → Counterparty → string → M chain ();
  ibc_OnChanOpenTry : Z → list string → string → string → Z → Counterparty → string → string → M chain ();
  ibc_OnChanOpenAck : string → string → string → M chain ();
  ibc_OnChanOpenConfirm : string → string → M chain ();
  ibc_OnChanCloseInit : string → string → M chain ();
  ibc_OnChanCloseConfirm : string → string → M chain ();
  ibc_OnRecvPacket : Packet → string → M chain Acknowledgement;
  ibc_OnAcknowledgementPacket : Packet → string → string → M chain ();
  ibc_OnTimeoutPacket : Packet → string → M chain ()
}.

(** The wrapped module of ibc-go, am.cosmosAppModule. *)
Context (cosmosAppModule : IBCModule).

Definition NegotiateAppVersion (order : Z) (connectionID portID : string) (counterparty : Counterparty)
    (proposedVersion : string) : M chain string :=
  ibc_NegotiateAppVersion cosmosAppModule order connectionID portID counterparty proposedVersion.

Definition OnChanOpenInit (order : Z) (connectionHops : list string) (portID channelID : string)
    (channelCap : Z) (counterparty : Counterparty) (version : string) : M chain () :=
  ibc_OnChanOpenInit cosmosAppModule order connectionHops portID channelID channelCap counterparty version.

Definition OnChanOpenTry (order : Z) (connectionHops : list string) (portID channelID : string)
    (channelCap : Z) (counterparty : Counterparty) (version counterpartyVersion : string) : M chain () :=
  ibc_OnChanOpenTry cosmosAppModule order connectionHops portID channelID channelCap counterparty version
    counterpartyVersion.

Definition OnChanOpenAck (portID channelID counterpartyVersion : string) : M chain () :=
  ibc_OnChanOpenAck cosmosAppModule portID channelID counterpartyVersion.

Definition OnChanOpenConfirm (portID channelID : string) : M chain () :=
  ibc_OnChanOpenConfirm cosmosAppModule portID channelID.

Definition OnChanCloseInit (portID channelID : string) : M chain () :=
  ibc_OnChanCloseInit cosmosAppModule portID channelID.

Definition OnChanCloseConfirm (portID channelID : string) : M chain () :=
  ibc_OnChanOpenConfirm cosmosAppModule portID channelID.

Definition OnRecvPacket (packet : Packet) (relayer : string) : M chain Acknowledgement :=
  OnRecvPacketWhitelistConvert packet.

Definition OnAcknowledgementPacket (packet : Packet) (acknowledgement relayer : string) : M chain () :=
  ibc_OnAcknowledgementPacket cosmosAppModule packet acknowledgement relayer.

Definition OnTimeoutPacket (packet : Packet) (relayer : string) : M chain () :=
  ibc_OnTimeoutPacket cosmosAppModule packet relayer.

(** What the application registers for the transfer port. *)
Definition AppModule : IBCModule :=
  mkIBCModule NegotiateAppVersion OnChanOpenInit OnChanOpenTry OnChanOpenAck OnChanOpenConfirm
    OnChanCloseInit OnChanCloseConfirm OnRecvPacket OnAcknowledgementPacket OnTimeoutPacket.
End Ibc.
