(* ===== verification/IbcClaims.v ===== *)
(** * Theorems about the IBC transfer wrapper

    Converting an amount for transfer and back loses only what was not
    transferred, and a received packet is either refused without a trace or
    exchanged at the fixed rate against coins in escrow. *)
From S2P Require Import Prelude Sdk Reference ClpCalc Admin TokenRegistry Chain Ledger.
From S2P Require Import IbcTransfer Demo.

Section Precision.
Context {sdk : SDK} {L : SDKLaws sdk}.

Lemma pow10_pos n : 0 ≤ n → 0 < 10 ^ n.
Proof. intros. by apply Z.pow_pos_nonneg. Qed.

Lemma pow_ten n : 0 ≤ n ≤ 76 → d_pow (NewDec 10) n = Ok (10 ^ n * P18).
Proof. intros. unfold NewDec. rewrite d_of_big_law. by apply d_pow_ten. Qed.

Lemma truncate_int_val dec r : truncate_int dec = Ok r → r = Z.quot dec P18.
Proof. unfold truncate_int. intros H. inv_ok. apply i_of_big_val in H as ->. by apply d_trunc_val. Qed.

Lemma truncate_int_total x : Z.abs x < 2 ^ 255 → truncate_int (x * P18) = Ok x.
Proof.
  intros Hx. unfold truncate_int. pose proof P18_pos. rewrite d_trunc_total by (rewrite Z.abs_mul; nia).
  cbn. rewrite Z.quot_mul by lia. by apply i_of_big_total.
Qed.

Lemma IncreasePrecision_val x n r : 0 ≤ n ≤ 76 → IncreasePrecision (x * P18) n = Ok r →
  r = x * 10 ^ n * P18.
Proof.
  unfold IncreasePrecision. intros Hn. rewrite (pow_ten n Hn). cbn.
  intros ->%d_mul_trunc_val. pose proof P18_pos.
  replace (x * P18 * (10 ^ n * P18)) with (x * 10 ^ n * P18 * P18) by ring.
  apply Z.quot_mul. lia.
Qed.

Lemma IncreasePrecision_total x n : 0 ≤ n ≤ 76 → 0 ≤ x → x * 10 ^ n < 2 ^ 255 →
  IncreasePrecision (x * P18) n = Ok (x * 10 ^ n * P18).
Proof.
  intros Hn Hx Hb. pose proof (pow10_pos n ltac:(lia)).
  assert (∃ r, IncreasePrecision (x * P18) n = Ok r) as [r Hr].
  { unfold IncreasePrecision. rewrite (pow_ten n Hn). cbn. eexists. apply d_mul_trunc_total.
    replace (x * P18 * (10 ^ n * P18)) with (x * 10 ^ n * P18 * P18) by ring.
    assert (x * 10 ^ n * P18 ≤ dec_max) by (unfold dec_max, P18 in *; lia).
    pose proof P18_pos. rewrite Z.abs_eq by nia. nia. }
  rewrite Hr. f_equal. by apply IncreasePrecision_val.
Qed.

Lemma ReducePrecision_total x n : 0 ≤ n ≤ 76 → 0 ≤ x < 2 ^ 255 →
  ReducePrecision (x * P18) n = Ok (x * P18 / 10 ^ n).
Proof.
  intros Hn Hx. pose proof (pow10_pos n ltac:(lia)). pose proof P18_pos.
  unfold ReducePrecision. rewrite (pow_ten n Hn). cbn.
  rewrite d_quo_trunc_total; [f_equal|nia|].
  - rewrite !Z.quot_div_nonneg; [|nia..|apply Z.quot_pos; nia|lia].
    rewrite Z.div_mul_cancel_r, Zdiv_Zdiv by lia. by rewrite Z.div_mul_cancel_r by lia.
  - assert (x * P18 ≤ dec_max) by (unfold dec_max, P18; lia).
    rewrite !Z.abs_eq by nia. transitivity (dec_max * P18); [nia|].
    apply Z.mul_le_mono_nonneg_l; [done|nia].
Qed.

Lemma truncate_int_floor x n : 0 ≤ n ≤ 76 → 0 ≤ x < 2 ^ 255 →
  truncate_int (x * P18 / 10 ^ n) = Ok (x / 10 ^ n).
Proof.
  intros Hn Hx. pose proof (pow10_pos n ltac:(lia)). pose proof P18_pos. unfold truncate_int.
  assert (0 ≤ x * P18 / 10 ^ n ≤ x * P18) as Hq.
  { split; [apply Z.div_pos; nia|apply Z.div_le_upper_bound; nia]. }
  assert (0 ≤ x / 10 ^ n ≤ x) by (split; [apply Z.div_pos; nia|apply Z.div_le_upper_bound; nia]).
  rewrite d_trunc_total by nia. cbn. rewrite Z.quot_div_nonneg, Zdiv_Zdiv by lia.
  rewrite Z.div_mul_cancel_r by lia. apply i_of_big_total. lia.
Qed.
End Precision.

(** C23.  Converting an amount for transfer to a denomination with fewer decimals
    takes from the sender the largest multiple of the conversion rate that is not
    above the amount; the counterparty gets that multiple divided by the rate, and
    when it comes back the conversion of incoming coins yields exactly what was
    taken.  Nothing panics for amounts of 255 bits. *)
Theorem conversion_round_trip {sdk : SDK} {L : SDKLaws sdk} msg sendEntry sendAsEntry :
  let po := Decimals sendEntry - Decimals sendAsEntry in
  let (denom, amount) := TransferToken msg in
  0 ≤ po ≤ 76 → 0 ≤ amount < 2 ^ 255 →
  valid_denom denom = true → valid_denom (IbcCounterpartyDenom sendEntry) = true →
  ∃ taken converted,
    ConvertCoinsForTransfer msg sendEntry sendAsEntry
      = Ok ((denom, taken), (IbcCounterpartyDenom sendEntry, converted))
    ∧ taken = converted * 10 ^ po ∧ 0 ≤ amount - taken < 10 ^ po
    ∧ ∀ str, i_of_str str = Some converted → ConvertIncomingCoins str (u64 po) = Ok taken.
Proof.
  cbn zeta. destruct (TransferToken msg) as [denom amount] eqn:Ht. intros Hpo Ha Hd Hc.
  unfold ConvertCoinsForTransfer, ConvertIncomingCoins. rewrite Ht. cbn.
  rewrite i64_id, u64_id by lia.
  remember (Decimals sendEntry - Decimals sendAsEntry) as po eqn:Epo. clear Epo Ht.
  pose proof (pow10_pos po ltac:(lia)). pose proof (Z.div_mod amount (10 ^ po) ltac:(lia)) as Hdm.
  pose proof (Z.mod_pos_bound amount (10 ^ po) ltac:(lia)).
  set (v := amount / 10 ^ po) in *. assert (0 ≤ v ≤ amount) by nia.
  rewrite d_of_big_law, ReducePrecision_total by done. cbn.
  assert (truncate_int (amount * P18 / 10 ^ po) = Ok v) as ->.
  { apply truncate_int_floor; done. }
  cbn. rewrite !new_coin_law, Hc, (proj2 (Z.leb_le 0 v)) by lia. cbn.
  rewrite d_of_big_law, IncreasePrecision_total by nia. cbn.
  rewrite truncate_int_total by (rewrite Z.abs_eq; nia). cbn.
  rewrite new_coin_law, Hd, (proj2 (Z.leb_le 0 (v * 10 ^ po))) by nia. cbn.
  exists (v * 10 ^ po), v. split_and!; [done|done|nia|nia|].
  intros str ->. rewrite d_of_big_law, IncreasePrecision_total by nia. cbn.
  rewrite truncate_int_total by (rewrite Z.abs_eq; nia). done.
Qed.

Definition demo_transfer (amount : Z) : MsgTransfer :=
  mkMsgTransfer "transfer" "channel-0" ("cdash", amount) "bob" "cosmos1".
Definition demo_alias : RegistryEntry :=
  mkRegistryEntry 10 "xdash" "xdash" "" "" "" "" "" "" "" "" "" [Permission_IBCIMPORT] "cdash" "" "".
Definition demo_unit : RegistryEntry :=
  mkRegistryEntry 18 "cdash" "cdash" "" "" "" "" "" "" "" "" "" [] "cdash" "xdash" "".

Lemma conversion_round_trip_witness :
  ∃ taken converted,
    ConvertCoinsForTransfer (sdk := ref_sdk) (demo_transfer 1234567899) demo_unit demo_alias
      = Ok (("cdash", taken), ("xdash", converted))
    ∧ taken = 1200000000 ∧ converted = 12
    ∧ ConvertIncomingCoins (sdk := ref_sdk) "12" 8 = Ok taken.
Proof.
  destruct (conversion_round_trip (sdk := ref_sdk) (demo_transfer 1234567899) demo_unit demo_alias
    ltac:(vm_compute; split; intro H; discriminate H) ltac:(vm_compute; split; [intro H; discriminate H|reflexivity])
    eq_refl eq_refl) as (t & v & Hv & Ht & _ & Hback).
  exists t, v. split; [exact Hv|]. vm_compute in Hv. injection Hv as <- <-.
  split_and!; [reflexivity..|]. apply (Hback "12"). vm_compute. reflexivity.
Defined.

(** ** Received packets *)
Section Receive.
Context {sdk : SDK} {L : SDKLaws sdk} {ibc : IBC}.

(** What a conversion does: the receiver's [amount] of the incoming denomination
    is burned, and the escrow account pays [paid] of the chain's denomination. *)
Definition converted_change (receiver escrow incoming unit : string) (amount paid : Z) (a d : string) : Z :=
  at_account receiver (only unit paid) a d - at_account escrow (only unit paid) a d
  - at_account receiver (only incoming amount) a d.

Lemma ExecConvForIncomingCoins_Ok minted convertTo packet data s s' :
  Decimals minted < Decimals convertTo ≤ Decimals minted + 76 →
  ExecConvForIncomingCoins minted convertTo packet data s = (Ok (), s') →
  ∃ receiver amount, acc_from_bech32 (DataReceiver data) = Ok receiver
    ∧ i_of_str (DataAmount data) = Some amount ∧ 0 ≤ amount
    ∧ balances_change s s'
        (converted_change receiver (GetEscrowAddress (DestPort packet) (DestChannel packet))
           (Denom minted) (Denom convertTo) amount
           (amount * 10 ^ (Decimals convertTo - Decimals minted))).
Proof.
  intros Hdec. unfold ExecConvForIncomingCoins. rewrite (proj2 (Z.ltb_lt _ _)) by lia.
  rewrite i64_id, u64_id by lia. remember (Decimals convertTo - Decimals minted) as po.
  intros H. inv_ok. unfold ConvertIncomingCoins in *.
  destruct (i_of_str (DataAmount data)) as [amount|] eqn:Ea; [|done]. inv_ok.
  rewrite d_of_big_law in *.
  repeat match goal with
  | E : IncreasePrecision _ _ = Ok _ |- _ => apply IncreasePrecision_val in E as ->; [|lia]
  | E : truncate_int _ = Ok _ |- _ => apply truncate_int_val in E as ->
  | E : one_coin _ _ = Ok _ |- _ => apply one_coin_val in E as [? ?]
  end.
  rewrite Z.quot_mul in * by (pose proof P18_pos; lia).
  repeat match goal with u : () |- _ => destruct u end.
  eexists _, _. split_and!; [done..|].
  eapply onBank_send_acc_to_mod in E2; [|done]. eapply onBank_burn in E3; [|done].
  eapply onBank_send in H; [|done].
  intros a d. rewrite (H a d), (E3 a d), (E2 a d). unfold converted_change. lia.
Qed.

Lemma OnRecvPacket_inv packet s s' : OnRecvPacketWhitelistConvert packet s = (Ok AckResult, s') →
  ∃ data s1 denom minted, unmarshal_packet (PacketData packet) = Ok data
    ∧ sdk_OnRecvPacket packet data s = (Ok (), s1)
    ∧ GetMintedDenomFromPacket packet data = Ok denom
    ∧ GetEntry (TokenRegistry s1) denom = Ok minted
    ∧ IsRecvPacketAllowed packet data minted = true
    ∧ match GetEntry (TokenRegistry s1) (UnitDenom minted) with
      | Ok convertTo => if needs_conversion minted convertTo
                        then ExecConvForIncomingCoins minted convertTo packet data s1 = (Ok (), s')
                        else s' = s1
      | _ => s' = s1
      end.
Proof.
  unfold OnRecvPacketWhitelistConvert. intros H. inv_ok.
  apply try_Ok in E as [(data & -> & Hd)|(e & -> & _)]; [|by inv_ok]. inv_ok.
  apply try_Ok in E as [([] & -> & Hr)|(e & -> & _)]; [|by inv_ok]. inv_ok.
  destruct (GetEntry _ _) as [minted| |] eqn:Em; [|by inv_ok..].
  destruct (IsRecvPacketAllowed _ _ _) eqn:Ea; [cbn in H|by inv_ok].
  eexists _, _, _, minted. split_and!; [done..|].
  destruct (GetEntry _ (UnitDenom minted)) as [convertTo| |]; [|by inv_ok..].
  destruct (needs_conversion _ _); [|by inv_ok]. inv_ok.
  by match goal with E : try _ _ = _ |- _ =>
    apply try_Ok in E as [([] & -> & ?)|(e & -> & _)]; inv_ok end.
Qed.
End Receive.

(** C22.  A received packet is either refused, and then no state changes, or
    accepted, and then its denomination is registered (with the import
    permission unless the coins return home) and the state is that of the plain
    transfer, except that an alias with fewer decimals is exchanged: exactly the
    received coins of the receiver are burned and the escrow account of the
    channel pays the amount times ten to the difference of the decimals. *)
Theorem receive_packet_converts {sdk : SDK} {L : SDKLaws sdk} {ibc : IBC} packet s ack s' :
  receive_packet packet s = (Ok ack, s') →
  match ack with
  | AckError _ => s' = s
  | AckResult => ∃ data s1 denom minted,
      unmarshal_packet (PacketData packet) = Ok data
      ∧ sdk_OnRecvPacket packet data s = (Ok (), s1)
      ∧ GetMintedDenomFromPacket packet data = Ok denom
      ∧ GetEntry (TokenRegistry s1) denom = Ok minted
      ∧ IsRecvPacketAllowed packet data minted = true
      ∧ match GetEntry (TokenRegistry s1) (UnitDenom minted) with
        | Ok convertTo =>
            if needs_conversion minted convertTo then
              Decimals convertTo ≤ Decimals minted + 76 →
              ∃ receiver amount, acc_from_bech32 (DataReceiver data) = Ok receiver
                ∧ i_of_str (DataAmount data) = Some amount ∧ 0 ≤ amount
                ∧ balances_change s1 s'
                    (converted_change receiver (GetEscrowAddress (DestPort packet) (DestChannel packet))
                       (Denom minted) (Denom convertTo) amount
                       (amount * 10 ^ (Decimals convertTo - Decimals minted)))
            else s' = s1
        | _ => s' = s1
        end
  end.
Proof.
  unfold receive_packet. destruct (OnRecvPacketWhitelistConvert packet s) as [[[e|]| |] s2] eqn:E;
    intros [= <- <-]; [done|].
  apply OnRecvPacket_inv in E as (data & s1 & denom & minted & Hd & Hr & Hm & He & Ha & Hc).
  exists data, s1, denom, minted. split_and!; [done..|].
  destruct (GetEntry _ (UnitDenom minted)) as [convertTo| |]; [|done..].
  destruct (needs_conversion minted convertTo) eqn:En; [|done].
  intros Hb. unfold needs_conversion in En. bool_prop. by apply ExecConvForIncomingCoins_Ok.
Qed.

(** ibc-go on one channel of the demo chain: the packet carries 7 xdash to bob. *)
#[export] Instance ref_ibc : @IBC ref_sdk := {|
  unmarshal_packet s := Ok (mkPacketData s "7" "cosmos1" "bob");
  ReceiverChainIsSource port channel denom := String.prefix (port ++ "/" ++ channel ++ "/") denom;
  GetDenomPrefix port channel := (port ++ "/" ++ channel ++ "/")%string;
  ParseDenomTrace s := mkDenomTrace "" s;
  IBCDenom t := ("ibc/" ++ TraceBaseDenom t)%string;
  sdk_OnRecvPacket p d :=
    coins ← lift (one_coin ("ibc/" ++ DestPort p ++ "/" ++ DestChannel p ++ "/" ++ DataDenom d) 7);
    onBank (bank_mint "transfer" coins);; onBank (bank_send_mod_to_acc "transfer" "bob" coins);
  sdk_Transfer m := onBank (bank_send (TransferSender m) "channel" [TransferToken m]);
  sha256 s := "escrow"
|}.

Definition demo_packet : Packet := mkPacket "transfer" "channel-9" "transfer" "channel-0" "xdash".
Definition demo_ibc_chain : @chain ref_sdk :=
  demo_chain <| TokenRegistry := [Some demo_unit; Some
      (mkRegistryEntry 10 "ibc/transfer/channel-0/xdash" "xdash" "" "" "" "" "" "" "" "" ""
         [Permission_IBCIMPORT] "cdash" "" "")] |>
    <| Bank := <[("escrow", "cdash") := 10 ^ 12]> demo_bank |>.

Lemma receive_packet_converts_witness :
  ∃ s1, sdk_OnRecvPacket demo_packet (mkPacketData "xdash" "7" "cosmos1" "bob") demo_ibc_chain = (Ok (), s1)
    ∧ balances_change s1 (receive_packet demo_packet demo_ibc_chain).2
        (converted_change "bob" "escrow" "ibc/transfer/channel-0/xdash" "cdash" 7 700000000).
Proof.
  assert ((receive_packet demo_packet demo_ibc_chain).1 = Ok AckResult) as H by (vm_compute; reflexivity).
  pose proof (eq_trans (surjective_pairing (receive_packet demo_packet demo_ibc_chain))
    (f_equal (λ r, (r, _)) H)) as Hp.
  destruct (receive_packet_converts (sdk := ref_sdk) _ _ _ _ Hp)
    as (data & s1 & denom & minted & Hd & Hr & Hm & He & _ & Hc).
  injection Hd as <-. exists s1. split; [exact Hr|].
  vm_compute in Hm. injection Hm as <-.
  assert (TokenRegistry s1 = TokenRegistry demo_ibc_chain) as Hreg
    by (apply (f_equal snd) in Hr; cbn [snd] in Hr; rewrite <- Hr; vm_compute; reflexivity).
  rewrite Hreg in He, Hc. vm_compute in He. injection He as <-.
  destruct (Hc ltac:(vm_compute; intro HH; discriminate HH)) as (r & x & Hr' & Hx & _ & Hbal).
  vm_compute in Hr'. injection Hr' as <-. vm_compute in Hx. injection Hx as <-.
  exact Hbal.
Defined.

(** ** The callbacks of the port *)

(** The wrapper diverts packets that arrive, and only these: a packet that is
    acknowledged with an error or times out is refunded by ibc-go alone, in the
    denomination that was sent, and the whitelist and conversions have no part in it. *)
Lemma wrapper_diverts_receiving {sdk : SDK} {ibc : IBC} (m : IBCModule) :
  AppModule m = mkIBCModule (ibc_NegotiateAppVersion m) (ibc_OnChanOpenInit m) (ibc_OnChanOpenTry m)
    (ibc_OnChanOpenAck m) (ibc_OnChanOpenConfirm m) (ibc_OnChanCloseInit m) (ibc_OnChanOpenConfirm m)
    (λ packet _, OnRecvPacketWhitelistConvert packet) (ibc_OnAcknowledgementPacket m) (ibc_OnTimeoutPacket m).
Proof. reflexivity. Qed.

(** A wrapped module that refuses to open channels, and to close none. *)
Definition shut_module : @IBCModule ref_sdk :=
  mkIBCModule (λ _ _ _ _ v, mret v) (λ _ _ _ _ _ _ _, mret ()) (λ _ _ _ _ _ _ _ _, mret ()) (λ _ _ _, mret ())
    (λ _ _, fail (EOther "no channels")) (λ _ _, mret ()) (λ _ _, mret ()) (λ _ _, mret AckResult)
    (λ _ _ _, mret ()) (λ _ _, mret ()).

(** OnChanCloseConfirm calls OnChanOpenConfirm of the wrapped module: the other end
    of a channel closes it, and the wrapped module is told that it was opened. *)
Example close_confirm_opens :
  (ibc_OnChanCloseConfirm shut_module "transfer" "channel-0" demo_ibc_chain).1 = Ok ()
  ∧ (ibc_OnChanCloseConfirm (AppModule shut_module) "transfer" "channel-0" demo_ibc_chain).1
    = Err (EOther "no channels").
Proof. split; reflexivity. Qed.
